(** * scrape_rules.py: page joining, section splitting and record finishing

    A shallow embedding of the text core of [scrape_rules.py]
    ([join_pages], [split_into_sections], [make_snippet] and the finishing
    loop of [process_sport]) together with the fragment of the Python
    runtime these functions rely on: [str] methods, [int], insertion-ordered
    dictionaries and the backtracking matcher of the [re] module; and of
    the orchestration around it ([download_pdf], [extract_pages_text],
    [process_sport], [main]) as computations over the calls that leave the
    program, each of which may return or raise. *)

From Stdlib Require Import Ascii String.
From Stdlib Require Import List NArith ZArith Bool Lia Arith.
From Stdlib Require Decimal DecimalFacts DecimalNat.
Import ListNotations.

(** ** Characters

    A Python [str] is a sequence of Unicode code points. *)

Module Unicode.

Definition char := N.
Definition str := list char.

Definition in_range (lo hi c : N) : bool := ((lo <=? c) && (c <=? hi))%N.

(** [str.isspace] on one character; it is also the class [\s] of a
    [str] pattern and the set removed by [str.strip()]. *)
Definition isspace (c : char) : bool :=
  (in_range 0x09 0x0D c || in_range 0x1C 0x20 c
   || (c =? 0x85) || (c =? 0xA0) || (c =? 0x1680)
   || in_range 0x2000 0x200A c
   || (c =? 0x2028) || (c =? 0x2029) || (c =? 0x202F)
   || (c =? 0x205F) || (c =? 0x3000))%N.

(** The characters of category Nd come in runs of ten, [0] to [9]; this is
    the code point of the zero of each run (Unicode 14.0, as shipped with
    CPython 3.11). *)
Definition decimal_zeros : list N :=
  [ 0x30; 0x660; 0x6F0; 0x7C0; 0x966; 0x9E6; 0xA66; 0xAE6; 0xB66; 0xBE6;
    0xC66; 0xCE6; 0xD66; 0xDE6; 0xE50; 0xED0; 0xF20; 0x1040; 0x1090;
    0x17E0; 0x1810; 0x1946; 0x19D0; 0x1A80; 0x1A90; 0x1B50; 0x1BB0;
    0x1C40; 0x1C50; 0xA620; 0xA8D0; 0xA900; 0xA9D0; 0xA9F0; 0xAA50;
    0xABF0; 0xFF10; 0x104A0; 0x10D30; 0x11066; 0x110F0; 0x11136; 0x111D0;
    0x112F0; 0x11450; 0x114D0; 0x11650; 0x116C0; 0x11730; 0x118E0;
    0x11950; 0x11C50; 0x11D50; 0x11DA0; 0x16A60; 0x16AC0; 0x16B50;
    0x1D7CE; 0x1D7D8; 0x1D7E2; 0x1D7EC; 0x1D7F6; 0x1E140; 0x1E2F0;
    0x1E950; 0x1FBF0 ]%N.

Fixpoint decimal_in (zeros : list N) (c : char) : option N :=
  match zeros with
  | [] => None
  | z :: zeros' =>
      if in_range z (z + 9) c then Some (c - z)%N else decimal_in zeros' c
  end.

(** The decimal value of a character, when it has one. *)
Definition todecimal (c : char) : option N := decimal_in decimal_zeros c.

(** The class [\d] of a [str] pattern. *)
Definition isdecimal (c : char) : bool :=
  match todecimal c with Some _ => true | None => false end.

Definition is_ascii_upper (c : char) : bool := in_range 0x41 0x5A c.
Definition is_ascii_lower (c : char) : bool := in_range 0x61 0x7A c.

Definition ascii_tolower (c : char) : char :=
  if is_ascii_upper c then (c + 32)%N else c.

(** [x] has the ASCII letter [l] (lower case) as its simple lower-case
    mapping: the letter itself, its capital, and for [i] and [k] the
    dotted capital I (U+0130) and the Kelvin sign (U+212A). *)
Definition lowers_to (l x : char) : bool :=
  ((x =? l) || (x =? l - 32)
   || ((l =? 0x69) && (x =? 0x130))
   || ((l =? 0x6B) && (x =? 0x212A)))%N.

(** The extra equivalences the [re] compiler adds under IGNORECASE for the
    letters [i] (dotless i, U+0131) and [s] (long s, U+017F). *)
Definition ignorecase_fix (l x : char) : bool :=
  (((l =? 0x69) && (x =? 0x131)) || ((l =? 0x73) && (x =? 0x17F)))%N.

(** A literal [c] of the pattern (an ASCII character, as all literals of
    the patterns of this program are) against the character [x] of the
    text, under IGNORECASE. *)
Definition eq_ignorecase (c x : char) : bool :=
  if is_ascii_upper c || is_ascii_lower c
  then lowers_to (ascii_tolower c) x || ignorecase_fix (ascii_tolower c) x
  else (x =? c)%N.

Definition NL : char := 0x0A%N.
Definition SPACE : char := 0x20%N.

(** ASCII literals, written as in the Python source: the two characters
    backslash-n stand for a line feed. *)
Fixpoint py (s : string) : str :=
  match s with
  | EmptyString => []
  | String "\" (String "n" s') => NL :: py s'
  | String a s' => N_of_ascii a :: py s'
  end.

End Unicode.
Import Unicode.

Arguments isspace : simpl never.
Arguments todecimal : simpl never.
Arguments isdecimal : simpl never.
Arguments eq_ignorecase : simpl never.

(** ** The Python runtime *)

Module Py.

Inductive exn := ValueError | TypeError | IndexError.

Inductive result (A : Type) : Type :=
| Ok (a : A)
| Raise (e : exn).
Arguments Ok {A} a.
Arguments Raise {A} e.

Definition bind {A B} (m : result A) (f : A -> result B) : result B :=
  match m with
  | Ok a => f a
  | Raise e => Raise e
  end.

(** [for i, x in enumerate(l)], the body run for its result and the
    results collected in order; the first exception ends the loop. *)
Fixpoint for_enumerate {A B} (body : nat -> A -> result B) (i : nat)
    (l : list A) : result (list B) :=
  match l with
  | [] => Ok []
  | x :: l' =>
      bind (body i x) (fun y =>
      bind (for_enumerate body (S i) l') (fun ys => Ok (y :: ys)))
  end.

(** [l[i]] *)
Definition getitem {A} (l : list A) (i : nat) : result A :=
  match nth_error l i with
  | Some x => Ok x
  | None => Raise IndexError
  end.

(** [s[a:b]] for [0 <= a] and [0 <= b]: indices past the end are clamped,
    and the slice is empty when [b <= a]. *)
Definition slice (s : str) (a b : nat) : str := firstn (b - a) (skipn a s).

(** [s[:n]] for any [int] [n]: a negative [n] counts from the end of [s],
    and stops at its start. *)
Definition slice_to (s : str) (n : Z) : str :=
  if (n <? 0)%Z then firstn (length s - Z.to_nat (- n)) s
  else firstn (Z.to_nat n) s.

Fixpoint lstrip (s : str) : str :=
  match s with
  | c :: s' => if isspace c then lstrip s' else s
  | [] => []
  end.

Definition rstrip (s : str) : str := rev (lstrip (rev s)).

(** [s.strip()] *)
Definition strip (s : str) : str := rstrip (lstrip s).

Fixpoint startswith (s sub : str) : bool :=
  match sub, s with
  | [], _ => true
  | _ :: _, [] => false
  | a :: sub', c :: s' => (c =? a)%N && startswith s' sub'
  end.

(** [s.replace(old, new)] for a non-empty [old]: occurrences are replaced
    from left to right, without overlap; [skip] counts the characters of
    the occurrence being replaced that remain to pass over. *)
Fixpoint replace_from (old new : str) (skip : nat) (s : str) : str :=
  match s with
  | [] => []
  | c :: s' =>
      match skip with
      | S k => replace_from old new k s'
      | O =>
          if startswith s old
          then new ++ replace_from old new (length old - 1) s'
          else c :: replace_from old new 0 s'
      end
  end.

Definition replace (old new s : str) : str := replace_from old new 0 s.

Fixpoint rfind_from (sub : str) (i : nat) (s : str) (last : option nat)
    : option nat :=
  match s with
  | [] => last
  | _ :: s' =>
      rfind_from sub (S i) s' (if startswith s sub then Some i else last)
  end.

(** [s.rfind(sub, 0, stop)] for a non-empty [sub]: the highest index at
    which [sub] occurs inside [s[0:stop]]; [None] is Python's [-1]. *)
Definition rfind (s sub : str) (stop : nat) : option nat :=
  rfind_from sub 0 (firstn stop s) None.

(** [sep.join(parts)] *)
Fixpoint join (sep : str) (parts : list str) : str :=
  match parts with
  | [] => []
  | [p] => p
  | p :: parts' => p ++ sep ++ join sep parts'
  end.

Fixpoint uint_digits (d : Decimal.uint) : str :=
  match d with
  | Decimal.Nil => []
  | Decimal.D0 d' => 0x30%N :: uint_digits d'
  | Decimal.D1 d' => 0x31%N :: uint_digits d'
  | Decimal.D2 d' => 0x32%N :: uint_digits d'
  | Decimal.D3 d' => 0x33%N :: uint_digits d'
  | Decimal.D4 d' => 0x34%N :: uint_digits d'
  | Decimal.D5 d' => 0x35%N :: uint_digits d'
  | Decimal.D6 d' => 0x36%N :: uint_digits d'
  | Decimal.D7 d' => 0x37%N :: uint_digits d'
  | Decimal.D8 d' => 0x38%N :: uint_digits d'
  | Decimal.D9 d' => 0x39%N :: uint_digits d'
  end.

(** [str(n)], also what [f"{n}"] formats, for a natural number. *)
Definition str_of_nat (n : nat) : str := uint_digits (Nat.to_uint n).

(** The default of [sys.get_int_max_str_digits()]: since CPython 3.11
    (and the security releases of 3.7 to 3.10) [int] refuses a decimal
    string of more digits. *)
Definition int_max_str_digits : nat := 4300.

Fixpoint decimal_value (acc : N) (s : str) : option N :=
  match s with
  | [] => Some acc
  | c :: s' =>
      match todecimal c with
      | Some d => decimal_value (10 * acc + d) s'
      | None => None
      end
  end.

(** [int(s)] on a string of decimal digits, the only strings this program
    converts.  The forms with a sign, surrounding whitespace or
    underscores, which [int] also accepts, are not modelled and are
    reported as [ValueError]. *)
Definition int_of_str (s : str) : result Z :=
  match s with
  | [] => Raise ValueError
  | _ :: _ =>
      match decimal_value 0 s with
      | Some n =>
          if length s <=? int_max_str_digits then Ok (Z.of_N n)
          else Raise ValueError
      | None => Raise ValueError
      end
  end.

(** Values stored in the dictionaries of this program. *)
Inductive value :=
| VStr (s : str)
| VInt (z : Z)
| VNone.

(** A [dict] with string keys, in insertion order. *)
Definition dict := list (string * value).

Fixpoint dict_lookup (k : string) (d : dict) : option value :=
  match d with
  | [] => None
  | (k', v) :: d' => if String.eqb k' k then Some v else dict_lookup k d'
  end.

(** [k in d] *)
Definition dict_contains (k : string) (d : dict) : bool :=
  match dict_lookup k d with Some _ => true | None => false end.

(** [d.get(k, default)] *)
Definition dict_get (k : string) (default : value) (d : dict) : value :=
  match dict_lookup k d with Some v => v | None => default end.

(** [d[k] = v]: an existing key keeps its place, a new one goes last. *)
Fixpoint dict_set (k : string) (v : value) (d : dict) : dict :=
  match d with
  | [] => [(k, v)]
  | (k', v') :: d' =>
      if String.eqb k' k then (k', v) :: d' else (k', v') :: dict_set k v d'
  end.

End Py.
Import Py.

Declare Scope py_scope.
Notation "x <- m ;; k" := (bind m (fun x => k))
  (at level 61, m at next level, right associativity) : py_scope.
Open Scope py_scope.

(** ** The [re] module: a backtracking matcher

    The patterns of this program use literals, the classes [\s], [\d] and
    [[^\n]], the anchor [^] (without MULTILINE: the very start of the
    string), greedy [*] and [+] over a single character, concatenation,
    alternation and one capturing group.  The matcher explores the
    alternatives in the order of the [re] engine: an alternation tries its
    branches from left to right, a greedy repetition takes as many
    characters as it can and gives them back one at a time. *)

Module Re.

Inductive atom :=
| Lit (c : char)      (* a literal character *)
| Space               (* \s *)
| Digit               (* \d *)
| NotNewline.         (* [^\n] *)

Inductive regex :=
| Eps                           (* the empty pattern *)
| Chr (a : atom)
| Bol                           (* ^ *)
| Star (a : atom)               (* a* *)
| Plus (a : atom)               (* a+ *)
| Seq (r1 r2 : regex)
| Alt (r1 r2 : regex)           (* r1|r2 *)
| Group (r : regex).            (* (r), group 1 *)

(** One character against an atom; [ic] is the IGNORECASE flag. *)
Definition atom_match (ic : bool) (a : atom) (x : char) : bool :=
  match a with
  | Lit c => if ic then eq_ignorecase c x else (x =? c)%N
  | Space => isspace x
  | Digit => isdecimal x
  | NotNewline => negb (x =? NL)%N
  end.

(** The matcher's state: the offset reached, the text from there on, and
    the span of group 1 when the group has been closed. *)
Record mstate := MState {
  pos : nat;
  rest : str;
  grp : option (nat * nat)
}.

(** Greedy repetition of a one-character test [p], followed by the
    continuation [k]: first with every character [p] accepts, then with
    one fewer, down to none. *)
Fixpoint repeat_greedy {A} (p : char -> bool) (i : nat) (s : str)
    (k : nat -> str -> option A) : option A :=
  match s with
  | c :: s' =>
      if p c then
        match repeat_greedy p (S i) s' k with
        | Some r => Some r
        | None => k i s
        end
      else k i s
  | [] => k i s
  end.

Fixpoint rmatch (ic : bool) (r : regex) (st : mstate)
    (k : mstate -> option mstate) : option mstate :=
  match r with
  | Eps => k st
  | Chr a =>
      match rest st with
      | c :: s' =>
          if atom_match ic a c then k (MState (S (pos st)) s' (grp st))
          else None
      | [] => None
      end
  | Bol => if pos st =? 0 then k st else None
  | Star a =>
      repeat_greedy (atom_match ic a) (pos st) (rest st)
        (fun i s => k (MState i s (grp st)))
  | Plus a =>
      match rest st with
      | c :: s' =>
          if atom_match ic a c then
            repeat_greedy (atom_match ic a) (S (pos st)) s'
              (fun i s => k (MState i s (grp st)))
          else None
      | [] => None
      end
  | Seq r1 r2 => rmatch ic r1 st (fun st' => rmatch ic r2 st' k)
  | Alt r1 r2 =>
      match rmatch ic r1 st k with
      | Some st' => Some st'
      | None => rmatch ic r2 st k
      end
  | Group r' =>
      rmatch ic r' st
        (fun st' => k (MState (pos st') (rest st') (Some (pos st, pos st'))))
  end.

(** A match object: [m.start()], [m.end()] and the span of group 1. *)
Record Match := MkMatch {
  m_start : nat;
  m_end : nat;
  m_span1 : option (nat * nat)
}.

(** The pattern tried at offset [i], where the text continues with [s]. *)
Definition match_at (ic : bool) (r : regex) (i : nat) (s : str)
    : option Match :=
  match rmatch ic r (MState i s None) Some with
  | Some st => Some (MkMatch i (pos st) (grp st))
  | None => None
  end.

Fixpoint search_from (ic : bool) (r : regex) (i : nat) (s : str)
    : option Match :=
  match match_at ic r i s with
  | Some m => Some m
  | None =>
      match s with
      | [] => None
      | _ :: s' => search_from ic r (S i) s'
      end
  end.

(** [re.search(r, text)]: the leftmost match. *)
Definition search (ic : bool) (r : regex) (text : str) : option Match :=
  search_from ic r 0 text.

(** The scan of [re.finditer]: a match is looked for at each offset in
    turn, and after a match the scan resumes where the match ended;
    [skip] counts the characters of the last match still to pass over.
    (Past an empty match the scan moves on by one character; no pattern
    of this program matches the empty string.) *)
Fixpoint finditer_from (ic : bool) (r : regex) (i : nat) (s : str)
    (skip : nat) {struct s} : list Match :=
  match skip with
  | S n =>
      match s with
      | [] => []
      | _ :: s' => finditer_from ic r (S i) s' n
      end
  | O =>
      match match_at ic r i s with
      | Some m =>
          m :: match s with
               | [] => []
               | _ :: s' => finditer_from ic r (S i) s' (m_end m - i - 1)
               end
      | None =>
          match s with
          | [] => []
          | _ :: s' => finditer_from ic r (S i) s' 0
          end
      end
  end.

(** [list(re.finditer(r, text))] *)
Definition finditer (ic : bool) (r : regex) (text : str) : list Match :=
  finditer_from ic r 0 text 0.

(** [m.group(0)] *)
Definition group0 (text : str) (m : Match) : str :=
  slice text (m_start m) (m_end m).

(** [m.group(1)]; [None] when the group took no part in the match. *)
Definition group1 (text : str) (m : Match) : option str :=
  match m_span1 m with
  | Some (a, b) => Some (slice text a b)
  | None => None
  end.

Fixpoint sub_from (ms : list Match) (repl text : str) (cur : nat) : str :=
  match ms with
  | [] => skipn cur text
  | m :: ms' =>
      slice text cur (m_start m) ++ repl ++ sub_from ms' repl text (m_end m)
  end.

(** [re.sub(r, repl, text)] for a replacement without group references:
    the text between the matches is kept, each match becomes [repl]. *)
Definition sub (ic : bool) (r : regex) (repl text : str) : str :=
  sub_from (finditer ic r text) repl text 0.

(** A literal word, character by character. *)
Fixpoint word (w : str) : regex :=
  match w with
  | [] => Eps
  | c :: w' => Seq (Chr (Lit c)) (word w')
  end.

(** [r1|r2|...|rn] *)
Fixpoint alts (r : regex) (rs : list regex) : regex :=
  match rs with
  | [] => r
  | r' :: rs' => Alt r (alts r' rs')
  end.

End Re.
Import Re.

(** ** Word characters and lower case

    The tables of the Unicode database (version 14.0, as shipped with
    CPython 3.11) behind the class [\w] of a [str] pattern and behind
    [str.lower]. *)

Module Casing.

(** The characters for which [str.isalnum] holds: those that are
    alphabetic, decimal, digit or numeric. *)
Definition alnum_ranges : list (N * N) :=
  [ (0x30, 0x39); (0x41, 0x5A); (0x61, 0x7A); (0xAA, 0xAA); (0xB2, 0xB3);
    (0xB5, 0xB5); (0xB9, 0xBA); (0xBC, 0xBE); (0xC0, 0xD6); (0xD8, 0xF6);
    (0xF8, 0x2C1); (0x2C6, 0x2D1); (0x2E0, 0x2E4); (0x2EC, 0x2EC);
    (0x2EE, 0x2EE); (0x370, 0x374); (0x376, 0x377); (0x37A, 0x37D);
    (0x37F, 0x37F); (0x386, 0x386); (0x388, 0x38A); (0x38C, 0x38C);
    (0x38E, 0x3A1); (0x3A3, 0x3F5); (0x3F7, 0x481); (0x48A, 0x52F);
    (0x531, 0x556); (0x559, 0x559); (0x560, 0x588); (0x5D0, 0x5EA);
    (0x5EF, 0x5F2); (0x620, 0x64A); (0x660, 0x669); (0x66E, 0x66F);
    (0x671, 0x6D3); (0x6D5, 0x6D5); (0x6E5, 0x6E6); (0x6EE, 0x6FC);
    (0x6FF, 0x6FF); (0x710, 0x710); (0x712, 0x72F); (0x74D, 0x7A5);
    (0x7B1, 0x7B1); (0x7C0, 0x7EA); (0x7F4, 0x7F5); (0x7FA, 0x7FA);
    (0x800, 0x815); (0x81A, 0x81A); (0x824, 0x824); (0x828, 0x828);
    (0x840, 0x858); (0x860, 0x86A); (0x870, 0x887); (0x889, 0x88E);
    (0x8A0, 0x8C9); (0x904, 0x939); (0x93D, 0x93D); (0x950, 0x950);
    (0x958, 0x961); (0x966, 0x96F); (0x971, 0x980); (0x985, 0x98C);
    (0x98F, 0x990); (0x993, 0x9A8); (0x9AA, 0x9B0); (0x9B2, 0x9B2);
    (0x9B6, 0x9B9); (0x9BD, 0x9BD); (0x9CE, 0x9CE); (0x9DC, 0x9DD);
    (0x9DF, 0x9E1); (0x9E6, 0x9F1); (0x9F4, 0x9F9); (0x9FC, 0x9FC);
    (0xA05, 0xA0A); (0xA0F, 0xA10); (0xA13, 0xA28); (0xA2A, 0xA30);
    (0xA32, 0xA33); (0xA35, 0xA36); (0xA38, 0xA39); (0xA59, 0xA5C);
    (0xA5E, 0xA5E); (0xA66, 0xA6F); (0xA72, 0xA74); (0xA85, 0xA8D);
    (0xA8F, 0xA91); (0xA93, 0xAA8); (0xAAA, 0xAB0); (0xAB2, 0xAB3);
    (0xAB5, 0xAB9); (0xABD, 0xABD); (0xAD0, 0xAD0); (0xAE0, 0xAE1);
    (0xAE6, 0xAEF); (0xAF9, 0xAF9); (0xB05, 0xB0C); (0xB0F, 0xB10);
    (0xB13, 0xB28); (0xB2A, 0xB30); (0xB32, 0xB33); (0xB35, 0xB39);
    (0xB3D, 0xB3D); (0xB5C, 0xB5D); (0xB5F, 0xB61); (0xB66, 0xB6F);
    (0xB71, 0xB77); (0xB83, 0xB83); (0xB85, 0xB8A); (0xB8E, 0xB90);
    (0xB92, 0xB95); (0xB99, 0xB9A); (0xB9C, 0xB9C); (0xB9E, 0xB9F);
    (0xBA3, 0xBA4); (0xBA8, 0xBAA); (0xBAE, 0xBB9); (0xBD0, 0xBD0);
    (0xBE6, 0xBF2); (0xC05, 0xC0C); (0xC0E, 0xC10); (0xC12, 0xC28);
    (0xC2A, 0xC39); (0xC3D, 0xC3D); (0xC58, 0xC5A); (0xC5D, 0xC5D);
    (0xC60, 0xC61); (0xC66, 0xC6F); (0xC78, 0xC7E); (0xC80, 0xC80);
    (0xC85, 0xC8C); (0xC8E, 0xC90); (0xC92, 0xCA8); (0xCAA, 0xCB3);
    (0xCB5, 0xCB9); (0xCBD, 0xCBD); (0xCDD, 0xCDE); (0xCE0, 0xCE1);
    (0xCE6, 0xCEF); (0xCF1, 0xCF2); (0xD04, 0xD0C); (0xD0E, 0xD10);
    (0xD12, 0xD3A); (0xD3D, 0xD3D); (0xD4E, 0xD4E); (0xD54, 0xD56);
    (0xD58, 0xD61); (0xD66, 0xD78); (0xD7A, 0xD7F); (0xD85, 0xD96);
    (0xD9A, 0xDB1); (0xDB3, 0xDBB); (0xDBD, 0xDBD); (0xDC0, 0xDC6);
    (0xDE6, 0xDEF); (0xE01, 0xE30); (0xE32, 0xE33); (0xE40, 0xE46);
    (0xE50, 0xE59); (0xE81, 0xE82); (0xE84, 0xE84); (0xE86, 0xE8A);
    (0xE8C, 0xEA3); (0xEA5, 0xEA5); (0xEA7, 0xEB0); (0xEB2, 0xEB3);
    (0xEBD, 0xEBD); (0xEC0, 0xEC4); (0xEC6, 0xEC6); (0xED0, 0xED9);
    (0xEDC, 0xEDF); (0xF00, 0xF00); (0xF20, 0xF33); (0xF40, 0xF47);
    (0xF49, 0xF6C); (0xF88, 0xF8C); (0x1000, 0x102A); (0x103F, 0x1049);
    (0x1050, 0x1055); (0x105A, 0x105D); (0x1061, 0x1061); (0x1065, 0x1066);
    (0x106E, 0x1070); (0x1075, 0x1081); (0x108E, 0x108E); (0x1090, 0x1099);
    (0x10A0, 0x10C5); (0x10C7, 0x10C7); (0x10CD, 0x10CD); (0x10D0, 0x10FA);
    (0x10FC, 0x1248); (0x124A, 0x124D); (0x1250, 0x1256); (0x1258, 0x1258);
    (0x125A, 0x125D); (0x1260, 0x1288); (0x128A, 0x128D); (0x1290, 0x12B0);
    (0x12B2, 0x12B5); (0x12B8, 0x12BE); (0x12C0, 0x12C0); (0x12C2, 0x12C5);
    (0x12C8, 0x12D6); (0x12D8, 0x1310); (0x1312, 0x1315); (0x1318, 0x135A);
    (0x1369, 0x137C); (0x1380, 0x138F); (0x13A0, 0x13F5); (0x13F8, 0x13FD);
    (0x1401, 0x166C); (0x166F, 0x167F); (0x1681, 0x169A); (0x16A0, 0x16EA);
    (0x16EE, 0x16F8); (0x1700, 0x1711); (0x171F, 0x1731); (0x1740, 0x1751);
    (0x1760, 0x176C); (0x176E, 0x1770); (0x1780, 0x17B3); (0x17D7, 0x17D7);
    (0x17DC, 0x17DC); (0x17E0, 0x17E9); (0x17F0, 0x17F9); (0x1810, 0x1819);
    (0x1820, 0x1878); (0x1880, 0x1884); (0x1887, 0x18A8); (0x18AA, 0x18AA);
    (0x18B0, 0x18F5); (0x1900, 0x191E); (0x1946, 0x196D); (0x1970, 0x1974);
    (0x1980, 0x19AB); (0x19B0, 0x19C9); (0x19D0, 0x19DA); (0x1A00, 0x1A16);
    (0x1A20, 0x1A54); (0x1A80, 0x1A89); (0x1A90, 0x1A99); (0x1AA7, 0x1AA7);
    (0x1B05, 0x1B33); (0x1B45, 0x1B4C); (0x1B50, 0x1B59); (0x1B83, 0x1BA0);
    (0x1BAE, 0x1BE5); (0x1C00, 0x1C23); (0x1C40, 0x1C49); (0x1C4D, 0x1C7D);
    (0x1C80, 0x1C88); (0x1C90, 0x1CBA); (0x1CBD, 0x1CBF); (0x1CE9, 0x1CEC);
    (0x1CEE, 0x1CF3); (0x1CF5, 0x1CF6); (0x1CFA, 0x1CFA); (0x1D00, 0x1DBF);
    (0x1E00, 0x1F15); (0x1F18, 0x1F1D); (0x1F20, 0x1F45); (0x1F48, 0x1F4D);
    (0x1F50, 0x1F57); (0x1F59, 0x1F59); (0x1F5B, 0x1F5B); (0x1F5D, 0x1F5D);
    (0x1F5F, 0x1F7D); (0x1F80, 0x1FB4); (0x1FB6, 0x1FBC); (0x1FBE, 0x1FBE);
    (0x1FC2, 0x1FC4); (0x1FC6, 0x1FCC); (0x1FD0, 0x1FD3); (0x1FD6, 0x1FDB);
    (0x1FE0, 0x1FEC); (0x1FF2, 0x1FF4); (0x1FF6, 0x1FFC); (0x2070, 0x2071);
    (0x2074, 0x2079); (0x207F, 0x2089); (0x2090, 0x209C); (0x2102, 0x2102);
    (0x2107, 0x2107); (0x210A, 0x2113); (0x2115, 0x2115); (0x2119, 0x211D);
    (0x2124, 0x2124); (0x2126, 0x2126); (0x2128, 0x2128); (0x212A, 0x212D);
    (0x212F, 0x2139); (0x213C, 0x213F); (0x2145, 0x2149); (0x214E, 0x214E);
    (0x2150, 0x2189); (0x2460, 0x249B); (0x24EA, 0x24FF); (0x2776, 0x2793);
    (0x2C00, 0x2CE4); (0x2CEB, 0x2CEE); (0x2CF2, 0x2CF3); (0x2CFD, 0x2CFD);
    (0x2D00, 0x2D25); (0x2D27, 0x2D27); (0x2D2D, 0x2D2D); (0x2D30, 0x2D67);
    (0x2D6F, 0x2D6F); (0x2D80, 0x2D96); (0x2DA0, 0x2DA6); (0x2DA8, 0x2DAE);
    (0x2DB0, 0x2DB6); (0x2DB8, 0x2DBE); (0x2DC0, 0x2DC6); (0x2DC8, 0x2DCE);
    (0x2DD0, 0x2DD6); (0x2DD8, 0x2DDE); (0x2E2F, 0x2E2F); (0x3005, 0x3007);
    (0x3021, 0x3029); (0x3031, 0x3035); (0x3038, 0x303C); (0x3041, 0x3096);
    (0x309D, 0x309F); (0x30A1, 0x30FA); (0x30FC, 0x30FF); (0x3105, 0x312F);
    (0x3131, 0x318E); (0x3192, 0x3195); (0x31A0, 0x31BF); (0x31F0, 0x31FF);
    (0x3220, 0x3229); (0x3248, 0x324F); (0x3251, 0x325F); (0x3280, 0x3289);
    (0x32B1, 0x32BF); (0x3400, 0x4DBF); (0x4E00, 0xA48C); (0xA4D0, 0xA4FD);
    (0xA500, 0xA60C); (0xA610, 0xA62B); (0xA640, 0xA66E); (0xA67F, 0xA69D);
    (0xA6A0, 0xA6EF); (0xA717, 0xA71F); (0xA722, 0xA788); (0xA78B, 0xA7CA);
    (0xA7D0, 0xA7D1); (0xA7D3, 0xA7D3); (0xA7D5, 0xA7D9); (0xA7F2, 0xA801);
    (0xA803, 0xA805); (0xA807, 0xA80A); (0xA80C, 0xA822); (0xA830, 0xA835);
    (0xA840, 0xA873); (0xA882, 0xA8B3); (0xA8D0, 0xA8D9); (0xA8F2, 0xA8F7);
    (0xA8FB, 0xA8FB); (0xA8FD, 0xA8FE); (0xA900, 0xA925); (0xA930, 0xA946);
    (0xA960, 0xA97C); (0xA984, 0xA9B2); (0xA9CF, 0xA9D9); (0xA9E0, 0xA9E4);
    (0xA9E6, 0xA9FE); (0xAA00, 0xAA28); (0xAA40, 0xAA42); (0xAA44, 0xAA4B);
    (0xAA50, 0xAA59); (0xAA60, 0xAA76); (0xAA7A, 0xAA7A); (0xAA7E, 0xAAAF);
    (0xAAB1, 0xAAB1); (0xAAB5, 0xAAB6); (0xAAB9, 0xAABD); (0xAAC0, 0xAAC0);
    (0xAAC2, 0xAAC2); (0xAADB, 0xAADD); (0xAAE0, 0xAAEA); (0xAAF2, 0xAAF4);
    (0xAB01, 0xAB06); (0xAB09, 0xAB0E); (0xAB11, 0xAB16); (0xAB20, 0xAB26);
    (0xAB28, 0xAB2E); (0xAB30, 0xAB5A); (0xAB5C, 0xAB69); (0xAB70, 0xABE2);
    (0xABF0, 0xABF9); (0xAC00, 0xD7A3); (0xD7B0, 0xD7C6); (0xD7CB, 0xD7FB);
    (0xF900, 0xFA6D); (0xFA70, 0xFAD9); (0xFB00, 0xFB06); (0xFB13, 0xFB17);
    (0xFB1D, 0xFB1D); (0xFB1F, 0xFB28); (0xFB2A, 0xFB36); (0xFB38, 0xFB3C);
    (0xFB3E, 0xFB3E); (0xFB40, 0xFB41); (0xFB43, 0xFB44); (0xFB46, 0xFBB1);
    (0xFBD3, 0xFD3D); (0xFD50, 0xFD8F); (0xFD92, 0xFDC7); (0xFDF0, 0xFDFB);
    (0xFE70, 0xFE74); (0xFE76, 0xFEFC); (0xFF10, 0xFF19); (0xFF21, 0xFF3A);
    (0xFF41, 0xFF5A); (0xFF66, 0xFFBE); (0xFFC2, 0xFFC7); (0xFFCA, 0xFFCF);
    (0xFFD2, 0xFFD7); (0xFFDA, 0xFFDC); (0x10000, 0x1000B);
    (0x1000D, 0x10026); (0x10028, 0x1003A); (0x1003C, 0x1003D);
    (0x1003F, 0x1004D); (0x10050, 0x1005D); (0x10080, 0x100FA);
    (0x10107, 0x10133); (0x10140, 0x10178); (0x1018A, 0x1018B);
    (0x10280, 0x1029C); (0x102A0, 0x102D0); (0x102E1, 0x102FB);
    (0x10300, 0x10323); (0x1032D, 0x1034A); (0x10350, 0x10375);
    (0x10380, 0x1039D); (0x103A0, 0x103C3); (0x103C8, 0x103CF);
    (0x103D1, 0x103D5); (0x10400, 0x1049D); (0x104A0, 0x104A9);
    (0x104B0, 0x104D3); (0x104D8, 0x104FB); (0x10500, 0x10527);
    (0x10530, 0x10563); (0x10570, 0x1057A); (0x1057C, 0x1058A);
    (0x1058C, 0x10592); (0x10594, 0x10595); (0x10597, 0x105A1);
    (0x105A3, 0x105B1); (0x105B3, 0x105B9); (0x105BB, 0x105BC);
    (0x10600, 0x10736); (0x10740, 0x10755); (0x10760, 0x10767);
    (0x10780, 0x10785); (0x10787, 0x107B0); (0x107B2, 0x107BA);
    (0x10800, 0x10805); (0x10808, 0x10808); (0x1080A, 0x10835);
    (0x10837, 0x10838); (0x1083C, 0x1083C); (0x1083F, 0x10855);
    (0x10858, 0x10876); (0x10879, 0x1089E); (0x108A7, 0x108AF);
    (0x108E0, 0x108F2); (0x108F4, 0x108F5); (0x108FB, 0x1091B);
    (0x10920, 0x10939); (0x10980, 0x109B7); (0x109BC, 0x109CF);
    (0x109D2, 0x10A00); (0x10A10, 0x10A13); (0x10A15, 0x10A17);
    (0x10A19, 0x10A35); (0x10A40, 0x10A48); (0x10A60, 0x10A7E);
    (0x10A80, 0x10A9F); (0x10AC0, 0x10AC7); (0x10AC9, 0x10AE4);
    (0x10AEB, 0x10AEF); (0x10B00, 0x10B35); (0x10B40, 0x10B55);
    (0x10B58, 0x10B72); (0x10B78, 0x10B91); (0x10BA9, 0x10BAF);
    (0x10C00, 0x10C48); (0x10C80, 0x10CB2); (0x10CC0, 0x10CF2);
    (0x10CFA, 0x10D23); (0x10D30, 0x10D39); (0x10E60, 0x10E7E);
    (0x10E80, 0x10EA9); (0x10EB0, 0x10EB1); (0x10F00, 0x10F27);
    (0x10F30, 0x10F45); (0x10F51, 0x10F54); (0x10F70, 0x10F81);
    (0x10FB0, 0x10FCB); (0x10FE0, 0x10FF6); (0x11003, 0x11037);
    (0x11052, 0x1106F); (0x11071, 0x11072); (0x11075, 0x11075);
    (0x11083, 0x110AF); (0x110D0, 0x110E8); (0x110F0, 0x110F9);
    (0x11103, 0x11126); (0x11136, 0x1113F); (0x11144, 0x11144);
    (0x11147, 0x11147); (0x11150, 0x11172); (0x11176, 0x11176);
    (0x11183, 0x111B2); (0x111C1, 0x111C4); (0x111D0, 0x111DA);
    (0x111DC, 0x111DC); (0x111E1, 0x111F4); (0x11200, 0x11211);
    (0x11213, 0x1122B); (0x11280, 0x11286); (0x11288, 0x11288);
    (0x1128A, 0x1128D); (0x1128F, 0x1129D); (0x1129F, 0x112A8);
    (0x112B0, 0x112DE); (0x112F0, 0x112F9); (0x11305, 0x1130C);
    (0x1130F, 0x11310); (0x11313, 0x11328); (0x1132A, 0x11330);
    (0x11332, 0x11333); (0x11335, 0x11339); (0x1133D, 0x1133D);
    (0x11350, 0x11350); (0x1135D, 0x11361); (0x11400, 0x11434);
    (0x11447, 0x1144A); (0x11450, 0x11459); (0x1145F, 0x11461);
    (0x11480, 0x114AF); (0x114C4, 0x114C5); (0x114C7, 0x114C7);
    (0x114D0, 0x114D9); (0x11580, 0x115AE); (0x115D8, 0x115DB);
    (0x11600, 0x1162F); (0x11644, 0x11644); (0x11650, 0x11659);
    (0x11680, 0x116AA); (0x116B8, 0x116B8); (0x116C0, 0x116C9);
    (0x11700, 0x1171A); (0x11730, 0x1173B); (0x11740, 0x11746);
    (0x11800, 0x1182B); (0x118A0, 0x118F2); (0x118FF, 0x11906);
    (0x11909, 0x11909); (0x1190C, 0x11913); (0x11915, 0x11916);
    (0x11918, 0x1192F); (0x1193F, 0x1193F); (0x11941, 0x11941);
    (0x11950, 0x11959); (0x119A0, 0x119A7); (0x119AA, 0x119D0);
    (0x119E1, 0x119E1); (0x119E3, 0x119E3); (0x11A00, 0x11A00);
    (0x11A0B, 0x11A32); (0x11A3A, 0x11A3A); (0x11A50, 0x11A50);
    (0x11A5C, 0x11A89); (0x11A9D, 0x11A9D); (0x11AB0, 0x11AF8);
    (0x11C00, 0x11C08); (0x11C0A, 0x11C2E); (0x11C40, 0x11C40);
    (0x11C50, 0x11C6C); (0x11C72, 0x11C8F); (0x11D00, 0x11D06);
    (0x11D08, 0x11D09); (0x11D0B, 0x11D30); (0x11D46, 0x11D46);
    (0x11D50, 0x11D59); (0x11D60, 0x11D65); (0x11D67, 0x11D68);
    (0x11D6A, 0x11D89); (0x11D98, 0x11D98); (0x11DA0, 0x11DA9);
    (0x11EE0, 0x11EF2); (0x11FB0, 0x11FB0); (0x11FC0, 0x11FD4);
    (0x12000, 0x12399); (0x12400, 0x1246E); (0x12480, 0x12543);
    (0x12F90, 0x12FF0); (0x13000, 0x1342E); (0x14400, 0x14646);
    (0x16800, 0x16A38); (0x16A40, 0x16A5E); (0x16A60, 0x16A69);
    (0x16A70, 0x16ABE); (0x16AC0, 0x16AC9); (0x16AD0, 0x16AED);
    (0x16B00, 0x16B2F); (0x16B40, 0x16B43); (0x16B50, 0x16B59);
    (0x16B5B, 0x16B61); (0x16B63, 0x16B77); (0x16B7D, 0x16B8F);
    (0x16E40, 0x16E96); (0x16F00, 0x16F4A); (0x16F50, 0x16F50);
    (0x16F93, 0x16F9F); (0x16FE0, 0x16FE1); (0x16FE3, 0x16FE3);
    (0x17000, 0x187F7); (0x18800, 0x18CD5); (0x18D00, 0x18D08);
    (0x1AFF0, 0x1AFF3); (0x1AFF5, 0x1AFFB); (0x1AFFD, 0x1AFFE);
    (0x1B000, 0x1B122); (0x1B150, 0x1B152); (0x1B164, 0x1B167);
    (0x1B170, 0x1B2FB); (0x1BC00, 0x1BC6A); (0x1BC70, 0x1BC7C);
    (0x1BC80, 0x1BC88); (0x1BC90, 0x1BC99); (0x1D2E0, 0x1D2F3);
    (0x1D360, 0x1D378); (0x1D400, 0x1D454); (0x1D456, 0x1D49C);
    (0x1D49E, 0x1D49F); (0x1D4A2, 0x1D4A2); (0x1D4A5, 0x1D4A6);
    (0x1D4A9, 0x1D4AC); (0x1D4AE, 0x1D4B9); (0x1D4BB, 0x1D4BB);
    (0x1D4BD, 0x1D4C3); (0x1D4C5, 0x1D505); (0x1D507, 0x1D50A);
    (0x1D50D, 0x1D514); (0x1D516, 0x1D51C); (0x1D51E, 0x1D539);
    (0x1D53B, 0x1D53E); (0x1D540, 0x1D544); (0x1D546, 0x1D546);
    (0x1D54A, 0x1D550); (0x1D552, 0x1D6A5); (0x1D6A8, 0x1D6C0);
    (0x1D6C2, 0x1D6DA); (0x1D6DC, 0x1D6FA); (0x1D6FC, 0x1D714);
    (0x1D716, 0x1D734); (0x1D736, 0x1D74E); (0x1D750, 0x1D76E);
    (0x1D770, 0x1D788); (0x1D78A, 0x1D7A8); (0x1D7AA, 0x1D7C2);
    (0x1D7C4, 0x1D7CB); (0x1D7CE, 0x1D7FF); (0x1DF00, 0x1DF1E);
    (0x1E100, 0x1E12C); (0x1E137, 0x1E13D); (0x1E140, 0x1E149);
    (0x1E14E, 0x1E14E); (0x1E290, 0x1E2AD); (0x1E2C0, 0x1E2EB);
    (0x1E2F0, 0x1E2F9); (0x1E7E0, 0x1E7E6); (0x1E7E8, 0x1E7EB);
    (0x1E7ED, 0x1E7EE); (0x1E7F0, 0x1E7FE); (0x1E800, 0x1E8C4);
    (0x1E8C7, 0x1E8CF); (0x1E900, 0x1E943); (0x1E94B, 0x1E94B);
    (0x1E950, 0x1E959); (0x1EC71, 0x1ECAB); (0x1ECAD, 0x1ECAF);
    (0x1ECB1, 0x1ECB4); (0x1ED01, 0x1ED2D); (0x1ED2F, 0x1ED3D);
    (0x1EE00, 0x1EE03); (0x1EE05, 0x1EE1F); (0x1EE21, 0x1EE22);
    (0x1EE24, 0x1EE24); (0x1EE27, 0x1EE27); (0x1EE29, 0x1EE32);
    (0x1EE34, 0x1EE37); (0x1EE39, 0x1EE39); (0x1EE3B, 0x1EE3B);
    (0x1EE42, 0x1EE42); (0x1EE47, 0x1EE47); (0x1EE49, 0x1EE49);
    (0x1EE4B, 0x1EE4B); (0x1EE4D, 0x1EE4F); (0x1EE51, 0x1EE52);
    (0x1EE54, 0x1EE54); (0x1EE57, 0x1EE57); (0x1EE59, 0x1EE59);
    (0x1EE5B, 0x1EE5B); (0x1EE5D, 0x1EE5D); (0x1EE5F, 0x1EE5F);
    (0x1EE61, 0x1EE62); (0x1EE64, 0x1EE64); (0x1EE67, 0x1EE6A);
    (0x1EE6C, 0x1EE72); (0x1EE74, 0x1EE77); (0x1EE79, 0x1EE7C);
    (0x1EE7E, 0x1EE7E); (0x1EE80, 0x1EE89); (0x1EE8B, 0x1EE9B);
    (0x1EEA1, 0x1EEA3); (0x1EEA5, 0x1EEA9); (0x1EEAB, 0x1EEBB);
    (0x1F100, 0x1F10C); (0x1FBF0, 0x1FBF9); (0x20000, 0x2A6DF);
    (0x2A700, 0x2B738); (0x2B740, 0x2B81D); (0x2B820, 0x2CEA1);
    (0x2CEB0, 0x2EBE0); (0x2F800, 0x2FA1D); (0x30000, 0x3134A) ]%N.

(** The simple lower-case mapping, in runs [(first, last, step, image)]:
    the characters [first], [first + step], ... up to [last] map to
    [image], [image + step], ...; a character in no run maps to itself. *)
Definition lower_runs : list (N * N * N * N) :=
  [ (0x41, 0x5A, 1, 0x61); (0xC0, 0xD6, 1, 0xE0); (0xD8, 0xDE, 1, 0xF8);
    (0x100, 0x12E, 2, 0x101); (0x132, 0x136, 2, 0x133);
    (0x139, 0x147, 2, 0x13A); (0x14A, 0x176, 2, 0x14B);
    (0x178, 0x178, 1, 0xFF); (0x179, 0x17D, 2, 0x17A);
    (0x181, 0x181, 1, 0x253); (0x182, 0x184, 2, 0x183);
    (0x186, 0x186, 1, 0x254); (0x187, 0x187, 1, 0x188);
    (0x189, 0x18A, 1, 0x256); (0x18B, 0x18B, 1, 0x18C);
    (0x18E, 0x18E, 1, 0x1DD); (0x18F, 0x18F, 1, 0x259);
    (0x190, 0x190, 1, 0x25B); (0x191, 0x191, 1, 0x192);
    (0x193, 0x193, 1, 0x260); (0x194, 0x194, 1, 0x263);
    (0x196, 0x196, 1, 0x269); (0x197, 0x197, 1, 0x268);
    (0x198, 0x198, 1, 0x199); (0x19C, 0x19C, 1, 0x26F);
    (0x19D, 0x19D, 1, 0x272); (0x19F, 0x19F, 1, 0x275);
    (0x1A0, 0x1A4, 2, 0x1A1); (0x1A6, 0x1A6, 1, 0x280);
    (0x1A7, 0x1A7, 1, 0x1A8); (0x1A9, 0x1A9, 1, 0x283);
    (0x1AC, 0x1AC, 1, 0x1AD); (0x1AE, 0x1AE, 1, 0x288);
    (0x1AF, 0x1AF, 1, 0x1B0); (0x1B1, 0x1B2, 1, 0x28A);
    (0x1B3, 0x1B5, 2, 0x1B4); (0x1B7, 0x1B7, 1, 0x292);
    (0x1B8, 0x1B8, 1, 0x1B9); (0x1BC, 0x1BC, 1, 0x1BD);
    (0x1C4, 0x1C4, 1, 0x1C6); (0x1C5, 0x1C5, 1, 0x1C6);
    (0x1C7, 0x1C7, 1, 0x1C9); (0x1C8, 0x1C8, 1, 0x1C9);
    (0x1CA, 0x1CA, 1, 0x1CC); (0x1CB, 0x1DB, 2, 0x1CC);
    (0x1DE, 0x1EE, 2, 0x1DF); (0x1F1, 0x1F1, 1, 0x1F3);
    (0x1F2, 0x1F4, 2, 0x1F3); (0x1F6, 0x1F6, 1, 0x195);
    (0x1F7, 0x1F7, 1, 0x1BF); (0x1F8, 0x21E, 2, 0x1F9);
    (0x220, 0x220, 1, 0x19E); (0x222, 0x232, 2, 0x223);
    (0x23A, 0x23A, 1, 0x2C65); (0x23B, 0x23B, 1, 0x23C);
    (0x23D, 0x23D, 1, 0x19A); (0x23E, 0x23E, 1, 0x2C66);
    (0x241, 0x241, 1, 0x242); (0x243, 0x243, 1, 0x180);
    (0x244, 0x244, 1, 0x289); (0x245, 0x245, 1, 0x28C);
    (0x246, 0x24E, 2, 0x247); (0x370, 0x372, 2, 0x371);
    (0x376, 0x376, 1, 0x377); (0x37F, 0x37F, 1, 0x3F3);
    (0x386, 0x386, 1, 0x3AC); (0x388, 0x38A, 1, 0x3AD);
    (0x38C, 0x38C, 1, 0x3CC); (0x38E, 0x38F, 1, 0x3CD);
    (0x391, 0x3A1, 1, 0x3B1); (0x3A3, 0x3AB, 1, 0x3C3);
    (0x3CF, 0x3CF, 1, 0x3D7); (0x3D8, 0x3EE, 2, 0x3D9);
    (0x3F4, 0x3F4, 1, 0x3B8); (0x3F7, 0x3F7, 1, 0x3F8);
    (0x3F9, 0x3F9, 1, 0x3F2); (0x3FA, 0x3FA, 1, 0x3FB);
    (0x3FD, 0x3FF, 1, 0x37B); (0x400, 0x40F, 1, 0x450);
    (0x410, 0x42F, 1, 0x430); (0x460, 0x480, 2, 0x461);
    (0x48A, 0x4BE, 2, 0x48B); (0x4C0, 0x4C0, 1, 0x4CF);
    (0x4C1, 0x4CD, 2, 0x4C2); (0x4D0, 0x52E, 2, 0x4D1);
    (0x531, 0x556, 1, 0x561); (0x10A0, 0x10C5, 1, 0x2D00);
    (0x10C7, 0x10C7, 1, 0x2D27); (0x10CD, 0x10CD, 1, 0x2D2D);
    (0x13A0, 0x13EF, 1, 0xAB70); (0x13F0, 0x13F5, 1, 0x13F8);
    (0x1C90, 0x1CBA, 1, 0x10D0); (0x1CBD, 0x1CBF, 1, 0x10FD);
    (0x1E00, 0x1E94, 2, 0x1E01); (0x1E9E, 0x1E9E, 1, 0xDF);
    (0x1EA0, 0x1EFE, 2, 0x1EA1); (0x1F08, 0x1F0F, 1, 0x1F00);
    (0x1F18, 0x1F1D, 1, 0x1F10); (0x1F28, 0x1F2F, 1, 0x1F20);
    (0x1F38, 0x1F3F, 1, 0x1F30); (0x1F48, 0x1F4D, 1, 0x1F40);
    (0x1F59, 0x1F5F, 2, 0x1F51); (0x1F68, 0x1F6F, 1, 0x1F60);
    (0x1F88, 0x1F8F, 1, 0x1F80); (0x1F98, 0x1F9F, 1, 0x1F90);
    (0x1FA8, 0x1FAF, 1, 0x1FA0); (0x1FB8, 0x1FB9, 1, 0x1FB0);
    (0x1FBA, 0x1FBB, 1, 0x1F70); (0x1FBC, 0x1FBC, 1, 0x1FB3);
    (0x1FC8, 0x1FCB, 1, 0x1F72); (0x1FCC, 0x1FCC, 1, 0x1FC3);
    (0x1FD8, 0x1FD9, 1, 0x1FD0); (0x1FDA, 0x1FDB, 1, 0x1F76);
    (0x1FE8, 0x1FE9, 1, 0x1FE0); (0x1FEA, 0x1FEB, 1, 0x1F7A);
    (0x1FEC, 0x1FEC, 1, 0x1FE5); (0x1FF8, 0x1FF9, 1, 0x1F78);
    (0x1FFA, 0x1FFB, 1, 0x1F7C); (0x1FFC, 0x1FFC, 1, 0x1FF3);
    (0x2126, 0x2126, 1, 0x3C9); (0x212A, 0x212A, 1, 0x6B);
    (0x212B, 0x212B, 1, 0xE5); (0x2132, 0x2132, 1, 0x214E);
    (0x2160, 0x216F, 1, 0x2170); (0x2183, 0x2183, 1, 0x2184);
    (0x24B6, 0x24CF, 1, 0x24D0); (0x2C00, 0x2C2F, 1, 0x2C30);
    (0x2C60, 0x2C60, 1, 0x2C61); (0x2C62, 0x2C62, 1, 0x26B);
    (0x2C63, 0x2C63, 1, 0x1D7D); (0x2C64, 0x2C64, 1, 0x27D);
    (0x2C67, 0x2C6B, 2, 0x2C68); (0x2C6D, 0x2C6D, 1, 0x251);
    (0x2C6E, 0x2C6E, 1, 0x271); (0x2C6F, 0x2C6F, 1, 0x250);
    (0x2C70, 0x2C70, 1, 0x252); (0x2C72, 0x2C72, 1, 0x2C73);
    (0x2C75, 0x2C75, 1, 0x2C76); (0x2C7E, 0x2C7F, 1, 0x23F);
    (0x2C80, 0x2CE2, 2, 0x2C81); (0x2CEB, 0x2CED, 2, 0x2CEC);
    (0x2CF2, 0x2CF2, 1, 0x2CF3); (0xA640, 0xA66C, 2, 0xA641);
    (0xA680, 0xA69A, 2, 0xA681); (0xA722, 0xA72E, 2, 0xA723);
    (0xA732, 0xA76E, 2, 0xA733); (0xA779, 0xA77B, 2, 0xA77A);
    (0xA77D, 0xA77D, 1, 0x1D79); (0xA77E, 0xA786, 2, 0xA77F);
    (0xA78B, 0xA78B, 1, 0xA78C); (0xA78D, 0xA78D, 1, 0x265);
    (0xA790, 0xA792, 2, 0xA791); (0xA796, 0xA7A8, 2, 0xA797);
    (0xA7AA, 0xA7AA, 1, 0x266); (0xA7AB, 0xA7AB, 1, 0x25C);
    (0xA7AC, 0xA7AC, 1, 0x261); (0xA7AD, 0xA7AD, 1, 0x26C);
    (0xA7AE, 0xA7AE, 1, 0x26A); (0xA7B0, 0xA7B0, 1, 0x29E);
    (0xA7B1, 0xA7B1, 1, 0x287); (0xA7B2, 0xA7B2, 1, 0x29D);
    (0xA7B3, 0xA7B3, 1, 0xAB53); (0xA7B4, 0xA7C2, 2, 0xA7B5);
    (0xA7C4, 0xA7C4, 1, 0xA794); (0xA7C5, 0xA7C5, 1, 0x282);
    (0xA7C6, 0xA7C6, 1, 0x1D8E); (0xA7C7, 0xA7C9, 2, 0xA7C8);
    (0xA7D0, 0xA7D0, 1, 0xA7D1); (0xA7D6, 0xA7D8, 2, 0xA7D7);
    (0xA7F5, 0xA7F5, 1, 0xA7F6); (0xFF21, 0xFF3A, 1, 0xFF41);
    (0x10400, 0x10427, 1, 0x10428); (0x104B0, 0x104D3, 1, 0x104D8);
    (0x10570, 0x10594, 2, 0x10597); (0x10571, 0x10579, 2, 0x10598);
    (0x1057D, 0x10589, 2, 0x105A4); (0x1058D, 0x10591, 2, 0x105B4);
    (0x10595, 0x10595, 1, 0x105BC); (0x10C80, 0x10CB2, 1, 0x10CC0);
    (0x118A0, 0x118BF, 1, 0x118C0); (0x16E40, 0x16E5F, 1, 0x16E60);
    (0x1E900, 0x1E921, 1, 0x1E922) ]%N.

(** The cased characters: lower case, upper case or title case. *)
Definition cased_ranges : list (N * N) :=
  [ (0x41, 0x5A); (0x61, 0x7A); (0xAA, 0xAA); (0xB5, 0xB5); (0xBA, 0xBA);
    (0xC0, 0xD6); (0xD8, 0xF6); (0xF8, 0x1BA); (0x1BC, 0x1BF); (0x1C4, 0x293);
    (0x295, 0x2B8); (0x2C0, 0x2C1); (0x2E0, 0x2E4); (0x345, 0x345);
    (0x370, 0x373); (0x376, 0x377); (0x37A, 0x37D); (0x37F, 0x37F);
    (0x386, 0x386); (0x388, 0x38A); (0x38C, 0x38C); (0x38E, 0x3A1);
    (0x3A3, 0x3F5); (0x3F7, 0x481); (0x48A, 0x52F); (0x531, 0x556);
    (0x560, 0x588); (0x10A0, 0x10C5); (0x10C7, 0x10C7); (0x10CD, 0x10CD);
    (0x10D0, 0x10FA); (0x10FD, 0x10FF); (0x13A0, 0x13F5); (0x13F8, 0x13FD);
    (0x1C80, 0x1C88); (0x1C90, 0x1CBA); (0x1CBD, 0x1CBF); (0x1D00, 0x1DBF);
    (0x1E00, 0x1F15); (0x1F18, 0x1F1D); (0x1F20, 0x1F45); (0x1F48, 0x1F4D);
    (0x1F50, 0x1F57); (0x1F59, 0x1F59); (0x1F5B, 0x1F5B); (0x1F5D, 0x1F5D);
    (0x1F5F, 0x1F7D); (0x1F80, 0x1FB4); (0x1FB6, 0x1FBC); (0x1FBE, 0x1FBE);
    (0x1FC2, 0x1FC4); (0x1FC6, 0x1FCC); (0x1FD0, 0x1FD3); (0x1FD6, 0x1FDB);
    (0x1FE0, 0x1FEC); (0x1FF2, 0x1FF4); (0x1FF6, 0x1FFC); (0x2071, 0x2071);
    (0x207F, 0x207F); (0x2090, 0x209C); (0x2102, 0x2102); (0x2107, 0x2107);
    (0x210A, 0x2113); (0x2115, 0x2115); (0x2119, 0x211D); (0x2124, 0x2124);
    (0x2126, 0x2126); (0x2128, 0x2128); (0x212A, 0x212D); (0x212F, 0x2134);
    (0x2139, 0x2139); (0x213C, 0x213F); (0x2145, 0x2149); (0x214E, 0x214E);
    (0x2160, 0x217F); (0x2183, 0x2184); (0x24B6, 0x24E9); (0x2C00, 0x2CE4);
    (0x2CEB, 0x2CEE); (0x2CF2, 0x2CF3); (0x2D00, 0x2D25); (0x2D27, 0x2D27);
    (0x2D2D, 0x2D2D); (0xA640, 0xA66D); (0xA680, 0xA69D); (0xA722, 0xA787);
    (0xA78B, 0xA78E); (0xA790, 0xA7CA); (0xA7D0, 0xA7D1); (0xA7D3, 0xA7D3);
    (0xA7D5, 0xA7D9); (0xA7F5, 0xA7F6); (0xA7F8, 0xA7FA); (0xAB30, 0xAB5A);
    (0xAB5C, 0xAB68); (0xAB70, 0xABBF); (0xFB00, 0xFB06); (0xFB13, 0xFB17);
    (0xFF21, 0xFF3A); (0xFF41, 0xFF5A); (0x10400, 0x1044F);
    (0x104B0, 0x104D3); (0x104D8, 0x104FB); (0x10570, 0x1057A);
    (0x1057C, 0x1058A); (0x1058C, 0x10592); (0x10594, 0x10595);
    (0x10597, 0x105A1); (0x105A3, 0x105B1); (0x105B3, 0x105B9);
    (0x105BB, 0x105BC); (0x10780, 0x10780); (0x10783, 0x10785);
    (0x10787, 0x107B0); (0x107B2, 0x107BA); (0x10C80, 0x10CB2);
    (0x10CC0, 0x10CF2); (0x118A0, 0x118DF); (0x16E40, 0x16E7F);
    (0x1D400, 0x1D454); (0x1D456, 0x1D49C); (0x1D49E, 0x1D49F);
    (0x1D4A2, 0x1D4A2); (0x1D4A5, 0x1D4A6); (0x1D4A9, 0x1D4AC);
    (0x1D4AE, 0x1D4B9); (0x1D4BB, 0x1D4BB); (0x1D4BD, 0x1D4C3);
    (0x1D4C5, 0x1D505); (0x1D507, 0x1D50A); (0x1D50D, 0x1D514);
    (0x1D516, 0x1D51C); (0x1D51E, 0x1D539); (0x1D53B, 0x1D53E);
    (0x1D540, 0x1D544); (0x1D546, 0x1D546); (0x1D54A, 0x1D550);
    (0x1D552, 0x1D6A5); (0x1D6A8, 0x1D6C0); (0x1D6C2, 0x1D6DA);
    (0x1D6DC, 0x1D6FA); (0x1D6FC, 0x1D714); (0x1D716, 0x1D734);
    (0x1D736, 0x1D74E); (0x1D750, 0x1D76E); (0x1D770, 0x1D788);
    (0x1D78A, 0x1D7A8); (0x1D7AA, 0x1D7C2); (0x1D7C4, 0x1D7CB);
    (0x1DF00, 0x1DF09); (0x1DF0B, 0x1DF1E); (0x1E900, 0x1E943);
    (0x1F130, 0x1F149); (0x1F150, 0x1F169); (0x1F170, 0x1F189) ]%N.

(** The case-ignorable characters. *)
Definition case_ignorable_ranges : list (N * N) :=
  [ (0x27, 0x27); (0x2E, 0x2E); (0x3A, 0x3A); (0x5E, 0x5E); (0x60, 0x60);
    (0xA8, 0xA8); (0xAD, 0xAD); (0xAF, 0xAF); (0xB4, 0xB4); (0xB7, 0xB8);
    (0x2B0, 0x36F); (0x374, 0x375); (0x37A, 0x37A); (0x384, 0x385);
    (0x387, 0x387); (0x483, 0x489); (0x559, 0x559); (0x55F, 0x55F);
    (0x591, 0x5BD); (0x5BF, 0x5BF); (0x5C1, 0x5C2); (0x5C4, 0x5C5);
    (0x5C7, 0x5C7); (0x5F4, 0x5F4); (0x600, 0x605); (0x610, 0x61A);
    (0x61C, 0x61C); (0x640, 0x640); (0x64B, 0x65F); (0x670, 0x670);
    (0x6D6, 0x6DD); (0x6DF, 0x6E8); (0x6EA, 0x6ED); (0x70F, 0x70F);
    (0x711, 0x711); (0x730, 0x74A); (0x7A6, 0x7B0); (0x7EB, 0x7F5);
    (0x7FA, 0x7FA); (0x7FD, 0x7FD); (0x816, 0x82D); (0x859, 0x85B);
    (0x888, 0x888); (0x890, 0x891); (0x898, 0x89F); (0x8C9, 0x902);
    (0x93A, 0x93A); (0x93C, 0x93C); (0x941, 0x948); (0x94D, 0x94D);
    (0x951, 0x957); (0x962, 0x963); (0x971, 0x971); (0x981, 0x981);
    (0x9BC, 0x9BC); (0x9C1, 0x9C4); (0x9CD, 0x9CD); (0x9E2, 0x9E3);
    (0x9FE, 0x9FE); (0xA01, 0xA02); (0xA3C, 0xA3C); (0xA41, 0xA42);
    (0xA47, 0xA48); (0xA4B, 0xA4D); (0xA51, 0xA51); (0xA70, 0xA71);
    (0xA75, 0xA75); (0xA81, 0xA82); (0xABC, 0xABC); (0xAC1, 0xAC5);
    (0xAC7, 0xAC8); (0xACD, 0xACD); (0xAE2, 0xAE3); (0xAFA, 0xAFF);
    (0xB01, 0xB01); (0xB3C, 0xB3C); (0xB3F, 0xB3F); (0xB41, 0xB44);
    (0xB4D, 0xB4D); (0xB55, 0xB56); (0xB62, 0xB63); (0xB82, 0xB82);
    (0xBC0, 0xBC0); (0xBCD, 0xBCD); (0xC00, 0xC00); (0xC04, 0xC04);
    (0xC3C, 0xC3C); (0xC3E, 0xC40); (0xC46, 0xC48); (0xC4A, 0xC4D);
    (0xC55, 0xC56); (0xC62, 0xC63); (0xC81, 0xC81); (0xCBC, 0xCBC);
    (0xCBF, 0xCBF); (0xCC6, 0xCC6); (0xCCC, 0xCCD); (0xCE2, 0xCE3);
    (0xD00, 0xD01); (0xD3B, 0xD3C); (0xD41, 0xD44); (0xD4D, 0xD4D);
    (0xD62, 0xD63); (0xD81, 0xD81); (0xDCA, 0xDCA); (0xDD2, 0xDD4);
    (0xDD6, 0xDD6); (0xE31, 0xE31); (0xE34, 0xE3A); (0xE46, 0xE4E);
    (0xEB1, 0xEB1); (0xEB4, 0xEBC); (0xEC6, 0xEC6); (0xEC8, 0xECD);
    (0xF18, 0xF19); (0xF35, 0xF35); (0xF37, 0xF37); (0xF39, 0xF39);
    (0xF71, 0xF7E); (0xF80, 0xF84); (0xF86, 0xF87); (0xF8D, 0xF97);
    (0xF99, 0xFBC); (0xFC6, 0xFC6); (0x102D, 0x1030); (0x1032, 0x1037);
    (0x1039, 0x103A); (0x103D, 0x103E); (0x1058, 0x1059); (0x105E, 0x1060);
    (0x1071, 0x1074); (0x1082, 0x1082); (0x1085, 0x1086); (0x108D, 0x108D);
    (0x109D, 0x109D); (0x10FC, 0x10FC); (0x135D, 0x135F); (0x1712, 0x1714);
    (0x1732, 0x1733); (0x1752, 0x1753); (0x1772, 0x1773); (0x17B4, 0x17B5);
    (0x17B7, 0x17BD); (0x17C6, 0x17C6); (0x17C9, 0x17D3); (0x17D7, 0x17D7);
    (0x17DD, 0x17DD); (0x180B, 0x180F); (0x1843, 0x1843); (0x1885, 0x1886);
    (0x18A9, 0x18A9); (0x1920, 0x1922); (0x1927, 0x1928); (0x1932, 0x1932);
    (0x1939, 0x193B); (0x1A17, 0x1A18); (0x1A1B, 0x1A1B); (0x1A56, 0x1A56);
    (0x1A58, 0x1A5E); (0x1A60, 0x1A60); (0x1A62, 0x1A62); (0x1A65, 0x1A6C);
    (0x1A73, 0x1A7C); (0x1A7F, 0x1A7F); (0x1AA7, 0x1AA7); (0x1AB0, 0x1ACE);
    (0x1B00, 0x1B03); (0x1B34, 0x1B34); (0x1B36, 0x1B3A); (0x1B3C, 0x1B3C);
    (0x1B42, 0x1B42); (0x1B6B, 0x1B73); (0x1B80, 0x1B81); (0x1BA2, 0x1BA5);
    (0x1BA8, 0x1BA9); (0x1BAB, 0x1BAD); (0x1BE6, 0x1BE6); (0x1BE8, 0x1BE9);
    (0x1BED, 0x1BED); (0x1BEF, 0x1BF1); (0x1C2C, 0x1C33); (0x1C36, 0x1C37);
    (0x1C78, 0x1C7D); (0x1CD0, 0x1CD2); (0x1CD4, 0x1CE0); (0x1CE2, 0x1CE8);
    (0x1CED, 0x1CED); (0x1CF4, 0x1CF4); (0x1CF8, 0x1CF9); (0x1D2C, 0x1D6A);
    (0x1D78, 0x1D78); (0x1D9B, 0x1DFF); (0x1FBD, 0x1FBD); (0x1FBF, 0x1FC1);
    (0x1FCD, 0x1FCF); (0x1FDD, 0x1FDF); (0x1FED, 0x1FEF); (0x1FFD, 0x1FFE);
    (0x200B, 0x200F); (0x2018, 0x2019); (0x2024, 0x2024); (0x2027, 0x2027);
    (0x202A, 0x202E); (0x2060, 0x2064); (0x2066, 0x206F); (0x2071, 0x2071);
    (0x207F, 0x207F); (0x2090, 0x209C); (0x20D0, 0x20F0); (0x2C7C, 0x2C7D);
    (0x2CEF, 0x2CF1); (0x2D6F, 0x2D6F); (0x2D7F, 0x2D7F); (0x2DE0, 0x2DFF);
    (0x2E2F, 0x2E2F); (0x3005, 0x3005); (0x302A, 0x302D); (0x3031, 0x3035);
    (0x303B, 0x303B); (0x3099, 0x309E); (0x30FC, 0x30FE); (0xA015, 0xA015);
    (0xA4F8, 0xA4FD); (0xA60C, 0xA60C); (0xA66F, 0xA672); (0xA674, 0xA67D);
    (0xA67F, 0xA67F); (0xA69C, 0xA69F); (0xA6F0, 0xA6F1); (0xA700, 0xA721);
    (0xA770, 0xA770); (0xA788, 0xA78A); (0xA7F2, 0xA7F4); (0xA7F8, 0xA7F9);
    (0xA802, 0xA802); (0xA806, 0xA806); (0xA80B, 0xA80B); (0xA825, 0xA826);
    (0xA82C, 0xA82C); (0xA8C4, 0xA8C5); (0xA8E0, 0xA8F1); (0xA8FF, 0xA8FF);
    (0xA926, 0xA92D); (0xA947, 0xA951); (0xA980, 0xA982); (0xA9B3, 0xA9B3);
    (0xA9B6, 0xA9B9); (0xA9BC, 0xA9BD); (0xA9CF, 0xA9CF); (0xA9E5, 0xA9E6);
    (0xAA29, 0xAA2E); (0xAA31, 0xAA32); (0xAA35, 0xAA36); (0xAA43, 0xAA43);
    (0xAA4C, 0xAA4C); (0xAA70, 0xAA70); (0xAA7C, 0xAA7C); (0xAAB0, 0xAAB0);
    (0xAAB2, 0xAAB4); (0xAAB7, 0xAAB8); (0xAABE, 0xAABF); (0xAAC1, 0xAAC1);
    (0xAADD, 0xAADD); (0xAAEC, 0xAAED); (0xAAF3, 0xAAF4); (0xAAF6, 0xAAF6);
    (0xAB5B, 0xAB5F); (0xAB69, 0xAB6B); (0xABE5, 0xABE5); (0xABE8, 0xABE8);
    (0xABED, 0xABED); (0xFB1E, 0xFB1E); (0xFBB2, 0xFBC2); (0xFE00, 0xFE0F);
    (0xFE13, 0xFE13); (0xFE20, 0xFE2F); (0xFE52, 0xFE52); (0xFE55, 0xFE55);
    (0xFEFF, 0xFEFF); (0xFF07, 0xFF07); (0xFF0E, 0xFF0E); (0xFF1A, 0xFF1A);
    (0xFF3E, 0xFF3E); (0xFF40, 0xFF40); (0xFF70, 0xFF70); (0xFF9E, 0xFF9F);
    (0xFFE3, 0xFFE3); (0xFFF9, 0xFFFB); (0x101FD, 0x101FD);
    (0x102E0, 0x102E0); (0x10376, 0x1037A); (0x10780, 0x10785);
    (0x10787, 0x107B0); (0x107B2, 0x107BA); (0x10A01, 0x10A03);
    (0x10A05, 0x10A06); (0x10A0C, 0x10A0F); (0x10A38, 0x10A3A);
    (0x10A3F, 0x10A3F); (0x10AE5, 0x10AE6); (0x10D24, 0x10D27);
    (0x10EAB, 0x10EAC); (0x10F46, 0x10F50); (0x10F82, 0x10F85);
    (0x11001, 0x11001); (0x11038, 0x11046); (0x11070, 0x11070);
    (0x11073, 0x11074); (0x1107F, 0x11081); (0x110B3, 0x110B6);
    (0x110B9, 0x110BA); (0x110BD, 0x110BD); (0x110C2, 0x110C2);
    (0x110CD, 0x110CD); (0x11100, 0x11102); (0x11127, 0x1112B);
    (0x1112D, 0x11134); (0x11173, 0x11173); (0x11180, 0x11181);
    (0x111B6, 0x111BE); (0x111C9, 0x111CC); (0x111CF, 0x111CF);
    (0x1122F, 0x11231); (0x11234, 0x11234); (0x11236, 0x11237);
    (0x1123E, 0x1123E); (0x112DF, 0x112DF); (0x112E3, 0x112EA);
    (0x11300, 0x11301); (0x1133B, 0x1133C); (0x11340, 0x11340);
    (0x11366, 0x1136C); (0x11370, 0x11374); (0x11438, 0x1143F);
    (0x11442, 0x11444); (0x11446, 0x11446); (0x1145E, 0x1145E);
    (0x114B3, 0x114B8); (0x114BA, 0x114BA); (0x114BF, 0x114C0);
    (0x114C2, 0x114C3); (0x115B2, 0x115B5); (0x115BC, 0x115BD);
    (0x115BF, 0x115C0); (0x115DC, 0x115DD); (0x11633, 0x1163A);
    (0x1163D, 0x1163D); (0x1163F, 0x11640); (0x116AB, 0x116AB);
    (0x116AD, 0x116AD); (0x116B0, 0x116B5); (0x116B7, 0x116B7);
    (0x1171D, 0x1171F); (0x11722, 0x11725); (0x11727, 0x1172B);
    (0x1182F, 0x11837); (0x11839, 0x1183A); (0x1193B, 0x1193C);
    (0x1193E, 0x1193E); (0x11943, 0x11943); (0x119D4, 0x119D7);
    (0x119DA, 0x119DB); (0x119E0, 0x119E0); (0x11A01, 0x11A0A);
    (0x11A33, 0x11A38); (0x11A3B, 0x11A3E); (0x11A47, 0x11A47);
    (0x11A51, 0x11A56); (0x11A59, 0x11A5B); (0x11A8A, 0x11A96);
    (0x11A98, 0x11A99); (0x11C30, 0x11C36); (0x11C38, 0x11C3D);
    (0x11C3F, 0x11C3F); (0x11C92, 0x11CA7); (0x11CAA, 0x11CB0);
    (0x11CB2, 0x11CB3); (0x11CB5, 0x11CB6); (0x11D31, 0x11D36);
    (0x11D3A, 0x11D3A); (0x11D3C, 0x11D3D); (0x11D3F, 0x11D45);
    (0x11D47, 0x11D47); (0x11D90, 0x11D91); (0x11D95, 0x11D95);
    (0x11D97, 0x11D97); (0x11EF3, 0x11EF4); (0x13430, 0x13438);
    (0x16AF0, 0x16AF4); (0x16B30, 0x16B36); (0x16B40, 0x16B43);
    (0x16F4F, 0x16F4F); (0x16F8F, 0x16F9F); (0x16FE0, 0x16FE1);
    (0x16FE3, 0x16FE4); (0x1AFF0, 0x1AFF3); (0x1AFF5, 0x1AFFB);
    (0x1AFFD, 0x1AFFE); (0x1BC9D, 0x1BC9E); (0x1BCA0, 0x1BCA3);
    (0x1CF00, 0x1CF2D); (0x1CF30, 0x1CF46); (0x1D167, 0x1D169);
    (0x1D173, 0x1D182); (0x1D185, 0x1D18B); (0x1D1AA, 0x1D1AD);
    (0x1D242, 0x1D244); (0x1DA00, 0x1DA36); (0x1DA3B, 0x1DA6C);
    (0x1DA75, 0x1DA75); (0x1DA84, 0x1DA84); (0x1DA9B, 0x1DA9F);
    (0x1DAA1, 0x1DAAF); (0x1E000, 0x1E006); (0x1E008, 0x1E018);
    (0x1E01B, 0x1E021); (0x1E023, 0x1E024); (0x1E026, 0x1E02A);
    (0x1E130, 0x1E13D); (0x1E2AE, 0x1E2AE); (0x1E2EC, 0x1E2EF);
    (0x1E8D0, 0x1E8D6); (0x1E944, 0x1E94B); (0x1F3FB, 0x1F3FF);
    (0xE0001, 0xE0001); (0xE0020, 0xE007F); (0xE0100, 0xE01EF) ]%N.

Definition in_ranges (rs : list (N * N)) (c : char) : bool :=
  existsb (fun r => in_range (fst r) (snd r) c) rs.

(** [str.isalnum] on one character. *)
Definition isalnum (c : char) : bool := in_ranges alnum_ranges c.

(** The class [\w] of a [str] pattern. *)
Definition isword (c : char) : bool := isalnum c || (c =? 0x5F)%N.

Definition iscased (c : char) : bool := in_ranges cased_ranges c.

Definition iscase_ignorable (c : char) : bool :=
  in_ranges case_ignorable_ranges c.

Fixpoint lower_lookup (runs : list (N * N * N * N)) (c : char)
    : option char :=
  match runs with
  | [] => None
  | (first, last, step, image) :: runs' =>
      if in_range first last c && ((c - first) mod step =? 0)%N
      then Some (image + (c - first))%N
      else lower_lookup runs' c
  end.

(** The lower-case mapping of one character: one character, except for
    the dotted capital I (U+0130), which gives [i] and a combining dot. *)
Definition tolower_full (c : char) : str :=
  if (c =? 0x130)%N then [0x69; 0x307]%N
  else match lower_lookup lower_runs c with
       | Some x => [x]
       | None => [c]
       end.

Fixpoint skip_case_ignorable (s : str) : str :=
  match s with
  | c :: s' => if iscase_ignorable c then skip_case_ignorable s' else s
  | [] => []
  end.

(** A capital sigma is in final position when, case-ignorable characters
    apart, a cased character stands before it and none after it;
    [before] holds the characters before the sigma, the nearest first. *)
Definition final_sigma (before after : str) : bool :=
  match skip_case_ignorable before with
  | c :: _ =>
      iscased c &&
      match skip_case_ignorable after with
      | c' :: _ => negb (iscased c')
      | [] => true
      end
  | [] => false
  end.

Fixpoint lower_from (before s : str) : str :=
  match s with
  | [] => []
  | c :: s' =>
      (if (c =? 0x3A3)%N
       then [if final_sigma before s' then 0x3C2%N else 0x3C3%N]
       else tolower_full c)
      ++ lower_from (c :: before) s'
  end.

(** [s.lower()] *)
Definition lower (s : str) : str := lower_from [] s.

End Casing.
Import Casing.

Arguments isalnum : simpl never.
Arguments iscased : simpl never.
Arguments iscase_ignorable : simpl never.
Arguments tolower_full : simpl never.

(** [re.sub] of a pattern that is one character class, such as [[^\w\s-]]:
    each character of the class is a match, replaced by [repl]. *)
Definition sub_class (cls : char -> bool) (repl text : str) : str :=
  flat_map (fun c => if cls c then repl else [c]) text.

(** ** The orchestration: [download_pdf], [extract_pages_text],
    [process_sport], [main]

    These functions print, and call into [requests], [tqdm], [pdfplumber],
    [json] and the file system.  A computation is a tree of such calls: at
    each call the environment chooses the outcome, a value or an
    exception, and the computation goes on with it.  Interrupts and the
    exhaustion of memory, which can strike between any two steps, are left
    out. *)

(** What a call comes back with: a value, or an exception (an [Exception])
    with the text that [str] gives for it. *)
Inductive outcome (A : Type) : Type :=
| Returned (a : A)
| Raised (msg : str).
Arguments Returned {A} a.
Arguments Raised {A} msg.

(** [Path(parent) / child] *)
Record path := PathDiv { parent : str; child : str }.

(** The dictionary that [process_sport] returns. *)
Record sport_record := SportRecord {
  sport : str;
  source_url : str;
  sections : list dict
}.

(** The dictionary that [main] writes. *)
Record output_data := OutputData {
  sports : list sport_record;
  generated_at : str
}.

(** An exception on its way up: one of the core, or one of a call. *)
Inductive failure :=
| CoreError (e : exn)
| ExternalError (msg : str).

Inductive io (A : Type) : Type :=
| Ret (a : A)
| Throw (e : failure)
| PrintLine (line : str) (k : outcome unit -> io A)
    (* print(line) *)
| Transfer (url : str) (dest_path : path) (k : outcome unit -> io A)
    (* lines 57 to 64 of download_pdf: requests.get(url, stream=True,
       timeout=30), r.raise_for_status(), the content-length header read
       as an int, and the chunks of r.iter_content written to
       open(dest_path, "wb") under a tqdm progress bar *)
| OpenPdf (pdf_path : path)
    (k : outcome (list (outcome (option str))) -> io A)
    (* pdfplumber.open(pdf_path), and page.extract_text() for each of
       pdf.pages; an exception of pdf.pages or of closing the PDF ends the
       list like that of a further page *)
| DumpJson (json_path : path) (data : output_data)
    (k : outcome unit -> io A).
    (* open(json_path, "w", encoding="utf-8") and
       json.dump(data, f, indent=2, ensure_ascii=False) *)
Arguments Ret {A} a.
Arguments Throw {A} e.
Arguments PrintLine {A} line k.
Arguments Transfer {A} url dest_path k.
Arguments OpenPdf {A} pdf_path k.
Arguments DumpJson {A} json_path data k.

Fixpoint io_bind {A B} (m : io A) (f : A -> io B) : io B :=
  match m with
  | Ret a => f a
  | Throw e => Throw e
  | PrintLine line k => PrintLine line (fun r => io_bind (k r) f)
  | Transfer url dest_path k =>
      Transfer url dest_path (fun r => io_bind (k r) f)
  | OpenPdf pdf_path k => OpenPdf pdf_path (fun pdf => io_bind (k pdf) f)
  | DumpJson json_path data k =>
      DumpJson json_path data (fun r => io_bind (k r) f)
  end.

(** [try: body  except Exception as e: handler(e)] *)
Fixpoint try_except {A} (body : io A) (handler : failure -> io A) : io A :=
  match body with
  | Ret a => Ret a
  | Throw e => handler e
  | PrintLine line k => PrintLine line (fun r => try_except (k r) handler)
  | Transfer url dest_path k =>
      Transfer url dest_path (fun r => try_except (k r) handler)
  | OpenPdf pdf_path k =>
      OpenPdf pdf_path (fun pdf => try_except (k pdf) handler)
  | DumpJson json_path data k =>
      DumpJson json_path data (fun r => try_except (k r) handler)
  end.

Declare Scope io_scope.
Delimit Scope io_scope with io.
Notation "x <- m ;; k" := (io_bind m (fun x => k))
  (at level 61, m at next level, right associativity) : io_scope.
Notation "m ;; k" := (io_bind m (fun _ => k))
  (at level 61, right associativity) : io_scope.

(** The value of a call, or its exception on its way up. *)
Definition returned {A} (r : outcome A) : io A :=
  match r with
  | Returned a => Ret a
  | Raised msg => Throw (ExternalError msg)
  end.

Definition print (line : str) : io unit := PrintLine line returned.

(** [str(e)], what [{e}] formats, for the exception of a call.  The text
    of an exception of the core is not modelled: no [try] block of the
    program holds a call into the core. *)
Definition exception_text (e : failure) : str :=
  match e with
  | ExternalError msg => msg
  | CoreError _ => []
  end.

(** An exception of the core goes up to the caller. *)
Definition of_result {A} (r : result A) : io A :=
  match r with
  | Ok a => Ret a
  | Raise e => Throw (CoreError e)
  end.

(** ** The program *)

(** The page marker [[PAGE n]] followed by a line feed, as the f-string of
    [join_pages] formats it for the page of index [i]. *)
Definition page_block (i : nat) (p : str) : str :=
  py "[PAGE " ++ str_of_nat (i + 1) ++ py "]\n" ++ p.

Fixpoint enumerate_from {A} (i : nat) (l : list A) : list (nat * A) :=
  match l with
  | [] => []
  | x :: l' => (i, x) :: enumerate_from (S i) l'
  end.

(** [enumerate(l)] *)
Definition enumerate {A} (l : list A) : list (nat * A) := enumerate_from 0 l.

(** [join_pages(pages)] *)
Definition join_pages (pages : list str) : str :=
  let joined :=
    join (py "\n\n")
      (map (fun ip => page_block (fst ip) (snd ip)) (enumerate pages)) in
  joined.

Definition EM_DASH : char := 0x2014%N.
Definition EN_DASH : char := 0x2013%N.
Definition ELLIPSIS : char := 0x2026%N.

(** [KEYWORD\s+\d+] *)
Definition numbered (w : string) : regex :=
  Seq (word (py w)) (Seq (Plus Space) (Plus Digit)).

(** The heading pattern of [split_into_sections], compiled with
    [re.IGNORECASE]. *)
Definition heading_re : regex :=
  Seq (Alt (Chr (Lit NL)) Bol)
 (Seq (Star Space)
 (Seq (Group
        (alts (numbered "RULE")
           [ numbered "Rule"; numbered "SECTION"; numbered "Section";
             numbered "ARTICLE"; numbered "Article";
             word (py "Points of Emphasis");
             word (py "Table Reference Sheet");
             word (py "Appendix"); word (py "Interpretations");
             word (py "Definitions");
             numbered "CHAPTER"; numbered "Chapter" ]))
      (Star NotNewline))).

(** [\[PAGE\s+(\d+)\]], compiled without flags. *)
Definition page_re : regex :=
  Seq (word (py "[PAGE"))
 (Seq (Plus Space)
 (Seq (Group (Plus Digit))
      (Chr (Lit 0x5D%N)))).

(** [\s+] *)
Definition spaces_re : regex := Plus Space.

(** Lines 110 to 115: the page number for a heading that starts at
    [start]. *)
Definition recover_page (text : str) (start : nat) : result value :=
  let page_search := rfind text (py "[PAGE") start in
  match page_search with
  | None => Ok VNone
  | Some found =>
      let window := slice text found (start + 1) in
      match search false page_re window with
      | Some m =>
          match group1 window m with
          | Some digits => n <- int_of_str digits ;; Ok (VInt n)
          | None => Raise TypeError
          end
      | None => Ok VNone
      end
  end.

(** The section dictionary of lines 117 to 121. *)
Definition section (title content : str) (start_page : value) : dict :=
  [ ("title"%string, VStr title);
    ("content"%string, VStr content);
    ("start_page"%string, start_page) ].

(** The body of the loop of [split_into_sections] for the match [m] of
    index [idx]. *)
Definition section_of (text : str) (heading_iter : list Match) (idx : nat)
    (m : Match) : result dict :=
  let start := m_start m in
  let title := strip (group0 text m) in
  end_ <- (if idx + 1 <? length heading_iter
           then nxt <- getitem heading_iter (idx + 1) ;; Ok (m_start nxt)
           else Ok (length text)) ;;
  let content := strip (slice text (m_end m) end_) in
  page_num <- recover_page text start ;;
  Ok (section (strip (sub false spaces_re (py " ") title)) content page_num).

(** [full_text.replace(em dash, " - ").replace(en dash, "-")] *)
Definition normalize_dashes (full_text : str) : str :=
  replace [EN_DASH] (py "-") (replace [EM_DASH] (py " - ") full_text).

(** [split_into_sections(full_text)] *)
Definition split_into_sections (full_text : str) : result (list dict) :=
  let text := normalize_dashes full_text in
  let heading_iter := finditer true heading_re text in
  match heading_iter with
  | [] => Ok [ section (py "Full Document") (firstn 5000 text) (VInt 1) ]
  | _ :: _ => for_enumerate (section_of text heading_iter) 0 heading_iter
  end.

(** [make_snippet(s, n)] on a string, for any [int] [n]. *)
Definition make_snippet_n (s : str) (n : Z) : str :=
  let txt := strip (sub false spaces_re (py " ") s) in
  slice_to txt n
  ++ (if (Z.of_nat (length txt) >? n)%Z then [ELLIPSIS] else []).
Arguments make_snippet_n s n%_Z.

(** [make_snippet(s)], with the default [n=200]; the calls of [re.sub] and
    [strip] need a string. *)
Definition make_snippet (s : value) : result str :=
  match s with
  | VStr s' => Ok (make_snippet_n s' 200)
  | _ => Raise TypeError
  end.

(** The body of the loop of [process_sport] (lines 148 to 152). *)
Definition finish_section (filename : str) (i : nat) (s : dict) : result dict :=
  let s1 := dict_set "id" (VStr (filename ++ py "-rule-" ++ str_of_nat (i + 1))) s in
  snippet <- make_snippet (dict_get "content" (VStr []) s1) ;;
  let s2 := dict_set "snippet" (VStr snippet) s1 in
  Ok (if negb (dict_contains "start_page" s2)
      then dict_set "start_page" VNone s2
      else s2).

(** The Record Finisher: the loop of [process_sport] over the sections. *)
Definition finish_sections (filename : str) (sections : list dict)
    : result (list dict) :=
  for_enumerate (finish_section filename) 0 sections.

(** [join_pages], [split_into_sections] and the finishing loop in sequence,
    as [process_sport] chains them. *)
Definition pipeline (filename : str) (pages : list str) : result (list dict) :=
  let full_text := join_pages pages in
  sections <- split_into_sections full_text ;;
  finish_sections filename sections.

(** The class [[^\w\s-]] *)
Definition not_word_space_hyphen (c : char) : bool :=
  negb (isword c || isspace c || (c =? 0x2D)%N).

(** The file name that [process_sport] derives from the name of a sport:
    [re.sub(r'[^\w\s-]', '', sport_name).replace(' ', '_').lower()] *)
Definition filename_of (sport_name : str) : str :=
  lower (replace (py " ") (py "_")
           (sub_class not_word_space_hyphen [] sport_name)).

Definition CHECK_MARK : char := 0x2713%N.
Definition BALLOT_X : char := 0x2717%N.

(** ['='*60] *)
Definition rule_line : str := repeat 0x3D%N 60.

(** [str(p)] for a path of two components, on a POSIX system. *)
Definition path_str (p : path) : str := parent p ++ py "/" ++ child p.

(** [download_pdf(url, dest_path)] *)
Definition download_pdf (url : str) (dest_path : path) : io bool :=
  (print (py "  Downloading from " ++ firstn 60 url ++ py "...") ;;
   try_except
     (Transfer url dest_path returned ;;
      print (py "  " ++ [CHECK_MARK] ++ py " Downloaded to "
             ++ path_str dest_path) ;;
      Ret true)
     (fun e =>
        print (py "  " ++ [BALLOT_X] ++ py " Failed to download: "
               ++ exception_text e) ;;
        Ret false))%io.

(** The loop of [extract_pages_text]: [text = page.extract_text() or ""]
    is appended for each page; an exception ends the loop. *)
Fixpoint extract_loop (pdf_pages : list (outcome (option str)))
    (pages : list str) : outcome (list str) :=
  match pdf_pages with
  | [] => Returned pages
  | Raised e :: _ => Raised e
  | Returned text :: pdf_pages' =>
      extract_loop pdf_pages'
        (pages ++ [match text with Some t => t | None => [] end])
  end.

(** [extract_pages_text(pdf_path)] *)
Definition extract_pages_text (pdf_path : path) : io (list str) :=
  let pages := [] in
  (print (py "  Extracting text from PDF pages...") ;;
   try_except
     (pages <- OpenPdf pdf_path (fun pdf =>
                 match pdf with
                 | Returned pdf_pages =>
                     returned (extract_loop pdf_pages pages)
                 | Raised e => Throw (ExternalError e)
                 end) ;;
      print (py "  " ++ [CHECK_MARK] ++ py " Extracted "
             ++ str_of_nat (length pages) ++ py " pages") ;;
      Ret pages)
     (fun e =>
        print (py "  " ++ [BALLOT_X] ++ py " Failed to extract: "
               ++ exception_text e) ;;
        Ret []))%io.

Definition OUT_DIR : str := py "output".
Definition JSON_PATH : path := PathDiv OUT_DIR (py "rules.json").

(** [process_sport(sport_name, pdf_url)]; [None] is [None]. *)
Definition process_sport (sport_name pdf_url : str)
    : io (option sport_record) :=
  (print (NL :: rule_line) ;;
   print (py "Processing: " ++ sport_name) ;;
   print rule_line ;;
   let filename := filename_of sport_name in
   let pdf_path := PathDiv OUT_DIR (filename ++ py ".pdf") in
   ok <- download_pdf pdf_url pdf_path ;;
   if negb ok then Ret None else
   pages <- extract_pages_text pdf_path ;;
   match pages with
   | [] => Ret None
   | _ :: _ =>
       sections <- of_result (pipeline filename pages) ;;
       print (py "  " ++ [CHECK_MARK] ++ py " Processed "
              ++ str_of_nat (length sections) ++ py " sections") ;;
       Ret (Some (SportRecord sport_name pdf_url sections))
   end)%io.

(** The configuration table, in the order of the dictionary. *)
Definition SPORTS_RULEBOOKS : list (str * str) :=
  [ (py "Women's Lacrosse",
     py "https://cdn1.sportngin.com/attachments/document/3c7d-3127216/WLRules2024_2025.pdf");
    (py "Men's Basketball",
     py "https://cdn1.sportngin.com/attachments/document/e0d1-2810991/2023-2024_Mens_BBall_Rules_Book.pdf");
    (py "Women's Basketball",
     py "https://ncaaorg.s3.amazonaws.com/championships/sports/basketball/d1/2024-25WBB_OfficialPlayingRules.pdf");
    (py "Men's Soccer",
     py "https://cdn1.sportngin.com/attachments/document/18d0-3216650/2024-2025_Rule_Book.pdf");
    (py "Women's Soccer",
     py "https://cdn1.sportngin.com/attachments/document/18d0-3216650/2024-2025_Rule_Book.pdf");
    (py "Volleyball",
     py "https://www.ncaapublications.com/productdownloads/VBR24.pdf");
    (py "Men's Golf",
     py "https://www.usga.org/rules/rules-and-clarifications/rules-and-clarifications.html#!ruletype=pe&section=rule&rulenum=1");
    (py "Women's Golf",
     py "https://www.usga.org/rules/rules-and-clarifications/rules-and-clarifications.html#!ruletype=pe&section=rule&rulenum=1");
    (py "Men's Tennis",
     py "https://ncaaorg.s3.amazonaws.com/championships/sports/tennis/rules/2022-23PRXTE_ITARulesBook.pdf");
    (py "Women's Tennis",
     py "https://ncaaorg.s3.amazonaws.com/championships/sports/tennis/rules/2022-23PRXTE_ITARulesBook.pdf") ].

(** The loop of [main] over the items of the table. *)
Fixpoint main_loop (items : list (str * str))
    (all_sports_data : list sport_record) : io (list sport_record) :=
  match items with
  | [] => Ret all_sports_data
  | (sport_name, pdf_url) :: items' =>
      (result <- process_sport sport_name pdf_url ;;
       main_loop items'
         (match result with
          | Some r => all_sports_data ++ [r]
          | None => all_sports_data
          end))%io
  end.

(** [main()] *)
Definition main : io unit :=
  (print (py "Multi-Sport Rulebook Scraper") ;;
   print rule_line ;;
   all_sports_data <- main_loop SPORTS_RULEBOOKS [] ;;
   let output_data :=
     OutputData all_sports_data (py "2024-2025 season") in
   DumpJson JSON_PATH output_data returned ;;
   print (NL :: rule_line) ;;
   print ([CHECK_MARK] ++ py " Successfully processed "
          ++ str_of_nat (length all_sports_data) ++ py " sports") ;;
   print ([CHECK_MARK] ++ py " Wrote combined data to "
          ++ path_str JSON_PATH) ;;
   print rule_line)%io.

(** ** Reading a section dictionary *)

Definition title_of (d : dict) : str :=
  match dict_lookup "title" d with Some (VStr t) => t | _ => [] end.

Definition content_of (d : dict) : str :=
  match dict_lookup "content" d with Some (VStr c) => c | _ => [] end.

(** The characters of a string that are not whitespace, in order. *)
Definition nonspace (s : str) : str := filter (fun c => negb (isspace c)) s.

(** The length of the longest run of consecutive decimal digits of [s];
    [cur] is the length of the run that ends where [s] starts. *)
Fixpoint digit_run_from (cur : nat) (s : str) : nat :=
  match s with
  | [] => cur
  | c :: s' =>
      if isdecimal c then digit_run_from (S cur) s'
      else Nat.max cur (digit_run_from 0 s')
  end.

Definition longest_digit_run (s : str) : nat := digit_run_from 0 s.

(** A well-formed page marker at the head of [w]: [[PAGE], whitespace,
    the digits [ds], []]. *)
Definition marker_prefix (ds w : str) : Prop :=
  exists ws tail,
    w = py "[PAGE" ++ ws ++ ds ++ py "]" ++ tail /\
    ws <> [] /\ forallb isspace ws = true /\
    ds <> [] /\ forallb isdecimal ds = true.

(** ** Vocabulary of the statements *)

(** What a successful run of the matcher has read: [derives ic r st st']
    describes, without the search order, a way for [r] to lead from the
    state [st] to the state [st']. *)
Fixpoint derives (ic : bool) (r : regex) (st st' : mstate) : Prop :=
  match r with
  | Eps => st' = st
  | Chr a =>
      exists c, rest st = c :: rest st' /\ atom_match ic a c = true /\
                pos st' = S (pos st) /\ grp st' = grp st
  | Bol => pos st = 0 /\ st' = st
  | Star a =>
      exists w, forallb (atom_match ic a) w = true /\
                rest st = w ++ rest st' /\
                pos st' = pos st + length w /\ grp st' = grp st
  | Plus a =>
      exists w, w <> [] /\ forallb (atom_match ic a) w = true /\
                rest st = w ++ rest st' /\
                pos st' = pos st + length w /\ grp st' = grp st
  | Seq r1 r2 => exists mid, derives ic r1 st mid /\ derives ic r2 mid st'
  | Alt r1 r2 => derives ic r1 st st' \/ derives ic r2 st st'
  | Group r' =>
      exists st1, derives ic r' st st1 /\
                  st' = MState (pos st1) (rest st1) (Some (pos st, pos st1))
  end.

(** The least number of characters a match of [r] takes. *)
Fixpoint min_len (r : regex) : nat :=
  match r with
  | Chr _ | Plus _ => 1
  | Eps | Bol | Star _ => 0
  | Seq r1 r2 => min_len r1 + min_len r2
  | Alt r1 r2 => Nat.min (min_len r1) (min_len r2)
  | Group r' => min_len r'
  end.

(** What a match found at offset [i] of [text] stands for. *)
Definition match_of (ic : bool) (r : regex) (text : str) (m : Match) : Prop :=
  exists st',
    derives ic r (MState (m_start m) (skipn (m_start m) text) None) st' /\
    m_end m = pos st' /\ m_span1 m = grp st'.

(** [ms] lie in order, each within [lo .. hi], none overlapping the next. *)
Fixpoint chain (lo : nat) (ms : list Match) (hi : nat) : Prop :=
  match ms with
  | [] => lo <= hi
  | m :: ms' =>
      lo <= m_start m /\ m_start m <= m_end m /\ chain (m_end m) ms' hi
  end.

(** Where the content of the section of index [idx] stops: at the start of
    the next heading, or at the end of the text. *)
Definition next_start (text : str) (heading_iter : list Match) (idx : nat)
    : nat :=
  match nth_error heading_iter (idx + 1) with
  | Some m' => m_start m'
  | None => length text
  end.

(** The title of a section, from the text of its heading match. *)
Definition heading_title (text : str) (m : Match) : str :=
  strip (sub false spaces_re (py " ") (strip (group0 text m))).

(** The characters, other than whitespace, of the titles and contents of
    the sections, in order. *)
Definition sections_text (secs : list dict) : str :=
  concat (map (fun d => nonspace (title_of d) ++ nonspace (content_of d)) secs).

(** The whitespace characters, one by one. *)
Definition space_chars : list char :=
  [ 0x09; 0x0A; 0x0B; 0x0C; 0x0D; 0x1C; 0x1D; 0x1E; 0x1F; 0x20; 0x85; 0xA0;
    0x1680; 0x2000; 0x2001; 0x2002; 0x2003; 0x2004; 0x2005; 0x2006; 0x2007;
    0x2008; 0x2009; 0x200A; 0x2028; 0x2029; 0x202F; 0x205F; 0x3000 ]%N.

(** [sub] occurs in [s] at the offset [j]. *)
Definition occurs_at (sub s : str) (j : nat) : Prop :=
  startswith (skipn j s) sub = true.

(** Whitespace runs collapsed to single spaces, defined directly: each
    maximal run of whitespace becomes one space; [in_run] tells that the
    character before [s] was whitespace. *)
Fixpoint collapse_runs (in_run : bool) (s : str) : str :=
  match s with
  | [] => []
  | c :: s' =>
      if isspace c
      then (if in_run then collapse_runs true s'
            else SPACE :: collapse_runs true s')
      else c :: collapse_runs false s'
  end.

(** The length of the whitespace at the head of [s]. *)
Fixpoint space_run (s : str) : nat :=
  match s with
  | c :: s' => if isspace c then S (space_run s') else 0
  | [] => 0
  end.

(** No well-formed page marker of [text] has more digits than [int]
    converts. *)
Definition markers_within_limit (text : str) : Prop :=
  forall pre ds w,
    text = pre ++ w -> marker_prefix ds w -> length ds <= int_max_str_digits.

(** A dictionary as [split_into_sections] builds it. *)
Definition is_section (d : dict) : Prop :=
  exists t c p, d = section t c p /\ (p = VNone \/ exists z, p = VInt z).

(** A page marker of 4301 digits before a heading. *)
Definition long_marker_doc : str :=
  py "[PAGE " ++ repeat 0x31%N 4301 ++ py "]\nRULE 1 Scoring".

(** The marker that [join_pages] writes before the page of number [n]. *)
Definition page_marker (n : nat) : str :=
  py "[PAGE " ++ str_of_nat n ++ py "]\n".

(** The claim C1 as stated: the sections give back the characters of the
    input, whitespace apart. *)
Definition reconstructs (full_text : str) (sections : list dict) : Prop :=
  sections_text sections = nonspace full_text.

(** The example document of the specification. *)
Definition example_doc : str :=
  py "[PAGE 1]\nIntro text.\n\nRULE 1 Scoring\nBody A.\n\nRULE 2 Fouls\nBody B.".

(** Two pages; the text of the second has a stray "[PAGE" before its
    heading. *)
Definition stray_literal_pages : list str :=
  [ py "Intro"; py "see [PAGE\nRULE 2 Play" ].

(** A document in which a malformed "[PAGE x" follows the marker of page 1. *)
Definition malformed_marker_doc : str := py "[PAGE 1]\n[PAGE x\nRULE 1 a".

(** Three pages, the heading on the second. *)
Definition three_pages : list str :=
  [ py "Intro"; py "see below\nRULE 2 Play\nbody two"; py "tail" ].

(** [join_pages] with the first page numbered [i + 1]. *)
Definition joined_from (i : nat) (ps : list str) : str :=
  join (py "\n\n")
    (map (fun ip => page_block (fst ip) (snd ip)) (enumerate_from i ps)).

(** Where the marker of the page of index [k] starts in [joined_from i ps]. *)
Definition page_offset (i : nat) (ps : list str) (k : nat) : nat :=
  match k with
  | 0 => 0
  | S _ => length (joined_from i (firstn k ps)) + 2
  end.

(** The literal [[PAGE] occurs nowhere in [s]. *)
Definition no_page_literal (s : str) : Prop :=
  forall j, ~ occurs_at (py "[PAGE") s j.

(** Neither dash that [split_into_sections] replaces is in [s]. *)
Definition dash_free (s : str) : Prop :=
  forall c, In c s -> c <> EM_DASH /\ c <> EN_DASH.

(** [r] may match without reading a character. *)
Fixpoint nullable (r : regex) : bool :=
  match r with
  | Eps | Bol | Star _ => true
  | Chr _ | Plus _ => false
  | Seq r1 r2 => nullable r1 && nullable r2
  | Alt r1 r2 => nullable r1 || nullable r2
  | Group r' => nullable r'
  end.

(** The atoms one of which the first character of a non-empty match of [r]
    satisfies. *)
Fixpoint firsts (r : regex) : list atom :=
  match r with
  | Eps | Bol => []
  | Chr a | Star a | Plus a => [a]
  | Seq r1 r2 => firsts r1 ++ (if nullable r1 then firsts r2 else [])
  | Alt r1 r2 => firsts r1 ++ firsts r2
  | Group r' => firsts r'
  end.

(** *** Running a computation in an environment *)

(** The environment: what each call comes back with, given the state of
    the world (the terminal, the network, the file system), and the state
    it leaves. *)
Record env (W : Type) := Env {
  on_print : str -> W -> outcome unit * W;
  on_transfer : str -> path -> W -> outcome unit * W;
  on_open_pdf : path -> W -> outcome (list (outcome (option str))) * W;
  on_dump_json : path -> output_data -> W -> outcome unit * W
}.
Arguments on_print {W} e line w.
Arguments on_transfer {W} e url dest_path w.
Arguments on_open_pdf {W} e pdf_path w.
Arguments on_dump_json {W} e json_path data w.

(** The calls of a run, in order, with their outcomes. *)
Inductive event :=
| Printed (line : str) (done : outcome unit)
| Transferred (url : str) (dest_path : path) (done : outcome unit)
| Opened (pdf_path : path) (pdf : outcome (list (outcome (option str))))
| Dumped (json_path : path) (data : output_data) (written : outcome unit).

(** How a run ends. *)
Inductive ended (A : Type) : Type :=
| Returns (a : A)
| Raises (e : failure).
Arguments Returns {A} a.
Arguments Raises {A} e.

Record ran (W A : Type) := Ran {
  trace : list event;
  world : W;
  ending : ended A
}.
Arguments Ran {W A} trace world ending.
Arguments trace {W A} r.
Arguments world {W A} r.
Arguments ending {W A} r.

Definition logged {W A} (ev : event) (r : ran W A) : ran W A :=
  Ran (ev :: trace r) (world r) (ending r).

Fixpoint run {W A} (e : env W) (m : io A) (w : W) : ran W A :=
  match m with
  | Ret a => Ran [] w (Returns a)
  | Throw x => Ran [] w (Raises x)
  | PrintLine line k =>
      let (done, w') := on_print e line w in
      logged (Printed line done) (run e (k done) w')
  | Transfer url dest_path k =>
      let (done, w') := on_transfer e url dest_path w in
      logged (Transferred url dest_path done) (run e (k done) w')
  | OpenPdf pdf_path k =>
      let (pdf, w') := on_open_pdf e pdf_path w in
      logged (Opened pdf_path pdf) (run e (k pdf) w')
  | DumpJson json_path data k =>
      let (written, w') := on_dump_json e json_path data w in
      logged (Dumped json_path data written) (run e (k written) w')
  end.

(** The prints of a trace that raised, with the text of the exception;
    the transfers, the PDFs opened and the JSON files written. *)
Definition failed_prints (t : list event) : list (str * str) :=
  flat_map (fun ev => match ev with
                      | Printed line (Raised msg) => [(line, msg)]
                      | _ => []
                      end) t.

Definition transfers (t : list event) : list (str * path * outcome unit) :=
  flat_map (fun ev => match ev with
                      | Transferred url dest_path done =>
                          [(url, dest_path, done)]
                      | _ => []
                      end) t.

Definition opened (t : list event)
    : list (path * outcome (list (outcome (option str)))) :=
  flat_map (fun ev => match ev with
                      | Opened pdf_path pdf => [(pdf_path, pdf)]
                      | _ => []
                      end) t.

Definition dumps (t : list event)
    : list (path * output_data * outcome unit) :=
  flat_map (fun ev => match ev with
                      | Dumped json_path data written =>
                          [(json_path, data, written)]
                      | _ => []
                      end) t.

(** A run followed by another that starts where the first ended, when the
    first returned ([then_run]) and when it raised ([else_run]). *)
Definition then_run {W A B} (e : env W) (r : ran W A) (f : A -> io B)
    : ran W B :=
  match ending r with
  | Returns a =>
      let r' := run e (f a) (world r) in
      Ran (trace r ++ trace r') (world r') (ending r')
  | Raises x => Ran (trace r) (world r) (Raises x)
  end.

Definition else_run {W A} (e : env W) (r : ran W A)
    (handler : failure -> io A) : ran W A :=
  match ending r with
  | Returns a => Ran (trace r) (world r) (Returns a)
  | Raises x =>
      let r' := run e (handler x) (world r) in
      Ran (trace r ++ trace r') (world r') (ending r')
  end.

(** [text or ""] *)
Definition text_or_empty (text : option str) : str :=
  match text with Some t => t | None => [] end.

(** What [extract_pages_text] returns for what [pdfplumber] gives, when
    its messages are printed. *)
Definition extracted (pdf : outcome (list (outcome (option str))))
    : list str :=
  match pdf with
  | Returned pdf_pages =>
      match extract_loop pdf_pages [] with
      | Returned pages => pages
      | Raised _ => []
      end
  | Raised _ => []
  end.

(** The path under which [process_sport] stores the PDF of a sport. *)
Definition pdf_path_of (sport_name : str) : path :=
  PathDiv OUT_DIR (filename_of sport_name ++ py ".pdf").

(** ** Vocabulary of the further statements *)

(** Every whitespace character of [s] is a U+0020 that does not follow
    another whitespace character; [after_space] tells that the character
    before [s] was whitespace. *)
Fixpoint single_spaced (after_space : bool) (s : str) : bool :=
  match s with
  | [] => true
  | c :: s' =>
      if isspace c
      then negb after_space && (c =? SPACE)%N && single_spaced true s'
      else single_spaced false s'
  end.

(** [s] neither starts nor ends with a whitespace character. *)
Definition trimmed (s : str) : Prop :=
  (forall c s', s = c :: s' -> isspace c = false) /\
  (forall s' c, s = s' ++ [c] -> isspace c = false).

(** The whitespace of [s] is made of single U+0020, each between two
    characters that are not whitespace. *)
Definition spaces_between_words (s : str) : Prop :=
  forall i c,
    nth_error s i = Some c -> isspace c = true ->
    c = SPACE /\
    (exists j x, i = S j /\ nth_error s j = Some x /\ isspace x = false) /\
    (exists y, nth_error s (S i) = Some y /\ isspace y = false).

(** A record as [process_sport] leaves it: the three keys of the splitter,
    then "id" and "snippet", in the order of insertion. *)
Definition finished_section (title content : str) (start_page : value)
    (id snippet : str) : dict :=
  [ ("title"%string, VStr title);
    ("content"%string, VStr content);
    ("start_page"%string, start_page);
    ("id"%string, VStr id);
    ("snippet"%string, VStr snippet) ].

(** [None] or an [int] that is not negative. *)
Definition page_value (p : value) : Prop :=
  p = VNone \/ exists n : N, p = VInt (Z.of_N n).

(** The alternatives of the group of the heading pattern. *)
Definition heading_keywords : regex :=
  alts (numbered "RULE")
    [ numbered "Rule"; numbered "SECTION"; numbered "Section";
      numbered "ARTICLE"; numbered "Article";
      word (py "Points of Emphasis");
      word (py "Table Reference Sheet");
      word (py "Appendix"); word (py "Interpretations");
      word (py "Definitions");
      numbered "CHAPTER"; numbered "Chapter" ].

(** The length of the run of characters accepted by [p] at the head of
    [s]. *)
Fixpoint run_length (p : char -> bool) (s : str) : nat :=
  match s with
  | c :: s' => if p c then S (run_length p s') else 0
  | [] => 0
  end.

(** The offset [p] lies inside the match [m]. *)
Definition covers (p : nat) (m : Match) : bool :=
  (m_start m <=? p) && (p <? m_end m).

(** The anchor [^] does not occur in [r]. *)
Fixpoint bol_free (r : regex) : bool :=
  match r with
  | Bol => false
  | Eps | Chr _ | Star _ | Plus _ => true
  | Seq r1 r2 | Alt r1 r2 => bol_free r1 && bol_free r2
  | Group r' => bol_free r'
  end.

(** What follows the line feed or the anchor in the heading pattern. *)
Definition heading_line : regex :=
  Seq (Star Space) (Seq (Group heading_keywords) (Star NotNewline)).

(** The characters a file name of [process_sport] is made of: lower-case
    ASCII letters, digits, the underscore, the hyphen, the ASCII whitespace
    other than the space, and characters outside ASCII. *)
Definition filename_char (c : char) : bool :=
  ((0x80 <=? c) || in_range 0x61 0x7A c || in_range 0x30 0x39 c
   || (c =? 0x5F) || (c =? 0x2D)
   || in_range 0x09 0x0D c || in_range 0x1C 0x1F c)%N.

(** What [[^\w\s-]] lets through. *)
Definition kept (c : char) : bool := isword c || isspace c || (c =? 0x2D)%N.

(** The same on ASCII, spelled out: letters, digits, underscore, hyphen
    and whitespace. *)
Definition ascii_kept (c : char) : bool :=
  (is_ascii_upper c || is_ascii_lower c || in_range 0x30 0x39 c
   || (c =? 0x5F) || (c =? 0x2D)
   || in_range 0x09 0x0D c || in_range 0x1C 0x20 c)%N.

Definition is_ascii (s : str) : bool := forallb (fun c => c <? 0x80)%N s.

(** [l1] is [l2] with some elements left out. *)
Inductive subseq {A : Type} : list A -> list A -> Prop :=
| subseq_nil : subseq [] []
| subseq_skip x l1 l2 : subseq l1 l2 -> subseq l1 (x :: l2)
| subseq_take x l1 l2 : subseq l1 l2 -> subseq (x :: l1) (x :: l2).

(** A record made by [process_sport] from a PDF with at least one page. *)
Definition record_ok (r : sport_record) : Prop :=
  exists pages,
    pages <> [] /\
    pipeline (filename_of (sport r)) pages = Ok (sections r).

(** The name and the URL of a record. *)
Definition record_key (r : sport_record) : str * str :=
  (sport r, source_url r).

(** What [main] downloads for an item of the table, and where to. *)
Definition download_target (item : str * str) : str * path :=
  (snd item, pdf_path_of (fst item)).

Definition transfer_call (d : str * path * outcome unit) : str * path :=
  fst d.

(** How [process_sport] ends once the PDF is read and its messages are
    printed, from the pages that came out. *)
Definition sport_ending (sport_name pdf_url : str) (pages : list str)
    : ended (option sport_record) :=
  match pages with
  | [] => Returns None
  | _ :: _ =>
      match pipeline (filename_of sport_name) pages with
      | Ok finished =>
          Returns (Some (SportRecord sport_name pdf_url finished))
      | Raise x => Raises (CoreError x)
      end
  end.

(** The ids of the sections of the output, sport after sport. *)
Definition all_ids (data : output_data) : list (option value) :=
  flat_map (fun r => map (dict_lookup "id") (sections r)) (sports data).

(** The id of the section of index [k] of the sport of file name
    [filename]. *)
Definition section_id (filename : str) (k : nat) : option value :=
  Some (VStr (filename ++ py "-rule-" ++ str_of_nat (k + 1))).

(** No element of [l] occurs twice. *)
Fixpoint distinct (l : list str) : bool :=
  match l with
  | [] => true
  | x :: l' =>
      negb (existsb (fun y => if list_eq_dec N.eq_dec x y then true else false)
              l')
      && distinct l'
  end.

(** An environment in which every call returns and every PDF has the
    pages [pdf_pages]; one in which every PDF has the one page
    [long_marker_doc]; and one in which the terminal cannot show the check
    mark or the ballot cross (as with an ASCII or cp1252 encoding): a print
    of a line that holds one of them raises. *)
Definition env_of_pages (pdf_pages : list (outcome (option str))) : env unit :=
  Env unit
    (fun _ w => (Returned tt, w))
    (fun _ _ w => (Returned tt, w))
    (fun _ w => (Returned pdf_pages, w))
    (fun _ _ w => (Returned tt, w)).

Definition long_marker_env : env unit :=
  env_of_pages [Returned (Some long_marker_doc)].

Definition has_mark (line : str) : bool :=
  existsb (fun c => (c =? CHECK_MARK)%N || (c =? BALLOT_X)%N) line.

Definition plain_terminal_env : env unit :=
  Env unit
    (fun line w =>
       (if has_mark line then Raised (py "UnicodeEncodeError") else Returned tt,
        w))
    (fun _ _ w => (Returned tt, w))
    (fun _ w => (Returned [Returned (Some (py "RULE 1 Play\nbody"))], w))
    (fun _ _ w => (Returned tt, w)).

(** What holds of the document that [main] writes. *)
Definition output_ok (data : output_data) : Prop :=
  generated_at data = py "2024-2025 season" /\
  subseq (map record_key (sports data)) SPORTS_RULEBOOKS /\
  Forall (fun r => record_ok r /\ sections r <> []) (sports data).

(** The transfer came back. *)
Definition came_back (d : str * path * outcome unit) : bool :=
  match snd d with Returned _ => true | Raised _ => false end.

(** The page texts that came out of a PDF that was opened. *)
Definition pages_read (o : path * outcome (list (outcome (option str))))
    : list str :=
  extracted (snd o).

(** What a run has shown: the prints that raised, the transfers, the PDFs
    opened, the JSON files written and the ending. *)
Definition seen {W A} (r : ran W A) (fp : list (str * str))
    (tr : list (str * path * outcome unit))
    (op : list (path * outcome (list (outcome (option str)))))
    (du : list (path * output_data * outcome unit)) (en : ended A) : Prop :=
  failed_prints (trace r) = fp /\ transfers (trace r) = tr /\
  opened (trace r) = op /\ dumps (trace r) = du /\ ending r = en.

(** What the two replacements of line 90 make of a character: " - " of an
    em dash, "-" of an en dash, and the character itself otherwise. *)
Definition dash_image (c : char) : str :=
  if (c =? EM_DASH)%N then py " - "
  else if (c =? EN_DASH)%N then py "-"
  else [c].

(** The joined document, page by page: for the page of index [k] the
    separator (none before the first page), the marker of number [k+1]
    and the text of the page. *)
Definition joined_blocks (pages : list str) : str :=
  concat (map (fun k => (if k =? 0 then [] else py "\n\n")
                        ++ page_marker (k + 1) ++ nth k pages [])
            (seq 0 (length pages))).

(** A string of whitespace only. *)
Definition blank (s : str) : Prop := forallb isspace s = true.

(** What comes after the whitespace at the head of [s] is nothing, or
    starts with "[". *)
Definition bracket_next (s : str) : Prop :=
  lstrip s = [] \/ exists t, lstrip s = 0x5B%N :: t.

(** Every line feed of [s] is followed by whitespace up to the end of [s]
    or up to a "[". *)
Definition bracket_lines (s : str) : Prop :=
  forall u v, s = u ++ NL :: v -> bracket_next v.

(** A small rulebook of two pages, with an em dash. *)
Definition two_pages : list str :=
  [ py "Intro"; py "RULE 2 Play" ++ [EM_DASH] ++ py "on\nbody  two" ].

(** ** Lists and slices *)

Section Slices.

Variable A : Type.
Implicit Types (l : list A) (a b c : nat).

Lemma skipn_split l a b :
  a <= b -> skipn a l = firstn (b - a) (skipn a l) ++ skipn b l.
Proof.
  intros Hab. replace (skipn b l) with (skipn (b - a) (skipn a l)).
  - now rewrite firstn_skipn.
  - rewrite skipn_skipn. f_equal. lia.
Qed.

Lemma skipn_app_length (p l : list A) : skipn (length p) (p ++ l) = l.
Proof. induction p; cbn; auto. Qed.

Lemma firstn_app_length (p l : list A) : firstn (length p) (p ++ l) = p.
Proof. induction p; cbn; congruence. Qed.

End Slices.

Lemma slice_app_skipn s a b :
  a <= b -> skipn a s = slice s a b ++ skipn b s.
Proof. intros; unfold slice; now apply skipn_split. Qed.

Lemma slice_full s a : slice s a (length s) = skipn a s.
Proof.
  unfold slice. apply firstn_all2. rewrite length_skipn. lia.
Qed.

Lemma slice_of_suffix s a w tl :
  skipn a s = w ++ tl -> slice s a (a + length w) = w.
Proof.
  intros H. unfold slice. rewrite H.
  replace (a + length w - a) with (length w) by lia.
  apply firstn_app_length.
Qed.

(** ** Whitespace *)

Lemma nonspace_app s t : nonspace (s ++ t) = nonspace s ++ nonspace t.
Proof. apply filter_app. Qed.

Lemma nonspace_spaces s : forallb isspace s = true -> nonspace s = [].
Proof.
  induction s as [|c s IH]; cbn; auto.
  intros H; apply andb_prop in H as [Hc Hs]. rewrite Hc; cbn; auto.
Qed.

Lemma nonspace_lstrip s : nonspace (lstrip s) = nonspace s.
Proof.
  induction s as [|c s IH]; cbn; auto.
  destruct (isspace c) eqn:E; cbn; auto. now rewrite E.
Qed.

Lemma nonspace_rev s : nonspace (rev s) = rev (nonspace s).
Proof.
  induction s as [|c s IH]; cbn; auto.
  rewrite nonspace_app, IH. cbn. destruct (isspace c); cbn; auto.
  apply app_nil_r.
Qed.

Lemma nonspace_strip s : nonspace (strip s) = nonspace s.
Proof.
  unfold strip, rstrip.
  rewrite nonspace_rev, nonspace_lstrip, nonspace_rev, rev_involutive.
  apply nonspace_lstrip.
Qed.

(** ** Soundness of the matcher *)

Lemma repeat_greedy_sound A (p : char -> bool) (k : nat -> str -> option A) :
  forall s i res,
    repeat_greedy p i s k = Some res ->
    exists w s', s = w ++ s' /\ forallb p w = true /\
                 k (i + length w) s' = Some res.
Proof.
  induction s as [|c s IH]; intros i res H; cbn in H.
  - exists [], []. cbn. now rewrite Nat.add_0_r.
  - destruct (p c) eqn:Hc.
    + destruct (repeat_greedy p (S i) s k) as [r|] eqn:Hr.
      * injection H as ->. destruct (IH _ _ Hr) as (w & s' & -> & Hw & Hk).
        exists (c :: w), s'. cbn. rewrite Hc, Hw.
        now rewrite Nat.add_succ_r.
      * exists [], (c :: s). cbn. now rewrite Nat.add_0_r.
    + exists [], (c :: s). cbn. now rewrite Nat.add_0_r.
Qed.

Lemma rmatch_sound ic r :
  forall st k res,
    rmatch ic r st k = Some res ->
    exists st', derives ic r st st' /\ k st' = Some res.
Proof.
  induction r as [|a| |a|a|r1 IH1 r2 IH2|r1 IH1 r2 IH2|r IH];
    intros st k res H; cbn in H.
  - exists st; cbn; auto.
  - destruct (rest st) as [|c s'] eqn:Hs; [discriminate|].
    destruct (atom_match ic a c) eqn:Hc; [|discriminate].
    eexists; split; [|exact H]. cbn. now exists c.
  - destruct (pos st =? 0) eqn:Hp; [|discriminate].
    apply Nat.eqb_eq in Hp. exists st; cbn; auto.
  - apply repeat_greedy_sound in H as (w & s' & Hs & Hw & Hk).
    eexists; split; [|exact Hk]. cbn. now exists w.
  - destruct (rest st) as [|c s0] eqn:Hs; [discriminate|].
    destruct (atom_match ic a c) eqn:Hc; [|discriminate].
    apply repeat_greedy_sound in H as (w & s' & Hs' & Hw & Hk).
    eexists; split; [|exact Hk]. cbn. exists (c :: w).
    cbn. rewrite Hc, Hw, Hs, Hs'. repeat split; auto; try discriminate; lia.
  - apply IH1 in H as (mid & H1 & H). apply IH2 in H as (st' & H2 & H).
    exists st'; split; auto. now exists mid.
  - destruct (rmatch ic r1 st k) as [x|] eqn:E.
    + injection H as ->. apply IH1 in E as (st' & H1 & Hk).
      exists st'; cbn; auto.
    + apply IH2 in H as (st' & H2 & Hk). exists st'; cbn; auto.
  - apply IH in H as (st1 & H1 & Hk).
    eexists; split; [|exact Hk]. cbn. now exists st1.
Qed.

Lemma derives_advance ic r :
  forall st st',
    derives ic r st st' ->
    exists w, rest st = w ++ rest st' /\ pos st' = pos st + length w /\
              min_len r <= length w.
Proof.
  induction r as [|a| |a|a|r1 IH1 r2 IH2|r1 IH1 r2 IH2|r IH];
    intros st st' H; cbn in H.
  - subst st'. exists []. cbn. split; auto.
  - destruct H as (c & Hs & _ & Hp & _). exists [c]. cbn. split; auto. lia.
  - destruct H as (Hp & ->). exists []. cbn. split; auto.
  - destruct H as (w & _ & Hs & Hp & _). exists w. cbn. repeat split; auto. lia.
  - destruct H as (w & Hne & _ & Hs & Hp & _). exists w. cbn. repeat split; auto.
    destruct w; [congruence | cbn; lia].
  - destruct H as (mid & H1 & H2).
    apply IH1 in H1 as (w1 & Hs1 & Hp1 & Hl1).
    apply IH2 in H2 as (w2 & Hs2 & Hp2 & Hl2).
    exists (w1 ++ w2). rewrite Hs1, Hs2, <- app_assoc, length_app. cbn.
    repeat split; auto; lia.
  - destruct H as [H|H]; [apply IH1 in H | apply IH2 in H];
      destruct H as (w & Hs & Hp & Hl); exists w; cbn; repeat split; auto; lia.
  - destruct H as (st1 & H1 & ->). cbn. now apply IH in H1.
Qed.

Lemma match_at_sound ic r i s m :
  match_at ic r i s = Some m ->
  m_start m = i /\
  exists st', derives ic r (MState i s None) st' /\
              m_end m = pos st' /\ m_span1 m = grp st'.
Proof.
  unfold match_at. intros H.
  destruct (rmatch ic r (MState i s None) Some) as [st|] eqn:E; [|discriminate].
  injection H as <-. cbn. split; auto.
  apply rmatch_sound in E as (st' & Hd & Hk). injection Hk as ->.
  now exists st.
Qed.

Lemma match_at_bounds ic r i s m :
  match_at ic r i s = Some m ->
  m_start m = i /\ i + min_len r <= m_end m /\ m_end m <= i + length s.
Proof.
  intros H. apply match_at_sound in H as (Hi & st' & Hd & He & _).
  apply derives_advance in Hd as (w & Hs & Hp & Hl). cbn in *.
  rewrite He, Hp. subst s. rewrite length_app. lia.
Qed.

(** ** The matches of [finditer] *)

Lemma chain_weaken lo lo' ms hi : lo' <= lo -> chain lo ms hi -> chain lo' ms hi.
Proof. destruct ms; cbn; intuition lia. Qed.

Lemma chain_le lo ms hi : chain lo ms hi -> lo <= hi.
Proof.
  revert lo; induction ms as [|m ms IH]; cbn; intros lo H; auto.
  destruct H as (H1 & H2 & H3). apply IH in H3. lia.
Qed.

Lemma finditer_from_chain ic r :
  forall s pre skip,
    skip <= length s ->
    let ms := finditer_from ic r (length pre) s skip in
    chain (length pre + skip) ms (length pre + length s) /\
    Forall (match_of ic r (pre ++ s)) ms /\
    Forall (fun m => m_start m + min_len r <= m_end m) ms.
Proof.
  induction s as [|c s IH]; intros pre skip Hskip.
  - cbn in Hskip. assert (skip = 0) as -> by lia. cbn.
    destruct (match_at ic r (length pre) []) as [m|] eqn:E.
    + pose proof (match_at_bounds _ _ _ _ _ E) as (Hs & Hlo & Hhi).
      pose proof (match_at_sound _ _ _ _ _ E) as (_ & st' & Hd & He & Hg).
      cbn in *. repeat split; try lia.
      * constructor; auto. exists st'. rewrite Hs, skipn_app_length. auto.
      * constructor; auto; lia.
    + cbn. repeat split; auto; lia.
  - assert (IH' : forall skip, skip <= length s ->
        chain (S (length pre) + skip)
          (finditer_from ic r (S (length pre)) s skip)
          (length pre + S (length s)) /\
        Forall (match_of ic r (pre ++ c :: s))
          (finditer_from ic r (S (length pre)) s skip) /\
        Forall (fun m => m_start m + min_len r <= m_end m)
          (finditer_from ic r (S (length pre)) s skip)).
    { intros k Hk. specialize (IH (pre ++ [c]) k Hk).
      replace (length pre + S (length s)) with (S (length pre) + length s) by lia.
      rewrite length_app, <- app_assoc in IH. cbn [length app] in IH.
      now rewrite Nat.add_1_r in IH. }
    clear IH. cbn [length] in *. destruct skip as [|n].
    + cbn [finditer_from].
      destruct (match_at ic r (length pre) (c :: s)) as [m|] eqn:E.
      * pose proof (match_at_bounds _ _ _ _ _ E) as (Hs & Hlo & Hhi).
        pose proof (match_at_sound _ _ _ _ _ E) as (_ & st' & Hd & He & Hg).
        cbn [length] in *.
        destruct (IH' (m_end m - length pre - 1)) as (Hc & Hm & Hn); [lia|].
        cbn [chain]. repeat split; try lia.
        -- eapply chain_weaken; [|exact Hc]. lia.
        -- constructor; auto. exists st'.
           rewrite Hs, skipn_app_length. auto.
        -- constructor; auto; lia.
      * destruct (IH' 0) as (Hc & Hm & Hn); [lia|].
        repeat split; auto.
        eapply chain_weaken; [|exact Hc]. lia.
    + cbn [finditer_from].
      destruct (IH' n) as (Hc & Hm & Hn); [lia|].
      repeat split; auto.
      eapply chain_weaken; [|exact Hc]. lia.
Qed.

Lemma finditer_chain ic r text :
  let ms := finditer ic r text in
  chain 0 ms (length text) /\ Forall (match_of ic r text) ms /\
  Forall (fun m => m_start m + min_len r <= m_end m) ms.
Proof. exact (finditer_from_chain ic r text [] 0 (Nat.le_0_l _)). Qed.

Lemma chain_nth lo ms hi :
  chain lo ms hi ->
  forall i m,
    nth_error ms i = Some m ->
    lo <= m_start m /\ m_start m <= m_end m /\ m_end m <= hi /\
    forall j m', i < j -> nth_error ms j = Some m' -> m_end m <= m_start m'.
Proof.
  revert lo; induction ms as [|m0 ms IH]; intros lo Hc i m Hi.
  - destruct i; discriminate.
  - destruct Hc as (H1 & H2 & H3). destruct i as [|i]; cbn in Hi.
    + injection Hi as <-. pose proof (chain_le _ _ _ H3).
      repeat split; auto. intros [|j] m' Hj Hm'; [lia|]. cbn in Hm'.
      destruct (IH _ H3 _ _ Hm') as (Hlo & _). exact Hlo.
    + destruct (IH _ H3 _ _ Hi) as (Hlo & Hle & Hhi & Hnext).
      repeat split; auto; try lia.
      intros [|j] m' Hj Hm'; [lia|]. cbn in Hm'. apply (Hnext j); auto. lia.
Qed.

(** ** Collapsing whitespace with [re.sub] *)

Lemma spaces_match_region text m :
  match_of false spaces_re text m ->
  exists w, w <> [] /\ forallb isspace w = true /\
            slice text (m_start m) (m_end m) = w.
Proof.
  intros (st' & Hd & He & _). cbn in Hd.
  destruct Hd as (w & Hne & Hw & Hs & Hp & _).
  exists w. repeat split; auto. rewrite He, Hp. eapply slice_of_suffix; eauto.
Qed.

Lemma nonspace_sub_from text ms :
  forall cur,
    chain cur ms (length text) ->
    Forall (match_of false spaces_re text) ms ->
    nonspace (sub_from ms (py " ") text cur) = nonspace (skipn cur text).
Proof.
  induction ms as [|m ms IH]; intros cur Hc Hm; cbn [sub_from]; auto.
  destruct Hc as (H1 & H2 & H3). inversion Hm as [|? ? Hm1 Hm2]; subst.
  destruct (spaces_match_region _ _ Hm1) as (w & _ & Hw & Hsl).
  rewrite (slice_app_skipn text _ _ H1), (slice_app_skipn text _ _ H2).
  rewrite !nonspace_app, (IH _ H3 Hm2), Hsl, (nonspace_spaces _ Hw).
  reflexivity.
Qed.

Lemma nonspace_sub_spaces s :
  nonspace (sub false spaces_re (py " ") s) = nonspace s.
Proof.
  destruct (finditer_chain false spaces_re s) as (Hc & Hm & _).
  unfold sub. now rewrite nonspace_sub_from.
Qed.

(** ** The loop of [split_into_sections] *)

Lemma for_enumerate_inv A B (body : nat -> A -> result B) :
  forall l i ys,
    for_enumerate body i l = Ok ys ->
    length ys = length l /\
    forall j x y,
      nth_error l j = Some x -> nth_error ys j = Some y ->
      body (i + j) x = Ok y.
Proof.
  induction l as [|x0 l IH]; intros i ys H; cbn in H.
  - injection H as <-. split; auto. intros [|j]; discriminate.
  - destruct (body i x0) as [y0|] eqn:E0; [|discriminate]. cbn in H.
    destruct (for_enumerate body (S i) l) as [ys'|] eqn:E; [|discriminate].
    cbn in H. injection H as <-. destruct (IH _ _ E) as (Hl & Hn).
    split; [cbn; congruence|].
    intros [|j] x y Hx Hy; cbn in Hx, Hy.
    + injection Hx as <-. injection Hy as <-. now rewrite Nat.add_0_r.
    + rewrite Nat.add_succ_r. now apply Hn.
Qed.

Lemma section_of_inv text heading_iter idx m d :
  section_of text heading_iter idx m = Ok d ->
  exists page,
    recover_page text (m_start m) = Ok page /\
    d = section (heading_title text m)
          (strip (slice text (m_end m) (next_start text heading_iter idx)))
          page.
Proof.
  unfold section_of, next_start, getitem. intros H.
  destruct (idx + 1 <? length heading_iter) eqn:E.
  - apply Nat.ltb_lt in E.
    destruct (nth_error heading_iter (idx + 1)) as [m'|] eqn:En.
    + cbn in H. destruct (recover_page text (m_start m)) as [page|];
        [|discriminate].
      cbn in H. injection H as <-. now exists page.
    + apply nth_error_None in En. lia.
  - apply Nat.ltb_ge in E. apply nth_error_None in E. rewrite E.
    cbn in H. destruct (recover_page text (m_start m)) as [page|];
      [|discriminate].
    cbn in H. injection H as <-. now exists page.
Qed.

Lemma title_of_section t c p : title_of (section t c p) = t.
Proof. reflexivity. Qed.

Lemma content_of_section t c p : content_of (section t c p) = c.
Proof. reflexivity. Qed.

Lemma nonspace_heading_title text m :
  nonspace (heading_title text m) = nonspace (slice text (m_start m) (m_end m)).
Proof.
  unfold heading_title, group0.
  now rewrite nonspace_strip, nonspace_sub_spaces, nonspace_strip.
Qed.

Lemma sections_cover_from text heading_iter :
  forall l pre lo ys m0,
    heading_iter = pre ++ l ->
    chain lo l (length text) ->
    for_enumerate (section_of text heading_iter) (length pre) l = Ok ys ->
    hd_error l = Some m0 ->
    sections_text ys = nonspace (skipn (m_start m0) text).
Proof.
  induction l as [|m l IH]; intros pre lo ys m0 Hhi Hc Hfor Hhd;
    [discriminate|].
  cbn in Hhd. injection Hhd as <-. cbn in Hfor.
  destruct (section_of text heading_iter (length pre) m) as [d|] eqn:Ed;
    [|discriminate].
  cbn in Hfor.
  destruct (for_enumerate (section_of text heading_iter) (S (length pre)) l)
    as [ys'|] eqn:El; [|discriminate].
  cbn in Hfor. injection Hfor as <-.
  apply section_of_inv in Ed as (page & _ & ->).
  destruct Hc as (H1 & H2 & H3).
  unfold sections_text. cbn [map concat].
  rewrite title_of_section, content_of_section.
  rewrite nonspace_heading_title, nonspace_strip.
  assert (Hnext : next_start text heading_iter (length pre)
                  = match l with m' :: _ => m_start m' | [] => length text end).
  { unfold next_start. rewrite Hhi, nth_error_app2 by lia.
    replace (length pre + 1 - length pre) with 1 by lia. cbn.
    now destruct l. }
  rewrite Hnext. destruct l as [|m' l'].
  - cbn in El. injection El as <-. cbn. rewrite app_nil_r.
    rewrite slice_full, <- nonspace_app, <- slice_app_skipn; auto.
  - fold (sections_text ys').
    rewrite (IH (pre ++ [m]) (m_end m) ys' m'); auto.
    + destruct H3 as (H4 & H5 & H6).
      rewrite <- !nonspace_app, <- app_assoc, <- slice_app_skipn by auto.
      now rewrite <- slice_app_skipn.
    + now rewrite <- app_assoc.
    + rewrite length_app. cbn. now rewrite Nat.add_1_r.
Qed.

(** ** Character classes *)

Lemma isspace_chars c : isspace c = true -> In c space_chars.
Proof.
  unfold isspace, in_range. intros H.
  repeat (apply orb_prop in H as [H|H]);
    try apply andb_prop in H as [H1 H2];
    try apply N.leb_le in H1; try apply N.leb_le in H2;
    try apply N.eqb_eq in H;
    cbn; lia.
Qed.

Lemma isdecimal_not_space c : isdecimal c = true -> isspace c = false.
Proof.
  intros Hd. destruct (isspace c) eqn:Hs; auto.
  apply isspace_chars in Hs.
  assert (Hall : forallb (fun x => negb (isdecimal x)) space_chars = true)
    by (vm_compute; reflexivity).
  rewrite forallb_forall in Hall. apply Hall in Hs. now rewrite Hd in Hs.
Qed.

(** ** [str] methods *)

Lemma startswith_app s sub :
  startswith s sub = true <-> exists tl, s = sub ++ tl.
Proof.
  revert s; induction sub as [|a sub IH]; intros s; cbn.
  - destruct s; split; eauto.
  - destruct s as [|c s].
    + split; [discriminate | intros (tl & H); discriminate].
    + cbn. rewrite andb_true_iff, N.eqb_eq, IH. split.
      * intros (-> & tl & ->). now exists tl.
      * intros (tl & H). injection H as -> ->. eauto.
Qed.

Lemma rfind_from_spec sub :
  forall s i last,
    (exists j, j < length s /\ rfind_from sub i s last = Some (i + j) /\
               occurs_at sub s j /\
               forall j', j < j' -> j' < length s -> ~ occurs_at sub s j')
    \/ (rfind_from sub i s last = last /\
        forall j, j < length s -> ~ occurs_at sub s j).
Proof.
  unfold occurs_at.
  induction s as [|c s IH]; intros i last; cbn [rfind_from].
  - right. split; auto. cbn. intros; lia.
  - destruct (IH (S i) (if startswith (c :: s) sub then Some i else last))
      as [(j & Hj & Hr & Ho & Hlast)|(Hr & Hnone)].
    + left. exists (S j). cbn [length skipn]. repeat split; auto; try lia.
      * rewrite Hr. f_equal. lia.
      * intros [|j'] H1 H2; [lia|]. cbn [skipn]. apply Hlast; lia.
    + destruct (startswith (c :: s) sub) eqn:E.
      * left. exists 0. cbn [length skipn]. repeat split; auto; try lia.
        -- rewrite Hr. f_equal. lia.
        -- intros [|j'] H1 H2; [lia|]. cbn [skipn]. apply Hnone. lia.
      * right. split; auto. intros [|j] Hj; cbn [skipn].
        -- now rewrite E.
        -- apply Hnone. cbn in Hj. lia.
Qed.

Lemma occurs_at_lt sub s j : sub <> [] -> occurs_at sub s j -> j < length s.
Proof.
  unfold occurs_at. intros Hne H.
  destruct (Nat.lt_ge_cases j (length s)) as [Hlt|Hge]; auto.
  rewrite skipn_all2 in H by lia. destruct sub; [congruence | discriminate].
Qed.

(** [rfind] returns the last offset at which [sub] lies inside
    [s[0:stop]], and [None] when there is none. *)
Lemma rfind_spec s sub stop :
  sub <> [] ->
  match rfind s sub stop with
  | Some j =>
      occurs_at sub (firstn stop s) j /\
      forall j', j < j' -> ~ occurs_at sub (firstn stop s) j'
  | None => forall j, ~ occurs_at sub (firstn stop s) j
  end.
Proof.
  intros Hne. unfold rfind.
  destruct (rfind_from_spec sub (firstn stop s) 0 None)
    as [(j & Hj & -> & Ho & Hlast)|(-> & Hnone)]; cbn.
  - split; auto. intros j' H1 Ho'.
    apply (Hlast j'); auto. eapply occurs_at_lt; eauto.
  - intros j Ho. apply (Hnone j); auto. eapply occurs_at_lt; eauto.
Qed.

(** ** Page markers and [page_re] *)

Ltac break_derives :=
  repeat match goal with
         | H : exists _, _ |- _ => destruct H
         | H : _ /\ _ |- _ => destruct H
         | H : (_ =? _)%N = true |- _ => apply N.eqb_eq in H
         end.

Lemma page_re_shape i s st' :
  derives false page_re (MState i s None) st' ->
  exists ws ds,
    s = py "[PAGE" ++ ws ++ ds ++ py "]" ++ rest st' /\
    ws <> [] /\ forallb isspace ws = true /\
    ds <> [] /\ forallb isdecimal ds = true /\
    pos st' = i + 5 + length ws + length ds + 1 /\
    grp st' = Some (i + 5 + length ws, i + 5 + length ws + length ds).
Proof.
  intros H. unfold page_re in H.
  change (py "[PAGE") with [0x5B; 0x50; 0x41; 0x47; 0x45]%N in *.
  change (py "]") with [0x5D]%N.
  simpl in H. break_derives. subst. cbn [pos rest grp] in *.
  match goal with
  | Hs : forallb (atom_match false Space) ?ws = true,
    Hd : forallb (atom_match false Digit) ?ds = true |- _ =>
      exists ws, ds;
      change (forallb isspace ws = true) in Hs;
      change (forallb isdecimal ds = true) in Hd
  end.
  repeat split; auto.
  - cbn [app]. congruence.
  - lia.
  - match goal with H : grp st' = _ |- _ => rewrite H end.
    f_equal. f_equal; lia.
Qed.

Lemma repeat_greedy_stop A (p : char -> bool) (k : nat -> str -> option A) :
  forall w s' i r,
    forallb p w = true ->
    (forall c tl, s' = c :: tl -> p c = false) ->
    k (i + length w) s' = Some r ->
    repeat_greedy p i (w ++ s') k = Some r.
Proof.
  induction w as [|a w IH]; intros s' i r Hw Hstop Hk; cbn in *.
  - rewrite Nat.add_0_r in Hk. destruct s' as [|c tl]; cbn; auto.
    now rewrite (Hstop c tl eq_refl).
  - apply andb_prop in Hw as [Ha Hw]. rewrite Ha.
    rewrite (IH s' (S i) r); auto. now rewrite Nat.add_succ_r in Hk.
Qed.

Lemma page_re_match_marker ws ds tail :
  ws <> [] -> forallb isspace ws = true ->
  ds <> [] -> forallb isdecimal ds = true ->
  match_at false page_re 0 (py "[PAGE" ++ ws ++ ds ++ py "]" ++ tail)
  = Some (MkMatch 0 (5 + length ws + length ds + 1)
            (Some (5 + length ws, 5 + length ws + length ds))).
Proof.
  intros Hws Hsp Hds Hdg.
  destruct ws as [|c ws]; [congruence|]. destruct ds as [|d ds]; [congruence|].
  cbn in Hsp, Hdg.
  apply andb_prop in Hsp as [Hc Hsp]. apply andb_prop in Hdg as [Hd Hdg].
  assert (E : rmatch false page_re
                (MState 0 (py "[PAGE" ++ (c :: ws) ++ (d :: ds) ++ py "]" ++ tail)
                   None) Some
              = Some (MState (5 + length (c :: ws) + length (d :: ds) + 1) tail
                        (Some (5 + length (c :: ws),
                               5 + length (c :: ws) + length (d :: ds))))).
  { unfold page_re.
    change (py "[PAGE") with [0x5B; 0x50; 0x41; 0x47; 0x45]%N.
    change (py "]") with [0x5D]%N.
    cbn -[isspace isdecimal repeat_greedy]. rewrite Hc.
    apply repeat_greedy_stop; [exact Hsp | |].
    - intros c' tl E. cbn in E. injection E as <- _.
      now apply isdecimal_not_space.
    - cbn -[isspace isdecimal repeat_greedy]. rewrite Hd.
      apply repeat_greedy_stop; [exact Hdg | |].
      + intros c' tl E. cbn in E. injection E as <- _. reflexivity.
      + cbn. f_equal. f_equal; [lia|]. f_equal. f_equal; lia. }
  unfold match_at. now rewrite E.
Qed.

(** ** [re.search] *)

Lemma search_from_none ic r :
  forall s i,
    (forall j, j <= length s -> match_at ic r (i + j) (skipn j s) = None) ->
    search_from ic r i s = None.
Proof.
  induction s as [|c s IH]; intros i H; cbn.
  - specialize (H 0 (Nat.le_0_l _)). rewrite Nat.add_0_r in H. cbn in H.
    now rewrite H.
  - pose proof (H 0 (Nat.le_0_l _)) as H0. rewrite Nat.add_0_r in H0.
    cbn in H0. rewrite H0. apply IH. intros j Hj.
    specialize (H (S j)). cbn in H. rewrite Nat.add_succ_r in H.
    apply H. lia.
Qed.

Lemma search_from_head ic r i s m :
  match_at ic r i s = Some m -> search_from ic r i s = Some m.
Proof. intros H. destruct s; cbn; now rewrite H. Qed.

Lemma skipn_firstn_succ A (l sub X : list A) n j :
  skipn j (firstn (S n) l) = sub ++ X -> X <> [] ->
  exists X', skipn j (firstn n l) = sub ++ X'.
Proof.
  intros H HX.
  assert (Hlen : length sub + length X <= S n - j).
  { rewrite <- length_app, <- H, length_skipn, length_firstn. lia. }
  assert (HX' : 1 <= length X) by (destruct X; [congruence | cbn; lia]).
  replace (firstn n l) with (firstn n (firstn (S n) l))
    by (rewrite firstn_firstn; f_equal; lia).
  rewrite skipn_firstn_comm, H.
  exists (firstn (n - j - length sub) X).
  rewrite firstn_app. f_equal. apply firstn_all2. lia.
Qed.

Lemma slice_skipn_firstn s a b : slice s a b = skipn a (firstn b s).
Proof. unfold slice. now rewrite skipn_firstn_comm. Qed.

(** In the window that [recover_page] scans, [page_re] can only match at
    the very start: a later match would be a later occurrence of the
    literal [[PAGE] before the heading. *)
Lemma window_search text start found :
  rfind text (py "[PAGE") start = Some found ->
  let window := slice text found (start + 1) in
  search false page_re window = match_at false page_re 0 window.
Proof.
  intros Hr window.
  assert (Hne : py "[PAGE" <> []) by discriminate.
  pose proof (rfind_spec text (py "[PAGE") start Hne) as Hspec.
  rewrite Hr in Hspec. destruct Hspec as (_ & Hlast).
  unfold search.
  destruct (match_at false page_re 0 window) as [m|] eqn:E0.
  - now apply search_from_head.
  - destruct window as [|c w] eqn:Ew; cbn [search_from]; rewrite E0; auto.
    apply search_from_none. intros j Hj.
    destruct (match_at false page_re (1 + j) (skipn j w)) as [m|] eqn:E; auto.
    exfalso. apply match_at_sound in E as (_ & st' & Hd & _).
    apply page_re_shape in Hd as (ws & ds & Hs & Hws & _ & Hds & _).
    apply (Hlast (found + S j)); [lia|]. unfold occurs_at.
    apply startswith_app.
    assert (Hw : skipn (found + S j) (firstn (S start) text)
                 = py "[PAGE" ++ ws ++ ds ++ py "]" ++ rest st').
    { rewrite <- Hs. change (skipn j w) with (skipn (S j) (c :: w)).
      rewrite <- Ew. unfold window. rewrite slice_skipn_firstn.
      rewrite skipn_skipn. f_equal; [lia|]. f_equal. lia. }
    eapply skipn_firstn_succ; [exact Hw|].
    destruct ws; [congruence | discriminate].
Qed.

(** ** [int] *)

Lemma decimal_value_total s :
  forallb isdecimal s = true -> forall acc, exists n, decimal_value acc s = Some n.
Proof.
  induction s as [|c s IH]; intros H acc; cbn in *; eauto.
  apply andb_prop in H as [Hc Hs]. unfold isdecimal in Hc.
  destruct (todecimal c); [|discriminate]. now apply IH.
Qed.

Lemma int_of_str_digits ds :
  ds <> [] -> forallb isdecimal ds = true ->
  length ds <= int_max_str_digits ->
  exists n, decimal_value 0 ds = Some n /\ int_of_str ds = Ok (Z.of_N n).
Proof.
  intros Hne Hd Hlen. destruct (decimal_value_total ds Hd 0%N) as (n & Hn).
  exists n. split; auto. unfold int_of_str. destruct ds; [congruence|].
  rewrite Hn. apply Nat.leb_le in Hlen. now rewrite Hlen.
Qed.

Lemma digit_run_from_ge cur s : cur <= digit_run_from cur s.
Proof.
  revert cur; induction s as [|c s IH]; intros cur; cbn; auto.
  destruct (isdecimal c).
  - specialize (IH (S cur)). lia.
  - lia.
Qed.

Lemma digit_run_from_mono cur cur' s :
  cur <= cur' -> digit_run_from cur s <= digit_run_from cur' s.
Proof.
  revert cur cur'; induction s as [|c s IH]; intros cur cur' H; cbn; auto.
  destruct (isdecimal c).
  - apply IH. lia.
  - lia.
Qed.

Lemma digit_run_from_digits ds post cur :
  forallb isdecimal ds = true ->
  cur + length ds <= digit_run_from cur (ds ++ post).
Proof.
  revert cur; induction ds as [|d ds IH]; intros cur H; cbn in *.
  - rewrite Nat.add_0_r. apply digit_run_from_ge.
  - apply andb_prop in H as [Hd Hds]. rewrite Hd.
    specialize (IH (S cur) Hds). lia.
Qed.

(** A run of digits anywhere in [s] is no longer than the longest one. *)
Lemma longest_digit_run_infix pre ds post :
  forallb isdecimal ds = true ->
  length ds <= longest_digit_run (pre ++ ds ++ post).
Proof.
  intros H. unfold longest_digit_run. generalize 0 as cur.
  induction pre as [|c pre IH]; intros cur; cbn [app].
  - pose proof (digit_run_from_digits ds post cur H). lia.
  - cbn. destruct (isdecimal c); [apply IH|].
    specialize (IH 0). lia.
Qed.

(** ** Page recovery *)

Lemma window_infix text found start :
  found <= start ->
  let window := slice text found (start + 1) in
  text = firstn found text ++ window ++ skipn (start + 1) text.
Proof.
  intros H window. unfold window.
  rewrite <- slice_app_skipn by lia. now rewrite firstn_skipn.
Qed.

Lemma rfind_le text sub stop found :
  sub <> [] -> rfind text sub stop = Some found -> found < stop.
Proof.
  intros Hne Hr. pose proof (rfind_spec text sub stop Hne) as H.
  rewrite Hr in H. destruct H as (Ho & _).
  apply occurs_at_lt in Ho; auto. rewrite length_firstn in Ho. lia.
Qed.

(** The three outcomes of [recover_page]: no literal [[PAGE] before the
    heading; a last literal that does not begin a marker; a last literal
    that begins a marker, whose digits are converted. *)
Lemma recover_page_cases text start :
  match rfind text (py "[PAGE") start with
  | None => recover_page text start = Ok VNone
  | Some found =>
      let window := slice text found (start + 1) in
      (recover_page text start = Ok VNone /\
       forall ds, ~ marker_prefix ds window)
      \/ exists ds,
           marker_prefix ds window /\
           recover_page text start = (n <- int_of_str ds ;; Ok (VInt n))
  end.
Proof.
  unfold recover_page.
  destruct (rfind text (py "[PAGE") start) as [found|] eqn:Hr; auto.
  pose proof (window_search text start found Hr) as Hw. cbv zeta in Hw.
  set (window := slice text found (start + 1)) in *. rewrite Hw.
  destruct (match_at false page_re 0 window) as [m|] eqn:E.
  - right. pose proof (match_at_sound _ _ _ _ _ E) as (_ & st' & Hd & He & Hg).
    apply page_re_shape in Hd as (ws & ds & Hs & Hws & Hsp & Hds & Hdg & Hp & Hgrp).
    exists ds. split; [now exists ws, (rest st')|].
    unfold group1. rewrite Hg, Hgrp.
    replace (slice window (0 + 5 + length ws) (0 + 5 + length ws + length ds))
      with ds; auto.
    symmetry. apply slice_of_suffix with (tl := py "]" ++ rest st').
    rewrite Hs. change (0 + 5 + length ws) with (length (py "[PAGE") + length ws).
    rewrite <- length_app, app_assoc. apply skipn_app_length.
  - left. split; auto. intros ds (ws & tail & Hs & Hws & Hsp & Hds & Hdg).
    rewrite Hs, page_re_match_marker in E; auto. discriminate.
Qed.

Lemma marker_prefix_app ds w rest' :
  marker_prefix ds w -> marker_prefix ds (w ++ rest').
Proof.
  intros (ws & tail & -> & H). exists ws, (tail ++ rest'). split; auto.
  now rewrite <- !app_assoc.
Qed.

Lemma recover_page_ok text start :
  markers_within_limit text ->
  recover_page text start = Ok VNone \/
  exists z, recover_page text start = Ok (VInt z).
Proof.
  intros Hlim. pose proof (recover_page_cases text start) as H.
  destruct (rfind text (py "[PAGE") start) as [found|] eqn:Hr; auto.
  cbv zeta in H. destruct H as [(H & _)|(ds & Hm & H)]; auto.
  right.
  assert (Hlen : length ds <= int_max_str_digits).
  { apply rfind_le in Hr; [|discriminate].
    apply (Hlim (firstn found text) ds (skipn found text)).
    - now rewrite firstn_skipn.
    - rewrite (slice_app_skipn text found (start + 1)) by lia.
      now apply marker_prefix_app. }
  pose proof Hm as (ws & tail & _ & _ & _ & Hne & Hd).
  destruct (int_of_str_digits ds Hne Hd Hlen) as (n & _ & Hn).
  exists (Z.of_N n). rewrite H, Hn. reflexivity.
Qed.

(** A text without long runs of digits has no long marker. *)
Lemma digit_runs_within_limit text :
  longest_digit_run text <= int_max_str_digits -> markers_within_limit text.
Proof.
  intros Hrun pre ds w -> (ws & tail & -> & _ & _ & _ & Hd).
  etransitivity; [|exact Hrun].
  replace (pre ++ py "[PAGE" ++ ws ++ ds ++ py "]" ++ tail)
    with ((pre ++ py "[PAGE" ++ ws) ++ ds ++ (py "]" ++ tail))
    by (repeat rewrite <- app_assoc; reflexivity).
  now apply longest_digit_run_infix.
Qed.

(** ** Replacing one character *)

Lemma replace_char c new s :
  replace [c] new s = flat_map (fun x => if (x =? c)%N then new else [x]) s.
Proof.
  unfold replace. induction s as [|x s IH]; cbn; auto.
  rewrite IH. destruct (x =? c)%N; destruct s; reflexivity.
Qed.

Lemma digit_run_from_nondigits w s :
  forallb (fun x => negb (isdecimal x)) w = true ->
  digit_run_from 0 (w ++ s) = digit_run_from 0 s.
Proof.
  induction w as [|x w IH]; intros H; cbn in *; auto.
  apply andb_prop in H as [Hx Hw]. apply negb_true_iff in Hx.
  rewrite Hx. now apply IH.
Qed.

Lemma digit_run_replace_char c new s :
  new <> [] -> forallb (fun x => negb (isdecimal x)) new = true ->
  longest_digit_run (replace [c] new s) <= longest_digit_run s.
Proof.
  intros Hne Hnew. rewrite replace_char. unfold longest_digit_run.
  destruct new as [|n0 new']; [congruence|]. cbn in Hnew.
  apply andb_prop in Hnew as [Hn0 Hnew]. apply negb_true_iff in Hn0.
  enough (Hgen : forall cur,
             digit_run_from cur
               (flat_map (fun x => if (x =? c)%N then n0 :: new' else [x]) s)
             <= digit_run_from cur s) by apply Hgen.
  induction s as [|x s IH]; intros cur; cbn [flat_map]; auto.
  destruct (x =? c)%N eqn:E.
  - cbn [app digit_run_from]. rewrite Hn0.
    rewrite digit_run_from_nondigits by auto.
    destruct (isdecimal x).
    + pose proof (IH 0). pose proof (digit_run_from_mono 0 (S cur) s ltac:(lia)).
      pose proof (digit_run_from_ge (S cur) s). lia.
    + pose proof (IH 0). lia.
  - cbn [app digit_run_from]. destruct (isdecimal x).
    + apply IH.
    + pose proof (IH 0). lia.
Qed.

Lemma digit_run_normalize_dashes s :
  longest_digit_run (normalize_dashes s) <= longest_digit_run s.
Proof.
  unfold normalize_dashes.
  etransitivity; [apply digit_run_replace_char|apply digit_run_replace_char];
    try discriminate; reflexivity.
Qed.

(** An input without a run of more than 4300 decimal digits has no long
    marker once its dashes are normalized. *)
Lemma short_digit_runs_within_limit full_text :
  longest_digit_run full_text <= int_max_str_digits ->
  markers_within_limit (normalize_dashes full_text).
Proof.
  intros H. apply digit_runs_within_limit.
  etransitivity; [apply digit_run_normalize_dashes | exact H].
Qed.

(** ** [re.sub] of whitespace runs against the direct definition *)

Lemma space_run_le s : space_run s <= length s.
Proof. induction s as [|c s IH]; cbn; [|destruct (isspace c)]; lia. Qed.

Lemma collapse_runs_skip s :
  collapse_runs true s = collapse_runs false (skipn (space_run s) s).
Proof.
  induction s as [|c s IH]; cbn; auto.
  destruct (isspace c) eqn:E; cbn; auto. now rewrite E.
Qed.

Lemma repeat_greedy_spaces i s :
  repeat_greedy isspace i s (fun j t => Some (MState j t None))
  = Some (MState (i + space_run s) (skipn (space_run s) s) None).
Proof.
  revert i; induction s as [|c s IH]; intros i; cbn.
  - now rewrite Nat.add_0_r.
  - destruct (isspace c); cbn.
    + rewrite IH. now rewrite Nat.add_succ_r.
    + now rewrite Nat.add_0_r.
Qed.

Lemma match_at_spaces i s :
  match_at false spaces_re i s =
  match s with
  | c :: s' =>
      if isspace c then Some (MkMatch i (S i + space_run s') None) else None
  | [] => None
  end.
Proof.
  unfold match_at, spaces_re. destruct s as [|c s']; cbn; auto.
  destruct (isspace c); auto.
  change (fun (i0 : nat) (s : str) => Some (MState i0 s None))
    with (fun (j : nat) (t : str) => Some (MState j t None)).
  now rewrite repeat_greedy_spaces.
Qed.

Lemma finditer_from_skip ic r :
  forall s i skip,
    skip <= length s ->
    finditer_from ic r i s skip = finditer_from ic r (i + skip) (skipn skip s) 0.
Proof.
  induction s as [|c s IH]; intros i skip H.
  - cbn in H. assert (skip = 0) as -> by lia. now rewrite Nat.add_0_r.
  - destruct skip as [|n].
    + now rewrite Nat.add_0_r.
    + cbn [finditer_from skipn]. rewrite IH by (cbn in H; lia).
      f_equal. lia.
Qed.

Lemma slice_prefix (pre s : str) cur :
  cur <= length pre -> slice (pre ++ s) cur (length pre) = skipn cur pre.
Proof.
  intros H. rewrite slice_skipn_firstn. f_equal. apply firstn_app_length.
Qed.

Lemma sub_spaces_from n :
  forall s pre cur,
    length s <= n -> cur <= length pre ->
    sub_from (finditer_from false spaces_re (length pre) s 0) (py " ")
      (pre ++ s) cur
    = skipn cur pre ++ collapse_runs false s.
Proof.
  induction n as [|n IH]; intros s pre cur Hn Hcur.
  - destruct s; [|cbn in Hn; lia]. cbn. rewrite app_nil_r.
    change (match_at false spaces_re (length pre) []) with (@None Match).
    cbn. now rewrite app_nil_r.
  - destruct s as [|c s].
    + apply (IH [] pre cur); cbn; lia.
    + cbn [finditer_from collapse_runs]. rewrite match_at_spaces.
      assert (Hpre : pre ++ c :: s = (pre ++ [c]) ++ s)
        by now rewrite <- app_assoc.
      assert (Hlen : S (length pre) = length (pre ++ [c]))
        by (rewrite length_app; cbn; lia).
      destruct (isspace c) eqn:E.
      * cbn [sub_from m_start m_end].
        rewrite slice_prefix by auto. f_equal. cbn [py app]. f_equal.
        rewrite collapse_runs_skip.
        pose proof (space_run_le s) as Hrun.
        rewrite finditer_from_skip by lia.
        replace (S (length pre) + space_run s - length pre - 1)
          with (space_run s) by lia.
        set (k := space_run s) in *.
        replace (pre ++ c :: s)
          with ((pre ++ c :: firstn k s) ++ skipn k s)
          by (rewrite <- app_assoc; cbn; now rewrite firstn_skipn).
        replace (S (length pre) + k) with (length (pre ++ c :: firstn k s))
          by (rewrite length_app; cbn; rewrite length_firstn; lia).
        rewrite IH; auto.
        -- now rewrite skipn_all.
        -- rewrite length_skipn. cbn in Hn. lia.
      * rewrite Hlen, Hpre, IH by (cbn in Hn; rewrite <- ?Hlen; lia).
        rewrite skipn_app. replace (cur - length pre) with 0 by lia.
        cbn. now rewrite <- app_assoc.
Qed.

(** [re.sub(r"\s+", " ", s)] collapses the whitespace runs of [s]. *)
Lemma sub_spaces_collapse s :
  sub false spaces_re (py " ") s = collapse_runs false s.
Proof.
  unfold sub, finditer.
  exact (sub_spaces_from (length s) s [] 0 (Nat.le_refl _) (Nat.le_refl _)).
Qed.

(** ** No match anywhere *)

Lemma finditer_from_none ic r :
  forall s i,
    (forall j, j <= length s -> match_at ic r (i + j) (skipn j s) = None) ->
    finditer_from ic r i s 0 = [].
Proof.
  induction s as [|c s IH]; intros i H.
  - specialize (H 0 (Nat.le_0_l _)). rewrite Nat.add_0_r in H. cbn in *.
    now rewrite H.
  - pose proof (H 0 (Nat.le_0_l _)) as H0. rewrite Nat.add_0_r in H0.
    cbn in H0. cbn [finditer_from]. rewrite H0. apply IH. intros j Hj.
    specialize (H (S j)). rewrite Nat.add_succ_r in H. apply H. cbn. lia.
Qed.

(** ** Results that are always there *)

Lemma for_enumerate_ok A B (body : nat -> A -> result B) (P : B -> Prop) :
  forall l i,
    (forall j x, nth_error l j = Some x ->
                 exists y, body (i + j) x = Ok y /\ P y) ->
    exists ys, for_enumerate body i l = Ok ys /\ Forall P ys /\
               length ys = length l.
Proof.
  induction l as [|x l IH]; intros i H; cbn.
  - exists []. auto.
  - destruct (H 0 x eq_refl) as (y & Hy & Py). rewrite Nat.add_0_r in Hy.
    rewrite Hy. cbn.
    destruct (IH (S i)) as (ys & Hys & Pys & Hlen).
    { intros j x' Hj. specialize (H (S j) x' Hj).
      now rewrite Nat.add_succ_r in H. }
    rewrite Hys. cbn. exists (y :: ys). repeat split; auto. cbn. lia.
Qed.

Lemma section_of_ok text heading_iter idx m :
  markers_within_limit text ->
  exists d, section_of text heading_iter idx m = Ok d /\ is_section d.
Proof.
  intros Hrun. unfold section_of, getitem.
  assert (Hend : exists e,
             (if idx + 1 <? length heading_iter
              then nxt <- match nth_error heading_iter (idx + 1) with
                          | Some x => Ok x
                          | None => Raise IndexError
                          end ;; Ok (m_start nxt)
              else Ok (length text)) = Ok e).
  { destruct (idx + 1 <? length heading_iter) eqn:E; eauto.
    apply Nat.ltb_lt in E.
    destruct (nth_error heading_iter (idx + 1)) eqn:En; cbn; eauto.
    apply nth_error_None in En. lia. }
  destruct Hend as (e & ->). cbn.
  destruct (recover_page_ok text (m_start m) Hrun) as [->|(z & ->)]; cbn;
    eexists; split; try reflexivity; unfold is_section; eauto 10.
Qed.

Lemma split_into_sections_ok full_text :
  markers_within_limit (normalize_dashes full_text) ->
  exists secs,
    split_into_sections full_text = Ok secs /\
    secs <> [] /\ Forall is_section secs.
Proof.
  intros Hrun. unfold split_into_sections.
  set (text := normalize_dashes full_text) in *.
  destruct (finditer true heading_re text) as [|m ms] eqn:E.
  - eexists. split; [reflexivity|]. split; [discriminate|].
    constructor; auto. unfold is_section. eauto 10.
  - destruct (for_enumerate_ok _ _ (section_of text (m :: ms)) is_section
                (m :: ms) 0) as (ys & Hys & Pys & Hlen).
    { intros j x _. now apply section_of_ok. }
    exists ys. repeat split; auto. destruct ys; [discriminate|discriminate].
Qed.

(** ** Dictionaries *)

Lemma dict_lookup_set_same k v d : dict_lookup k (dict_set k v d) = Some v.
Proof.
  induction d as [|[k' v'] d IH]; cbn.
  - now rewrite String.eqb_refl.
  - destruct (String.eqb k' k) eqn:E; cbn; now rewrite E.
Qed.

Lemma dict_lookup_set_other k k' v d :
  k <> k' -> dict_lookup k (dict_set k' v d) = dict_lookup k d.
Proof.
  intros Hne. induction d as [|[k0 v0] d IH]; cbn.
  - destruct (String.eqb k' k) eqn:E; auto.
    apply String.eqb_eq in E. congruence.
  - destruct (String.eqb k0 k') eqn:E; cbn.
    + apply String.eqb_eq in E. subst k0.
      destruct (String.eqb k' k) eqn:E'; auto.
      apply String.eqb_eq in E'. congruence.
    + now rewrite IH.
Qed.

Lemma finish_section_inv filename i d c :
  dict_get "content" (VStr []) d = VStr c ->
  exists d',
    finish_section filename i d = Ok d' /\
    dict_lookup "id" d'
    = Some (VStr (filename ++ py "-rule-" ++ str_of_nat (i + 1))) /\
    dict_lookup "snippet" d' = Some (VStr (make_snippet_n c 200)) /\
    dict_lookup "title" d' = dict_lookup "title" d /\
    dict_lookup "content" d' = dict_lookup "content" d /\
    (dict_lookup "start_page" d' = dict_lookup "start_page" d \/
     dict_lookup "start_page" d = None /\
     dict_lookup "start_page" d' = Some VNone).
Proof.
  intros Hc. unfold finish_section.
  set (id := VStr (filename ++ py "-rule-" ++ str_of_nat (i + 1))).
  assert (Hget : dict_get "content" (VStr []) (dict_set "id" id d) = VStr c).
  { unfold dict_get in *. now rewrite dict_lookup_set_other by discriminate. }
  rewrite Hget. cbn [make_snippet bind].
  set (s2 := dict_set "snippet" (VStr (make_snippet_n c 200))
               (dict_set "id" id d)).
  assert (L : forall k, k <> "id"%string -> k <> "snippet"%string ->
                        dict_lookup k s2 = dict_lookup k d).
  { intros k H1 H2. unfold s2. now rewrite !dict_lookup_set_other by auto. }
  assert (Lid : dict_lookup "id" s2 = Some id).
  { unfold s2. rewrite dict_lookup_set_other by discriminate.
    apply dict_lookup_set_same. }
  assert (Lsn : dict_lookup "snippet" s2 = Some (VStr (make_snippet_n c 200)))
    by apply dict_lookup_set_same.
  eexists. split; [reflexivity|].
  unfold dict_contains. rewrite (L "start_page"%string) by discriminate.
  destruct (dict_lookup "start_page" d) as [p|] eqn:Ep; cbn [negb].
  - rewrite Lid, Lsn, !L by discriminate. rewrite Ep. repeat split; auto.
  - rewrite !dict_lookup_set_other by discriminate.
    rewrite Lid, Lsn, !L by discriminate. rewrite dict_lookup_set_same.
    repeat split; auto.
Qed.

(** The scan finds nothing exactly when the pattern matches at no offset. *)
Lemma finditer_nil_iff ic r text :
  finditer ic r text = [] <->
  forall i, i <= length text -> match_at ic r i (skipn i text) = None.
Proof.
  split.
  - intros H i Hi.
    destruct (match_at ic r i (skipn i text)) as [m|] eqn:E; auto. exfalso.
    assert (Hgen : forall s (pre : str) skip,
               finditer_from ic r (length pre) s skip = [] ->
               forall j, skip <= j -> j <= length s ->
                         match_at ic r (length pre + j) (skipn j s) = None).
    { clear. induction s as [|c s IH]; intros pre skip Hnil j Hsk Hj.
      - cbn in Hj. assert (j = 0) as -> by lia. assert (skip = 0) as -> by lia.
        cbn in *. rewrite Nat.add_0_r.
        destruct (match_at ic r (length pre) []); [discriminate | auto].
      - assert (Hlen : S (length pre) = length (pre ++ [c]))
          by (rewrite length_app; cbn; lia).
        destruct skip as [|n].
        + cbn [finditer_from] in Hnil.
          destruct (match_at ic r (length pre) (c :: s)) eqn:E0;
            [discriminate|].
          destruct j as [|j]; [now rewrite Nat.add_0_r|].
          replace (length pre + S j) with (length (pre ++ [c]) + j)
            by (rewrite <- Hlen; lia).
          rewrite Hlen in Hnil. cbn [skipn].
          apply (IH _ _ Hnil); cbn in Hj; lia.
        + cbn [finditer_from] in Hnil. destruct j as [|j]; [lia|].
          replace (length pre + S j) with (length (pre ++ [c]) + j)
            by (rewrite <- Hlen; lia).
          rewrite Hlen in Hnil. cbn [skipn].
          apply (IH _ _ Hnil); cbn in Hj; lia. }
    specialize (Hgen text [] 0 H i (Nat.le_0_l _) Hi). cbn in Hgen. congruence.
  - intros H. apply finditer_from_none. exact H.
Qed.

(** A limit that is not negative cuts at the limit, and the ellipsis is
    added when something was cut. *)
Lemma make_snippet_n_collapse c (n : nat) :
  make_snippet_n c (Z.of_nat n)
  = let txt := strip (collapse_runs false c) in
    firstn n txt ++ (if n <? length txt then [ELLIPSIS] else []).
Proof.
  unfold make_snippet_n, slice_to. rewrite sub_spaces_collapse. cbv zeta.
  replace (Z.of_nat n <? 0)%Z with false by (symmetry; apply Z.ltb_ge; lia).
  rewrite Nat2Z.id. f_equal. rewrite Z.gtb_ltb.
  destruct (n <? length (strip (collapse_runs false c))) eqn:E.
  - apply Nat.ltb_lt in E.
    now replace (Z.of_nat n <? _)%Z with true by (symmetry; apply Z.ltb_lt; lia).
  - apply Nat.ltb_ge in E.
    now replace (Z.of_nat n <? _)%Z with false by (symmetry; apply Z.ltb_ge; lia).
Qed.

Lemma make_snippet_200 c :
  make_snippet_n c 200
  = let txt := strip (collapse_runs false c) in
    firstn 200 txt ++ (if 200 <? length txt then [ELLIPSIS] else []).
Proof. exact (make_snippet_n_collapse c 200). Qed.

(** A negative limit cuts that many characters off the end, and the
    ellipsis is always added. *)
Lemma make_snippet_n_negative c n :
  (n < 0)%Z ->
  make_snippet_n c n
  = let txt := strip (collapse_runs false c) in
    firstn (length txt - Z.to_nat (- n)) txt ++ [ELLIPSIS].
Proof.
  intros Hn. unfold make_snippet_n, slice_to. rewrite sub_spaces_collapse.
  cbv zeta.
  replace (n <? 0)%Z with true by (symmetry; apply Z.ltb_lt; lia).
  f_equal. rewrite Z.gtb_ltb.
  now replace (n <? _)%Z with true by (symmetry; apply Z.ltb_lt; lia).
Qed.

(** The two shapes of a snippet. *)
Lemma make_snippet_n_cases c n :
  let txt := strip (collapse_runs false c) in
  (exists m : nat,
     n = Z.of_nat m /\
     make_snippet_n c n
     = firstn m txt ++ (if m <? length txt then [ELLIPSIS] else [])) \/
  (n < 0)%Z /\
  make_snippet_n c n = firstn (length txt - Z.to_nat (- n)) txt ++ [ELLIPSIS].
Proof.
  cbv zeta. destruct (Z.neg_nonneg_cases n) as [Hn|Hn].
  - right. split; auto. now apply make_snippet_n_negative.
  - left. exists (Z.to_nat n). rewrite <- (make_snippet_n_collapse c).
    now rewrite Z2Nat.id.
Qed.

Lemma finish_sections_ok filename sections :
  Forall (fun d => exists c, dict_get "content" (VStr []) d = VStr c) sections ->
  exists finished,
    finish_sections filename sections = Ok finished /\
    length finished = length sections.
Proof.
  intros Hall. unfold finish_sections.
  destruct (for_enumerate_ok _ _ (finish_section filename) (fun _ => True)
              sections 0) as (finished & Hfin & _ & Hlen).
  { intros j d Hj. rewrite Forall_forall in Hall.
    destruct (Hall d (nth_error_In _ _ Hj)) as (c & Hc).
    destruct (finish_section_inv filename (0 + j) d c Hc) as (d' & Hd' & _).
    eauto. }
  now exists finished.
Qed.

Lemma is_section_content d :
  is_section d -> exists c, dict_get "content" (VStr []) d = VStr c.
Proof. intros (t & c & p & -> & _). now exists c. Qed.

Lemma section_titles_in_order text heading_iter :
  forall l i ys,
    for_enumerate (section_of text heading_iter) i l = Ok ys ->
    map title_of ys = map (heading_title text) l.
Proof.
  induction l as [|m l IH]; intros i ys H; cbn in H.
  - now injection H as <-.
  - destruct (section_of text heading_iter i m) as [d|] eqn:Ed; [|discriminate].
    cbn in H.
    destruct (for_enumerate (section_of text heading_iter) (S i) l)
      as [ys'|] eqn:El; [|discriminate].
    cbn in H. injection H as <-.
    apply section_of_inv in Ed as (page & _ & ->). cbn [map].
    now rewrite (IH _ _ El).
Qed.

(** ** Decimal numerals *)

Lemma uint_digits_decimal d : forallb isdecimal (uint_digits d) = true.
Proof.
  induction d; cbn [uint_digits forallb]; auto;
    (apply andb_true_intro; split; [vm_compute; reflexivity | assumption]).
Qed.

Lemma uint_digits_value d :
  forall acc,
    decimal_value acc (uint_digits d)
    = Some (N.of_nat (Nat.of_uint_acc d (N.to_nat acc))).
Proof.
  induction d; intros acc; cbn [uint_digits decimal_value Nat.of_uint_acc];
    [ now rewrite N2Nat.id | .. ];
    match goal with
    | |- context [todecimal ?c] =>
        let v := eval vm_compute in (todecimal c) in
        change (todecimal c) with v; cbv iota beta
    end;
    rewrite IHd; do 3 f_equal; rewrite Nat.tail_mul_spec; lia.
Qed.

Lemma str_of_nat_value n :
  decimal_value 0 (str_of_nat n) = Some (N.of_nat n).
Proof.
  unfold str_of_nat. rewrite uint_digits_value.
  change (Nat.of_uint_acc (Nat.to_uint n) (N.to_nat 0))
    with (Nat.of_uint (Nat.to_uint n)).
  now rewrite DecimalNat.Unsigned.of_to.
Qed.

Lemma str_of_nat_nonempty n : str_of_nat n <> [].
Proof.
  unfold str_of_nat.
  assert (H : Nat.to_uint n <> Decimal.Nil).
  { rewrite <- (DecimalNat.Unsigned.of_to n) at 1.
    rewrite DecimalNat.Unsigned.to_of. apply DecimalFacts.unorm_nonnil. }
  destruct (Nat.to_uint n); [congruence | discriminate ..].
Qed.

Lemma page_block_marker i p : page_block i p = page_marker (i + 1) ++ p.
Proof. unfold page_block, page_marker. now rewrite <- !app_assoc. Qed.

Lemma page_marker_prefix n tail :
  marker_prefix (str_of_nat n) (page_marker n ++ tail).
Proof.
  exists [SPACE], (NL :: tail). repeat split.
  - unfold page_marker. now rewrite <- !app_assoc.
  - discriminate.
  - apply str_of_nat_nonempty.
  - apply uint_digits_decimal.
Qed.

(** ** [join_pages] *)

Lemma join_snoc sep (f : nat -> str -> str) :
  forall ps i p,
    join sep (map (fun ip => f (fst ip) (snd ip)) (enumerate_from i (ps ++ [p])))
    = join sep (map (fun ip => f (fst ip) (snd ip)) (enumerate_from i ps))
      ++ (match ps with [] => [] | _ :: _ => sep end)
      ++ f (i + length ps) p.
Proof.
  induction ps as [|q qs IH]; intros i p.
  - cbn. now rewrite Nat.add_0_r.
  - specialize (IH (S i) p). destruct qs as [|q' qs'].
    + cbn. now rewrite Nat.add_1_r.
    + cbn [app enumerate_from map join fst snd] in *. rewrite IH.
      rewrite <- !app_assoc. do 5 f_equal. cbn [length]. lia.
Qed.

Lemma join_pages_snoc pages p :
  join_pages (pages ++ [p])
  = join_pages pages
    ++ (match pages with [] => [] | _ :: _ => py "\n\n" end)
    ++ page_marker (length pages + 1) ++ p.
Proof.
  unfold join_pages, enumerate. rewrite (join_snoc _ page_block).
  now rewrite page_block_marker.
Qed.

(** ** The sections and the heading matches *)

Lemma split_sections_nth full_text sections :
  let text := normalize_dashes full_text in
  let heading_iter := finditer true heading_re text in
  split_into_sections full_text = Ok sections ->
  heading_iter <> [] ->
  length sections = length heading_iter /\
  forall i m d,
    nth_error heading_iter i = Some m -> nth_error sections i = Some d ->
    exists page,
      recover_page text (m_start m) = Ok page /\
      d = section (heading_title text m)
            (strip (slice text (m_end m) (next_start text heading_iter i)))
            page.
Proof.
  intros text heading_iter Hs Hne. unfold split_into_sections in Hs.
  fold text in Hs. fold heading_iter in Hs.
  destruct heading_iter as [|m0 ms] eqn:E; [congruence|].
  apply for_enumerate_inv in Hs as (Hlen & Hnth). split; auto.
  intros i m d Hm Hd. specialize (Hnth i m d Hm Hd). cbn in Hnth.
  now apply section_of_inv in Hnth.
Qed.

Lemma heading_re_min_len : min_len heading_re = 6.
Proof. vm_compute. reflexivity. Qed.

(** ** The page of a section *)

Lemma rfind_last text sub stop found :
  sub <> [] ->
  occurs_at sub (firstn stop text) found ->
  (forall j, found < j -> ~ occurs_at sub (firstn stop text) j) ->
  rfind text sub stop = Some found.
Proof.
  intros Hne Ho Hlast. pose proof (rfind_spec text sub stop Hne) as H.
  destruct (rfind text sub stop) as [j|].
  - destruct H as (Hj & Hjlast). f_equal.
    destruct (Nat.lt_trichotomy j found) as [Hlt|[->|Hgt]]; auto.
    + now apply Hjlast in Ho.
    + now apply Hlast in Hj.
  - now apply H in Ho.
Qed.

Lemma recover_page_none text start :
  (forall j, ~ occurs_at (py "[PAGE") (firstn start text) j) ->
  recover_page text start = Ok VNone.
Proof.
  intros Hnone. pose proof (rfind_spec text (py "[PAGE") start) as H.
  unfold recover_page. destruct (rfind text (py "[PAGE") start) as [j|]; auto.
  destruct H as (Hj & _); [discriminate|]. now apply Hnone in Hj.
Qed.

Lemma marker_prefix_unique ds ds' w :
  marker_prefix ds w -> marker_prefix ds' w -> ds = ds'.
Proof.
  intros (ws & tail & Hw & Hws & Hsp & Hds & Hdg)
         (ws' & tail' & Hw' & Hws' & Hsp' & Hds' & Hdg').
  pose proof (page_re_match_marker ws ds tail Hws Hsp Hds Hdg) as M.
  pose proof (page_re_match_marker ws' ds' tail' Hws' Hsp' Hds' Hdg') as M'.
  rewrite <- Hw in M. rewrite <- Hw' in M'. rewrite M in M'.
  injection M' as H1 H2 H3.
  assert (Hlw : length ws = length ws') by lia.
  assert (Hld : length ds = length ds') by lia.
  rewrite Hw' in Hw. apply app_inv_head in Hw.
  apply (f_equal (skipn (length ws))) in Hw.
  rewrite Hlw in Hw at 1. rewrite !skipn_app_length in Hw.
  apply (f_equal (firstn (length ds))) in Hw.
  rewrite Hld in Hw at 1. now rewrite !firstn_app_length in Hw.
Qed.

Lemma recover_page_marker text start found ds :
  occurs_at (py "[PAGE") (firstn start text) found ->
  (forall j, found < j -> ~ occurs_at (py "[PAGE") (firstn start text) j) ->
  marker_prefix ds (slice text found (start + 1)) ->
  recover_page text start = (n <- int_of_str ds ;; Ok (VInt n)).
Proof.
  intros Ho Hlast Hm.
  pose proof (rfind_last text (py "[PAGE") start found ltac:(discriminate)
                Ho Hlast) as Hr.
  pose proof (recover_page_cases text start) as H. rewrite Hr in H.
  cbv zeta in H. destruct H as [(_ & Hno)|(ds' & Hm' & H)].
  - now apply Hno in Hm.
  - now rewrite (marker_prefix_unique ds ds' _ Hm Hm').
Qed.

Lemma recover_page_malformed text start found :
  occurs_at (py "[PAGE") (firstn start text) found ->
  (forall j, found < j -> ~ occurs_at (py "[PAGE") (firstn start text) j) ->
  (forall ds, ~ marker_prefix ds (slice text found (start + 1))) ->
  recover_page text start = Ok VNone.
Proof.
  intros Ho Hlast Hno.
  pose proof (rfind_last text (py "[PAGE") start found ltac:(discriminate)
                Ho Hlast) as Hr.
  pose proof (recover_page_cases text start) as H. rewrite Hr in H.
  cbv zeta in H. destruct H as [(H & _)|(ds' & Hm' & _)]; auto.
  now apply Hno in Hm'.
Qed.

Lemma int_of_str_ok_value ds z :
  int_of_str ds = Ok z -> exists n, decimal_value 0 ds = Some n /\ z = Z.of_N n.
Proof.
  unfold int_of_str. destruct ds as [|c ds]; [discriminate|].
  destruct (decimal_value 0 (c :: ds)) as [n|]; [|discriminate].
  destruct (length (c :: ds) <=? int_max_str_digits); [|discriminate].
  intros H. injection H as <-. now exists n.
Qed.

Lemma section_start_page full_text sections i m d :
  let text := normalize_dashes full_text in
  split_into_sections full_text = Ok sections ->
  nth_error (finditer true heading_re text) i = Some m ->
  nth_error sections i = Some d ->
  exists page,
    recover_page text (m_start m) = Ok page /\
    dict_lookup "start_page" d = Some page.
Proof.
  intros text Hs Hm Hd.
  assert (Hne : finditer true heading_re text <> [])
    by (intros E; rewrite E in Hm; destruct i; discriminate).
  destruct (split_sections_nth full_text sections Hs Hne) as (_ & Hnth).
  destruct (Hnth i m d Hm Hd) as (page & Hp & ->). now exists page.
Qed.

Lemma no_marker_prefix w :
  match_at false page_re 0 w = None -> forall ds, ~ marker_prefix ds w.
Proof.
  intros E ds (ws & tail & Hw & Hws & Hsp & Hds & Hdg).
  rewrite Hw, page_re_match_marker in E; auto. discriminate.
Qed.

(** ** Page recovery on joined documents *)

Lemma in_skipn A (x : A) n l : In x (skipn n l) -> In x l.
Proof.
  intros H. rewrite <- (firstn_skipn n l). apply in_or_app. now right.
Qed.

Lemma startswith_trailing sub :
  forall a w,
    (forall c, In c w -> ~ In c sub) ->
    startswith (a ++ w) sub = true -> startswith a sub = true.
Proof.
  induction sub as [|x sub IH]; intros a w Hw H.
  - now destruct a.
  - destruct a as [|y a]; cbn in *.
    + destruct w as [|c w]; [discriminate|].
      apply andb_prop in H as [Hc _]. apply N.eqb_eq in Hc. subst c.
      exfalso. apply (Hw x); cbn; auto.
    + apply andb_prop in H as [Hy H]. rewrite Hy. cbn.
      apply (IH a w); auto. intros c Hc Hin. apply (Hw c Hc). now right.
Qed.

Lemma occurs_at_trailing sub u w j :
  (forall c, In c w -> ~ In c sub) ->
  occurs_at sub (u ++ w) j -> occurs_at sub u j.
Proof.
  unfold occurs_at. intros Hw H. rewrite skipn_app in H.
  apply startswith_trailing in H; auto.
  intros c Hc. apply Hw. eapply in_skipn; eauto.
Qed.

Lemma occurs_at_leading x sub u v j :
  ~ In x u ->
  occurs_at (x :: sub) (u ++ v) j ->
  length u <= j /\ occurs_at (x :: sub) v (j - length u).
Proof.
  unfold occurs_at. intros Hx H. rewrite skipn_app in H.
  destruct (skipn j u) as [|y a] eqn:E.
  - split; auto.
    destruct (Nat.le_gt_cases (length u) j) as [Hle|Hgt]; auto.
    apply (f_equal (@length _)) in E. rewrite length_skipn in E. cbn in E. lia.
  - cbn in H. apply andb_prop in H as [Hy _]. apply N.eqb_eq in Hy. subst y.
    exfalso. apply Hx. apply (in_skipn _ x j u). rewrite E. now left.
Qed.

Lemma startswith_firstn n :
  forall a sub, startswith (firstn n a) sub = true -> startswith a sub = true.
Proof.
  induction n as [|n IH]; intros a sub H.
  - cbn in H. destruct sub; [now destruct a | discriminate].
  - destruct a as [|y a]; [now rewrite firstn_nil in H|].
    destruct sub as [|x sub]; auto. cbn in *.
    apply andb_prop in H as [Hy H]. rewrite Hy. cbn. now apply IH.
Qed.

Lemma occurs_at_firstn sub t n j :
  occurs_at sub (firstn n t) j -> occurs_at sub t j.
Proof.
  unfold occurs_at. rewrite skipn_firstn_comm. apply startswith_firstn.
Qed.

Lemma uint_digits_range d c :
  In c (uint_digits d) -> (0x30 <= c <= 0x39)%N.
Proof.
  induction d; cbn; intros H; try tauto;
    destruct H as [<-|H]; auto; lia.
Qed.

Lemma page_marker_open n :
  exists mt, page_marker n = 0x5B%N :: mt /\ ~ In 0x5B%N mt.
Proof.
  exists (py "PAGE " ++ str_of_nat n ++ py "]\n"). split; [reflexivity|].
  intros H. apply in_app_or in H as [H|H].
  - cbn in H. repeat (destruct H as [H|H]; [discriminate H|]). tauto.
  - apply in_app_or in H as [H|H].
    + apply uint_digits_range in H. lia.
    + cbn in H. repeat (destruct H as [H|H]; [discriminate H|]). tauto.
Qed.

Lemma page_marker_newline n :
  exists m0, page_marker n = m0 ++ [NL] /\ ~ In NL m0 /\ 8 <= length m0.
Proof.
  exists (py "[PAGE " ++ str_of_nat n ++ py "]"). split; [|split].
  - unfold page_marker. now rewrite <- !app_assoc.
  - intros H. apply in_app_or in H as [H|H].
    + cbn in H. repeat (destruct H as [H|H]; [discriminate H|]). tauto.
    + apply in_app_or in H as [H|H].
      * apply uint_digits_range in H. unfold NL in H. lia.
      * cbn in H. repeat (destruct H as [H|H]; [discriminate H|]). tauto.
  - rewrite !length_app. cbn [py length].
    pose proof (str_of_nat_nonempty n). destruct (str_of_nat n); [congruence|].
    cbn. lia.
Qed.

Lemma firstn_app_le A (X Y : list A) n :
  n <= length X -> firstn n (X ++ Y) = firstn n X.
Proof.
  intros H. rewrite firstn_app. replace (n - length X) with 0 by lia.
  cbn. apply app_nil_r.
Qed.

Lemma first_block_rfind n p R s :
  no_page_literal p ->
  (R = [] \/ exists R', R = NL :: R') ->
  nth_error (page_marker n ++ p ++ R) s = Some NL ->
  s < length (page_marker n) + length p + 2 ->
  rfind (page_marker n ++ p ++ R) (py "[PAGE") s = Some 0 /\
  marker_prefix (str_of_nat n) (slice (page_marker n ++ p ++ R) 0 (s + 1)) /\
  length (page_marker n) <= s + 1.
Proof.
  intros Hp HR Hs Hlt.
  destruct (page_marker_newline n) as (m0 & Hm0 & Hnl & Hlen0).
  assert (Hge : length (page_marker n) <= s + 1).
  { rewrite Hm0, length_app. cbn [length].
    destruct (Nat.le_gt_cases (length m0) s) as [Hle|Hgt]; [lia|].
    exfalso. rewrite Hm0, <- !app_assoc in Hs.
    rewrite nth_error_app1 in Hs by auto.
    apply Hnl. eapply nth_error_In; eauto. }
  assert (H9 : 9 <= length (page_marker n))
    by (rewrite Hm0, length_app; cbn [length]; lia).
  split; [|split; auto].
  - apply rfind_last; [discriminate| |].
    + unfold occurs_at. cbn [skipn]. apply startswith_app.
      change (page_marker n) with (py "[PAGE" ++ SPACE :: str_of_nat n ++ py "]\n").
      rewrite <- app_assoc.
      rewrite firstn_app, (firstn_all2 (py "[PAGE")) by (cbn; lia). eauto.
    + intros j Hj Ho.
      destruct (page_marker_open n) as (mt & Hmt & Hopen).
      assert (Hlmt : length (page_marker n) = S (length mt))
        by (now rewrite Hmt).
      rewrite Hmt in Ho. destruct s as [|s']; [lia|].
      destruct j as [|j']; [lia|]. cbn [app firstn] in Ho.
      unfold occurs_at in Ho. cbn [skipn] in Ho.
      fold (occurs_at (py "[PAGE") (firstn s' (mt ++ p ++ R)) j') in Ho.
      rewrite firstn_app in Ho.
      apply occurs_at_leading in Ho as (_ & Ho).
      2:{ intros Hin. apply Hopen. rewrite <- (firstn_skipn s' mt).
          apply in_or_app. now left. }
      assert (Hn' : s' - length mt <= length p + 1) by lia.
      destruct HR as [->|(R' & ->)].
      * rewrite app_nil_r in Ho. apply occurs_at_firstn in Ho. now apply Hp in Ho.
      * change (NL :: R') with ([NL] ++ R') in Ho. rewrite app_assoc in Ho.
        rewrite firstn_app_le in Ho
          by (rewrite length_app; cbn [length]; unfold str, char in *; lia).
        apply occurs_at_firstn in Ho. apply occurs_at_trailing in Ho.
        -- now apply Hp in Ho.
        -- intros c [<-|[]] Hin. cbn in Hin.
           repeat (destruct Hin as [Hin|Hin]; [discriminate Hin|]). tauto.
  - rewrite slice_skipn_firstn. cbn [skipn]. rewrite firstn_app.
    rewrite firstn_all2 by lia. apply page_marker_prefix.
Qed.

Ltac len_lia := unfold str, char in *; lia.

Lemma rfind_app_shift (A T' : str) sub s' f' :
  sub <> [] ->
  rfind T' sub s' = Some f' ->
  rfind (A ++ T') sub (length A + s') = Some (length A + f').
Proof.
  intros Hne Hr. pose proof (rfind_spec T' sub s' Hne) as H.
  rewrite Hr in H. destruct H as (Ho & Hlast).
  apply rfind_last; auto.
  - unfold occurs_at in *. rewrite firstn_app_2, skipn_app.
    rewrite skipn_all2 by lia.
    now replace (length A + f' - length A) with f' by lia.
  - intros j Hj Hoj. apply (Hlast (j - length A)); [lia|].
    unfold occurs_at in *. rewrite firstn_app_2, skipn_app in Hoj.
    now rewrite skipn_all2 in Hoj by lia.
Qed.

Lemma slice_app_shift (A T' : str) a b :
  slice (A ++ T') (length A + a) (length A + b) = slice T' a b.
Proof.
  unfold slice. rewrite skipn_app, skipn_all2 by lia. cbn [app].
  f_equal; [lia|]. f_equal. lia.
Qed.

Lemma joined_cons i p ps :
  joined_from i (p :: ps)
  = page_block i p
    ++ match ps with
       | [] => []
       | _ :: _ => py "\n\n" ++ joined_from (S i) ps
       end.
Proof.
  unfold joined_from. destruct ps; cbn [enumerate_from map join fst snd].
  - now rewrite app_nil_r.
  - reflexivity.
Qed.

Lemma page_offset_cons i p ps k :
  ps <> [] ->
  page_offset i (p :: ps) (S k)
  = length (page_block i p) + 2 + page_offset (S i) ps k.
Proof.
  intros Hne. unfold page_offset. cbn [firstn]. rewrite joined_cons.
  destruct k as [|k].
  - cbn [firstn]. rewrite app_nil_r. lia.
  - destruct ps as [|q ps]; [congruence|]. cbn [firstn].
    rewrite !length_app. cbn [py length]. lia.
Qed.

Lemma joined_recover :
  forall ps i s,
    Forall no_page_literal ps ->
    nth_error (joined_from i ps) s = Some NL ->
    exists k,
      k < length ps /\
      page_offset i ps k + length (page_marker (i + k + 1)) <= s + 1 /\
      (k + 1 < length ps -> s < page_offset i ps (k + 1)) /\
      rfind (joined_from i ps) (py "[PAGE") s = Some (page_offset i ps k) /\
      marker_prefix (str_of_nat (i + k + 1))
        (slice (joined_from i ps) (page_offset i ps k) (s + 1)).
Proof.
  induction ps as [|p ps IH]; intros i s Hclean Hs.
  - destruct s; discriminate.
  - inversion Hclean as [|? ? Hp Hps]; subst.
    rewrite joined_cons in *. rewrite page_block_marker in *.
    destruct (Nat.lt_ge_cases s
                (length (page_marker (i + 1)) + length p + 2)) as [Hlt|Hge].
    + (* on the first page *)
      rewrite <- app_assoc in *.
      destruct (first_block_rfind (i + 1) p
                  (match ps with
                   | [] => []
                   | _ :: _ => py "\n\n" ++ joined_from (S i) ps
                   end) s Hp) as (Hr & Hm & Hlen); auto.
      { destruct ps; [now left | right; eexists; reflexivity]. }
      exists 0. rewrite Nat.add_0_r. cbn [page_offset]. repeat split; auto.
      * cbn [length]. lia.
      * intros _. change (0 + 1) with 1. unfold page_offset. cbn [firstn].
        rewrite joined_cons, page_block_marker, app_nil_r, length_app.
        len_lia.
    + (* on a later page *)
      destruct ps as [|q ps'].
      { rewrite app_nil_r in Hs.
        assert (s < length (page_marker (i + 1) ++ p))
          by (apply nth_error_Some; congruence).
        rewrite length_app in *. len_lia. }
      set (A := (page_marker (i + 1) ++ p) ++ py "\n\n") in *.
      assert (HA : length A = length (page_marker (i + 1)) + length p + 2)
        by (unfold A; rewrite !length_app; cbn [py length]; len_lia).
      assert (HT : (page_marker (i + 1) ++ p)
                     ++ py "\n\n" ++ joined_from (S i) (q :: ps')
                   = A ++ joined_from (S i) (q :: ps'))
        by (unfold A; now rewrite <- !app_assoc).
      rewrite HT in *.
      rewrite nth_error_app2 in Hs by len_lia.
      destruct (IH (S i) (s - length A) Hps Hs)
        as (k & Hk & Hlo & Hhi & Hr & Hm).
      exists (S k).
      assert (Hoff : forall k', page_offset i (p :: q :: ps') (S k')
                                = length A + page_offset (S i) (q :: ps') k').
      { intros k'. rewrite page_offset_cons by discriminate.
        rewrite page_block_marker, length_app. len_lia. }
      replace (i + S k + 1) with (S i + k + 1) by lia.
      rewrite Hoff. repeat split.
      * cbn [length] in *. len_lia.
      * len_lia.
      * intros Hlt. replace (S k + 1) with (S (k + 1)) by lia. rewrite Hoff.
        cbn [length] in Hlt, Hhi. specialize (Hhi ltac:(len_lia)). len_lia.
      * replace s with (length A + (s - length A)) at 1 by len_lia.
        now apply rfind_app_shift.
      * replace (s + 1) with (length A + (s - length A + 1)) by len_lia.
        now rewrite slice_app_shift.
Qed.

(** *** Dashes and joined pages *)

Lemma replace_char_app c new s t :
  replace [c] new (s ++ t) = replace [c] new s ++ replace [c] new t.
Proof. rewrite !replace_char. apply flat_map_app. Qed.

Lemma replace_char_absent c new s :
  ~ In c s -> replace [c] new s = s.
Proof.
  rewrite replace_char. induction s as [|x s IH]; intros H; cbn; auto.
  destruct (x =? c)%N eqn:E.
  - apply N.eqb_eq in E. subst. exfalso. apply H. now left.
  - cbn. rewrite IH; auto. intros Hin. apply H. now right.
Qed.

Lemma normalize_dashes_app s t :
  normalize_dashes (s ++ t) = normalize_dashes s ++ normalize_dashes t.
Proof. unfold normalize_dashes. now rewrite !replace_char_app. Qed.

Lemma normalize_dashes_free s : dash_free s -> normalize_dashes s = s.
Proof.
  intros H. unfold normalize_dashes.
  rewrite (replace_char_absent EM_DASH) by (intros Hin; now apply H in Hin).
  apply replace_char_absent. intros Hin. now apply H in Hin.
Qed.

Lemma page_marker_dash_free n : dash_free (page_marker n).
Proof.
  intros c H. unfold page_marker in H.
  apply in_app_or in H as [H|H].
  - cbn in H. repeat (destruct H as [<-|H]; [split; discriminate|]). tauto.
  - apply in_app_or in H as [H|H].
    + apply uint_digits_range in H. unfold EM_DASH, EN_DASH. split; lia.
    + cbn in H. repeat (destruct H as [<-|H]; [split; discriminate|]). tauto.
Qed.

Lemma normalize_dashes_joined :
  forall ps i,
    normalize_dashes (joined_from i ps) = joined_from i (map normalize_dashes ps).
Proof.
  induction ps as [|p ps IH]; intros i; [reflexivity|].
  cbn [map]. rewrite !joined_cons, !page_block_marker.
  rewrite !normalize_dashes_app.
  rewrite (normalize_dashes_free _ (page_marker_dash_free _)).
  destruct ps as [|q ps]; cbn [map]; [reflexivity|].
  rewrite normalize_dashes_app, IH. reflexivity.
Qed.

Lemma startswith_flat_map (f : char -> str) sub :
  (forall x, f x = [x] \/ (f x <> [] /\ forall c, In c (f x) -> ~ In c sub)) ->
  forall s,
    startswith (flat_map f s) sub = true -> startswith s sub = true.
Proof.
  intros Hf. induction sub as [|a sub IH]; intros s H.
  - now destruct s.
  - destruct s as [|x s]; [discriminate|]. cbn [flat_map] in H.
    destruct (Hf x) as [E|(Hne & Hnot)].
    + rewrite E in H. cbn in H |- *. apply andb_prop in H as [Hx H].
      rewrite Hx. cbn. apply IH; auto.
      intros y. destruct (Hf y) as [Ey|(Hney & Hnoty)]; auto.
      right. split; auto. intros c Hc Hin. apply (Hnoty c Hc). now right.
    + destruct (f x) as [|y fx]; [congruence|]. cbn in H.
      apply andb_prop in H as [Hy _]. apply N.eqb_eq in Hy. subst y.
      exfalso. apply (Hnot a); cbn; auto.
Qed.

Lemma occurs_at_flat_map (f : char -> str) sub :
  sub <> [] ->
  (forall x, f x = [x] \/ (f x <> [] /\ forall c, In c (f x) -> ~ In c sub)) ->
  forall s j,
    occurs_at sub (flat_map f s) j -> exists j', occurs_at sub s j'.
Proof.
  intros Hne Hf. unfold occurs_at.
  induction s as [|x s IH]; intros j H.
  - cbn in H. rewrite skipn_nil in H. destruct sub; [congruence|discriminate].
  - cbn [flat_map] in H. destruct j as [|j].
    + exists 0. cbn [skipn] in *.
      now apply (startswith_flat_map f sub Hf (x :: s)).
    + destruct (Hf x) as [E|(Hfx & Hnot)].
      * rewrite E in H. cbn in H. destruct (IH j H) as (j' & Hj').
        now exists (S j').
      * rewrite skipn_app in H.
        destruct (skipn (S j) (f x)) as [|y r] eqn:Er.
        -- cbn [app] in H. destruct (IH _ H) as (j' & Hj'). now exists (S j').
        -- destruct sub as [|a sub]; [congruence|]. cbn in H.
           apply andb_prop in H as [Hy _]. apply N.eqb_eq in Hy. subst y.
           exfalso. apply (Hnot a); [|now left].
           apply (in_skipn _ a (S j)). rewrite Er. now left.
Qed.

Lemma no_page_literal_normalize p :
  no_page_literal p -> no_page_literal (normalize_dashes p).
Proof.
  intros Hp j Ho. unfold normalize_dashes in Ho. rewrite !replace_char in Ho.
  apply occurs_at_flat_map in Ho as (j1 & Ho); [|discriminate|].
  - apply occurs_at_flat_map in Ho as (j2 & Ho); [|discriminate|].
    + now apply Hp in Ho.
    + intros x. destruct (x =? EM_DASH)%N; auto. right.
      split; [discriminate|]. intros c Hc Hin. cbn in Hc, Hin.
      repeat (destruct Hc as [<-|Hc];
              [repeat (destruct Hin as [Hin|Hin]; [discriminate Hin|]); tauto|]).
      tauto.
  - intros x. destruct (x =? EN_DASH)%N; auto. right.
    split; [discriminate|]. intros c Hc Hin. cbn in Hc, Hin.
    repeat (destruct Hc as [<-|Hc];
            [repeat (destruct Hin as [Hin|Hin]; [discriminate Hin|]); tauto|]).
    tauto.
Qed.

(** *** How a match can begin *)

Lemma derives_first ic r :
  forall st st',
    derives ic r st st' ->
    (nullable r = true /\ rest st' = rest st) \/
    exists x s', rest st = x :: s' /\
                 existsb (fun a => atom_match ic a x) (firsts r) = true.
Proof.
  induction r as [|a| |a|a|r1 IH1 r2 IH2|r1 IH1 r2 IH2|r IH];
    intros st st' H; cbn [derives nullable firsts] in *.
  - subst. now left.
  - destruct H as (c & Hs & Hc & _). right. exists c, (rest st').
    cbn. now rewrite Hc.
  - destruct H as (_ & ->). now left.
  - destruct H as (w & Hw & Hs & _). destruct w as [|c w].
    + left. cbn in Hs. auto.
    + right. cbn in Hw. apply andb_prop in Hw as [Hc _].
      exists c, (w ++ rest st'). cbn. now rewrite Hc.
  - destruct H as (w & Hne & Hw & Hs & _). destruct w as [|c w]; [congruence|].
    right. cbn in Hw. apply andb_prop in Hw as [Hc _].
    exists c, (w ++ rest st'). cbn. now rewrite Hc.
  - destruct H as (mid & H1 & H2).
    destruct (IH1 _ _ H1) as [(Hn1 & Hr1)|(x & s' & Hs & Hx)].
    + rewrite Hn1. destruct (IH2 _ _ H2) as [(Hn2 & Hr2)|(x & s' & Hs & Hx)].
      * left. split; [now rewrite Hn2 | congruence].
      * right. exists x, s'. split; [congruence|].
        rewrite existsb_app, Hx. apply orb_true_r.
    + right. exists x, s'. split; auto. rewrite existsb_app, Hx. reflexivity.
  - destruct H as [H|H].
    + destruct (IH1 _ _ H) as [(Hn & Hr)|(x & s' & Hs & Hx)].
      * left. now rewrite Hn.
      * right. exists x, s'. split; auto. now rewrite existsb_app, Hx.
    + destruct (IH2 _ _ H) as [(Hn & Hr)|(x & s' & Hs & Hx)].
      * left. rewrite Hn. split; auto. apply orb_true_r.
      * right. exists x, s'. split; auto.
        rewrite existsb_app, Hx. apply orb_true_r.
  - destruct H as (st1 & H1 & ->). cbn [rest]. now apply IH.
Qed.

(** A heading match starts with a line feed, or at offset 0 with
    whitespace or the first letter of a keyword. *)
Lemma heading_start i s st' :
  derives true heading_re (MState i s None) st' ->
  (exists s', s = NL :: s') \/
  (i = 0 /\ exists x s', s = x :: s' /\ x <> 0x5B%N).
Proof.
  unfold heading_re. intros H.
  change (exists mid,
            derives true (Alt (Chr (Lit NL)) Bol) (MState i s None) mid /\
            derives true
              (Seq (Star Space)
                 (Seq (Group
                         (alts (numbered "RULE")
                            [ numbered "Rule"; numbered "SECTION";
                              numbered "Section"; numbered "ARTICLE";
                              numbered "Article";
                              word (py "Points of Emphasis");
                              word (py "Table Reference Sheet");
                              word (py "Appendix");
                              word (py "Interpretations");
                              word (py "Definitions");
                              numbered "CHAPTER"; numbered "Chapter" ]))
                    (Star NotNewline))) mid st') in H.
  destruct H as (mid & [H1|H1] & H2).
  - left. cbn in H1. destruct H1 as (c & Hs & Hc & _). cbn in Hs.
    exists (rest mid). rewrite Hs. f_equal.
    unfold eq_ignorecase in Hc. cbn in Hc. now apply N.eqb_eq in Hc.
  - right. cbn in H1. destruct H1 as (Hi & ->). cbn in Hi. split; auto.
    apply derives_first in H2 as [(Hn & _)|(x & s' & Hs & Hx)].
    + vm_compute in Hn. discriminate.
    + cbn in Hs. exists x, s'. split; auto. intros ->.
      vm_compute in Hx. discriminate.
Qed.

Lemma join_pages_joined pages : join_pages pages = joined_from 0 pages.
Proof. reflexivity. Qed.

Lemma skipn_head_nth_error A (l : list A) n x tl :
  skipn n l = x :: tl -> nth_error l n = Some x.
Proof.
  revert l; induction n as [|n IH]; intros l H; destruct l; try discriminate.
  - cbn in H. now injection H as ->.
  - cbn in *. now apply IH.
Qed.

Lemma recover_page_of_marker text start found ds :
  rfind text (py "[PAGE") start = Some found ->
  marker_prefix ds (slice text found (start + 1)) ->
  recover_page text start = (n <- int_of_str ds ;; Ok (VInt n)).
Proof.
  intros Hr Hm. pose proof (recover_page_cases text start) as H.
  rewrite Hr in H. cbv zeta in H. destruct H as [(_ & Hno)|(ds' & Hm' & H)].
  - now apply Hno in Hm.
  - now rewrite (marker_prefix_unique ds ds' _ Hm Hm').
Qed.

(** In a joined document whose page texts do not contain the literal
    "[PAGE", every section gets the number of the page on which its heading
    match starts: the page of index [k] when the match starts at or after
    the marker of that page and before the marker of the next. *)
Lemma joined_document_start_page pages sections i m d :
  Forall no_page_literal pages ->
  split_into_sections (join_pages pages) = Ok sections ->
  nth_error (finditer true heading_re (normalize_dashes (join_pages pages))) i
  = Some m ->
  nth_error sections i = Some d ->
  let pages' := map normalize_dashes pages in
  exists k,
    k < length pages /\
    page_offset 0 pages' k <= m_start m /\
    (k + 1 < length pages -> m_start m < page_offset 0 pages' (k + 1)) /\
    dict_lookup "start_page" d = Some (VInt (Z.of_nat (k + 1))).
Proof.
  intros Hclean Hs Hm Hd pages'.
  destruct (section_start_page _ _ _ _ _ Hs Hm Hd) as (page & Hp & Hl).
  cbv zeta in Hp.
  destruct (finditer_chain true heading_re
              (normalize_dashes (join_pages pages))) as (_ & Hall & _).
  rewrite Forall_forall in Hall.
  destruct (Hall m (nth_error_In _ _ Hm)) as (st' & Hder & _).
  rewrite join_pages_joined, normalize_dashes_joined in *.
  fold pages' in Hp, Hder.
  assert (Hclean' : Forall no_page_literal pages').
  { unfold pages'. rewrite Forall_map. eapply Forall_impl; [|exact Hclean].
    apply no_page_literal_normalize. }
  assert (Hnl : nth_error (joined_from 0 pages') (m_start m) = Some NL).
  { apply heading_start in Hder as [(s' & Hsk)|(H0 & x & s' & Hsk & Hx)].
    - eapply skipn_head_nth_error; eauto.
    - exfalso. rewrite H0 in Hsk. cbn [skipn] in Hsk.
      destruct pages' as [|p ps]; [discriminate|].
      rewrite joined_cons, page_block_marker in Hsk.
      destruct (page_marker_open (0 + 1)) as (mt & Hmt & _).
      rewrite Hmt in Hsk. cbn in Hsk. congruence. }
  destruct (joined_recover pages' 0 (m_start m) Hclean' Hnl)
    as (k & Hk & Hlo & Hhi & Hr & Hmk).
  cbn [plus] in *.
  exists k. unfold pages' in Hk, Hhi. rewrite length_map in Hk, Hhi.
  repeat split; auto.
  - destruct (page_marker_newline (k + 1)) as (m0 & Hm0 & _ & Hlen0).
    rewrite Hm0, length_app in Hlo. cbn [length] in Hlo. len_lia.
  - rewrite (recover_page_of_marker _ _ _ _ Hr Hmk) in Hp.
    destruct (int_of_str (str_of_nat (k + 1))) as [z|] eqn:Ez; [|discriminate].
    cbn in Hp. injection Hp as <-.
    apply int_of_str_ok_value in Ez as (n & Hn & ->).
    rewrite str_of_nat_value in Hn. injection Hn as <-.
    now rewrite Hl, nat_N_Z.
Qed.

(** *** Trimming *)

Lemma lstrip_split s :
  exists ws, s = ws ++ lstrip s /\ forallb isspace ws = true.
Proof.
  induction s as [|c s (ws & IH & Hws)]; [now exists []|]. cbn.
  destruct (isspace c) eqn:E.
  - exists (c :: ws). cbn. rewrite E, Hws. now rewrite <- IH.
  - now exists [].
Qed.

Lemma lstrip_head s c s' : lstrip s = c :: s' -> isspace c = false.
Proof.
  induction s as [|x s IH]; cbn; [discriminate|].
  destruct (isspace x) eqn:E; auto. intros [= -> ->]. exact E.
Qed.

Lemma lstrip_id s :
  (forall c s', s = c :: s' -> isspace c = false) -> lstrip s = s.
Proof.
  destruct s as [|c s]; cbn; auto. intros H. now rewrite (H c s eq_refl).
Qed.

Lemma rstrip_split s :
  exists ws, s = rstrip s ++ ws /\ forallb isspace ws = true.
Proof.
  unfold rstrip. destruct (lstrip_split (rev s)) as (ws & H & Hws).
  exists (rev ws). split.
  - rewrite <- rev_app_distr, <- H. now rewrite rev_involutive.
  - rewrite forallb_forall in *. intros x Hx. apply Hws. now apply in_rev.
Qed.

Lemma rstrip_last s s' c : rstrip s = s' ++ [c] -> isspace c = false.
Proof.
  unfold rstrip. intros H.
  apply (f_equal (@rev _)) in H. rewrite rev_involutive, rev_app_distr in H.
  cbn in H. eapply lstrip_head; eauto.
Qed.

Lemma rstrip_id s :
  (forall s' c, s = s' ++ [c] -> isspace c = false) -> rstrip s = s.
Proof.
  intros H. unfold rstrip. rewrite lstrip_id; [apply rev_involutive|].
  intros c s' E. apply (H (rev s') c).
  rewrite <- (rev_involutive s), E. reflexivity.
Qed.

Lemma rstrip_head s c s' :
  (forall x t, s = x :: t -> isspace x = false) ->
  rstrip s = c :: s' -> isspace c = false.
Proof.
  intros Hs H. destruct (rstrip_split s) as (ws & E & _).
  rewrite H in E. cbn in E. eauto.
Qed.

Lemma strip_trimmed s : trimmed (strip s).
Proof.
  unfold strip. split.
  - intros c s' H. eapply rstrip_head; [|exact H].
    intros x t. apply lstrip_head.
  - intros s' c. apply rstrip_last.
Qed.

Lemma trimmed_strip s : trimmed s -> strip s = s.
Proof.
  intros [H1 H2]. unfold strip. rewrite (lstrip_id s H1). now apply rstrip_id.
Qed.

Lemma strip_parts s :
  exists ws1 ws2,
    s = ws1 ++ strip s ++ ws2 /\
    forallb isspace ws1 = true /\ forallb isspace ws2 = true.
Proof.
  destruct (lstrip_split s) as (ws1 & H1 & Hw1).
  destruct (rstrip_split (lstrip s)) as (ws2 & H2 & Hw2).
  exists ws1, ws2. unfold strip. now rewrite <- H2.
Qed.

(** *** The text that is scanned *)

Lemma flat_map_flat_map A B C (f : A -> list B) (g : B -> list C) l :
  flat_map g (flat_map f l) = flat_map (fun x => flat_map g (f x)) l.
Proof.
  induction l as [|x l IH]; cbn [flat_map]; auto.
  now rewrite flat_map_app, IH.
Qed.

Lemma normalize_dashes_chars s :
  normalize_dashes s = flat_map dash_image s.
Proof.
  unfold normalize_dashes. rewrite !replace_char, flat_map_flat_map.
  apply flat_map_ext. intros c. unfold dash_image.
  destruct (c =? EM_DASH)%N; [reflexivity|].
  cbn [flat_map]. now rewrite app_nil_r.
Qed.

Lemma join_pages_blocks pages : join_pages pages = joined_blocks pages.
Proof.
  unfold joined_blocks.
  induction pages as [|p pages IH] using rev_ind; [reflexivity|].
  rewrite join_pages_snoc, IH, length_app. cbn [length].
  rewrite Nat.add_1_r at 2. rewrite seq_S, map_app, concat_app.
  cbn [map concat plus]. rewrite app_nil_r. f_equal.
  - f_equal. apply map_ext_in. intros k Hk. apply in_seq in Hk.
    do 2 f_equal. symmetry. apply app_nth1. lia.
  - rewrite nth_middle. f_equal. now destruct pages.
Qed.

(** ** The claims *)

(** C1, as stated, fails: on the example document of the specification the
    text before the first heading ("[PAGE 1]" and "Intro text.") is in no
    section. *)
Lemma intro_text_dropped :
  exists sections,
    split_into_sections example_doc = Ok sections /\
    sections_text sections = py "RULE1ScoringBodyA.RULE2FoulsBodyB." /\
    nonspace example_doc
    = py "[PAGE1]Introtext.RULE1ScoringBodyA.RULE2FoulsBodyB." /\
    ~ reconstructs example_doc sections.
Proof.
  eexists. split; [vm_compute; reflexivity|].
  split; [vm_compute; reflexivity|]. split; [vm_compute; reflexivity|].
  unfold reconstructs. vm_compute. discriminate.
Qed.

(** C1, as amended: when the scan finds a heading, the characters other
    than whitespace of the titles and contents of the sections, taken in
    order, are exactly those of the dash-normalized text from the start of
    the first heading match to the end of the text: from there on nothing
    is lost and nothing is repeated. *)
Theorem sections_cover_from_first_heading full_text sections m0 :
  let text := normalize_dashes full_text in
  split_into_sections full_text = Ok sections ->
  hd_error (finditer true heading_re text) = Some m0 ->
  sections_text sections = nonspace (skipn (m_start m0) text).
Proof.
  intros text Hs Hhd. unfold split_into_sections in Hs. fold text in Hs.
  destruct (finditer_chain true heading_re text) as (Hc & _ & _).
  destruct (finditer true heading_re text) as [|m ms] eqn:E; [discriminate|].
  eapply (sections_cover_from text (m :: ms) (m :: ms) [] 0); eauto.
Qed.

Lemma sections_cover_from_first_heading_witness :
  sections_text
    [ section (py "RULE 1 Scoring") (py "Body A.") (VInt 1);
      section (py "RULE 2 Fouls") (py "Body B.") (VInt 1) ]
  = nonspace (skipn 20 (normalize_dashes example_doc)).
Proof.
  apply (sections_cover_from_first_heading example_doc
           _ (MkMatch 20 36 (Some (22, 28)))).
  - vm_compute. reflexivity.
  - vm_compute. reflexivity.
Defined.

(** C2: on the document of the specification's example the splitter
    returns exactly two sections, "RULE 1 Scoring" with content "Body A."
    and "RULE 2 Fouls" with content "Body B.", both with start_page 1. *)
Theorem split_example :
  split_into_sections
    (py "[PAGE 1]\nIntro text.\n\nRULE 1 Scoring\nBody A.\n\nRULE 2 Fouls\nBody B.")
  = Ok [ [ ("title"%string, VStr (py "RULE 1 Scoring"));
           ("content"%string, VStr (py "Body A."));
           ("start_page"%string, VInt 1) ];
         [ ("title"%string, VStr (py "RULE 2 Fouls"));
           ("content"%string, VStr (py "Body B."));
           ("start_page"%string, VInt 1) ] ].
Proof. vm_compute. reflexivity. Qed.

(** C3: when the heading scan finds no match in the dash-normalized text,
    the splitter returns exactly one section, a dictionary of three keys:
    "title" with the value "Full Document", "content" with the first 5000
    characters of the normalized text, and "start_page" with the value 1.
    The normalized text is the input with " - " for each em dash and "-"
    for each en dash. *)
Theorem no_heading_fallback full_text :
  finditer true heading_re (normalize_dashes full_text) = [] ->
  split_into_sections full_text
  = Ok [ [ ("title"%string, VStr (py "Full Document"));
           ("content"%string,
            VStr (firstn 5000 (normalize_dashes full_text)));
           ("start_page"%string, VInt 1) ] ] /\
  normalize_dashes full_text = flat_map dash_image full_text.
Proof.
  intros H. split; [|apply normalize_dashes_chars].
  unfold split_into_sections. now rewrite H.
Qed.

Lemma no_heading_fallback_witness :
  split_into_sections
    (py "Goals" ++ [EM_DASH] ++ py "see the rules below."
     ++ repeat 0x2E%N 5000)
  = Ok [ [ ("title"%string, VStr (py "Full Document"));
           ("content"%string,
            VStr (py "Goals - see the rules below." ++ repeat 0x2E%N 4972));
           ("start_page"%string, VInt 1) ] ].
Proof.
  apply (no_heading_fallback
           (py "Goals" ++ [EM_DASH] ++ py "see the rules below."
            ++ repeat 0x2E%N 5000)).
  vm_compute. reflexivity.
Defined.

(** C4, as stated, fails: the heading is on page 2, after the marker
    "[PAGE 2]", but the text of the page has a stray "[PAGE" between that
    marker and the heading, and start_page is null, not 2. *)
Lemma nearest_marker_not_used :
  join_pages stray_literal_pages
  = py "[PAGE 1]\nIntro\n\n[PAGE 2]\nsee [PAGE\nRULE 2 Play" /\
  exists d,
    split_into_sections (join_pages stray_literal_pages) = Ok [d] /\
    title_of d = py "RULE 2 Play" /\
    dict_lookup "start_page" d = Some VNone /\
    dict_lookup "start_page" d <> Some (VInt 2).
Proof.
  split; [vm_compute; reflexivity|].
  eexists. split; [vm_compute; reflexivity|].
  repeat split; discriminate.
Qed.

(** C4, as amended: the start_page of a section is read at the last
    occurrence of the literal "[PAGE" that lies before the start of its
    heading match: when that occurrence begins a well-formed marker (within
    the text up to the first character of the match), start_page is the
    number the marker's digits denote; when the literal does not occur
    before the match, start_page is null.  In particular, in a joined
    document whose page texts do not contain the literal, a section gets
    the number of the page on which its heading match starts, whatever
    markers come before or after; with three pages and the heading on the
    second, start_page is 2. *)
Theorem start_page_from_last_literal :
  (forall full_text sections i m d,
     let text := normalize_dashes full_text in
     let before := firstn (m_start m) text in
     split_into_sections full_text = Ok sections ->
     nth_error (finditer true heading_re text) i = Some m ->
     nth_error sections i = Some d ->
     ((forall j, ~ occurs_at (py "[PAGE") before j) ->
      dict_lookup "start_page" d = Some VNone) /\
     (forall found ds,
        occurs_at (py "[PAGE") before found ->
        (forall j, found < j -> ~ occurs_at (py "[PAGE") before j) ->
        marker_prefix ds (slice text found (m_start m + 1)) ->
        exists n, decimal_value 0 ds = Some n /\
                  dict_lookup "start_page" d = Some (VInt (Z.of_N n)))) /\
  (forall pages sections i m d,
     let text := normalize_dashes (join_pages pages) in
     let pages' := map normalize_dashes pages in
     Forall no_page_literal pages ->
     split_into_sections (join_pages pages) = Ok sections ->
     nth_error (finditer true heading_re text) i = Some m ->
     nth_error sections i = Some d ->
     exists k,
       k < length pages /\
       page_offset 0 pages' k <= m_start m /\
       (k + 1 < length pages -> m_start m < page_offset 0 pages' (k + 1)) /\
       dict_lookup "start_page" d = Some (VInt (Z.of_nat (k + 1)))) /\
  split_into_sections (join_pages three_pages)
  = Ok [ section (py "RULE 2 Play") (py "body two\n\n[PAGE 3]\ntail") (VInt 2) ].
Proof.
  split; [|split; [|vm_compute; reflexivity]].
  - intros full_text sections i m d text before Hs Hm Hd.
    destruct (section_start_page full_text sections i m d Hs Hm Hd)
      as (page & Hp & Hl).
    fold text in Hp. split.
    + intros Hnone. rewrite (recover_page_none _ _ Hnone) in Hp. congruence.
    + intros found ds Ho Hlast Hmk.
      rewrite (recover_page_marker _ _ _ _ Ho Hlast Hmk) in Hp.
      destruct (int_of_str ds) as [z|] eqn:Ez; [|discriminate].
      cbn in Hp. injection Hp as <-.
      apply int_of_str_ok_value in Ez as (n & Hn & ->). eauto.
  - intros pages sections i m d text pages' Hclean Hs Hm Hd.
    exact (joined_document_start_page pages sections i m d Hclean Hs Hm Hd).
Qed.

Lemma start_page_from_last_literal_witness :
  exists n,
    decimal_value 0 (py "2") = Some n /\
    dict_lookup "start_page"
      (section (py "RULE 2 Play") (py "body two\n\n[PAGE 3]\ntail") (VInt 2))
    = Some (VInt (Z.of_N n)).
Proof.
  pose proof (rfind_spec (normalize_dashes (join_pages three_pages))
                (py "[PAGE") 34 ltac:(discriminate)) as Hr.
  change (rfind (normalize_dashes (join_pages three_pages)) (py "[PAGE") 34)
    with (Some 16) in Hr.
  destruct Hr as (Ho & Hlast).
  refine (proj2 (proj1 start_page_from_last_literal
                   (join_pages three_pages) _ 0 (MkMatch 34 46 (Some (35, 41)))
                   _ _ _ _) 16 (py "2") Ho Hlast _).
  - vm_compute. reflexivity.
  - vm_compute. reflexivity.
  - reflexivity.
  - exists [SPACE], (py "\nsee below\n"). repeat split; discriminate.
Defined.

(** C5: the joined document is, for the pages of index 0 to N-1 in order,
    the marker of number k+1 followed by the text of the page of index k,
    unchanged (an empty page leaves its marker alone), with one blank-line
    separator between consecutive pages and nothing else: N markers,
    numbered 1 to N in increasing order.  Each marker has the shape that
    page recovery looks for and its digits read back as k+1. *)
Theorem join_pages_markers pages :
  join_pages pages
  = concat (map (fun k => (if k =? 0 then [] else py "\n\n")
                          ++ page_marker (k + 1) ++ nth k pages [])
              (seq 0 (length pages))) /\
  forall k tail,
    marker_prefix (str_of_nat (k + 1)) (page_marker (k + 1) ++ tail) /\
    decimal_value 0 (str_of_nat (k + 1)) = Some (N.of_nat (k + 1)).
Proof.
  split; [|intros k tail; split;
           [apply page_marker_prefix | apply str_of_nat_value]].
  induction pages as [|p pages IH] using rev_ind; [reflexivity|].
  rewrite join_pages_snoc, IH, length_app. cbn [length].
  rewrite Nat.add_1_r at 2. rewrite seq_S, map_app, concat_app.
  cbn [map concat plus]. rewrite app_nil_r. f_equal.
  - f_equal. apply map_ext_in. intros k Hk. apply in_seq in Hk.
    do 2 f_equal. symmetry. apply app_nth1. lia.
  - rewrite nth_middle. f_equal. now destruct pages.
Qed.

(** C6: the Record Finisher gives the section at the 1-based position [k+1]
    the id "{prefix}-rule-{k+1}" and a snippet that is a string.  The
    snippet is made from the content with each run of whitespace collapsed
    to one space: [txt] is that text without the whitespace at its two
    ends ([lead] and [trail] are whitespace, [txt] neither starts nor ends
    with a whitespace character), and the snippet is [txt] itself when
    [txt] has at most 200 characters, and else its first 200 characters
    followed by one ellipsis. *)
Theorem finish_ids_and_snippets filename sections :
  Forall (fun d => exists c, dict_get "content" (VStr []) d = VStr c) sections ->
  exists finished,
    finish_sections filename sections = Ok finished /\
    length finished = length sections /\
    forall k d c,
      nth_error sections k = Some d ->
      dict_get "content" (VStr []) d = VStr c ->
      exists d' snippet lead txt trail,
        nth_error finished k = Some d' /\
        dict_lookup "id" d'
        = Some (VStr (filename ++ py "-rule-" ++ str_of_nat (k + 1))) /\
        dict_lookup "snippet" d' = Some (VStr snippet) /\
        collapse_runs false c = lead ++ txt ++ trail /\
        blank lead /\ blank trail /\ trimmed txt /\
        (length txt <= 200 /\ snippet = txt \/
         200 < length txt /\ snippet = firstn 200 txt ++ [ELLIPSIS] /\
         length snippet = 201).
Proof.
  intros Hall.
  destruct (finish_sections_ok filename sections Hall) as (finished & Hfin & Hlen).
  exists finished. repeat split; auto. unfold finish_sections in Hfin.
  intros k d c Hk Hc.
  destruct (for_enumerate_inv _ _ _ _ _ _ Hfin) as (_ & Hnth).
  destruct (nth_error finished k) as [d'|] eqn:Ek.
  2:{ apply nth_error_None in Ek.
      assert (k < length sections) by (apply nth_error_Some; congruence). lia. }
  specialize (Hnth k d d' Hk Ek). cbn in Hnth.
  destruct (finish_section_inv filename k d c Hc)
    as (d2 & Hd2 & Hid & Hsn & _).
  rewrite Hnth in Hd2. injection Hd2 as <-.
  destruct (strip_parts (collapse_runs false c)) as (lead & trail & Hp & Hl & Ht).
  exists d', (make_snippet_n c 200), lead, (strip (collapse_runs false c)), trail.
  split; auto. split; auto. split; auto. split; auto. split; auto.
  split; auto. split; [apply strip_trimmed|].
  rewrite make_snippet_200. cbv zeta.
  set (txt := strip (collapse_runs false c)).
  destruct (200 <? length txt) eqn:E.
  - apply Nat.ltb_lt in E. right. repeat split; auto.
    rewrite length_app, length_firstn. cbn [length]. lia.
  - apply Nat.ltb_ge in E. left. split; auto.
    rewrite app_nil_r. now apply firstn_all2.
Qed.

Lemma finish_ids_and_snippets_witness :
  exists finished,
    finish_sections (py "womens_lacrosse")
      [ [ ("title"%string, VStr (py "RULE 1 Scoring"));
          ("content"%string, VStr (py "  A goal\n  counts  one. "));
          ("start_page"%string, VInt 1) ];
        [ ("title"%string, VStr (py "RULE 2 Fouls"));
          ("content"%string, VStr (py "x y" ++ repeat 0x7A%N 250));
          ("start_page"%string, VNone) ] ]
    = Ok finished /\
    nth_error finished 0
    = Some [ ("title"%string, VStr (py "RULE 1 Scoring"));
             ("content"%string, VStr (py "  A goal\n  counts  one. "));
             ("start_page"%string, VInt 1);
             ("id"%string, VStr (py "womens_lacrosse-rule-1"));
             ("snippet"%string, VStr (py "A goal counts one.")) ] /\
    nth_error finished 1
    = Some [ ("title"%string, VStr (py "RULE 2 Fouls"));
             ("content"%string, VStr (py "x y" ++ repeat 0x7A%N 250));
             ("start_page"%string, VNone);
             ("id"%string, VStr (py "womens_lacrosse-rule-2"));
             ("snippet"%string,
              VStr (py "x y" ++ repeat 0x7A%N 197 ++ [ELLIPSIS])) ].
Proof.
  destruct (finish_ids_and_snippets (py "womens_lacrosse")
              [ [ ("title"%string, VStr (py "RULE 1 Scoring"));
                  ("content"%string, VStr (py "  A goal\n  counts  one. "));
                  ("start_page"%string, VInt 1) ];
                [ ("title"%string, VStr (py "RULE 2 Fouls"));
                  ("content"%string, VStr (py "x y" ++ repeat 0x7A%N 250));
                  ("start_page"%string, VNone) ] ])
    as (finished & Hfin & _).
  - repeat constructor; eexists; reflexivity.
  - exists finished. split; [exact Hfin|].
    vm_compute in Hfin. injection Hfin as <-. split; reflexivity.
Defined.

(** C7: when the scan finds a heading, there is one section for each
    heading match, in the order of the matches, which is the order of their
    offsets in the text.  The title of a section comes from the span of its
    own match; its content comes from the text between the end of that span
    and the start of the next match (the end of the text for the last one):
    the spans of the matches do not overlap, so no title text is in the
    content of its own section or of the section before. *)
Theorem sections_ordered_disjoint full_text sections :
  let text := normalize_dashes full_text in
  let heading_iter := finditer true heading_re text in
  heading_iter <> [] ->
  split_into_sections full_text = Ok sections ->
  length sections = length heading_iter /\
  forall i m d,
    nth_error heading_iter i = Some m ->
    nth_error sections i = Some d ->
    let stop := next_start text heading_iter i in
    m_start m < m_end m /\ m_end m <= stop /\ stop <= length text /\
    (forall j m', i < j -> nth_error heading_iter j = Some m' ->
                  stop <= m_start m' /\ m_start m < m_start m') /\
    title_of d = heading_title text m /\
    content_of d = strip (slice text (m_end m) stop).
Proof.
  intros text heading_iter Hne Hs.
  destruct (split_sections_nth full_text sections Hs Hne) as (Hlen & Hnth).
  fold text in Hnth. fold heading_iter in Hnth, Hlen. split; auto.
  intros i m d Hm Hd stop.
  destruct (Hnth i m d Hm Hd) as (page & _ & ->).
  destruct (finditer_chain true heading_re text) as (Hc & _ & Hmin).
  fold heading_iter in Hc, Hmin.
  destruct (chain_nth _ _ _ Hc i m Hm) as (_ & _ & Hhi & Hnext).
  rewrite Forall_forall in Hmin.
  pose proof (Hmin m (nth_error_In _ _ Hm)) as Hpos.
  rewrite heading_re_min_len in Hpos.
  assert (Hstop : m_end m <= stop /\ stop <= length text /\
                  forall j m', i < j -> nth_error heading_iter j = Some m' ->
                               stop <= m_start m').
  { unfold stop, next_start.
    destruct (nth_error heading_iter (i + 1)) as [m1|] eqn:E1.
    - destruct (chain_nth _ _ _ Hc (i + 1) m1 E1) as (_ & Hle1 & Hhi1 & Hnext1).
      split; [apply (Hnext (i + 1)); auto; lia|]. split; [lia|].
      intros j m' Hj Hm'. destruct (Nat.eq_dec j (i + 1)) as [->|Hneq].
      + rewrite E1 in Hm'. injection Hm' as <-. lia.
      + specialize (Hnext1 j m' ltac:(lia) Hm'). lia.
    - split; [lia|]. split; [lia|]. intros j m' Hj Hm'.
      apply nth_error_None in E1.
      assert (j < length heading_iter) by (apply nth_error_Some; congruence).
      lia. }
  destruct Hstop as (H1 & H2 & H3). repeat split; auto; try lia.
  - now apply (H3 j m').
  - specialize (H3 j m' H H0). lia.
Qed.

Lemma sections_ordered_disjoint_witness :
  length [ section (py "RULE 1 Scoring") (py "Body A.") (VInt 1);
           section (py "RULE 2 Fouls") (py "Body B.") (VInt 1) ]
  = length (finditer true heading_re (normalize_dashes example_doc)).
Proof.
  apply (sections_ordered_disjoint example_doc).
  - vm_compute. discriminate.
  - vm_compute. reflexivity.
Defined.

(** C8: the core raises on a text it can be given.  The one page of the
    PDF holds, before a heading, a well-formed page marker of 4301 digits:
    [int] refuses the digits (the limit is 4300) and [split_into_sections]
    raises [ValueError], on the text itself and on the joined pages in the
    pipeline, where no handler catches it.  The other paths of the page
    recovery return [None] (no literal before the heading, a marker that
    is not well formed). *)
Theorem long_marker_raises :
  split_into_sections long_marker_doc = Raise ValueError /\
  join_pages [long_marker_doc] = py "[PAGE 1]\n" ++ long_marker_doc /\
  pipeline (py "volleyball") [long_marker_doc] = Raise ValueError.
Proof. repeat split; vm_compute; reflexivity. Qed.

(** C10: page recovery looks only at the last occurrence of the literal
    "[PAGE" before the start of the heading match: when what follows it up
    to the first character of the match does not begin with a well-formed
    marker, start_page is null, also when a well-formed marker stands
    earlier in the document, as "[PAGE 1]" does in the second part. *)
Theorem malformed_last_literal_gives_null :
  (forall full_text sections i m d,
     let text := normalize_dashes full_text in
     let before := firstn (m_start m) text in
     split_into_sections full_text = Ok sections ->
     nth_error (finditer true heading_re text) i = Some m ->
     nth_error sections i = Some d ->
     forall found,
       occurs_at (py "[PAGE") before found ->
       (forall j, found < j -> ~ occurs_at (py "[PAGE") before j) ->
       (forall ds, ~ marker_prefix ds (slice text found (m_start m + 1))) ->
       dict_lookup "start_page" d = Some VNone) /\
  join_pages [py "[PAGE x\nRULE 1 a"] = malformed_marker_doc /\
  marker_prefix (py "1") malformed_marker_doc /\
  split_into_sections malformed_marker_doc
  = Ok [ section (py "RULE 1 a") [] VNone ].
Proof.
  split.
  - intros full_text sections i m d text before Hs Hm Hd found Ho Hlast Hno.
    destruct (section_start_page full_text sections i m d Hs Hm Hd)
      as (page & Hp & Hl).
    fold text in Hp.
    rewrite (recover_page_malformed _ _ _ Ho Hlast Hno) in Hp. congruence.
  - split; [vm_compute; reflexivity|]. split.
    + exists [SPACE], (py "\n[PAGE x\nRULE 1 a"). repeat split; discriminate.
    + vm_compute. reflexivity.
Qed.

Lemma malformed_last_literal_gives_null_witness :
  dict_lookup "start_page" (section (py "RULE 1 a") [] VNone) = Some VNone.
Proof.
  pose proof (rfind_spec (normalize_dashes malformed_marker_doc)
                (py "[PAGE") 16 ltac:(discriminate)) as Hr.
  change (rfind (normalize_dashes malformed_marker_doc) (py "[PAGE") 16)
    with (Some 9) in Hr.
  destruct Hr as (Ho & Hlast).
  refine (proj1 malformed_last_literal_gives_null
            malformed_marker_doc _ 0 (MkMatch 16 25 (Some (17, 23)))
            _ _ _ _ 9 Ho Hlast _).
  - vm_compute. reflexivity.
  - vm_compute. reflexivity.
  - reflexivity.
  - apply no_marker_prefix. vm_compute. reflexivity.
Defined.

(** * Further properties

    ** Trimming, single spaces and snippets *)


(** ** Trimmed and single-spaced strings *)

Lemma single_spaced_weaken b s :
  single_spaced b s = true -> single_spaced false s = true.
Proof.
  destruct s as [|c s]; cbn; auto. destruct (isspace c); auto.
  destruct b; cbn; auto. discriminate.
Qed.

Lemma single_spaced_collapse b s : single_spaced b (collapse_runs b s) = true.
Proof.
  revert b; induction s as [|c s IH]; intros b; cbn; auto.
  destruct (isspace c) eqn:E.
  - destruct b; auto. cbn.
    assert (Hs : isspace SPACE = true) by reflexivity.
    rewrite Hs. cbn. apply IH.
  - cbn. rewrite E. apply IH.
Qed.

Lemma collapse_single_spaced b s :
  single_spaced b s = true -> collapse_runs b s = s.
Proof.
  revert b; induction s as [|c s IH]; intros b; cbn; auto.
  destruct (isspace c) eqn:E.
  - intros H. apply andb_prop in H as [H Hs]. apply andb_prop in H as [Hb Hc].
    destruct b; [discriminate|]. apply N.eqb_eq in Hc. subst c.
    now rewrite IH.
  - intros H. now rewrite IH.
Qed.

Lemma single_spaced_app b u v :
  single_spaced b (u ++ v) = true ->
  single_spaced b u = true /\ exists b', single_spaced b' v = true.
Proof.
  revert b; induction u as [|c u IH]; intros b; cbn.
  - eauto.
  - destruct (isspace c).
    + intros H. apply andb_prop in H as [H Hs]. rewrite H. cbn.
      now apply IH in Hs.
    + apply IH.
Qed.

Lemma single_spaced_firstn b n s :
  single_spaced b s = true -> single_spaced b (firstn n s) = true.
Proof.
  intros H. rewrite <- (firstn_skipn n s) in H.
  now apply single_spaced_app in H.
Qed.

Lemma single_spaced_snoc b u c :
  single_spaced b u = true -> isspace c = false ->
  single_spaced b (u ++ [c]) = true.
Proof.
  revert b; induction u as [|x u IH]; intros b; cbn.
  - intros _ ->. reflexivity.
  - destruct (isspace x).
    + intros H Hc. apply andb_prop in H as [H Hs]. rewrite H. cbn. auto.
    + auto.
Qed.

Lemma single_spaced_suffix b u v :
  single_spaced b (u ++ v) = true -> single_spaced false v = true.
Proof.
  intros H. apply single_spaced_app in H as (_ & b' & H).
  eapply single_spaced_weaken; eauto.
Qed.

Lemma single_spaced_rstrip b s :
  single_spaced b s = true -> single_spaced b (rstrip s) = true.
Proof.
  intros H. destruct (rstrip_split s) as (ws & E & _). rewrite E in H.
  now apply single_spaced_app in H.
Qed.

Lemma single_spaced_lstrip b s :
  single_spaced b s = true -> single_spaced false (lstrip s) = true.
Proof.
  intros H. destruct (lstrip_split s) as (ws & E & _). rewrite E in H.
  eapply single_spaced_suffix; eauto.
Qed.

Lemma single_spaced_strip s :
  single_spaced false s = true -> single_spaced false (strip s) = true.
Proof.
  intros H. unfold strip. apply single_spaced_rstrip.
  eapply single_spaced_lstrip; eauto.
Qed.

(** The text of which [make_snippet] and the title of a section are made:
    whitespace runs collapsed, then trimmed. *)
Lemma collapsed_text_normal s :
  let txt := strip (collapse_runs false s) in
  single_spaced false txt = true /\ trimmed txt.
Proof.
  split; [|apply strip_trimmed].
  apply single_spaced_strip, single_spaced_collapse.
Qed.

Lemma single_spaced_nth s :
  forall b i c,
    single_spaced b s = true ->
    nth_error s (S i) = Some c -> isspace c = true ->
    c = SPACE /\ exists x, nth_error s i = Some x /\ isspace x = false.
Proof.
  induction s as [|a s IH]; intros b i c Hs Hn Hc; [discriminate|].
  destruct i as [|i].
  - cbn in Hn. destruct s as [|c' s]; [discriminate|]. injection Hn as ->.
    cbn in Hs. rewrite Hc in Hs. destruct (isspace a) eqn:Ea.
    + apply andb_prop in Hs as [_ Hs]. cbn in Hs. discriminate.
    + apply andb_prop in Hs as [Hs _]. cbn in Hs. apply N.eqb_eq in Hs.
      split; auto. exists a. auto.
  - cbn in Hs. destruct (isspace a).
    + apply andb_prop in Hs as [_ Hs]. apply (IH true i c Hs Hn Hc).
    + apply (IH false i c Hs Hn Hc).
Qed.

Lemma single_spaced_next s :
  forall b i c y,
    single_spaced b s = true ->
    nth_error s i = Some c -> isspace c = true ->
    nth_error s (S i) = Some y -> isspace y = false.
Proof.
  intros b i c y Hs Hc Hsp Hy. destruct (isspace y) eqn:Ey; auto.
  destruct (single_spaced_nth s b i y Hs Hy Ey) as (_ & x & Hx & Hx').
  congruence.
Qed.

Lemma normal_spaces_between_words s :
  single_spaced false s = true -> trimmed s -> spaces_between_words s.
Proof.
  intros Hs [Hfirst Hlast] i c Hn Hc.
  destruct i as [|i].
  - destruct s as [|a s]; [discriminate|]. injection Hn as ->.
    rewrite (Hfirst c s eq_refl) in Hc. discriminate.
  - destruct (single_spaced_nth s false i c Hs Hn Hc) as (-> & x & Hx & Hx').
    split; auto. split; [now exists i, x|].
    destruct (nth_error s (S (S i))) as [y|] eqn:Ey.
    + exists y. split; auto.
      exact (single_spaced_next s false (S i) SPACE y Hs Hn Hc Ey).
    + exfalso. apply nth_error_None in Ey.
      assert (Hlen : S i < length s) by (apply nth_error_Some; congruence).
      assert (Hne : s <> []) by (intros ->; cbn in Hlen; lia).
      destruct (exists_last Hne) as (s' & z & E).
      assert (S i = length s').
      { rewrite E, length_app in *. cbn in *. lia. }
      rewrite E, nth_error_app2 in Hn by lia.
      replace (S i - length s') with 0 in Hn by lia. injection Hn as ->.
      rewrite (Hlast s' SPACE E) in Hc. discriminate.
Qed.

Lemma ellipsis_not_space : isspace ELLIPSIS = false.
Proof. reflexivity. Qed.

Lemma trimmed_nil : trimmed [].
Proof. split; intros; [discriminate | now destruct s']. Qed.

(** ** Snippets *)

(** A text cut short and followed by the ellipsis is single-spaced and
    trimmed when the text is. *)
Lemma cut_normal (txt : str) k :
  single_spaced false txt = true -> trimmed txt ->
  single_spaced false (firstn k txt ++ [ELLIPSIS]) = true /\
  trimmed (firstn k txt ++ [ELLIPSIS]).
Proof.
  intros Hs Ht. split.
  - apply single_spaced_snoc; [|apply ellipsis_not_space].
    now apply single_spaced_firstn.
  - split.
    + intros c s' H. destruct k as [|k].
      * cbn in H. injection H as <- <-. apply ellipsis_not_space.
      * destruct txt as [|a txt'].
        -- cbn in H. injection H as <- _. apply ellipsis_not_space.
        -- cbn in H. injection H as <- _. apply (proj1 Ht a txt' eq_refl).
    + intros s' c H. apply app_inj_tail in H as [_ <-].
      apply ellipsis_not_space.
Qed.

(** A snippet is single-spaced and trimmed, whatever the limit. *)
Lemma snippet_normal s n :
  single_spaced false (make_snippet_n s n) = true /\
  trimmed (make_snippet_n s n).
Proof.
  destruct (collapsed_text_normal s) as (Hs & Ht). cbv zeta in Hs, Ht.
  destruct (make_snippet_n_cases s n) as [(m & _ & ->)|(_ & ->)].
  - destruct (m <? _) eqn:E.
    + now apply cut_normal.
    + apply Nat.ltb_ge in E. rewrite app_nil_r, firstn_all2 by len_lia. auto.
  - now apply cut_normal.
Qed.

(** X1: a snippet holds no whitespace but single spaces (U+0020), each
    between two characters that are not whitespace: no line break, no tab,
    no doubled space, no space at either end (a space cut at the limit is
    followed by the ellipsis). *)
Theorem snippet_spaces_between_words s n :
  spaces_between_words (make_snippet_n s n).
Proof.
  destruct (snippet_normal s n). now apply normal_spaces_between_words.
Qed.

(** X2: for a limit [n] that is not negative, [make_snippet] is idempotent:
    the snippet of a snippet is the snippet itself, also when the text was
    cut and the ellipsis added.  A negative limit cuts again: with
    [n = -2] the snippet of "a b c" is "a b" with the ellipsis, and the
    snippet of that is "a " with the ellipsis. *)
Theorem make_snippet_idempotent :
  (forall s n,
     (0 <= n)%Z ->
     make_snippet_n (make_snippet_n s n) n = make_snippet_n s n) /\
  make_snippet_n (py "a b c") (-2) = py "a b" ++ [ELLIPSIS] /\
  make_snippet_n (make_snippet_n (py "a b c") (-2)) (-2)
  = py "a " ++ [ELLIPSIS].
Proof.
  split; [|split; vm_compute; reflexivity].
  intros s n Hn. destruct (snippet_normal s n) as (Hs & Ht).
  rewrite <- (Z2Nat.id n Hn) in *. set (m := Z.to_nat n) in *.
  rewrite (make_snippet_n_collapse (make_snippet_n s (Z.of_nat m))). cbv zeta.
  rewrite (collapse_single_spaced _ _ Hs), (trimmed_strip _ Ht).
  rewrite make_snippet_n_collapse. cbv zeta.
  set (txt := strip (collapse_runs false s)).
  destruct (m <? length txt) eqn:E.
  - apply Nat.ltb_lt in E.
    assert (Hl : length (firstn m txt) = m) by (rewrite length_firstn; lia).
    rewrite length_app, Hl. cbn [length].
    replace (m <? m + 1) with true by (symmetry; apply Nat.ltb_lt; lia).
    f_equal. rewrite <- Hl at 1. apply firstn_app_length.
  - rewrite !app_nil_r.
    rewrite (firstn_all2 (n := m) txt) by (apply Nat.ltb_ge in E; len_lia).
    rewrite E, app_nil_r. apply firstn_all2.
    apply Nat.ltb_ge in E. len_lia.
Qed.

Lemma make_snippet_idempotent_witness :
  make_snippet_n (make_snippet_n (py "  Goals   are\ncounted  here ") 9) 9
  = make_snippet_n (py "  Goals   are\ncounted  here ") 9.
Proof.
  apply (proj1 make_snippet_idempotent). lia.
Defined.

Lemma nonspace_collapsed s :
  nonspace (strip (collapse_runs false s)) = nonspace s.
Proof.
  rewrite nonspace_strip, <- sub_spaces_collapse. apply nonspace_sub_spaces.
Qed.

Lemma nonspace_nil_trimmed s : trimmed s -> nonspace s = [] -> s = [].
Proof.
  intros [H _] Hn. destruct s as [|c s]; auto.
  cbn in Hn. rewrite (H c s eq_refl) in Hn. discriminate.
Qed.

Lemma nonspace_last_nonnil s s' c :
  s = s' ++ [c] -> isspace c = false -> nonspace s <> [].
Proof.
  intros -> Hc. rewrite nonspace_app. cbn. rewrite Hc. cbn.
  now destruct (nonspace s').
Qed.

Lemma nonspace_nil_blank s : nonspace s = [] -> forallb isspace s = true.
Proof.
  intros Hs. apply forallb_forall. intros c Hc.
  destruct (isspace c) eqn:Ec; auto.
  assert (In c (nonspace s)) by (apply filter_In; now rewrite Ec).
  rewrite Hs in H. contradiction.
Qed.

(** What is shown of a trimmed text cut at [m], and the ellipsis for what
    is hidden. *)
Lemma cut_nonspace (txt : str) m :
  trimmed txt ->
  nonspace (firstn m txt ++ (if m <? length txt then [ELLIPSIS] else []))
  = nonspace (firstn m txt)
    ++ match nonspace (skipn m txt) with [] => [] | _ :: _ => [ELLIPSIS] end.
Proof.
  intros Ht. rewrite nonspace_app. f_equal.
  destruct (m <? length txt) eqn:E.
  - apply Nat.ltb_lt in E.
    assert (Hne : skipn m txt <> []).
    { intros H. apply (f_equal (@length _)) in H.
      rewrite length_skipn in H. cbn in H. len_lia. }
    destruct (exists_last Hne) as (u & c & Hu).
    assert (Hc : isspace c = false).
    { apply (proj2 Ht (firstn m txt ++ u) c).
      rewrite <- app_assoc, <- Hu. now rewrite firstn_skipn. }
    pose proof (nonspace_last_nonnil _ _ _ Hu Hc).
    destruct (nonspace (skipn m txt)); [congruence|]. reflexivity.
  - apply Nat.ltb_ge in E. rewrite skipn_all2 by len_lia. reflexivity.
Qed.

Lemma snippet_nonspace s n :
  (0 <= n)%Z \/ forallb isspace s = false ->
  exists shown hidden,
    nonspace s = shown ++ hidden /\
    nonspace (make_snippet_n s n)
    = shown ++ match hidden with [] => [] | _ :: _ => [ELLIPSIS] end.
Proof.
  intros Hcase.
  destruct (collapsed_text_normal s) as (_ & Ht). cbv zeta in Ht.
  pose proof (nonspace_collapsed s) as Hns.
  set (txt := strip (collapse_runs false s)) in *.
  assert (Hcut : forall m,
            make_snippet_n s n
            = firstn m txt ++ (if m <? length txt then [ELLIPSIS] else []) ->
            exists shown hidden,
              nonspace s = shown ++ hidden /\
              nonspace (make_snippet_n s n)
              = shown ++ match hidden with
                         | [] => []
                         | _ :: _ => [ELLIPSIS]
                         end).
  { intros m ->. exists (nonspace (firstn m txt)), (nonspace (skipn m txt)).
    split; [|now apply cut_nonspace].
    now rewrite <- Hns, <- nonspace_app, firstn_skipn. }
  destruct (make_snippet_n_cases s n) as [(m & _ & E)|(Hneg & E)];
    [now apply (Hcut m)|].
  fold txt in E. destruct Hcase as [Hn|Hb]; [lia|].
  apply (Hcut (length txt - Z.to_nat (- n))). rewrite E. f_equal.
  destruct txt as [|a txt'] eqn:Etxt.
  - cbn in Hns. symmetry in Hns. apply nonspace_nil_blank in Hns. congruence.
  - replace (_ <? _) with true; auto.
    symmetry. apply Nat.ltb_lt. cbn [length]. lia.
Qed.

(** X3: a snippet is a preview of the content.  For a limit that is not
    negative, or a content that is not blank, its characters other than
    whitespace are an initial part of those of the content, followed by the
    ellipsis exactly when some were left out.  The snippet is empty exactly
    when the content holds nothing but whitespace and the limit is not
    negative: with a negative limit the snippet of a blank content is the
    ellipsis alone. *)
Theorem snippet_preview s n :
  ((0 <= n)%Z \/ forallb isspace s = false ->
   exists shown hidden,
     nonspace s = shown ++ hidden /\
     nonspace (make_snippet_n s n)
     = shown ++ match hidden with [] => [] | _ :: _ => [ELLIPSIS] end) /\
  (make_snippet_n s n = [] <-> forallb isspace s = true /\ (0 <= n)%Z) /\
  ((n < 0)%Z -> forallb isspace s = true -> make_snippet_n s n = [ELLIPSIS]).
Proof.
  split; [apply snippet_nonspace|].
  destruct (snippet_normal s n) as (_ & Ht).
  assert (Hneg : (n < 0)%Z ->
                 exists k, make_snippet_n s n
                           = firstn k (strip (collapse_runs false s))
                             ++ [ELLIPSIS]).
  { intros Hn. rewrite (make_snippet_n_negative s n Hn). cbv zeta. eauto. }
  split; [split|].
  - intros E. assert (Hn : (0 <= n)%Z).
    { destruct (Z.neg_nonneg_cases n) as [Hn|Hn]; auto.
      destruct (Hneg Hn) as (k & Hk). rewrite E in Hk.
      now destruct (firstn k _). }
    split; auto.
    destruct (snippet_nonspace s n (or_introl Hn))
      as (shown & hidden & Hs & Hsn).
    rewrite E in Hsn. cbn in Hsn.
    destruct shown; [|discriminate]. destruct hidden; [|discriminate].
    now apply nonspace_nil_blank.
  - intros (Hb & Hn).
    destruct (snippet_nonspace s n (or_introl Hn))
      as (shown & hidden & Hs & Hsn).
    apply nonspace_spaces in Hb. rewrite Hb in Hs.
    symmetry in Hs. apply app_eq_nil in Hs as [-> ->]. cbn in Hsn.
    now apply nonspace_nil_trimmed.
  - intros Hn Hb. destruct (Hneg Hn) as (k & ->).
    apply nonspace_spaces in Hb. rewrite <- nonspace_collapsed in Hb.
    apply nonspace_nil_trimmed in Hb; [|apply collapsed_text_normal].
    rewrite Hb. now destruct k.
Qed.

Lemma snippet_preview_witness :
  exists shown hidden,
    nonspace (py " b  c d ") = shown ++ hidden /\
    nonspace (make_snippet_n (py " b  c d ") (-1))
    = shown ++ match hidden with [] => [] | _ :: _ => [ELLIPSIS] end.
Proof.
  apply (proj1 (snippet_preview (py " b  c d ") (-1))).
  right. vm_compute. reflexivity.
Defined.

(** ** Identifiers *)

Lemma app_sep_inj (A : Type) (x : A) :
  forall u1 u2 v1 v2,
    ~ In x v1 -> ~ In x v2 ->
    u1 ++ x :: v1 = u2 ++ x :: v2 -> u1 = u2 /\ v1 = v2.
Proof.
  induction u1 as [|a u1 IH]; intros [|b u2] v1 v2 H1 H2 E; cbn in E.
  - injection E as ->. auto.
  - injection E as -> ->. exfalso. apply H1. apply in_or_app. right. now left.
  - injection E as -> <-. exfalso. apply H2. apply in_or_app. right. now left.
  - injection E as -> E. destruct (IH _ _ _ H1 H2 E) as [-> ->]. auto.
Qed.

Lemma str_of_nat_inj n m : str_of_nat n = str_of_nat m -> n = m.
Proof.
  intros H. apply (f_equal (decimal_value 0)) in H.
  rewrite !str_of_nat_value in H. injection H as H. lia.
Qed.

Lemma str_of_nat_no_hyphen n : ~ In 0x2D%N (str_of_nat n).
Proof. intros H. apply uint_digits_range in H. lia. Qed.

Lemma id_inj f1 f2 n1 n2 :
  f1 ++ py "-rule-" ++ str_of_nat n1 = f2 ++ py "-rule-" ++ str_of_nat n2 ->
  f1 = f2 /\ n1 = n2.
Proof.
  intros H.
  change (py "-rule-") with (py "-rule" ++ [0x2D%N]) in H.
  rewrite <- !app_assoc in H. cbn [app] in H.
  rewrite !(app_assoc _ (py "-rule")) in H.
  apply app_sep_inj in H as [H1 H2]; try apply str_of_nat_no_hyphen.
  apply app_inv_tail in H1. apply str_of_nat_inj in H2. auto.
Qed.

(** ** The shape of the records *)

Lemma recover_page_value text start p :
  recover_page text start = Ok p -> page_value p.
Proof.
  unfold recover_page, page_value.
  destruct (rfind text (py "[PAGE") start) as [found|].
  2:{ intros [= <-]. auto. }
  cbv zeta.
  destruct (search false page_re (slice text found (start + 1))) as [m|].
  2:{ intros [= <-]. auto. }
  destruct (group1 (slice text found (start + 1)) m) as [ds|]; [|discriminate].
  destruct (int_of_str ds) as [z|] eqn:E; [|discriminate].
  cbn. intros [= <-]. apply int_of_str_ok_value in E as (n & _ & ->). eauto.
Qed.

Lemma split_shape full_text sections :
  split_into_sections full_text = Ok sections ->
  sections <> [] /\
  Forall (fun d => exists t c p, d = section t c p /\ page_value p) sections.
Proof.
  intros Hs. pose proof Hs as Hs'. unfold split_into_sections in Hs'.
  destruct (finditer true heading_re (normalize_dashes full_text))
    as [|m ms] eqn:E.
  - injection Hs' as <-. split; [discriminate|]. constructor; auto.
    do 3 eexists. split; [reflexivity|]. right. now exists 1%N.
  - destruct (split_sections_nth full_text sections Hs) as (Hlen & Hnth).
    { rewrite E. discriminate. }
    rewrite E in Hlen, Hnth. split.
    + intros ->. discriminate.
    + apply Forall_forall. intros d Hd.
      apply In_nth_error in Hd as (i & Hi).
      destruct (nth_error (m :: ms) i) as [mi|] eqn:Em.
      * destruct (Hnth i mi d Em Hi) as (page & Hp & ->).
        do 3 eexists. split; [reflexivity|].
        eapply recover_page_value; eauto.
      * apply nth_error_None in Em.
        assert (i < length sections) by (apply nth_error_Some; congruence).
        lia.
Qed.

Lemma finish_section_shape filename i t c p :
  finish_section filename i (section t c p)
  = Ok (finished_section t c p
          (filename ++ py "-rule-" ++ str_of_nat (i + 1))
          (make_snippet_n c 200)).
Proof. reflexivity. Qed.

Lemma finish_section_id filename i d d' :
  finish_section filename i d = Ok d' ->
  dict_lookup "id" d'
  = Some (VStr (filename ++ py "-rule-" ++ str_of_nat (i + 1))).
Proof.
  unfold finish_section.
  set (s1 := dict_set "id" _ d).
  destruct (make_snippet (dict_get "content" (VStr []) s1)) as [sn|];
    [|discriminate].
  cbn [bind]. intros [= <-].
  assert (H : dict_lookup "id" (dict_set "snippet" (VStr sn) s1)
              = Some (VStr (filename ++ py "-rule-" ++ str_of_nat (i + 1)))).
  { rewrite dict_lookup_set_other by discriminate.
    apply dict_lookup_set_same. }
  destruct (negb _); auto.
  now rewrite dict_lookup_set_other by discriminate.
Qed.

Lemma finish_sections_id filename sections finished k d' :
  finish_sections filename sections = Ok finished ->
  nth_error finished k = Some d' ->
  dict_lookup "id" d'
  = Some (VStr (filename ++ py "-rule-" ++ str_of_nat (k + 1))).
Proof.
  intros Hf Hk. apply for_enumerate_inv in Hf as (Hlen & Hnth).
  destruct (nth_error sections k) as [d|] eqn:Ed.
  - apply (finish_section_id filename k d d'). exact (Hnth k d d' Ed Hk).
  - apply nth_error_None in Ed.
    assert (k < length finished) by (apply nth_error_Some; congruence). lia.
Qed.

(** X4: besides "id" and "snippet", the only field the finishing loop
    touches is "start_page", which it adds as null when the section lacks
    it and leaves alone otherwise; every other field keeps its value.  A
    section without content gets the snippet of the empty string; one whose
    content is null or a number makes the loop raise [TypeError]. *)
Theorem finish_keeps_fields filename i d :
  (forall c,
     dict_get "content" (VStr []) d = VStr c ->
     exists d',
       finish_section filename i d = Ok d' /\
       (forall k, k <> "id"%string -> k <> "snippet"%string ->
                  k <> "start_page"%string ->
                  dict_lookup k d' = dict_lookup k d) /\
       dict_lookup "start_page" d'
       = Some (match dict_lookup "start_page" d with
               | Some p => p
               | None => VNone
               end)) /\
  ((dict_lookup "content" d = Some VNone \/
    exists z, dict_lookup "content" d = Some (VInt z)) ->
   finish_section filename i d = Raise TypeError).
Proof.
  split.
  - intros c Hc. unfold finish_section.
    set (id := VStr (filename ++ py "-rule-" ++ str_of_nat (i + 1))).
    assert (Hget : dict_get "content" (VStr []) (dict_set "id" id d) = VStr c).
    { unfold dict_get in *. now rewrite dict_lookup_set_other by discriminate. }
    rewrite Hget. cbn [make_snippet bind].
    set (s2 := dict_set "snippet" (VStr (make_snippet_n c 200))
                 (dict_set "id" id d)).
    assert (L : forall k, k <> "id"%string -> k <> "snippet"%string ->
                          dict_lookup k s2 = dict_lookup k d).
    { intros k H1 H2. unfold s2. now rewrite !dict_lookup_set_other by auto. }
    eexists. split; [reflexivity|].
    unfold dict_contains. rewrite (L "start_page"%string) by discriminate.
    destruct (dict_lookup "start_page" d) as [p|] eqn:Ep; cbn [negb].
    + split; [intros k H1 H2 _; now apply L|].
      now rewrite L by discriminate.
    + split.
      * intros k H1 H2 H3. rewrite dict_lookup_set_other by auto. now apply L.
      * apply dict_lookup_set_same.
  - intros H. unfold finish_section.
    set (id := VStr (filename ++ py "-rule-" ++ str_of_nat (i + 1))).
    assert (Hget : dict_get "content" (VStr []) (dict_set "id" id d)
                   = dict_get "content" (VStr []) d).
    { unfold dict_get. now rewrite dict_lookup_set_other by discriminate. }
    rewrite Hget. unfold dict_get.
    destruct H as [->|(z & ->)]; reflexivity.
Qed.

(** X5: the id of a finished section tells its sport and its place: two
    finished sections with the same id have the same file-name prefix and
    the same position, so that the ids of one sport are all different. *)
Theorem ids_identify_sections f1 f2 secs1 secs2 fin1 fin2 i j d1 d2 :
  finish_sections f1 secs1 = Ok fin1 ->
  finish_sections f2 secs2 = Ok fin2 ->
  nth_error fin1 i = Some d1 ->
  nth_error fin2 j = Some d2 ->
  dict_lookup "id" d1 = dict_lookup "id" d2 ->
  f1 = f2 /\ i = j.
Proof.
  intros H1 H2 Hi Hj E.
  rewrite (finish_sections_id _ _ _ _ _ H1 Hi) in E.
  rewrite (finish_sections_id _ _ _ _ _ H2 Hj) in E.
  injection E as E. apply id_inj in E as [-> E]. split; auto. lia.
Qed.

Lemma ids_identify_sections_witness :
  py "volleyball" = py "volleyball" /\ 1 = 1.
Proof.
  apply (ids_identify_sections (py "volleyball") (py "volleyball")
           [ section (py "RULE 1 a") [] VNone; section (py "RULE 2 b") [] VNone ]
           [ section (py "RULE 1 a") [] VNone; section (py "RULE 2 b") [] VNone ]
           [ finished_section (py "RULE 1 a") [] VNone
               (py "volleyball-rule-1") [];
             finished_section (py "RULE 2 b") [] VNone
               (py "volleyball-rule-2") [] ]
           [ finished_section (py "RULE 1 a") [] VNone
               (py "volleyball-rule-1") [];
             finished_section (py "RULE 2 b") [] VNone
               (py "volleyball-rule-2") [] ]
           1 1
           (finished_section (py "RULE 2 b") [] VNone
              (py "volleyball-rule-2") [])
           (finished_section (py "RULE 2 b") [] VNone
              (py "volleyball-rule-2") []));
    reflexivity.
Defined.

Lemma pipeline_shape filename pages finished :
  pipeline filename pages = Ok finished ->
  finished <> [] /\
  forall k d,
    nth_error finished k = Some d ->
    exists t c p,
      page_value p /\
      d = finished_section t c p
            (filename ++ py "-rule-" ++ str_of_nat (k + 1))
            (make_snippet_n c 200).
Proof.
  unfold pipeline. cbv zeta.
  destruct (split_into_sections (join_pages pages)) as [secs|] eqn:Es;
    [|discriminate].
  cbn [bind]. intros Hf.
  destruct (split_shape _ _ Es) as (Hne & Hall).
  apply for_enumerate_inv in Hf as (Hlen & Hnth). split.
  - intros ->. destruct secs; [congruence|discriminate].
  - intros k d Hk.
    destruct (nth_error secs k) as [d0|] eqn:E0.
    + rewrite Forall_forall in Hall.
      destruct (Hall d0 (nth_error_In _ _ E0)) as (t & c & p & -> & Hp).
      specialize (Hnth k _ _ E0 Hk). cbn [plus] in Hnth.
      rewrite finish_section_shape in Hnth. injection Hnth as <-.
      now exists t, c, p.
    + apply nth_error_None in E0.
      assert (k < length finished) by (apply nth_error_Some; congruence). lia.
Qed.

 

(** X6: every record that comes out of the pipeline has exactly the keys
    "title", "content", "start_page", "id" and "snippet", in this order;
    its id is "{prefix}-rule-{k+1}" for the position [k], its snippet is
    that of its content, and its start_page is null or a number that is
    not negative.  The pipeline never returns an empty list. *)
Theorem pipeline_record_shape filename pages finished :
  pipeline filename pages = Ok finished ->
  finished <> [] /\
  forall k d,
    nth_error finished k = Some d ->
    exists t c p,
      page_value p /\
      d = finished_section t c p
            (filename ++ py "-rule-" ++ str_of_nat (k + 1))
            (make_snippet_n c 200).
Proof. apply pipeline_shape. Qed.

Lemma pipeline_record_shape_witness :
  [ finished_section (py "RULE 2 Play - on") (py "body  two") (VInt 2)
      (py "mens_soccer-rule-1") (py "body two") ] <> [] /\
  forall k d,
    nth_error
      [ finished_section (py "RULE 2 Play - on") (py "body  two") (VInt 2)
          (py "mens_soccer-rule-1") (py "body two") ] k = Some d ->
    exists t c p,
      page_value p /\
      d = finished_section t c p
            (py "mens_soccer" ++ py "-rule-" ++ str_of_nat (k + 1))
            (make_snippet_n c 200).
Proof.
  apply (pipeline_record_shape (py "mens_soccer") two_pages).
  vm_compute. reflexivity.
Defined.

(** ** Where the core raises *)

Lemma for_enumerate_raise_inv A B (body : nat -> A -> result B) e :
  forall l i,
    for_enumerate body i l = Raise e ->
    exists j x, nth_error l j = Some x /\ body (i + j) x = Raise e.
Proof.
  induction l as [|x0 l IH]; intros i H; cbn in H; [discriminate|].
  destruct (body i x0) as [y0|e0] eqn:E0.
  - cbn in H. destruct (for_enumerate body (S i) l) as [ys|e1] eqn:E1;
      [discriminate|].
    cbn in H. injection H as ->. destruct (IH _ E1) as (j & x & Hj & Hb).
    exists (S j), x. split; auto. now rewrite Nat.add_succ_r.
  - cbn in H. injection H as ->. exists 0, x0. split; auto.
    now rewrite Nat.add_0_r.
Qed.

Lemma for_enumerate_raises A B (body : nat -> A -> result B) :
  forall l i j x e,
    nth_error l j = Some x -> body (i + j) x = Raise e ->
    exists e', for_enumerate body i l = Raise e'.
Proof.
  induction l as [|x0 l IH]; intros i j x e Hj Hb; [now destruct j|].
  cbn. destruct (body i x0) as [y0|e0] eqn:E0; cbn; [|eauto].
  destruct j as [|j].
  - cbn in Hj. injection Hj as ->. rewrite Nat.add_0_r in Hb. congruence.
  - cbn in Hj. rewrite Nat.add_succ_r in Hb.
    destruct (IH (S i) j x e Hj Hb) as (e' & ->). cbn. eauto.
Qed.

(** The loop body raises exactly when the page recovery does. *)
Lemma section_of_raises text heading_iter idx m e :
  section_of text heading_iter idx m = Raise e <->
  recover_page text (m_start m) = Raise e.
Proof.
  unfold section_of, getitem.
  assert (Hend : exists stop,
             (if idx + 1 <? length heading_iter
              then nxt <- match nth_error heading_iter (idx + 1) with
                          | Some x => Ok x
                          | None => Raise IndexError
                          end ;; Ok (m_start nxt)
              else Ok (length text)) = Ok stop).
  { destruct (idx + 1 <? length heading_iter) eqn:E; eauto.
    apply Nat.ltb_lt in E.
    destruct (nth_error heading_iter (idx + 1)) eqn:En; cbn; eauto.
    apply nth_error_None in En. lia. }
  destruct Hend as (stop & ->). cbn [bind].
  destruct (recover_page text (m_start m)); cbn [bind]; split; congruence.
Qed.

(** [int] on the digits of a marker raises exactly when they are more
    than 4300, and then [ValueError]. *)
Lemma int_of_str_marker ds :
  ds <> [] -> forallb isdecimal ds = true ->
  (int_max_str_digits < length ds -> int_of_str ds = Raise ValueError) /\
  (forall e, int_of_str ds = Raise e ->
             e = ValueError /\ int_max_str_digits < length ds).
Proof.
  intros Hne Hd. split.
  - intros Hlen. unfold int_of_str. destruct ds; [congruence|].
    destruct (decimal_value 0 (c :: ds)); auto.
    apply Nat.leb_gt in Hlen. now rewrite Hlen.
  - intros e He.
    destruct (Nat.le_gt_cases (length ds) int_max_str_digits) as [Hle|Hgt].
    + destruct (int_of_str_digits ds Hne Hd Hle) as (n & _ & Hok). congruence.
    + split; auto. unfold int_of_str in He. destruct ds; [congruence|].
      destruct (decimal_value 0 (c :: ds)); [|congruence].
      destruct (_ <=? _); congruence.
Qed.

Lemma recover_page_raises text start e :
  recover_page text start = Raise e <->
  e = ValueError /\
  exists found ds,
    occurs_at (py "[PAGE") (firstn start text) found /\
    (forall j, found < j -> ~ occurs_at (py "[PAGE") (firstn start text) j) /\
    marker_prefix ds (slice text found (start + 1)) /\
    int_max_str_digits < length ds.
Proof.
  split.
  - intros H. pose proof (recover_page_cases text start) as Hc.
    pose proof (rfind_spec text (py "[PAGE") start ltac:(discriminate)) as Hr.
    destruct (rfind text (py "[PAGE") start) as [found|]; [|congruence].
    cbv zeta in Hc. destruct Hc as [(Hok & _)|(ds & Hm & Heq)]; [congruence|].
    rewrite Heq in H.
    destruct (int_of_str ds) as [n|e'] eqn:Ei; [discriminate|].
    cbn in H. injection H as ->.
    pose proof Hm as (ws & tail & _ & _ & _ & Hne & Hd).
    destruct (proj2 (int_of_str_marker ds Hne Hd) _ Ei) as (-> & Hlen).
    split; auto. exists found, ds. tauto.
  - intros (-> & found & ds & Ho & Hlast & Hm & Hlen).
    rewrite (recover_page_marker _ _ _ _ Ho Hlast Hm).
    pose proof Hm as (ws & tail & _ & _ & _ & Hne & Hd).
    now rewrite (proj1 (int_of_str_marker ds Hne Hd) Hlen).
Qed.

Lemma split_into_sections_raises full_text :
  let text := normalize_dashes full_text in
  ((exists e, split_into_sections full_text = Raise e) <->
   exists m found ds,
     In m (finditer true heading_re text) /\
     occurs_at (py "[PAGE") (firstn (m_start m) text) found /\
     (forall j, found < j ->
                ~ occurs_at (py "[PAGE") (firstn (m_start m) text) j) /\
     marker_prefix ds (slice text found (m_start m + 1)) /\
     int_max_str_digits < length ds) /\
  (forall e, split_into_sections full_text = Raise e -> e = ValueError).
Proof.
  cbv zeta. unfold split_into_sections.
  set (text := normalize_dashes full_text).
  set (heading_iter := finditer true heading_re text).
  assert (Hinv : forall e,
            match heading_iter with
            | [] => Ok [section (py "Full Document") (firstn 5000 text) (VInt 1)]
            | _ :: _ => for_enumerate (section_of text heading_iter) 0
                          heading_iter
            end = Raise e ->
            exists j m,
              nth_error heading_iter j = Some m /\
              recover_page text (m_start m) = Raise e).
  { intros e H. destruct heading_iter as [|m0 ms] eqn:Eh; [discriminate|].
    rewrite <- Eh in *.
    apply for_enumerate_raise_inv in H as (j & m & Hj & Hb).
    exists j, m. split; auto. now apply section_of_raises in Hb. }
  split; [split|].
  - intros (e & H). destruct (Hinv e H) as (j & m & Hj & Hr).
    apply recover_page_raises in Hr as (_ & found & ds & Hr).
    exists m, found, ds. split; [eapply nth_error_In; eauto | tauto].
  - intros (m & found & ds & Hin & Ho & Hlast & Hm & Hlen).
    apply In_nth_error in Hin as (j & Hj).
    assert (Hr : recover_page text (m_start m) = Raise ValueError).
    { apply recover_page_raises. split; auto. exists found, ds. tauto. }
    apply (section_of_raises text heading_iter j) in Hr.
    destruct heading_iter as [|m0 ms] eqn:Eh; [now destruct j|].
    rewrite <- Eh in *.
    exact (for_enumerate_raises _ _ _ heading_iter 0 j m _ Hj Hr).
  - intros e H. destruct (Hinv e H) as (j & m & _ & Hr).
    now apply recover_page_raises in Hr.
Qed.



(** ** What the sections are made of *)

(** ** Which characters the operations keep *)

Lemma in_slice c s a b : In c (slice s a b) -> In c s.
Proof.
  unfold slice. intros H. apply (in_skipn _ c a s).
  rewrite <- (firstn_skipn (b - a) (skipn a s)). apply in_or_app. now left.
Qed.

Lemma in_firstn (A : Type) (x : A) n l : In x (firstn n l) -> In x l.
Proof.
  intros H. rewrite <- (firstn_skipn n l). apply in_or_app. now left.
Qed.

Lemma in_lstrip c s : In c (lstrip s) -> In c s.
Proof.
  destruct (lstrip_split s) as (ws & E & _). intros H. rewrite E.
  apply in_or_app. now right.
Qed.

Lemma in_rstrip c s : In c (rstrip s) -> In c s.
Proof.
  destruct (rstrip_split s) as (ws & E & _). intros H. rewrite E.
  apply in_or_app. now left.
Qed.

Lemma in_strip c s : In c (strip s) -> In c s.
Proof. intros H. now apply in_lstrip, in_rstrip. Qed.

Lemma in_collapse_runs c s :
  forall b, In c (collapse_runs b s) -> In c s \/ c = SPACE.
Proof.
  induction s as [|x s IH]; intros b; cbn; auto.
  destruct (isspace x).
  - destruct b; cbn; intros H.
    + destruct (IH _ H); auto.
    + destruct H as [<-|H]; auto. destruct (IH _ H); auto.
  - cbn. intros [<-|H]; auto. destruct (IH _ H); auto.
Qed.

Lemma in_make_snippet_n c s n :
  In c (make_snippet_n s n) -> In c s \/ c = SPACE \/ c = ELLIPSIS.
Proof.
  intros H.
  assert (Hcut : forall k tl,
            In c (firstn k (strip (collapse_runs false s)) ++ tl) ->
            (forall x, In x tl -> x = ELLIPSIS) ->
            In c s \/ c = SPACE \/ c = ELLIPSIS).
  { intros k tl Hin Htl. apply in_app_or in Hin as [Hin|Hin].
    - apply in_firstn, in_strip, in_collapse_runs in Hin. tauto.
    - right. right. now apply Htl. }
  destruct (make_snippet_n_cases s n) as [(m & _ & E)|(_ & E)];
    rewrite E in H; apply (Hcut _ _ H); intros x Hx.
  - destruct (m <? _); [|contradiction]. now destruct Hx as [<-|[]].
  - now destruct Hx as [<-|[]].
Qed.

Lemma in_heading_title c text m :
  In c (heading_title text m) -> In c text \/ c = SPACE.
Proof.
  unfold heading_title. rewrite sub_spaces_collapse. intros H.
  apply in_strip, in_collapse_runs in H as [H|H]; auto.
  apply in_strip, in_slice in H. auto.
Qed.

(** ** Dashes *)

Lemma normalize_dashes_dash_free s : dash_free (normalize_dashes s).
Proof.
  unfold normalize_dashes. rewrite !replace_char. intros c H.
  apply in_flat_map in H as (x & Hx & Hc).
  apply in_flat_map in Hx as (y & Hy & Hx).
  destruct (y =? EM_DASH)%N eqn:E1.
  - assert (x = SPACE \/ x = 0x2D%N) as [->| ->]
      by (cbn in Hx; unfold SPACE; intuition congruence);
      cbn in Hc; destruct Hc as [<-|[]]; split; discriminate.
  - destruct Hx as [<-|[]]. apply N.eqb_neq in E1.
    destruct (y =? EN_DASH)%N eqn:E2.
    + destruct Hc as [<-|[]]. split; discriminate.
    + apply N.eqb_neq in E2. destruct Hc as [<-|[]]. auto.
Qed.

Lemma dash_free_incl s t :
  (forall c, In c t -> In c s \/ c = SPACE \/ c = ELLIPSIS) ->
  dash_free s -> dash_free t.
Proof.
  intros Hi Hs c Hc. destruct (Hi c Hc) as [H|[->| ->]]; auto;
    split; discriminate.
Qed.

Lemma split_dash_free full_text sections :
  split_into_sections full_text = Ok sections ->
  Forall (fun d => dash_free (title_of d) /\ dash_free (content_of d))
    sections.
Proof.
  intros Hs. pose proof (normalize_dashes_dash_free full_text) as Hfree.
  pose proof Hs as Hs'. unfold split_into_sections in Hs'.
  destruct (finditer true heading_re (normalize_dashes full_text))
    as [|m ms] eqn:E.
  - assert (sections
            = [ section (py "Full Document")
                  (firstn 5000 (normalize_dashes full_text)) (VInt 1) ])
      as -> by congruence.
    constructor; auto.
    rewrite title_of_section, content_of_section. split.
    + intros c Hc.
      assert (Hall : forallb (fun x => negb (x =? EM_DASH)%N
                                       && negb (x =? EN_DASH)%N)
                       (py "Full Document") = true) by reflexivity.
      rewrite forallb_forall in Hall. apply Hall in Hc.
      apply andb_prop in Hc as [H1 H2].
      apply negb_true_iff, N.eqb_neq in H1, H2. auto.
    + eapply dash_free_incl; [|exact Hfree]. intros c Hc. left.
      now apply in_firstn in Hc.
  - destruct (split_sections_nth full_text sections Hs) as (Hlen & Hnth).
    { rewrite E. discriminate. }
    rewrite E in Hlen, Hnth.
    apply Forall_forall. intros d Hd. apply In_nth_error in Hd as (i & Hi).
    destruct (nth_error (m :: ms) i) as [mi|] eqn:Em.
    + destruct (Hnth i mi d Em Hi) as (page & _ & ->).
      rewrite title_of_section, content_of_section. split.
      * eapply dash_free_incl; [|exact Hfree]. intros c Hc.
        apply in_heading_title in Hc. tauto.
      * eapply dash_free_incl; [|exact Hfree]. intros c Hc. left.
        now apply in_strip, in_slice in Hc.
    + apply nth_error_None in Em.
      assert (i < length sections) by (apply nth_error_Some; congruence).
      lia.
Qed.

(** X7: no title, content or snippet holds an em dash or an en dash,
    whatever the input: both are replaced before anything else is done. *)
Theorem no_dash_in_sections full_text sections :
  split_into_sections full_text = Ok sections ->
  Forall (fun d => dash_free (title_of d) /\ dash_free (content_of d) /\
                   dash_free (make_snippet_n (content_of d) 200))
    sections.
Proof.
  intros Hs. eapply Forall_impl; [|exact (split_dash_free _ _ Hs)].
  intros d (Ht & Hc). split; [exact Ht|]. split; [exact Hc|].
  eapply (dash_free_incl (content_of d)); eauto.
  intros c. apply in_make_snippet_n.
Qed.

Lemma no_dash_in_sections_witness :
  Forall (fun d => dash_free (title_of d) /\ dash_free (content_of d) /\
                   dash_free (make_snippet_n (content_of d) 200))
    [ section (py "RULE 2 Play - on") (py "body  two") (VInt 2) ].
Proof.
  apply (no_dash_in_sections (join_pages two_pages)).
  vm_compute. reflexivity.
Defined.

(** ** The scan of [finditer], offset by offset *)

Lemma finditer_from_scan ic r :
  0 < min_len r ->
  forall s pre skip,
    skip <= length s ->
    let ms := finditer_from ic r (length pre) s skip in
    Forall (fun m => match_at ic r (m_start m) (skipn (m_start m) (pre ++ s))
                     = Some m) ms /\
    forall j, skip <= j -> j <= length s ->
              existsb (covers (length pre + j)) ms = false ->
              match_at ic r (length pre + j) (skipn j s) = None.
Proof.
  intros Hmin. induction s as [|c s IH]; intros pre skip Hskip.
  - cbn in Hskip. assert (skip = 0) as -> by lia. cbn.
    destruct (match_at ic r (length pre) []) as [m|] eqn:E.
    + pose proof (match_at_bounds _ _ _ _ _ E) as (Hs & Hlo & Hhi).
      cbn in Hhi. lia.
    + split; auto. intros j _ Hj _. assert (j = 0) as -> by lia.
      now rewrite Nat.add_0_r.
  - assert (IH' : forall skip, skip <= length s ->
        Forall (fun m => match_at ic r (m_start m)
                           (skipn (m_start m) (pre ++ c :: s)) = Some m)
          (finditer_from ic r (S (length pre)) s skip) /\
        forall j, skip <= j -> j <= length s ->
          existsb (covers (S (length pre) + j))
            (finditer_from ic r (S (length pre)) s skip) = false ->
          match_at ic r (S (length pre) + j) (skipn j s) = None).
    { intros k Hk. specialize (IH (pre ++ [c]) k Hk).
      rewrite length_app, <- app_assoc in IH. cbn [length app] in IH.
      now rewrite Nat.add_1_r in IH. }
    clear IH. cbn [length] in *. destruct skip as [|n].
    + cbn [finditer_from].
      destruct (match_at ic r (length pre) (c :: s)) as [m|] eqn:E.
      * pose proof (match_at_bounds _ _ _ _ _ E) as (Hs & Hlo & Hhi).
        cbn [length] in Hhi.
        destruct (IH' (m_end m - length pre - 1)) as (Hm & Hgap); [lia|].
        split.
        -- constructor; auto. now rewrite Hs, skipn_app_length.
        -- intros j _ Hj Hex. cbn [existsb] in Hex.
           apply orb_false_elim in Hex as [Hcov Hex]. unfold covers in Hcov.
           apply andb_false_elim in Hcov as [Hcov|Hcov];
             [apply Nat.leb_gt in Hcov; lia|].
           apply Nat.ltb_ge in Hcov.
           destruct j as [|j]; [lia|]. cbn [skipn].
           replace (length pre + S j) with (S (length pre) + j) in * by lia.
           apply Hgap; auto; lia.
      * destruct (IH' 0) as (Hm & Hgap); [lia|]. split; auto.
        intros j _ Hj Hex. destruct j as [|j].
        -- now rewrite Nat.add_0_r.
        -- cbn [skipn].
           replace (length pre + S j) with (S (length pre) + j) in * by lia.
           apply Hgap; auto; lia.
    + cbn [finditer_from]. destruct (IH' n) as (Hm & Hgap); [lia|].
      split; auto. intros j Hn Hj Hex. destruct j as [|j]; [lia|].
      cbn [skipn].
      replace (length pre + S j) with (S (length pre) + j) in * by lia.
      apply Hgap; auto; lia.
Qed.

(** Each match of the scan is the one the matcher gives at its start, and
    the pattern matches at no offset that the matches leave uncovered. *)
Lemma finditer_scan ic r text :
  0 < min_len r ->
  let ms := finditer ic r text in
  Forall (fun m => match_at ic r (m_start m) (skipn (m_start m) text) = Some m)
    ms /\
  forall p, p <= length text ->
            existsb (covers p) ms = false ->
            match_at ic r p (skipn p text) = None.
Proof.
  intros Hmin. destruct (finditer_from_scan ic r Hmin text [] 0 (Nat.le_0_l _))
    as (H1 & H2).
  split; [exact H1|]. intros p Hp Hex. apply (H2 p); auto. lia.
Qed.

(** ** Greedy repetition runs as far as it can *)

Lemma repeat_greedy_max (p : char -> bool) (f : nat -> str -> mstate) :
  forall s i,
    repeat_greedy p i s (fun j t => Some (f j t))
    = Some (f (i + run_length p s) (skipn (run_length p s) s)).
Proof.
  induction s as [|c s IH]; intros i; cbn.
  - now rewrite Nat.add_0_r.
  - destruct (p c); cbn.
    + rewrite IH. now rewrite Nat.add_succ_r.
    + now rewrite Nat.add_0_r.
Qed.

Lemma run_length_stop p s c t :
  skipn (run_length p s) s = c :: t -> p c = false.
Proof.
  induction s as [|x s IH]; cbn; [discriminate|].
  destruct (p x) eqn:E; cbn; auto. intros [= -> _]. exact E.
Qed.

(** ** The shape of a heading match *)

Lemma heading_re_unfold :
  heading_re
  = Seq (Alt (Chr (Lit NL)) Bol)
      (Seq (Star Space) (Seq (Group heading_keywords) (Star NotNewline))).
Proof. reflexivity. Qed.

Lemma keyword_first_nonspace st st' :
  derives true heading_keywords st st' ->
  exists x s', rest st = x :: s' /\ isspace x = false.
Proof.
  intros H. apply derives_first in H as [(Hn & _)|(x & s' & Hs & Hx)].
  - vm_compute in Hn. discriminate.
  - exists x, s'. split; auto. destruct (isspace x) eqn:E; auto.
    apply isspace_chars in E.
    assert (Hall : forallb
              (fun c => negb (existsb (fun a => atom_match true a c)
                                (firsts heading_keywords)))
              space_chars = true) by (vm_compute; reflexivity).
    rewrite forallb_forall in Hall. apply Hall in E.
    rewrite Hx in E. discriminate.
Qed.

Lemma not_newline_run w :
  forallb (atom_match true NotNewline) w = true -> ~ In NL w.
Proof.
  intros H Hin. rewrite forallb_forall in H. apply H in Hin.
  cbn in Hin. discriminate.
Qed.

Lemma heading_shape i s st' :
  derives true heading_re (MState i s None) st' ->
  exists pre w1 g w3,
    s = pre ++ w1 ++ g ++ w3 ++ rest st' /\
    (pre = [NL] \/ pre = [] /\ i = 0) /\
    forallb isspace w1 = true /\
    (exists x g', g = x :: g' /\ isspace x = false) /\
    ~ In NL w3 /\
    pos st' = i + length pre + length w1 + length g + length w3 /\
    grp st' = Some (i + length pre + length w1,
                    i + length pre + length w1 + length g).
Proof.
  rewrite heading_re_unfold. cbn [derives].
  intros (mid & H1 & mid0 & (w1 & Hw1 & Hr1 & Hp1 & Hg1)
          & mid1 & (st1 & Hk & ->) & (w3 & Hw3 & Hr3 & Hp3 & Hg3)).
  cbn [rest pos grp] in *.
  destruct (derives_advance _ _ _ _ Hk) as (g & Hrg & Hpg & _).
  destruct (keyword_first_nonspace _ _ Hk) as (x & s' & Hx & Hxs).
  assert (Hg : exists g', g = x :: g').
  { destruct g as [|y g'].
    - exfalso. cbn in Hrg.
      destruct (derives_first _ _ _ _ Hk) as [(Hn & _)|_].
      + vm_compute in Hn. discriminate.
      + destruct (derives_advance _ _ _ _ Hk) as (g0 & Hg0 & _ & Hmin).
        assert (min_len heading_keywords = 6) by reflexivity.
        assert (length g0 = 0).
        { apply (f_equal (@length _)) in Hg0. rewrite Hrg in Hg0 at 1.
          rewrite length_app in Hg0. lia. }
        lia.
    - exists g'. rewrite Hx in Hrg. cbn in Hrg. congruence. }
  destruct Hg as (g' & ->).
  destruct H1 as [(c & Hs & Hc & Hp & Hg)|(Hi & ->)]; cbn [rest pos grp] in *.
  - exists [NL], w1, (x :: g'), w3.
    unfold eq_ignorecase in Hc. cbn in Hc. apply N.eqb_eq in Hc. subst c.
    repeat split; auto.
    + rewrite Hs, Hr1, Hrg, Hr3. reflexivity.
    + eauto.
    + now apply not_newline_run.
    + cbn [length] in *. lia.
    + rewrite Hg3. f_equal. f_equal; cbn [length] in *; lia.
  - exists [], w1, (x :: g'), w3. repeat split; auto.
    + cbn [app]. rewrite Hr1, Hrg, Hr3. reflexivity.
    + eauto.
    + now apply not_newline_run.
    + cbn [length] in *. lia.
    + rewrite Hg3. f_equal. f_equal; cbn [length] in *; lia.
Qed.

(** The match runs to the end of its line. *)
Lemma heading_match_to_eol i s m :
  match_at true heading_re i s = Some m ->
  skipn (m_end m - i) s = [] \/ exists t, skipn (m_end m - i) s = NL :: t.
Proof.
  unfold match_at.
  destruct (rmatch true heading_re (MState i s None) Some) as [res|] eqn:E;
    [|discriminate].
  intros [= <-]. cbn [m_end].
  destruct (rmatch_sound _ _ _ _ _ E) as (st' & Hd & Hk).
  injection Hk as ->.
  destruct (derives_advance _ _ _ _ Hd) as (w & Hw & Hp & _).
  cbn [rest pos] in Hw, Hp.
  assert (Hsk : skipn (pos res - i) s = rest res).
  { rewrite Hw, Hp. replace (i + length w - i) with (length w) by lia.
    apply skipn_app_length. }
  rewrite Hsk. clear Hd Hw Hp Hsk w.
  rewrite heading_re_unfold in E.
  change (rmatch true (Alt (Chr (Lit NL)) Bol) (MState i s None)
            (fun s1 => rmatch true (Star Space) s1
               (fun s2 => rmatch true (Group heading_keywords) s2
                  (fun s3 => rmatch true (Star NotNewline) s3 Some)))
          = Some res) in E.
  apply rmatch_sound in E as (s1 & _ & E).
  apply rmatch_sound in E as (s2 & _ & E).
  apply rmatch_sound in E as (s3 & _ & E).
  cbn [rmatch] in E.
  rewrite (repeat_greedy_max _ (fun i s => MState i s (grp s3))) in E.
  injection E as <-. cbn [rest].
  destruct (skipn _ (rest s3)) as [|c t] eqn:Es; auto.
  right. exists t. f_equal. apply run_length_stop in Es.
  cbn in Es. apply negb_false_iff, N.eqb_eq in Es. exact Es.
Qed.

Lemma heading_match_shape text m :
  In m (finditer true heading_re text) ->
  exists pre w1 g w3 tail,
    skipn (m_start m) text = pre ++ w1 ++ g ++ w3 ++ tail /\
    (pre = [NL] \/ pre = [] /\ m_start m = 0) /\
    forallb isspace w1 = true /\
    (exists x g', g = x :: g' /\ isspace x = false) /\
    ~ In NL w3 /\
    (tail = [] \/ exists t, tail = NL :: t) /\
    m_end m = m_start m + length pre + length w1 + length g + length w3 /\
    m_span1 m = Some (m_start m + length pre + length w1,
                      m_start m + length pre + length w1 + length g).
Proof.
  intros Hin.
  destruct (finditer_scan true heading_re text) as (Hat & _).
  { rewrite heading_re_min_len. lia. }
  rewrite Forall_forall in Hat. specialize (Hat m Hin).
  pose proof (heading_match_to_eol _ _ _ Hat) as Heol.
  destruct (match_at_sound _ _ _ _ _ Hat) as (_ & st' & Hd & He & Hg).
  destruct (heading_shape _ _ _ Hd)
    as (pre & w1 & g & w3 & Hs & Hpre & Hw1 & Hx & Hw3 & Hp & Hgr).
  exists pre, w1, g, w3, (rest st'). repeat split; auto; try congruence.
  assert (Hsk : skipn (m_end m - m_start m) (skipn (m_start m) text)
                = rest st').
  { rewrite He, Hp, Hs.
    replace (m_start m + length pre + length w1 + length g + length w3
             - m_start m)
      with (length (pre ++ w1 ++ g ++ w3))
      by (rewrite !length_app; lia).
    rewrite !app_assoc. rewrite <- !app_assoc.
    replace (pre ++ w1 ++ g ++ w3 ++ rest st')
      with ((pre ++ w1 ++ g ++ w3) ++ rest st')
      by now rewrite <- !app_assoc.
    apply skipn_app_length. }
  now rewrite Hsk in Heol.
Qed.

Lemma skipn_app_nth_error (s pre tl : str) n c :
  skipn n s = pre ++ c :: tl -> nth_error s (n + length pre) = Some c.
Proof.
  intros H. apply (skipn_head_nth_error _ _ _ _ tl).
  rewrite Nat.add_comm, <- skipn_skipn, H. apply skipn_app_length.
Qed.

Lemma skipn_nil_length (s : str) n : skipn n s = [] -> length s <= n.
Proof.
  intros H. apply (f_equal (@length _)) in H. rewrite length_skipn in H.
  cbn in H. lia.
Qed.

(** X8: a heading takes whole lines: its match starts at the start of the
    text or with a line feed, and ends at the end of the text or before a
    line feed; between the start of the match and the keyword there is only
    whitespace, and what the match takes after the keyword and its number
    stays on one line.  A keyword in the middle of a line starts no
    section. *)
Theorem headings_take_whole_lines full_text m :
  let text := normalize_dashes full_text in
  In m (finditer true heading_re text) ->
  (m_start m = 0 \/ nth_error text (m_start m) = Some NL) /\
  (m_end m = length text \/ nth_error text (m_end m) = Some NL) /\
  exists a b,
    m_span1 m = Some (a, b) /\
    m_start m <= a /\ a < b /\ b <= m_end m /\ m_end m <= length text /\
    forallb isspace (slice text (m_start m) a) = true /\
    (exists x, nth_error text a = Some x /\ isspace x = false) /\
    ~ In NL (slice text b (m_end m)).
Proof.
  intros text Hin.
  destruct (heading_match_shape text m Hin)
    as (pre & w1 & g & w3 & tail & Hs & Hpre & Hw1 & (x & g' & -> & Hx)
        & Hw3 & Htail & He & Hg).
  assert (Hlen : m_start m + length (pre ++ w1 ++ (x :: g') ++ w3 ++ tail)
                 = length text \/ length text < m_start m).
  { rewrite <- Hs, length_skipn. len_lia. }
  assert (Hle : m_start m <= length text).
  { destruct Hlen as [H|H]; [len_lia|].
    rewrite skipn_all2 in Hs by len_lia. symmetry in Hs.
    apply app_eq_nil in Hs as (_ & Hs). apply app_eq_nil in Hs as (_ & Hs).
    discriminate. }
  destruct Hlen as [Hlen|Hlen]; [|len_lia].
  rewrite !length_app in Hlen. cbn [length] in *.
  split; [|split].
  - destruct Hpre as [->|(-> & H0)]; auto. right.
    apply (skipn_head_nth_error _ _ _ _ (w1 ++ (x :: g') ++ w3 ++ tail)).
    exact Hs.
  - destruct Htail as [->|(t & ->)].
    + left. cbn [length] in Hlen. len_lia.
    + right.
      replace (m_end m)
        with (m_start m + length (pre ++ w1 ++ (x :: g') ++ w3))
        by (rewrite He, !length_app; cbn [length]; lia).
      apply (skipn_app_nth_error _ _ t). rewrite Hs.
      now rewrite <- !app_assoc.
  - exists (m_start m + length pre + length w1),
           (m_start m + length pre + length w1 + S (length g')).
    split; [exact Hg|]. split; [lia|]. split; [lia|]. split; [lia|].
    split; [len_lia|]. split; [|split].
    + replace (slice text (m_start m) (m_start m + length pre + length w1))
        with (pre ++ w1).
      * rewrite forallb_app, Hw1.
        destruct Hpre as [->|(-> & _)]; reflexivity.
      * symmetry.
        replace (m_start m + length pre + length w1)
          with (m_start m + length (pre ++ w1))
          by (rewrite length_app; lia).
        apply slice_of_suffix with (tl := (x :: g') ++ w3 ++ tail).
        rewrite Hs. now rewrite <- !app_assoc.
    + exists x. split; auto.
      replace (m_start m + length pre + length w1)
        with (m_start m + length (pre ++ w1))
        by (rewrite length_app; lia).
      apply (skipn_app_nth_error _ _ (g' ++ w3 ++ tail)). rewrite Hs.
      now rewrite <- !app_assoc.
    + replace (slice text (m_start m + length pre + length w1 + S (length g'))
                 (m_end m)) with w3; auto.
      symmetry. rewrite He.
      replace (m_start m + length pre + length w1 + length (x :: g')
               + length w3)
        with (m_start m + length pre + length w1 + S (length g')
              + length w3) by (cbn [length]; lia).
      apply slice_of_suffix with (tl := tail).
      replace (m_start m + length pre + length w1 + S (length g'))
        with (length (pre ++ w1 ++ x :: g') + m_start m)
        by (rewrite !length_app; cbn [length]; lia).
      rewrite <- skipn_skipn, Hs.
      replace (pre ++ w1 ++ (x :: g') ++ w3 ++ tail)
        with ((pre ++ w1 ++ x :: g') ++ w3 ++ tail)
        by (rewrite <- !app_assoc; reflexivity).
      apply skipn_app_length.
Qed.

Lemma headings_take_whole_lines_witness :
  let m := MkMatch 20 36 (Some (22, 28)) in
  let text := normalize_dashes example_doc in
  (m_start m = 0 \/ nth_error text (m_start m) = Some NL) /\
  (m_end m = length text \/ nth_error text (m_end m) = Some NL) /\
  exists a b,
    m_span1 m = Some (a, b) /\
    m_start m <= a /\ a < b /\ b <= m_end m /\ m_end m <= length text /\
    forallb isspace (slice text (m_start m) a) = true /\
    (exists x, nth_error text a = Some x /\ isspace x = false) /\
    ~ In NL (slice text b (m_end m)).
Proof.
  apply (headings_take_whole_lines example_doc (MkMatch 20 36 (Some (22, 28)))).
  vm_compute. left. reflexivity.
Defined.

(** ** Completeness of the matcher *)

Lemma repeat_greedy_complete A (p : char -> bool) (k : nat -> str -> option A) :
  forall w s i,
    forallb p w = true -> k (i + length w) s <> None ->
    repeat_greedy p i (w ++ s) k <> None.
Proof.
  induction w as [|c w IH]; intros s i Hw Hk.
  - cbn in Hk. rewrite Nat.add_0_r in Hk. cbn [app].
    destruct s as [|c s]; cbn; auto.
    destruct (p c); auto.
    destruct (repeat_greedy p (S i) s k); [discriminate | auto].
  - cbn in Hw. apply andb_prop in Hw as [Hc Hw]. cbn [app repeat_greedy].
    rewrite Hc.
    destruct (repeat_greedy p (S i) (w ++ s) k) eqn:E; [discriminate|].
    exfalso. revert E. apply IH; auto.
    cbn [length] in Hk. now rewrite Nat.add_succ_r in Hk.
Qed.

(** Whenever the pattern can be read at a place, in some way the
    continuation accepts, the search finds a way. *)
Lemma rmatch_complete ic r :
  forall st st' k,
    derives ic r st st' -> k st' <> None -> rmatch ic r st k <> None.
Proof.
  induction r as [|a| |a|a|r1 IH1 r2 IH2|r1 IH1 r2 IH2|r IH];
    intros st st' k H Hk; cbn [derives rmatch] in *.
  - now subst.
  - destruct H as (c & Hs & Hc & Hp & Hg). rewrite Hs, Hc.
    destruct st' as [p' r' g']. cbn in *. now subst.
  - destruct H as (H0 & ->). now rewrite H0.
  - destruct H as (w & Hw & Hs & Hp & Hg). rewrite Hs.
    apply repeat_greedy_complete; auto.
    destruct st' as [p' r' g']. cbn in *. now subst.
  - destruct H as (w & Hne & Hw & Hs & Hp & Hg).
    destruct w as [|c w]; [congruence|]. rewrite Hs. cbn [app].
    cbn in Hw. apply andb_prop in Hw as [Hc Hw]. rewrite Hc.
    apply repeat_greedy_complete; auto.
    destruct st' as [p' r' g']. cbn in *. subst.
    now rewrite Nat.add_succ_r in Hk.
  - destruct H as (mid & H1 & H2). eapply IH1; eauto.
  - destruct (rmatch ic r1 st k) eqn:E; [discriminate|].
    destruct H as [H|H]; [|eapply IH2; eauto].
    exfalso. revert E. eapply IH1; eauto.
  - destruct H as (st1 & H1 & ->). eapply IH; eauto.
Qed.

Lemma match_at_complete ic r i s st' :
  derives ic r (MState i s None) st' -> match_at ic r i s <> None.
Proof.
  intros H. unfold match_at.
  pose proof (rmatch_complete ic r _ _ Some H) as Hc.
  destruct (rmatch ic r (MState i s None) Some); [discriminate|].
  exfalso. apply Hc; [discriminate | reflexivity].
Qed.

(** ** A match read elsewhere

    Without the anchor, what a pattern reads depends on the characters it
    reads only: the same characters can be read at another offset and
    before another text. *)
Lemma derives_frame ic r :
  bol_free r = true ->
  forall st st',
    derives ic r st st' ->
    exists w,
      rest st = w ++ rest st' /\
      forall q tl g0,
      exists g1, derives ic r (MState q (w ++ tl) g0)
                   (MState (q + length w) tl g1).
Proof.
  induction r as [|a| |a|a|r1 IH1 r2 IH2|r1 IH1 r2 IH2|r IH];
    intros Hb st st' H; cbn [derives bol_free] in *.
  - subst. exists []. split; auto. intros q tl g0. exists g0.
    cbn. now rewrite Nat.add_0_r.
  - destruct H as (c & Hs & Hc & _). exists [c]. split; auto.
    intros q tl g0. exists g0, c. cbn. repeat split; auto. lia.
  - discriminate.
  - destruct H as (w & Hw & Hs & _). exists w. split; auto.
    intros q tl g0. exists g0, w. cbn. auto.
  - destruct H as (w & Hne & Hw & Hs & _). exists w. split; auto.
    intros q tl g0. exists g0, w. cbn. auto.
  - apply andb_prop in Hb as [Hb1 Hb2]. destruct H as (mid & H1 & H2).
    destruct (IH1 Hb1 _ _ H1) as (w1 & Hs1 & F1).
    destruct (IH2 Hb2 _ _ H2) as (w2 & Hs2 & F2).
    exists (w1 ++ w2). split.
    + now rewrite Hs1, Hs2, app_assoc.
    + intros q tl g0. destruct (F1 q (w2 ++ tl) g0) as (g1 & D1).
      destruct (F2 (q + length w1) tl g1) as (g2 & D2).
      exists g2, (MState (q + length w1) (w2 ++ tl) g1).
      rewrite <- app_assoc, length_app, Nat.add_assoc. auto.
  - apply andb_prop in Hb as [Hb1 Hb2]. destruct H as [H|H].
    + destruct (IH1 Hb1 _ _ H) as (w & Hs & F). exists w. split; auto.
      intros q tl g0. destruct (F q tl g0) as (g1 & D). eauto.
    + destruct (IH2 Hb2 _ _ H) as (w & Hs & F). exists w. split; auto.
      intros q tl g0. destruct (F q tl g0) as (g1 & D). eauto.
  - destruct H as (st1 & H1 & ->). cbn [rest].
    destruct (IH Hb _ _ H1) as (w & Hs & F). exists w. split; auto.
    intros q tl g0. destruct (F q tl g0) as (g1 & D).
    exists (Some (q, q + length w)), (MState (q + length w) tl g1).
    split; auto.
Qed.

Lemma heading_re_line :
  heading_re = Seq (Alt (Chr (Lit NL)) Bol) heading_line.
Proof. reflexivity. Qed.

Lemma heading_line_bol_free : bol_free heading_line = true.
Proof. reflexivity. Qed.

(** A heading read inside [content], a part of [text] that follows
    whitespace starting with a line feed or that starts the text, can be
    read in [text] as well, at an offset within that whitespace or
    [content]. *)
Lemma heading_in_part text L ws content tl p :
  text = L ++ ws ++ content ++ tl ->
  forallb isspace ws = true ->
  (ws = [] /\ L = [] \/ exists ws', ws = NL :: ws') ->
  match_at true heading_re p (skipn p content) <> None ->
  exists P,
    length L <= P /\ P < length L + length ws + length content /\
    match_at true heading_re P (skipn P text) <> None.
Proof.
  intros Ht Hws Hcase Hm.
  destruct (match_at true heading_re p (skipn p content)) as [m|] eqn:E;
    [clear Hm | congruence].
  destruct (match_at_sound _ _ _ _ _ E) as (_ & st' & Hd & _).
  rewrite heading_re_line in Hd. cbn [derives] in Hd.
  destruct Hd as (mid & [(c & Hs & Hc & Hp & _)|(Hp & ->)] & Hl);
    cbn [rest pos] in *.
  - (* the match starts with a line feed of [content] *)
    unfold eq_ignorecase in Hc. cbn in Hc. apply N.eqb_eq in Hc. subst c.
    destruct (derives_frame _ _ heading_line_bol_free _ _ Hl) as (w & Hw & F).
    assert (Hlt : p < length content).
    { destruct (Nat.lt_ge_cases p (length content)); auto.
      rewrite skipn_all2 in Hs by len_lia. discriminate. }
    exists (length L + length ws + p). split; [lia|]. split; [lia|].
    destruct (F (S (length L + length ws + p))
                (rest st' ++ tl) None) as (g1 & D).
    apply (match_at_complete true heading_re _ _
             (MState (S (length L + length ws + p) + length w)
                (rest st' ++ tl) g1)).
    rewrite heading_re_line. cbn [derives].
    exists (MState (S (length L + length ws + p)) (w ++ rest st' ++ tl) None).
    split; auto. left. exists NL. cbn [rest pos grp]. repeat split.
    rewrite Ht.
    replace (L ++ ws ++ content ++ tl) with ((L ++ ws) ++ content ++ tl)
      by now rewrite <- app_assoc.
    replace (length L + length ws + p) with (p + length (L ++ ws))
      by (rewrite length_app; lia).
    rewrite <- skipn_skipn, skipn_app_length.
    rewrite skipn_app. replace (p - length content) with 0 by lia.
    cbn [skipn]. rewrite Hs, Hw. cbn [app]. now rewrite <- app_assoc.
  - (* the match starts at the start of [content] *)
    cbn in Hp. subst p. cbn [skipn] in *.
    pose proof Hl as Hl'. unfold heading_line in Hl'. cbn [derives] in Hl'.
    destruct Hl' as (mid & (w0 & Hw0 & Hs0 & _) & Hk). cbn [rest] in *.
    change (derives true (Seq (Group heading_keywords) (Star NotNewline))
              mid st') in Hk.
    destruct (derives_frame true (Seq (Group heading_keywords)
                                    (Star NotNewline)) eq_refl _ _ Hk)
      as (w & Hw & F).
    destruct (derives_advance _ _ _ _ Hl) as (wl & Hwl & _ & Hmin).
    cbn [rest] in Hwl.
    assert (Hne : 0 < length content).
    { rewrite Hwl, length_app.
      assert (min_len heading_line = 6) by reflexivity. lia. }
    destruct Hcase as [(-> & ->)|(ws' & ->)].
    + exists 0. cbn [length]. split; [lia|]. split; [lia|].
      destruct (derives_frame _ _ heading_line_bol_free _ _ Hl)
        as (w' & Hw' & F').
      destruct (F' 0 (rest st' ++ tl) None) as (g1 & D).
      apply (match_at_complete true heading_re _ _
               (MState (0 + length w') (rest st' ++ tl) g1)).
      rewrite heading_re_line. cbn [derives].
      exists (MState 0 (w' ++ rest st' ++ tl) None). split; auto.
      right. cbn [pos skipn app]. split; auto.
      f_equal. rewrite Ht. cbn [app]. cbn [rest] in Hw'.
      now rewrite Hw', <- app_assoc.
    + exists (length L). cbn [length]. split; [lia|]. split; [lia|].
      cbn in Hws. apply andb_prop in Hws as [_ Hws].
      destruct (F (S (length L) + length (ws' ++ w0)) (rest st' ++ tl) None)
        as (g1 & D).
      apply (match_at_complete true heading_re _ _
               (MState (S (length L) + length (ws' ++ w0) + length w)
                  (rest st' ++ tl) g1)).
      rewrite heading_re_line. cbn [derives].
      exists (MState (S (length L)) (ws' ++ content ++ tl) None). split.
      * left. exists NL. cbn [rest pos grp]. repeat split.
        rewrite Ht, skipn_app_length. reflexivity.
      * unfold heading_line. cbn [derives].
        exists (MState (S (length L) + length (ws' ++ w0))
                  (w ++ rest st' ++ tl) None).
        split; auto. exists (ws' ++ w0). cbn [rest pos grp].
        repeat split; auto.
        -- rewrite forallb_app, Hw0.
           change (forallb isspace ws' = true) in Hws.
           change (atom_match true Space) with isspace.
           now rewrite Hws.
        -- rewrite Hs0, Hw, <- !app_assoc. reflexivity.
Qed.

(** The text between the end of a heading match and the start of the next
    lies in no match. *)
Lemma section_gap_uncovered text ms i m P :
  chain 0 ms (length text) ->
  nth_error ms i = Some m ->
  m_end m <= P -> P < next_start text ms i ->
  existsb (covers P) ms = false.
Proof.
  intros Hc Hi Hlo Hhi.
  destruct (existsb (covers P) ms) eqn:E; auto. exfalso.
  apply existsb_exists in E as (m' & Hin & Hcov).
  unfold covers in Hcov. apply andb_prop in Hcov as [H1 H2].
  apply Nat.leb_le in H1. apply Nat.ltb_lt in H2.
  apply In_nth_error in Hin as (j & Hj).
  destruct (chain_nth _ _ _ Hc i m Hi) as (_ & Hle & _ & Hnext).
  destruct (Nat.lt_trichotomy j i) as [Hlt|[->|Hgt]].
  - destruct (chain_nth _ _ _ Hc j m' Hj) as (_ & _ & _ & Hn').
    specialize (Hn' i m Hlt Hi). lia.
  - rewrite Hi in Hj. injection Hj as <-. lia.
  - unfold next_start in Hhi.
    destruct (nth_error ms (i + 1)) as [m1|] eqn:E1.
    + destruct (Nat.eq_dec j (i + 1)) as [->|Hne].
      * rewrite E1 in Hj. injection Hj as <-. lia.
      * destruct (chain_nth _ _ _ Hc (i + 1) m1 E1) as (_ & Hle1 & _ & Hn1).
        specialize (Hn1 j m' ltac:(lia) Hj). lia.
    + apply nth_error_None in E1.
      assert (j < length ms) by (apply nth_error_Some; congruence). lia.
Qed.

Lemma heading_needs_text p s m :
  match_at true heading_re p s = Some m -> 6 <= length s.
Proof.
  intros E. apply match_at_bounds in E as (_ & H1 & H2).
  rewrite heading_re_min_len in H1. lia.
Qed.

Lemma heading_match_tail text m :
  In m (finditer true heading_re text) ->
  m_end m <= length text /\
  (skipn (m_end m) text = [] \/ exists t, skipn (m_end m) text = NL :: t).
Proof.
  intros Hin.
  destruct (heading_match_shape text m Hin)
    as (pre & w1 & g & w3 & tail & Hs & _ & _ & _ & _ & Htail & He & _).
  assert (Hsk : skipn (m_end m) text = tail).
  { replace (m_end m) with (length (pre ++ w1 ++ g ++ w3) + m_start m)
      by (rewrite He, !length_app; lia).
    rewrite <- skipn_skipn, Hs.
    replace (pre ++ w1 ++ g ++ w3 ++ tail)
      with ((pre ++ w1 ++ g ++ w3) ++ tail) by now rewrite <- !app_assoc.
    apply skipn_app_length. }
  rewrite Hsk. split; auto.
  destruct (finditer_chain true heading_re text) as (Hc & _ & _).
  apply In_nth_error in Hin as (i & Hi).
  now destruct (chain_nth _ _ _ Hc i m Hi) as (_ & _ & Hhi & _).
Qed.

Lemma next_start_bounds text ms i m :
  chain 0 ms (length text) ->
  nth_error ms i = Some m ->
  m_end m <= next_start text ms i /\ next_start text ms i <= length text.
Proof.
  intros Hc Hi. destruct (chain_nth _ _ _ Hc i m Hi) as (_ & _ & Hhi & Hn).
  unfold next_start. destruct (nth_error ms (i + 1)) as [m1|] eqn:E1.
  - destruct (chain_nth _ _ _ Hc (i + 1) m1 E1) as (_ & Hle1 & Hhi1 & _).
    specialize (Hn (i + 1) m1 ltac:(lia) E1). lia.
  - lia.
Qed.

(** The content of a section holds no heading. *)
Lemma content_no_heading full_text sections d :
  split_into_sections full_text = Ok sections ->
  In d sections ->
  finditer true heading_re (content_of d) = [].
Proof.
  intros Hs Hin. set (text := normalize_dashes full_text).
  destruct (finditer_scan true heading_re text) as (_ & Hgap).
  { rewrite heading_re_min_len. lia. }
  apply finditer_nil_iff. intros p Hp.
  destruct (match_at true heading_re p (skipn p (content_of d))) as [m'|] eqn:E;
    auto.
  exfalso. pose proof (heading_needs_text _ _ _ E) as Hlen.
  assert (Hm : match_at true heading_re p (skipn p (content_of d)) <> None)
    by congruence.
  clear E m'.
  pose proof Hs as Hs'. unfold split_into_sections in Hs'. fold text in Hs'.
  destruct (finditer true heading_re text) as [|m0 ms] eqn:Ems.
  - assert (sections
            = [ section (py "Full Document") (firstn 5000 text) (VInt 1) ])
      as -> by congruence.
    destruct Hin as [<-|[]]. rewrite content_of_section in *.
    destruct (heading_in_part text [] [] (firstn 5000 text)
                (skipn 5000 text) p) as (P & _ & HP & HmP); auto.
    { cbn [app]. now rewrite firstn_skipn. }
    cbn [length] in HP. rewrite length_firstn in HP.
    apply HmP, Hgap; auto. len_lia.
  - destruct (split_sections_nth full_text sections Hs) as (Hlen' & Hnth).
    { fold text. rewrite Ems. discriminate. }
    fold text in Hnth, Hlen'. rewrite Ems in Hnth, Hlen'.
    destruct (finditer_chain true heading_re text) as (Hc & _ & _).
    rewrite Ems in Hc.
    apply In_nth_error in Hin as (i & Hi).
    destruct (nth_error (m0 :: ms) i) as [m|] eqn:Em.
    2:{ apply nth_error_None in Em.
        assert (i < length sections) by (apply nth_error_Some; congruence).
        lia. }
    destruct (Hnth i m d Em Hi) as (page & _ & ->).
    rewrite content_of_section in *.
    set (stop := next_start text (m0 :: ms) i) in *.
    destruct (next_start_bounds _ _ _ _ Hc Em) as (Hes & Hst). fold stop in Hes, Hst.
    destruct (heading_match_tail text m) as (_ & Htail).
    { rewrite Ems. eapply nth_error_In; eauto. }
    set (R := slice text (m_end m) stop) in *.
    destruct (strip_parts R) as (ws1 & ws2 & HR & Hw1 & Hw2).
    assert (HRlen : length R = stop - m_end m).
    { unfold R, slice. rewrite length_firstn, length_skipn. len_lia. }
    assert (Htext : text = firstn (m_end m) text ++ ws1 ++ strip R
                           ++ ws2 ++ skipn stop text).
    { rewrite <- (firstn_skipn (m_end m) text) at 1. f_equal.
      rewrite (slice_app_skipn text (m_end m) stop Hes). fold R.
      rewrite HR at 1. now rewrite <- !app_assoc. }
    assert (HL : length (firstn (m_end m) text) = m_end m).
    { rewrite length_firstn. len_lia. }
    assert (Hparts : length ws1 + length (strip R) <= stop - m_end m).
    { rewrite <- HRlen. apply (f_equal (@length _)) in HR.
      rewrite !length_app in HR. len_lia. }
    destruct (heading_in_part text (firstn (m_end m) text) ws1 (strip R)
                (ws2 ++ skipn stop text) p Htext Hw1) as (P & HP1 & HP2 & HmP);
      auto.
    + right.
      assert (Hsk : skipn (m_end m) text = ws1 ++ strip R ++ ws2
                                           ++ skipn stop text).
      { rewrite Htext at 1. rewrite <- HL at 1. apply skipn_app_length. }
      destruct (strip R) as [|c content'] eqn:Ec.
      { rewrite skipn_nil in Hlen. cbn in Hlen. lia. }
      pose proof (proj1 (strip_trimmed R) c content' Ec) as Hc'.
      destruct Htail as [Hnil|(t & Ht)]; rewrite Hsk in *.
      * apply app_eq_nil in Hnil as (_ & Hnil). discriminate.
      * destruct ws1 as [|x ws']; cbn [app] in Ht.
        -- injection Ht as -> _. vm_compute in Hc'. discriminate.
        -- injection Ht as -> _. eauto.
    + rewrite HL in *. apply HmP, Hgap; [len_lia|].
      eapply section_gap_uncovered; eauto.
      fold stop. lia.
Qed.

Lemma heading_title_normal text m :
  single_spaced false (heading_title text m) = true /\
  trimmed (heading_title text m).
Proof.
  unfold heading_title. rewrite sub_spaces_collapse.
  apply collapsed_text_normal.
Qed.

Lemma heading_title_nonempty text m :
  In m (finditer true heading_re text) -> heading_title text m <> [].
Proof.
  intros Hin E. apply (f_equal nonspace) in E.
  rewrite nonspace_heading_title in E. cbn in E.
  destruct (heading_match_shape text m Hin)
    as (pre & w1 & g & w3 & tail & Hs & _ & _ & (x & g' & -> & Hx)
        & _ & _ & He & _).
  assert (Hsl : slice text (m_start m) (m_end m)
                = pre ++ w1 ++ (x :: g') ++ w3).
  { replace (m_end m)
      with (m_start m + length (pre ++ w1 ++ (x :: g') ++ w3))
      by (rewrite He, !length_app; lia).
    apply slice_of_suffix with (tl := tail). rewrite Hs.
    now rewrite <- !app_assoc. }
  rewrite Hsl, !nonspace_app in E. cbn in E. rewrite Hx in E.
  apply app_eq_nil in E as (_ & E). apply app_eq_nil in E as (_ & E).
  discriminate.
Qed.

Lemma spaces_between_words_one_line s :
  spaces_between_words s -> ~ In NL s.
Proof.
  intros H Hin. apply In_nth_error in Hin as (i & Hi).
  destruct (H i NL Hi eq_refl) as (E & _). discriminate.
Qed.

(** X9: the title of every section is a non-empty single line in which
    the words are separated by single spaces; when the scan finds a
    heading, no content starts or ends with whitespace (the content of the
    fallback section is not trimmed). *)
Theorem titles_and_contents_normal full_text sections :
  split_into_sections full_text = Ok sections ->
  Forall (fun d => title_of d <> [] /\ ~ In NL (title_of d) /\
                   spaces_between_words (title_of d)) sections /\
  (finditer true heading_re (normalize_dashes full_text) <> [] ->
   Forall (fun d => trimmed (content_of d)) sections).
Proof.
  intros Hs. pose proof Hs as Hs'. unfold split_into_sections in Hs'.
  set (text := normalize_dashes full_text) in *.
  destruct (finditer true heading_re text) as [|m0 ms] eqn:Ems.
  - assert (sections
            = [ section (py "Full Document") (firstn 5000 text) (VInt 1) ])
      as -> by congruence.
    split; [|congruence]. constructor; auto. rewrite title_of_section.
    assert (Hn : spaces_between_words (py "Full Document")).
    { apply normal_spaces_between_words; [reflexivity|].
      split; intros ? ? H; [now injection H as <- _|].
      change (py "Full Document") with (py "Full Documen" ++ [0x74%N]) in H.
      apply app_inj_tail in H as [_ <-]. reflexivity. }
    split; [discriminate|]. split; auto.
    now apply spaces_between_words_one_line.
  - destruct (split_sections_nth full_text sections Hs) as (Hlen & Hnth).
    { fold text. rewrite Ems. discriminate. }
    fold text in Hnth, Hlen. rewrite Ems in Hnth, Hlen.
    assert (Hall : forall d, In d sections ->
              exists m page c,
                In m (finditer true heading_re text) /\
                d = section (heading_title text m) (strip c) page).
    { intros d Hd. apply In_nth_error in Hd as (i & Hi).
      destruct (nth_error (m0 :: ms) i) as [m|] eqn:Em.
      - destruct (Hnth i m d Em Hi) as (page & _ & ->).
        exists m, page. eexists. split; [|reflexivity].
        rewrite Ems. eapply nth_error_In; eauto.
      - apply nth_error_None in Em.
        assert (i < length sections) by (apply nth_error_Some; congruence).
        lia. }
    split.
    + apply Forall_forall. intros d Hd.
      destruct (Hall d Hd) as (m & page & c & Hm & ->).
      rewrite title_of_section.
      destruct (heading_title_normal text m) as (H1 & H2).
      pose proof (normal_spaces_between_words _ H1 H2) as Hn.
      split; [now apply heading_title_nonempty|]. split; auto.
      now apply spaces_between_words_one_line.
    + intros _. apply Forall_forall. intros d Hd.
      destruct (Hall d Hd) as (m & page & c & Hm & ->).
      rewrite content_of_section. apply strip_trimmed.
Qed.

Lemma titles_and_contents_normal_witness :
  Forall (fun d => title_of d <> [] /\ ~ In NL (title_of d) /\
                   spaces_between_words (title_of d))
    [ section (py "RULE 2 Play - on") (py "body  two") (VInt 2) ] /\
  (finditer true heading_re (normalize_dashes (join_pages two_pages)) <> [] ->
   Forall (fun d => trimmed (content_of d))
     [ section (py "RULE 2 Play - on") (py "body  two") (VInt 2) ]).
Proof.
  apply (titles_and_contents_normal (join_pages two_pages)).
  vm_compute. reflexivity.
Defined.

(** X10: sections are atomic: the content of a section holds no heading,
    so that splitting it again gives the single section of the fallback. *)
Theorem section_content_splits_no_further full_text sections d :
  split_into_sections full_text = Ok sections ->
  In d sections ->
  split_into_sections (content_of d)
  = Ok [ section (py "Full Document") (firstn 5000 (content_of d)) (VInt 1) ].
Proof.
  intros Hs Hin.
  pose proof (split_dash_free _ _ Hs) as Hfree.
  rewrite Forall_forall in Hfree. destruct (Hfree d Hin) as (_ & Hc).
  unfold split_into_sections. rewrite (normalize_dashes_free _ Hc).
  now rewrite (content_no_heading _ _ _ Hs Hin).
Qed.

Lemma section_content_splits_no_further_witness :
  split_into_sections
    (content_of (section (py "RULE 1 Scoring") (py "Body A.") (VInt 1)))
  = Ok [ section (py "Full Document")
           (firstn 5000
              (content_of
                 (section (py "RULE 1 Scoring") (py "Body A.") (VInt 1))))
           (VInt 1) ].
Proof.
  apply (section_content_splits_no_further example_doc
           [ section (py "RULE 1 Scoring") (py "Body A.") (VInt 1);
             section (py "RULE 2 Fouls") (py "Body B.") (VInt 1) ]).
  - vm_compute. reflexivity.
  - left. reflexivity.
Defined.

(** X11: the scan misses no heading: wherever the heading pattern matches
    in the normalized text, the place lies inside one of the heading
    matches the sections are made from. *)
Theorem every_heading_is_covered full_text p :
  let text := normalize_dashes full_text in
  p <= length text ->
  match_at true heading_re p (skipn p text) <> None ->
  exists i m,
    nth_error (finditer true heading_re text) i = Some m /\
    m_start m <= p /\ p < m_end m.
Proof.
  intros text Hp Hm.
  destruct (finditer_scan true heading_re text) as (_ & Hgap).
  { rewrite heading_re_min_len. lia. }
  destruct (existsb (covers p) (finditer true heading_re text)) eqn:E.
  - apply existsb_exists in E as (m & Hin & Hcov).
    apply In_nth_error in Hin as (i & Hi). exists i, m.
    unfold covers in Hcov. apply andb_prop in Hcov as [H1 H2].
    apply Nat.leb_le in H1. apply Nat.ltb_lt in H2. auto.
  - now rewrite (Hgap p Hp E) in Hm.
Qed.

Lemma every_heading_is_covered_witness :
  exists i m,
    nth_error (finditer true heading_re (normalize_dashes example_doc)) i
    = Some m /\
    m_start m <= 21 /\ 21 < m_end m.
Proof.
  apply (every_heading_is_covered example_doc 21).
  - vm_compute. repeat constructor.
  - vm_compute. discriminate.
Defined.

Lemma no_page_literal_check s :
  rfind s (py "[PAGE") (length s) = None -> no_page_literal s.
Proof.
  intros H j. pose proof (rfind_spec s (py "[PAGE") (length s)) as Hs.
  rewrite H, firstn_all in Hs. apply Hs. discriminate.
Qed.

(** ** The joined document determines the pages *)

Lemma app_sep_inj_first (A : Type) (x : A) :
  forall u1 u2 v1 v2,
    ~ In x u1 -> ~ In x u2 ->
    u1 ++ x :: v1 = u2 ++ x :: v2 -> u1 = u2 /\ v1 = v2.
Proof.
  induction u1 as [|a u1 IH]; intros [|b u2] v1 v2 H1 H2 E; cbn in E.
  - injection E as ->. auto.
  - injection E as <- _. exfalso. apply H2. now left.
  - injection E as -> _. exfalso. apply H1. now left.
  - injection E as -> E. destruct (IH u2 v1 v2) as [-> ->]; auto.
    + intros H. apply H1. now right.
    + intros H. apply H2. now right.
Qed.

Lemma str_of_nat_no_bracket n : ~ In 0x5D%N (str_of_nat n).
Proof. intros H. apply uint_digits_range in H. lia. Qed.

Lemma page_marker_inj n1 n2 p1 p2 :
  page_marker n1 ++ p1 = page_marker n2 ++ p2 -> n1 = n2 /\ p1 = p2.
Proof.
  unfold page_marker. rewrite <- !app_assoc. intros H.
  apply app_inv_head in H. cbn [py app] in H.
  apply app_sep_inj_first in H as [H1 H2]; try apply str_of_nat_no_bracket.
  apply str_of_nat_inj in H1. injection H2 as H2. auto.
Qed.

(** In [U ++ page_marker n ++ p] the last "[PAGE" is the one of the
    marker, when [p] has none. *)
Lemma last_marker_literal U n p :
  no_page_literal p ->
  occurs_at (py "[PAGE") (U ++ page_marker n ++ p) (length U) /\
  forall j, length U < j ->
            ~ occurs_at (py "[PAGE") (U ++ page_marker n ++ p) j.
Proof.
  intros Hp. split.
  - unfold occurs_at. rewrite skipn_app_length. reflexivity.
  - intros j Hj Ho. unfold occurs_at in Ho.
    rewrite skipn_app, skipn_all2 in Ho by lia. cbn [app] in Ho.
    destruct (page_marker_open n) as (mt & Hm & Hmt). rewrite Hm in Ho.
    destruct (j - length U) as [|j'] eqn:Ej; [lia|].
    cbn [app skipn] in Ho.
    change (occurs_at (py "[PAGE") (mt ++ p) j') in Ho.
    apply (occurs_at_leading _ _ _ _ _ Hmt) in Ho as (_ & Ho).
    exact (Hp _ Ho).
Qed.

Lemma join_pages_nil_inv pages : join_pages pages = [] -> pages = [].
Proof.
  destruct pages as [|p ps]; auto. rewrite join_pages_joined, joined_cons.
  rewrite page_block_marker.
  destruct (page_marker_open (0 + 1)) as (mt & -> & _). discriminate.
Qed.

Lemma join_pages_injective_clean :
  forall ps1 ps2,
    Forall no_page_literal ps1 -> Forall no_page_literal ps2 ->
    join_pages ps1 = join_pages ps2 -> ps1 = ps2.
Proof.
  induction ps1 as [|p1 qs1 IH] using rev_ind; intros ps2 H1 H2 E.
  - symmetry. apply join_pages_nil_inv. now rewrite <- E.
  - destruct ps2 as [|p2 qs2 _] using rev_ind.
    { apply join_pages_nil_inv in E. now destruct qs1. }
    apply Forall_app in H1 as (Hq1 & Hp1). apply Forall_app in H2 as (Hq2 & Hp2).
    inversion Hp1 as [|? ? Hp1' _]; subst.
    inversion Hp2 as [|? ? Hp2' _]; subst.
    rewrite !join_pages_snoc in E.
    set (U1 := join_pages qs1
                 ++ match qs1 with [] => [] | _ :: _ => py "\n\n" end) in *.
    set (U2 := join_pages qs2
                 ++ match qs2 with [] => [] | _ :: _ => py "\n\n" end) in *.
    assert (E' : U1 ++ page_marker (length qs1 + 1) ++ p1
                 = U2 ++ page_marker (length qs2 + 1) ++ p2).
    { unfold U1, U2. rewrite <- !app_assoc. exact E. }
    destruct (last_marker_literal U1 (length qs1 + 1) p1 Hp1') as (Ho1 & Hl1).
    destruct (last_marker_literal U2 (length qs2 + 1) p2 Hp2') as (Ho2 & Hl2).
    rewrite E' in Ho1, Hl1.
    assert (Hlen : length U1 = length U2).
    { destruct (Nat.lt_trichotomy (length U1) (length U2)) as [H|[H|H]]; auto.
      - now apply Hl1 in Ho2.
      - now apply Hl2 in Ho1. }
    assert (HU : U1 = U2).
    { apply (f_equal (firstn (length U1))) in E'.
      rewrite firstn_app_length, Hlen, firstn_app_length in E'. exact E'. }
    rewrite HU in E'. apply app_inv_head in E'.
    apply page_marker_inj in E' as (Hn & ->).
    assert (Hq : length qs1 = length qs2) by lia.
    f_equal. apply IH; auto. unfold U1, U2 in HU.
    destruct qs1, qs2; try discriminate; auto.
    now apply app_inv_tail in HU.
Qed.

(** X12: the joined document determines the pages: two lists of pages,
    none of which contains "[PAGE", that give the same joined document are
    the same list. *)
Theorem join_pages_injective ps1 ps2 :
  Forall no_page_literal ps1 -> Forall no_page_literal ps2 ->
  join_pages ps1 = join_pages ps2 -> ps1 = ps2.
Proof. apply join_pages_injective_clean. Qed.

Lemma join_pages_injective_witness :
  [py "Intro"; py "RULE 2 Play"] = [py "Intro"; py "RULE 2 Play"].
Proof.
  apply (join_pages_injective [py "Intro"; py "RULE 2 Play"]
           [py "Intro"; py "RULE 2 Play"]).
  - repeat constructor; apply no_page_literal_check; reflexivity.
  - repeat constructor; apply no_page_literal_check; reflexivity.
  - reflexivity.
Defined.


(** ** Page numbers along a joined document *)

Lemma joined_from_firstn_length i ps k :
  length (joined_from i (firstn k ps))
  <= length (joined_from i (firstn (S k) ps)).
Proof.
  destruct (Nat.le_gt_cases (length ps) k) as [Hle|Hgt].
  - rewrite !firstn_all2 by lia. lia.
  - destruct (nth_error ps k) as [x|] eqn:Ex.
    2:{ apply nth_error_None in Ex. lia. }
    assert (E : firstn (S k) ps = firstn k ps ++ [x]).
    { clear Hgt. revert ps Ex. induction k as [|k IH]; intros [|y ps] Ex;
        try discriminate.
      - cbn in Ex. now injection Ex as ->.
      - cbn [firstn nth_error app] in *. f_equal. now apply IH. }
    rewrite E. unfold joined_from. rewrite (join_snoc _ page_block).
    rewrite !length_app. lia.
Qed.

Lemma page_offset_mono i ps k k' :
  k <= k' -> page_offset i ps k <= page_offset i ps k'.
Proof.
  induction 1 as [|k' Hle IH]; auto.
  etransitivity; [exact IH|]. unfold page_offset.
  destruct k' as [|k']; [lia|].
  pose proof (joined_from_firstn_length i ps (S k')). lia.
Qed.

Lemma finditer_starts_increase ic r text i j mi mj :
  0 < min_len r ->
  nth_error (finditer ic r text) i = Some mi ->
  nth_error (finditer ic r text) j = Some mj ->
  i < j -> m_start mi < m_start mj.
Proof.
  intros Hmin Hi Hj Hlt.
  destruct (finditer_chain ic r text) as (Hc & _ & Hlen).
  destruct (chain_nth _ _ _ Hc i mi Hi) as (_ & _ & _ & Hn).
  specialize (Hn j mj Hlt Hj).
  rewrite Forall_forall in Hlen.
  specialize (Hlen mi (nth_error_In _ _ Hi)). lia.
Qed.

(** X13: in a joined document whose pages do not contain "[PAGE", the
    page numbers of the sections are between 1 and the number of pages and
    never decrease from one section to the next. *)
Theorem joined_start_pages_increase pages sections i j di dj :
  Forall no_page_literal pages ->
  split_into_sections (join_pages pages) = Ok sections ->
  finditer true heading_re (normalize_dashes (join_pages pages)) <> [] ->
  nth_error sections i = Some di ->
  nth_error sections j = Some dj ->
  i <= j ->
  exists a b,
    dict_lookup "start_page" di = Some (VInt (Z.of_nat a)) /\
    dict_lookup "start_page" dj = Some (VInt (Z.of_nat b)) /\
    1 <= a /\ a <= b /\ b <= length pages.
Proof.
  intros Hclean Hs Hne Hi Hj Hij.
  destruct (split_sections_nth _ _ Hs Hne) as (Hlen & _).
  set (ms := finditer true heading_re (normalize_dashes (join_pages pages)))
    in *.
  assert (Hm : forall k d, nth_error sections k = Some d ->
                           exists m, nth_error ms k = Some m).
  { intros k d Hk. destruct (nth_error ms k) as [m|] eqn:E; eauto.
    apply nth_error_None in E.
    assert (k < length sections) by (apply nth_error_Some; congruence). lia. }
  destruct (Hm i di Hi) as (mi & Hmi). destruct (Hm j dj Hj) as (mj & Hmj).
  destruct (joined_document_start_page pages sections i mi di
              Hclean Hs Hmi Hi) as (a & Ha & Hlo_a & Hhi_a & Hpa).
  destruct (joined_document_start_page pages sections j mj dj
              Hclean Hs Hmj Hj) as (b & Hb & Hlo_b & Hhi_b & Hpb).
  exists (a + 1), (b + 1). repeat split; auto; try lia.
  destruct (Nat.eq_dec i j) as [->|Hneq].
  - rewrite Hi in Hj. injection Hj as <-. rewrite Hpa in Hpb.
    injection Hpb as Hpb. lia.
  - assert (Hst : m_start mi < m_start mj).
    { apply (finditer_starts_increase true heading_re
               (normalize_dashes (join_pages pages)) i j); auto; try lia.
      rewrite heading_re_min_len. lia. }
    destruct (Nat.le_gt_cases a b) as [Hab|Hab]; [lia|]. exfalso.
    assert (Hb1 : b + 1 < length pages) by lia.
    specialize (Hhi_b Hb1).
    pose proof (page_offset_mono 0 (map normalize_dashes pages) (b + 1) a
                  ltac:(lia)).
    lia.
Qed.

Lemma joined_start_pages_increase_witness :
  exists a b,
    dict_lookup "start_page"
      (section (py "RULE 1 a") (py "[PAGE 2]\nx") (VInt 1))
    = Some (VInt (Z.of_nat a)) /\
    dict_lookup "start_page" (section (py "RULE 2 b") [] (VInt 2))
    = Some (VInt (Z.of_nat b)) /\
    1 <= a /\ a <= b /\ b <= length [py "RULE 1 a"; py "x\nRULE 2 b"].
Proof.
  apply (joined_start_pages_increase [py "RULE 1 a"; py "x\nRULE 2 b"]
           [ section (py "RULE 1 a") (py "[PAGE 2]\nx") (VInt 1);
             section (py "RULE 2 b") [] (VInt 2) ] 0 1).
  - repeat constructor; apply no_page_literal_check; reflexivity.
  - vm_compute. reflexivity.
  - vm_compute. discriminate.
  - reflexivity.
  - reflexivity.
  - lia.
Defined.

(** ** Documents without text *)

Lemma lstrip_blank s : blank s -> lstrip s = [].
Proof.
  unfold blank. induction s as [|c s IH]; cbn; auto.
  intros H. apply andb_prop in H as [Hc Hs]. rewrite Hc. auto.
Qed.

Lemma lstrip_app_blank s t : blank s -> lstrip (s ++ t) = lstrip t.
Proof.
  unfold blank. induction s as [|c s IH]; cbn; auto.
  intros H. apply andb_prop in H as [Hc Hs]. rewrite Hc. auto.
Qed.

Lemma lstrip_app_found s t c r :
  lstrip s = c :: r -> lstrip (s ++ t) = c :: r ++ t.
Proof.
  induction s as [|x s IH]; cbn; [discriminate|].
  destruct (isspace x); auto. intros [= -> ->]. reflexivity.
Qed.

Lemma blank_app s t : blank s -> blank t -> blank (s ++ t).
Proof. unfold blank. intros Hs Ht. now rewrite forallb_app, Hs, Ht. Qed.

Lemma blank_suffix u v : blank (u ++ v) -> blank v.
Proof.
  unfold blank. rewrite forallb_app. intros H.
  now apply andb_prop in H as [_ H].
Qed.

Lemma bracket_next_app s t :
  bracket_next s -> bracket_next t -> bracket_next (s ++ t).
Proof.
  intros [Hs|(r & Hs)] Ht.
  - destruct (lstrip_split s) as (ws & E & Hws). rewrite Hs, app_nil_r in E.
    subst ws. unfold bracket_next. now rewrite lstrip_app_blank.
  - right. exists (r ++ t). now apply lstrip_app_found.
Qed.

Lemma bracket_lines_blank s : blank s -> bracket_lines s.
Proof.
  intros Hs u v ->. left. apply lstrip_blank.
  apply blank_suffix in Hs. unfold blank in *. cbn in Hs.
  now apply andb_prop in Hs as [_ Hs].
Qed.

Lemma bracket_lines_app s t :
  bracket_lines s -> bracket_lines t -> bracket_next t ->
  bracket_lines (s ++ t).
Proof.
  intros Hs Ht Hn u v E.
  apply app_eq_app in E as (l & [(-> & E)|(-> & E)]).
  - destruct l as [|x l]; cbn in E.
    + apply (Ht [] v). now rewrite <- E.
    + injection E as <- ->. apply bracket_next_app; auto.
      apply (Hs u l). reflexivity.
  - apply (Ht l v E).
Qed.

Lemma bracket_lines_marker n : bracket_lines (page_marker n).
Proof.
  intros u v E.
  destruct (page_marker_newline n) as (m0 & Hm & Hnl & _).
  rewrite Hm in E.
  assert (Hv : v = []).
  { destruct v as [|y v] using rev_ind; auto. exfalso.
    rewrite app_comm_cons, app_assoc in E.
    apply app_inj_tail in E as (E & _). apply Hnl. rewrite E.
    apply in_or_app. right. now left. }
  subst v. now left.
Qed.

Lemma bracket_next_marker n t : bracket_next (page_marker n ++ t).
Proof.
  destruct (page_marker_open n) as (mt & -> & _). right. now exists (mt ++ t).
Qed.

Lemma joined_blank_pages ps :
  forall i,
    Forall blank ps ->
    bracket_lines (joined_from i ps) /\ bracket_next (joined_from i ps).
Proof.
  induction ps as [|p ps IH]; intros i Hall.
  - split; [|now left]. intros u v E. now destruct u.
  - inversion Hall as [|? ? Hp Hps]; subst.
    rewrite joined_cons, page_block_marker, <- app_assoc.
    split; [|apply bracket_next_marker].
    assert (Hrest : bracket_lines
                      (match ps with
                       | [] => []
                       | _ :: _ => py "\n\n" ++ joined_from (S i) ps
                       end) /\
                    bracket_next
                      (match ps with
                       | [] => []
                       | _ :: _ => py "\n\n" ++ joined_from (S i) ps
                       end)).
    { destruct ps as [|q ps'].
      - split; [|now left]. intros u v E. now destruct u.
      - destruct (IH (S i) Hps) as (H1 & H2). split.
        + apply bracket_lines_app; auto.
          apply bracket_lines_blank. reflexivity.
        + apply bracket_next_app; auto. now left. }
    destruct Hrest as (H1 & H2).
    apply bracket_lines_app; [apply bracket_lines_marker| |].
    + apply bracket_lines_app; auto. now apply bracket_lines_blank.
    + apply bracket_next_app; auto. left. now apply lstrip_blank.
Qed.

Lemma keyword_first_char st st' :
  derives true heading_keywords st st' ->
  exists x s', rest st = x :: s' /\ isspace x = false /\ x <> 0x5B%N.
Proof.
  intros H. destruct (keyword_first_nonspace _ _ H) as (x & s' & Hs & Hx).
  exists x, s'. repeat split; auto. intros ->.
  apply derives_first in H as [(Hn & _)|(y & t & Hy & Hm)].
  - vm_compute in Hn. discriminate.
  - rewrite Hs in Hy. injection Hy as <- _. vm_compute in Hm. discriminate.
Qed.

Lemma blank_dash_free s : blank s -> dash_free s.
Proof.
  intros H c Hc. unfold blank in H. rewrite forallb_forall in H.
  apply H in Hc. split; intros ->; discriminate.
Qed.

(** In a text whose lines start, whitespace apart, with "[", the heading
    pattern matches nowhere. *)
Lemma no_heading_after_brackets text :
  bracket_lines text -> bracket_next text ->
  finditer true heading_re text = [].
Proof.
  intros Hl Hn. apply finditer_nil_iff. intros i Hi.
  destruct (match_at true heading_re i (skipn i text)) as [m|] eqn:E; auto.
  exfalso. destruct (match_at_sound _ _ _ _ _ E) as (_ & st' & Hd & _).
  rewrite heading_re_unfold in Hd. cbn [derives] in Hd.
  destruct Hd as (mid & H1 & mid0 & (w1 & Hw1 & Hr1 & _)
                  & mid1 & (st1 & Hk & _) & _).
  apply keyword_first_char in Hk as (x & s' & Hx & Hsp & Hne).
  change (forallb isspace w1 = true) in Hw1.
  assert (Hb : bracket_next (rest mid)).
  { destruct H1 as [(c & Hs & Hc & _)|(H0 & ->)]; cbn [rest pos] in *.
    - unfold eq_ignorecase in Hc. cbn in Hc. apply N.eqb_eq in Hc. subst c.
      apply (Hl (firstn i text)). rewrite <- Hs. now rewrite firstn_skipn.
    - subst i. exact Hn. }
  rewrite Hr1, Hx in Hb. unfold bracket_next in Hb.
  rewrite lstrip_app_blank in Hb by exact Hw1.
  cbn [lstrip] in Hb. rewrite Hsp in Hb.
  destruct Hb as [Hb|(t & Hb)]; [discriminate|]. congruence.
Qed.

Lemma split_blank_pages pages :
  Forall blank pages ->
  split_into_sections (join_pages pages)
  = Ok [ section (py "Full Document") (firstn 5000 (join_pages pages))
           (VInt 1) ].
Proof.
  intros Hall. unfold split_into_sections.
  assert (Hn : normalize_dashes (join_pages pages) = join_pages pages).
  { rewrite join_pages_joined, normalize_dashes_joined. f_equal.
    rewrite <- (map_id pages) at 2. apply map_ext_in. intros p Hp.
    apply normalize_dashes_free, blank_dash_free.
    rewrite Forall_forall in Hall. auto. }
  rewrite Hn. destruct (joined_blank_pages pages 0 Hall) as (H1 & H2).
  rewrite <- join_pages_joined in H1, H2.
  now rewrite (no_heading_after_brackets _ H1 H2).
Qed.

(** X14: a PDF without text (every page empty or whitespace) gives one
    record: the fallback section "Full Document", on page 1, whose content
    is made of the page markers and the whitespace of the pages. *)
Theorem textless_pdf_gives_markers_only filename pages :
  Forall blank pages ->
  pipeline filename pages
  = Ok [ finished_section (py "Full Document")
           (firstn 5000 (join_pages pages)) (VInt 1)
           (filename ++ py "-rule-1")
           (make_snippet_n (firstn 5000 (join_pages pages)) 200) ].
Proof.
  intros Hall. unfold pipeline. cbv zeta. rewrite (split_blank_pages _ Hall).
  cbn [bind]. unfold finish_sections. cbn [for_enumerate].
  rewrite finish_section_shape. reflexivity.
Qed.

Lemma textless_pdf_gives_markers_only_witness :
  pipeline (py "volleyball") [ []; py " \n" ]
  = Ok [ finished_section (py "Full Document")
           (py "[PAGE 1]\n\n\n[PAGE 2]\n \n") (VInt 1)
           (py "volleyball-rule-1") (py "[PAGE 1] [PAGE 2]") ].
Proof.
  apply (textless_pdf_gives_markers_only (py "volleyball") [ []; py " \n" ]).
  repeat constructor.
Defined.

(** ** File names *)

Lemma ascii_cases (P : N -> Prop) :
  (forall n, n < 128 -> P (N.of_nat n)) -> forall c, (c < 0x80)%N -> P c.
Proof.
  intros H c Hc. rewrite <- (N2Nat.id c). apply H. lia.
Qed.

Lemma forallb_seq_spec (f : nat -> bool) n :
  forallb f (seq 0 n) = true -> forall k, k < n -> f k = true.
Proof.
  intros H k Hk. rewrite forallb_forall in H. apply H, in_seq. lia.
Qed.

Lemma in_sub_class_nil cls s c :
  In c (sub_class cls [] s) -> In c s /\ cls c = false.
Proof.
  unfold sub_class. intros H. apply in_flat_map in H as (x & Hx & Hc).
  destruct (cls x) eqn:E; [contradiction|]. destruct Hc as [<-|[]]. auto.
Qed.

Lemma in_replace_space s c :
  In c (replace (py " ") (py "_") s) ->
  In c s /\ c <> SPACE \/ c = 0x5F%N.
Proof.
  change (py " ") with [SPACE]. rewrite replace_char. intros H.
  apply in_flat_map in H as (x & Hx & Hc).
  destruct (x =? SPACE)%N eqn:E.
  - destruct Hc as [<-|[]]. now right.
  - destruct Hc as [<-|[]]. apply N.eqb_neq in E. now left.
Qed.

Lemma in_lower_from s :
  forall before z,
    In z (lower_from before s) ->
    exists y, In y s /\
              (y = 0x3A3%N /\ (z = 0x3C2%N \/ z = 0x3C3%N) \/
               In z (tolower_full y)).
Proof.
  induction s as [|c s IH]; intros before z H; [contradiction|].
  cbn [lower_from] in H. apply in_app_or in H as [H|H].
  - exists c. split; [now left|].
    destruct (c =? 0x3A3)%N eqn:E; auto.
    apply N.eqb_eq in E. left. split; auto.
    destruct (final_sigma before s); destruct H as [<-|[]]; auto.
  - destruct (IH _ _ H) as (y & Hy & Hz). exists y. split; auto. now right.
Qed.

Lemma lower_lookup_sound runs c x :
  lower_lookup runs c = Some x ->
  exists first last step image,
    In (first, last, step, image) runs /\
    (first <= c <= last)%N /\ x = (image + (c - first))%N.
Proof.
  induction runs as [|[[[first last] step] image] runs IH]; cbn;
    [discriminate|].
  destruct (in_range first last c && ((c - first) mod step =? 0)%N) eqn:E.
  - intros [= <-]. apply andb_prop in E as [E _]. unfold in_range in E.
    apply andb_prop in E as [E1 E2]. apply N.leb_le in E1, E2.
    exists first, last, step, image. repeat split; auto.
  - intros H. destruct (IH H) as (f & l & st & im & Hin & Hr).
    exists f, l, st, im. auto.
Qed.

(** Outside ASCII, lower case gives characters outside ASCII or
    lower-case ASCII letters. *)
Lemma tolower_full_outside_ascii y z :
  (0x80 <= y)%N -> In z (tolower_full y) -> filename_char z = true.
Proof.
  intros Hy Hz. unfold tolower_full in Hz.
  destruct (y =? 0x130)%N.
  { destruct Hz as [<-|[<-|[]]]; reflexivity. }
  destruct (lower_lookup lower_runs y) as [x|] eqn:E.
  - destruct Hz as [<-|[]].
    apply lower_lookup_sound in E as (first & last & step & image & Hin & Hr
                                      & ->).
    assert (Hall : forallb
              (fun run => match run with
                          | (first, last, step, image) =>
                              (last <? 0x80) || (0x80 <=? image)
                              || (in_range 0x61 0x7A image
                                  && in_range 0x61 0x7A
                                       (image + (last - first)))
                          end)%N lower_runs = true)
      by (vm_compute; reflexivity).
    rewrite forallb_forall in Hall. specialize (Hall _ Hin). cbn in Hall.
    unfold filename_char, in_range in *.
    repeat (apply orb_prop in Hall as [Hall|Hall]).
    + apply N.ltb_lt in Hall. lia.
    + apply N.leb_le in Hall.
      replace (0x80 <=? image + (y - first))%N with true; auto.
      symmetry. apply N.leb_le. lia.
    + apply andb_prop in Hall as [H1 H2].
      apply andb_prop in H1 as [H1 _]. apply andb_prop in H2 as [_ H2].
      apply N.leb_le in H1, H2.
      replace ((0x61 <=? image + (y - first))
               && (image + (y - first) <=? 0x7A))%N with true.
      * now rewrite orb_true_r.
      * symmetry. apply andb_true_intro. split; apply N.leb_le; lia.
  - destruct Hz as [<-|[]]. unfold filename_char.
    replace (0x80 <=? y)%N with true; auto. symmetry. now apply N.leb_le.
Qed.

Lemma tolower_full_ascii_kept y z :
  (y < 0x80)%N -> kept y = true -> y <> SPACE ->
  In z (tolower_full y) -> filename_char z = true.
Proof.
  intros Hy Hk Hs Hz. revert y Hy Hk Hs Hz. apply (ascii_cases
    (fun y => kept y = true -> y <> SPACE -> In z (tolower_full y) ->
              filename_char z = true)).
  intros n Hn Hk Hs Hz.
  assert (Hall : forallb
            (fun n => let y := N.of_nat n in
                      implb (kept y && negb (y =? SPACE)%N)
                        (forallb filename_char (tolower_full y)))
            (seq 0 128) = true) by (vm_compute; reflexivity).
  pose proof (forallb_seq_spec _ _ Hall n Hn) as H. cbv beta zeta in H.
  rewrite Hk in H. apply N.eqb_neq in Hs. rewrite Hs in H. cbn in H.
  rewrite forallb_forall in H. now apply H.
Qed.

Lemma filename_of_chars sport_name :
  Forall (fun c => filename_char c = true) (filename_of sport_name).
Proof.
  apply Forall_forall. intros z Hz. unfold filename_of, lower in Hz.
  apply in_lower_from in Hz as (y & Hy & Hz).
  destruct Hz as [(-> & [->| ->])|Hz]; try reflexivity.
  assert (Hk : kept y = true /\ y <> SPACE).
  { apply in_replace_space in Hy as [(Hy & Hs)| ->].
    - split; auto. apply in_sub_class_nil in Hy as (_ & Hy).
      unfold not_word_space_hyphen in Hy. now apply negb_false_iff in Hy.
    - split; [reflexivity | discriminate]. }
  destruct Hk as (Hk & Hs).
  destruct (N.lt_ge_cases y 0x80) as [Hlt|Hge].
  - eapply tolower_full_ascii_kept; eauto.
  - eapply tolower_full_outside_ascii; eauto.
Qed.

(** X15: the name of a sport is never turned into a file name that holds
    a slash, a backslash, a dot, a colon, a NUL, a space or a capital ASCII
    letter: every character of the file name is a lower-case ASCII letter,
    a digit, an underscore, a hyphen, ASCII whitespace other than the
    space, or a character outside ASCII. *)
Theorem filename_is_path_safe sport_name :
  Forall (fun c => filename_char c = true) (filename_of sport_name) /\
  Forall (fun c => ~ In c (filename_of sport_name))
    [0x2F; 0x5C; 0x2E; 0x3A; 0x00; 0x20]%N /\
  Forall (fun c => is_ascii_upper c = false) (filename_of sport_name).
Proof.
  pose proof (filename_of_chars sport_name) as H. split; [exact H|].
  rewrite Forall_forall in H. split.
  - repeat constructor; intros Hin; apply H in Hin; discriminate.
  - apply Forall_forall. intros c Hc. apply H in Hc.
    unfold filename_char, is_ascii_upper, in_range in *.
    destruct (0x41 <=? c)%N eqn:E1; auto.
    destruct (c <=? 0x5A)%N eqn:E2; auto.
    apply N.leb_le in E1, E2. exfalso.
    repeat (apply orb_prop in Hc as [Hc|Hc]);
      try (apply andb_prop in Hc as [Ha Hb]; apply N.leb_le in Ha, Hb);
      try apply N.leb_le in Hc; try apply N.eqb_eq in Hc; lia.
Qed.

Lemma sub_class_nil_filter cls s :
  sub_class cls [] s = filter (fun c => negb (cls c)) s.
Proof.
  unfold sub_class. induction s as [|c s IH]; cbn; auto.
  destruct (cls c); cbn; now rewrite IH.
Qed.

Lemma replace_space_map s :
  replace (py " ") (py "_") s
  = map (fun c => if (c =? SPACE)%N then 0x5F%N else c) s.
Proof.
  change (py " ") with [SPACE]. rewrite replace_char.
  induction s as [|c s IH]; cbn [flat_map map]; auto.
  rewrite IH. now destruct (c =? SPACE)%N.
Qed.

Lemma kept_ascii c : (c < 0x80)%N -> kept c = ascii_kept c.
Proof.
  apply (ascii_cases (fun c => kept c = ascii_kept c)). intros n Hn.
  assert (Hall : forallb
            (fun n => Bool.eqb (kept (N.of_nat n)) (ascii_kept (N.of_nat n)))
            (seq 0 128) = true) by (vm_compute; reflexivity).
  apply Bool.eqb_prop. exact (forallb_seq_spec _ _ Hall n Hn).
Qed.

Lemma tolower_full_ascii c :
  (c < 0x80)%N -> tolower_full c = [ascii_tolower c].
Proof.
  apply (ascii_cases (fun c => tolower_full c = [ascii_tolower c])).
  intros n Hn.
  assert (Hall : forallb
            (fun n => match tolower_full (N.of_nat n) with
                      | [x] => (x =? ascii_tolower (N.of_nat n))%N
                      | _ => false
                      end) (seq 0 128) = true) by (vm_compute; reflexivity).
  pose proof (forallb_seq_spec _ _ Hall n Hn) as H. cbv beta in H.
  destruct (tolower_full (N.of_nat n)) as [|x [|? ?]]; try discriminate.
  apply N.eqb_eq in H. now subst.
Qed.

Lemma lower_from_ascii s :
  forall before,
    is_ascii s = true -> lower_from before s = map ascii_tolower s.
Proof.
  induction s as [|c s IH]; intros before H; auto.
  cbn in H. apply andb_prop in H as [Hc Hs]. apply N.ltb_lt in Hc.
  cbn [lower_from map]. rewrite IH by auto.
  replace (c =? 0x3A3)%N with false by (symmetry; apply N.eqb_neq; lia).
  now rewrite tolower_full_ascii.
Qed.

Lemma filename_of_ascii_eq sport_name :
  is_ascii sport_name = true ->
  filename_of sport_name
  = map (fun c => if (c =? SPACE)%N then 0x5F%N else ascii_tolower c)
      (filter ascii_kept sport_name).
Proof.
  intros Ha. unfold filename_of, lower.
  rewrite sub_class_nil_filter, replace_space_map.
  assert (Hf : filter (fun c => negb (not_word_space_hyphen c)) sport_name
               = filter ascii_kept sport_name).
  { apply filter_ext_in. intros c Hc. unfold not_word_space_hyphen.
    rewrite negb_involutive. apply kept_ascii.
    unfold is_ascii in Ha. rewrite forallb_forall in Ha.
    now apply N.ltb_lt, Ha. }
  rewrite Hf. rewrite lower_from_ascii.
  - rewrite map_map. apply map_ext. intros c.
    now destruct (c =? SPACE)%N.
  - unfold is_ascii in *. rewrite forallb_forall in *. intros x Hx.
    apply in_map_iff in Hx as (y & <- & Hy). apply filter_In in Hy as (Hy & _).
    apply Ha in Hy. destruct (y =? SPACE)%N; auto.
Qed.

(** X16: for a name made of ASCII characters, the file name is the name
    without the characters other than letters, digits, underscore, hyphen
    and whitespace, with each space turned into an underscore and each
    capital letter into its small letter. *)
Theorem filename_of_ascii sport_name :
  is_ascii sport_name = true ->
  filename_of sport_name
  = map (fun c => if (c =? SPACE)%N then 0x5F%N else ascii_tolower c)
      (filter ascii_kept sport_name).
Proof. apply filename_of_ascii_eq. Qed.

Lemma filename_of_ascii_witness :
  filename_of (py "Women's Lacrosse")
  = map (fun c => if (c =? SPACE)%N then 0x5F%N else ascii_tolower c)
      (filter ascii_kept (py "Women's Lacrosse")).
Proof.
  apply (filename_of_ascii (py "Women's Lacrosse")). reflexivity.
Defined.

(** ** The orchestration *)

(** ** Runs *)

Lemma run_bind W A B (e : env W) (m : io A) (f : A -> io B) :
  forall w, run e (io_bind m f) w = then_run e (run e m w) f.
Proof.
  induction m as [a|x|line k IH|url dest k IH|p k IH|p data k IH];
    intros w; cbn [io_bind run].
  - unfold then_run. cbn. now destruct (run e (f a) w).
  - reflexivity.
  - destruct (on_print e line w) as [done w']. rewrite IH.
    unfold then_run, logged. cbn. now destruct (ending (run e (k done) w')).
  - destruct (on_transfer e url dest w) as [done w']. rewrite IH.
    unfold then_run, logged. cbn. now destruct (ending (run e (k done) w')).
  - destruct (on_open_pdf e p w) as [pdf w']. rewrite IH.
    unfold then_run, logged. cbn. now destruct (ending (run e (k pdf) w')).
  - destruct (on_dump_json e p data w) as [wr w']. rewrite IH.
    unfold then_run, logged. cbn. now destruct (ending (run e (k wr) w')).
Qed.

Lemma run_try W A (e : env W) (m : io A) (handler : failure -> io A) :
  forall w, run e (try_except m handler) w = else_run e (run e m w) handler.
Proof.
  induction m as [a|x|line k IH|url dest k IH|p k IH|p data k IH];
    intros w; cbn [try_except run].
  - reflexivity.
  - unfold else_run. cbn. now destruct (run e (handler x) w).
  - destruct (on_print e line w) as [done w']. rewrite IH.
    unfold else_run, logged. cbn. now destruct (ending (run e (k done) w')).
  - destruct (on_transfer e url dest w) as [done w']. rewrite IH.
    unfold else_run, logged. cbn. now destruct (ending (run e (k done) w')).
  - destruct (on_open_pdf e p w) as [pdf w']. rewrite IH.
    unfold else_run, logged. cbn. now destruct (ending (run e (k pdf) w')).
  - destruct (on_dump_json e p data w) as [wr w']. rewrite IH.
    unfold else_run, logged. cbn. now destruct (ending (run e (k wr) w')).
Qed.

(** *** Reading a trace *)

Lemma failed_prints_app t1 t2 :
  failed_prints (t1 ++ t2) = failed_prints t1 ++ failed_prints t2.
Proof. apply flat_map_app. Qed.

Lemma transfers_app t1 t2 : transfers (t1 ++ t2) = transfers t1 ++ transfers t2.
Proof. apply flat_map_app. Qed.

Lemma opened_app t1 t2 : opened (t1 ++ t2) = opened t1 ++ opened t2.
Proof. apply flat_map_app. Qed.

Lemma dumps_app t1 t2 : dumps (t1 ++ t2) = dumps t1 ++ dumps t2.
Proof. apply flat_map_app. Qed.

Lemma failed_prints_printed line u t :
  failed_prints (Printed line (Returned u) :: t) = failed_prints t.
Proof. reflexivity. Qed.

Lemma failed_prints_failed line msg t :
  failed_prints (Printed line (Raised msg) :: t)
  = (line, msg) :: failed_prints t.
Proof. reflexivity. Qed.

Lemma failed_prints_transferred url dest done t :
  failed_prints (Transferred url dest done :: t) = failed_prints t.
Proof. reflexivity. Qed.

Lemma failed_prints_opened p pdf t :
  failed_prints (Opened p pdf :: t) = failed_prints t.
Proof. reflexivity. Qed.

Lemma failed_prints_dumped p data wr t :
  failed_prints (Dumped p data wr :: t) = failed_prints t.
Proof. reflexivity. Qed.

Lemma transfers_printed line done t :
  transfers (Printed line done :: t) = transfers t.
Proof. reflexivity. Qed.

Lemma transfers_transferred url dest done t :
  transfers (Transferred url dest done :: t) = (url, dest, done) :: transfers t.
Proof. reflexivity. Qed.

Lemma transfers_opened p pdf t : transfers (Opened p pdf :: t) = transfers t.
Proof. reflexivity. Qed.

Lemma transfers_dumped p data wr t :
  transfers (Dumped p data wr :: t) = transfers t.
Proof. reflexivity. Qed.

Lemma opened_printed line done t : opened (Printed line done :: t) = opened t.
Proof. reflexivity. Qed.

Lemma opened_transferred url dest done t :
  opened (Transferred url dest done :: t) = opened t.
Proof. reflexivity. Qed.

Lemma opened_opened p pdf t : opened (Opened p pdf :: t) = (p, pdf) :: opened t.
Proof. reflexivity. Qed.

Lemma opened_dumped p data wr t : opened (Dumped p data wr :: t) = opened t.
Proof. reflexivity. Qed.

Lemma dumps_printed line done t : dumps (Printed line done :: t) = dumps t.
Proof. reflexivity. Qed.

Lemma dumps_transferred url dest done t :
  dumps (Transferred url dest done :: t) = dumps t.
Proof. reflexivity. Qed.

Lemma dumps_opened p pdf t : dumps (Opened p pdf :: t) = dumps t.
Proof. reflexivity. Qed.

Lemma dumps_dumped p data wr t :
  dumps (Dumped p data wr :: t) = (p, data, wr) :: dumps t.
Proof. reflexivity. Qed.

Lemma failed_prints_nil : failed_prints [] = [].
Proof. reflexivity. Qed.

Lemma transfers_nil : transfers [] = [].
Proof. reflexivity. Qed.

Lemma opened_nil : opened [] = [].
Proof. reflexivity. Qed.

Lemma dumps_nil : dumps [] = [].
Proof. reflexivity. Qed.

Create Rewrite HintDb trace_db.
#[local] Hint Rewrite
  failed_prints_app transfers_app opened_app dumps_app
  failed_prints_printed failed_prints_failed failed_prints_transferred
  failed_prints_opened failed_prints_dumped
  transfers_printed transfers_transferred transfers_opened transfers_dumped
  opened_printed opened_transferred opened_opened opened_dumped
  dumps_printed dumps_transferred dumps_opened dumps_dumped
  failed_prints_nil transfers_nil opened_nil dumps_nil
  app_nil_r app_nil_l : trace_db.

(** One call of the computation at the head of the goal, with each of its
    outcomes. *)
Ltac run_call :=
  match goal with
  | |- context [on_print ?e ?l ?w] =>
      destruct (on_print e l w) as [[[]|?msg] ?w']
  | |- context [on_transfer ?e ?u ?d ?w] =>
      destruct (on_transfer e u d w) as [[[]|?msg] ?w']
  | |- context [on_dump_json ?e ?p ?d ?w] =>
      destruct (on_dump_json e p d w) as [[[]|?msg] ?w']
  end;
  cbn [run io_bind try_except returned print logged trace world ending
       exception_text].

Ltac read_trace :=
  cbn [run io_bind try_except returned print logged trace world ending
       exception_text];
  autorewrite with trace_db.

Ltac show_seen := unfold seen; read_trace; repeat split; reflexivity.

(** ** [download_pdf] *)

(** The six ways through [download_pdf]. *)
Lemma download_pdf_cases W (e : env W) url dest_path w :
  let r := run e (download_pdf url dest_path) w in
  let ok := (url, dest_path, Returned tt) in
  (exists l m, seen r [(l, m)] [] [] [] (Raises (ExternalError m))) \/
  seen r [] [ok] [] [] (Returns true) \/
  (exists l m, seen r [(l, m)] [ok] [] [] (Returns false)) \/
  (exists l1 m1 l2 m2,
     seen r [(l1, m1); (l2, m2)] [ok] [] [] (Raises (ExternalError m2))) \/
  (exists m, seen r [] [(url, dest_path, Raised m)] [] [] (Returns false)) \/
  (exists m l2 m2,
     seen r [(l2, m2)] [(url, dest_path, Raised m)] [] []
       (Raises (ExternalError m2))).
Proof.
  cbv zeta. unfold download_pdf.
  cbn [run io_bind try_except returned print logged trace world ending].
  run_call; [|left; do 2 eexists; show_seen].
  run_call.
  - run_call; [right; left; show_seen|].
    run_call.
    + right. right. left. do 2 eexists. show_seen.
    + right. right. right. left. do 4 eexists. show_seen.
  - run_call.
    + do 4 right. left. eexists. show_seen.
    + do 5 right. do 3 eexists. show_seen.
Qed.

(** ** [extract_pages_text] *)

Lemma extract_loop_all texts :
  forall pages,
    extract_loop (map Returned texts) pages
    = Returned (pages ++ map text_or_empty texts).
Proof.
  induction texts as [|t texts IH]; intros pages; cbn.
  - now rewrite app_nil_r.
  - rewrite IH, <- app_assoc. reflexivity.
Qed.

Lemma extract_loop_some_raised pdf_pages :
  forall pages,
    (forall texts, pdf_pages <> map Returned texts) ->
    exists msg, extract_loop pdf_pages pages = Raised msg.
Proof.
  induction pdf_pages as [|[text|msg] pdf_pages IH]; intros pages H.
  - now destruct (H []).
  - cbn. apply IH. intros texts E. apply (H (text :: texts)). cbn. congruence.
  - cbn. eauto.
Qed.

Lemma all_returned_dec A (l : list (outcome A)) :
  (exists xs, l = map Returned xs) \/ (forall xs, l <> map Returned xs).
Proof.
  induction l as [|[x|msg] l IH].
  - left. now exists [].
  - destruct IH as [(xs & ->)|H].
    + left. now exists (x :: xs).
    + right. intros [|y ys]; [discriminate|]. cbn. intros [= _ E].
      now apply (H ys).
  - right. now intros [|y ys].
Qed.

(** All the pages, or none. *)
Lemma extracted_cases pdf :
  (exists texts,
     pdf = Returned (map Returned texts) /\
     extracted pdf = map text_or_empty texts) \/
  (forall texts, pdf <> Returned (map Returned texts)) /\ extracted pdf = [].
Proof.
  destruct pdf as [pdf_pages|msg]; [|right; split; [discriminate|reflexivity]].
  destruct (all_returned_dec _ pdf_pages) as [(texts & ->)|H].
  - left. exists texts. split; auto. unfold extracted.
    now rewrite extract_loop_all.
  - right. split; [intros texts [= ->]; now apply (H texts)|].
    unfold extracted.
    now destruct (extract_loop_some_raised pdf_pages [] H) as (msg & ->).
Qed.

(** The ways through [extract_pages_text]: the announcement raises; the
    pages come out and are reported; they come out and the report raises;
    the extraction raises. *)
Lemma extract_pages_text_cases W (e : env W) pdf_path w :
  let r := run e (extract_pages_text pdf_path) w in
  (exists l m, seen r [(l, m)] [] [] [] (Raises (ExternalError m))) \/
  exists pdf,
    let op := [(pdf_path, pdf)] in
    seen r [] [] op [] (Returns (extracted pdf)) \/
    (exists l m, seen r [(l, m)] [] op [] (Returns [])) \/
    (exists l1 m1 l2 m2,
       seen r [(l1, m1); (l2, m2)] [] op [] (Raises (ExternalError m2))) \/
    (exists l2 m2, seen r [(l2, m2)] [] op [] (Raises (ExternalError m2))).
Proof.
  cbv zeta. unfold extract_pages_text. cbv zeta.
  cbn [run io_bind try_except returned print logged trace world ending].
  run_call; [|left; do 2 eexists; show_seen].
  right. destruct (on_open_pdf e pdf_path w') as [pdf w1]. exists pdf.
  unfold extracted.
  destruct pdf as [pdf_pages|msg];
    [destruct (extract_loop pdf_pages []) as [pages|msg] eqn:El|];
    cbn [run io_bind try_except returned print logged trace world ending
         exception_text].
  - run_call; [left; show_seen|].
    run_call.
    + right. left. do 2 eexists. show_seen.
    + right. right. left. do 4 eexists. show_seen.
  - run_call.
    + left. show_seen.
    + do 3 right. do 2 eexists. show_seen.
  - run_call.
    + left. show_seen.
    + do 3 right. do 2 eexists. show_seen.
Qed.

(** ** [process_sport] *)

Ltac leaf :=
  read_trace;
  repeat match goal with
         | H : failed_prints (trace _) = _ |- _ => rewrite H
         | H : transfers (trace _) = _ |- _ => rewrite H
         | H : opened (trace _) = _ |- _ => rewrite H
         | H : dumps (trace _) = _ |- _ => rewrite H
         end;
  cbn [app];
  repeat match goal with
         | |- _ /\ _ => split
         | |- True => exact I
         | |- ?x = ?x => reflexivity
         | |- _ :: _ = [] -> _ => discriminate
         | |- [] = [] -> _ => intros _
         | |- [] = [] \/ _ => left; reflexivity
         | |- [] = _ :: _ \/ _ => right
         | |- _ :: _ = [] \/ _ => right
         | |- exists _, _ => eexists
         | |- In _ (_ ++ _) => apply in_or_app; right
         | |- In _ _ => cbn [In]; solve [eauto 6]
         | |- _ <> _ => discriminate
         | |- _ = sport_ending _ _ _ => unfold sport_ending
         | H : extracted ?p = _ |- context [extracted ?p] => rewrite H
         | H : pipeline ?f ?p = _ |- context [pipeline ?f ?p] => rewrite H
         | |- _ = _ => reflexivity
         | |- _ => progress cbv beta iota
         end.

Lemma process_sport_runs W (e : env W) sport_name pdf_url w :
  let r := run e (process_sport sport_name pdf_url) w in
  let dest := pdf_path_of sport_name in
  dumps (trace r) = [] /\
  (transfers (trace r) = [] \/
   exists done, transfers (trace r) = [(pdf_url, dest, done)]) /\
  (opened (trace r) = [] \/
   exists pdf,
     opened (trace r) = [(dest, pdf)] /\
     transfers (trace r) = [(pdf_url, dest, Returned tt)]) /\
  match ending r with
  | Returns None =>
      exists done, transfers (trace r) = [(pdf_url, dest, done)]
  | Returns (Some rec) =>
      exists pdf,
        opened (trace r) = [(dest, pdf)] /\
        extracted pdf <> [] /\
        pipeline (filename_of sport_name) (extracted pdf)
        = Ok (sections rec) /\
        rec = SportRecord sport_name pdf_url (sections rec)
  | Raises (CoreError x) =>
      exists pdf,
        opened (trace r) = [(dest, pdf)] /\
        extracted pdf <> [] /\
        pipeline (filename_of sport_name) (extracted pdf) = Raise x
  | Raises (ExternalError msg) =>
      exists line, In (line, msg) (failed_prints (trace r))
  end /\
  (failed_prints (trace r) = [] ->
   exists done,
     transfers (trace r) = [(pdf_url, dest, done)] /\
     match done with
     | Raised _ => opened (trace r) = [] /\ ending r = Returns None
     | Returned _ =>
         exists pdf,
           opened (trace r) = [(dest, pdf)] /\
           ending r = sport_ending sport_name pdf_url (extracted pdf)
     end).
Proof.
  cbv zeta. unfold process_sport. cbv zeta. fold (pdf_path_of sport_name).
  cbn [run io_bind returned print logged trace world ending].
  run_call.
  2:{ read_trace. repeat split; auto; try discriminate. eexists. now left. }
  run_call.
  2:{ read_trace. repeat split; auto; try discriminate. eexists. now left. }
  run_call.
  2:{ read_trace. repeat split; auto; try discriminate. eexists. now left. }
  rewrite run_bind.
  set (r1 := run e (download_pdf pdf_url (pdf_path_of sport_name)) w'1).
  destruct (download_pdf_cases W e pdf_url (pdf_path_of sport_name) w'1)
    as [(l & m & H)|[H|[(l & m & H)|[(l1 & m1 & l2 & m2 & H)|[(m & H)
        |(m & l2 & m2 & H)]]]]];
    fold r1 in H; destruct H as (F1 & T1 & O1 & D1 & E1);
    unfold then_run; rewrite E1; cbn [negb run trace world ending logged].
  - leaf.
  - rewrite run_bind.
    set (r2 := run e (extract_pages_text (pdf_path_of sport_name)) (world r1)).
    destruct (extract_pages_text_cases W e (pdf_path_of sport_name) (world r1))
      as [(l & m & H)|(pdf & [H|[(l & m & H)|[(l1 & m1 & l2 & m2 & H)
          |(l2 & m2 & H)]]])];
      fold r2 in H; destruct H as (F2 & T2 & O2 & D2 & E2);
      unfold then_run; rewrite E2; cbn [run trace world ending logged].
    + leaf.
    + unfold sport_ending. destruct (extracted pdf) as [|p ps] eqn:Ex.
      * cbn [run trace world ending]. leaf.
      * destruct (pipeline (filename_of sport_name) (p :: ps))
          as [fin|x] eqn:Ep;
          cbn [of_result run io_bind returned print logged trace world ending].
        -- run_call; leaf.
        -- leaf.
    + leaf.
    + leaf.
    + leaf.
  - leaf.
  - leaf.
  - leaf.
  - leaf.
Qed.

(** ** Subsequences *)

Lemma subseq_refl A (l : list A) : subseq l l.
Proof.
  induction l; [apply subseq_nil | now apply subseq_take].
Qed.

Lemma subseq_nil_l A (l : list A) : subseq [] l.
Proof.
  induction l; [apply subseq_nil | now apply subseq_skip].
Qed.

Lemma subseq_in A (l1 l2 : list A) x : subseq l1 l2 -> In x l1 -> In x l2.
Proof.
  induction 1; cbn; auto. intros [->|H']; auto.
Qed.

Lemma subseq_map A B (f : A -> B) l1 l2 :
  subseq l1 l2 -> subseq (map f l1) (map f l2).
Proof.
  induction 1; cbn;
    [apply subseq_nil | now apply subseq_skip | now apply subseq_take].
Qed.

Lemma subseq_NoDup A (l1 l2 : list A) : subseq l1 l2 -> NoDup l2 -> NoDup l1.
Proof.
  induction 1; intros Hn; auto.
  - inversion Hn; auto.
  - inversion Hn as [|? ? Hx Hn']; subst. constructor; auto.
    intros Hin. apply Hx. eapply subseq_in; eauto.
Qed.

(** ** The loop of [main] *)

Lemma main_loop_runs W (e : env W) :
  forall items acc w,
    let r := run e (main_loop items acc) w in
    dumps (trace r) = [] /\
    (exists n,
       n <= length items /\
       map transfer_call (transfers (trace r))
       = map download_target (firstn n items) /\
       match ending r with
       | Returns all =>
           n = length items /\
           exists new,
             all = acc ++ new /\
             subseq (map record_key new) items /\
             Forall record_ok new
       | Raises (CoreError _) => 0 < n
       | Raises (ExternalError msg) =>
           exists line, In (line, msg) (failed_prints (trace r))
       end) /\
    (failed_prints (trace r) = [] ->
     (forall x, ending r <> Raises (CoreError x)) ->
     exists all, ending r = Returns all).
Proof.
  induction items as [|[sport_name pdf_url] items IH]; intros acc w; cbv zeta.
  - cbn. split; auto. split; [|eauto]. exists 0. repeat split; auto.
    exists []. rewrite app_nil_r. repeat split; auto. apply subseq_nil.
  - cbn [main_loop]. rewrite run_bind.
    destruct (process_sport_runs W e sport_name pdf_url w)
      as (Hd & Ht & Ho & Hend & Hclean).
    set (r1 := run e (process_sport sport_name pdf_url) w) in *.
    unfold then_run.
    assert (Hstep : forall result acc',
              ending r1 = Returns result ->
              acc' = match result with
                     | Some rec => acc ++ [rec]
                     | None => acc
                     end ->
              exists done new1,
                transfers (trace r1)
                = [(pdf_url, pdf_path_of sport_name, done)] /\
                acc' = acc ++ new1 /\
                subseq (map record_key new1) [(sport_name, pdf_url)] /\
                Forall record_ok new1).
    { intros result acc' E1 ->. rewrite E1 in Hend.
      destruct result as [rec|].
      - destruct Hend as (pdf & Hop & Hne & Hp & Hrec).
        destruct Ho as [Ho|(pdf' & _ & Ho)]; [congruence|].
        exists (Returned tt), [rec]. repeat split; auto.
        + rewrite Hrec. cbn. apply subseq_take, subseq_nil.
        + constructor; auto. exists (extracted pdf). split; auto.
          rewrite Hrec. exact Hp.
      - destruct Hend as (done & Hdone). exists done, [].
        rewrite app_nil_r. repeat split; auto. cbn. apply subseq_nil_l. }
    destruct (ending r1) as [result|[x|msg]] eqn:E1.
    + destruct (Hstep result _ eq_refl eq_refl)
        as (done & new1 & Htr & Hacc & Hsub1 & Hok1).
      rewrite Hacc.
      specialize (IH (acc ++ new1) (world r1)). cbv zeta in IH.
      destruct IH as (IHd & (n & Hn & Hdn & Hres) & IHclean).
      set (r2 := run e (main_loop items (acc ++ new1)) (world r1)) in *.
      cbn [trace ending]. rewrite dumps_app, Hd, IHd.
      split; auto. split.
      * exists (S n). cbn [length firstn map]. split; [lia|].
        rewrite transfers_app, map_app, Htr, Hdn. split; [reflexivity|].
        destruct (ending r2) as [all|[x|msg]].
        -- destruct Hres as (-> & new & -> & Hsub & Hall). split; auto.
           exists (new1 ++ new). rewrite app_assoc. split; auto. split.
           ++ rewrite map_app.
              change ((sport_name, pdf_url) :: items)
                with ([(sport_name, pdf_url)] ++ items).
              clear -Hsub1 Hsub.
              induction Hsub1; cbn; auto.
              ** now apply subseq_skip.
              ** now apply subseq_take.
           ++ apply Forall_app. auto.
        -- lia.
        -- destruct Hres as (line & Hin). exists line.
           rewrite failed_prints_app. apply in_or_app. auto.
      * rewrite failed_prints_app. intros Hf Hcore.
        apply app_eq_nil in Hf as [_ Hf]. auto.
    + cbn [trace ending]. split; auto. split.
      * exists 1. cbn [length firstn map]. split; [lia|].
        destruct Hend as (pdf & Hop & _).
        destruct Ho as [Ho|(pdf' & _ & Ho)]; [congruence|].
        rewrite Ho. split; [reflexivity|lia].
      * intros _ Hcore. now destruct (Hcore x).
    + cbn [trace ending]. split; auto. split.
      * destruct Ht as [Ht|(done & Ht)]; rewrite Ht.
        -- exists 0. cbn. split; [lia|]. split; auto.
        -- exists 1. cbn [length firstn map]. split; [lia|]. split; auto.
      * intros Hf _. destruct Hend as (line & Hin).
        rewrite Hf in Hin. contradiction.
Qed.

(** ** [main] *)

Lemma main_runs_from W (e : env W) (loop : io (list sport_record))
    (m : io unit) w :
  m = (print (py "Multi-Sport Rulebook Scraper") ;;
       print rule_line ;;
       all_sports_data <- loop ;;
       let output_data :=
         OutputData all_sports_data (py "2024-2025 season") in
       DumpJson JSON_PATH output_data returned ;;
       print (NL :: rule_line) ;;
       print ([CHECK_MARK] ++ py " Successfully processed "
              ++ str_of_nat (length all_sports_data) ++ py " sports") ;;
       print ([CHECK_MARK] ++ py " Wrote combined data to "
              ++ path_str JSON_PATH) ;;
       print rule_line)%io ->
  (forall w', dumps (trace (run e loop w')) = []) ->
  let r := run e m w in
  (transfers (trace r) = [] /\ dumps (trace r) = [] /\
   exists line msg,
     In (line, msg) (failed_prints (trace r)) /\
     ending r = Raises (ExternalError msg)) \/
  exists w2,
    let rl := run e loop w2 in
    transfers (trace r) = transfers (trace rl) /\
    opened (trace r) = opened (trace rl) /\
    match ending rl with
    | Raises x =>
        dumps (trace r) = [] /\ ending r = Raises x /\
        failed_prints (trace r) = failed_prints (trace rl)
    | Returns all =>
        exists written,
          dumps (trace r)
          = [(JSON_PATH, OutputData all (py "2024-2025 season"), written)] /\
          match written with
          | Raised msg =>
              ending r = Raises (ExternalError msg) /\
              failed_prints (trace r) = failed_prints (trace rl)
          | Returned _ =>
              ending r = Returns tt /\
              failed_prints (trace r) = failed_prints (trace rl) \/
              exists line msg,
                In (line, msg) (failed_prints (trace r)) /\
                ending r = Raises (ExternalError msg)
          end
    end.
Proof.
  intros -> Hd. cbv zeta.
  cbn [run io_bind returned print logged trace world ending].
  run_call; [|left; leaf].
  run_call; [|left; leaf].
  right. exists w'0. rewrite run_bind. pose proof (Hd w'0) as D.
  set (rl := run e loop w'0) in *.
  unfold then_run. destruct (ending rl) as [all|x] eqn:El.
  - cbn [run io_bind returned print logged trace world ending].
    run_call.
    + run_call; [|leaf; right; leaf].
      run_call; [|leaf; right; leaf].
      run_call; [|leaf; right; leaf].
      run_call; [|leaf; right; leaf].
      leaf. left. leaf.
    + leaf.
  - leaf.
Qed.

(** What [main] has fetched and written when it ends. *)
Lemma main_spec W (e : env W) w :
  let r := run e main w in
  (exists n,
     n <= length SPORTS_RULEBOOKS /\
     map transfer_call (transfers (trace r))
     = map download_target (firstn n SPORTS_RULEBOOKS) /\
     (ending r = Returns tt \/ dumps (trace r) <> [] ->
      n = length SPORTS_RULEBOOKS)) /\
  (dumps (trace r) = [] \/
   exists data written,
     dumps (trace r) = [(JSON_PATH, data, written)] /\
     generated_at data = py "2024-2025 season" /\
     subseq (map record_key (sports data)) SPORTS_RULEBOOKS /\
     Forall record_ok (sports data) /\
     forall msg, written = Raised msg -> ending r = Raises (ExternalError msg)) /\
  match ending r with
  | Returns _ =>
      exists data, dumps (trace r) = [(JSON_PATH, data, Returned tt)]
  | Raises (CoreError _) => dumps (trace r) = []
  | Raises (ExternalError msg) =>
      (exists line, In (line, msg) (failed_prints (trace r))) \/
      exists data, dumps (trace r) = [(JSON_PATH, data, Raised msg)]
  end /\
  (failed_prints (trace r) = [] ->
   (forall x, ending r <> Raises (CoreError x)) ->
   exists data written,
     dumps (trace r) = [(JSON_PATH, data, written)] /\
     ending r = match written with
                | Returned _ => Returns tt
                | Raised msg => Raises (ExternalError msg)
                end).
Proof.
  cbv zeta.
  destruct (main_runs_from W e (main_loop SPORTS_RULEBOOKS []) main w eq_refl)
    as [(Ht & Hd & line & msg & Hin & He)|(w2 & Hm)].
  { intros w'. now destruct (main_loop_runs W e SPORTS_RULEBOOKS [] w'). }
  - rewrite Ht, Hd, He. split; [|split; [|split]].
    + exists 0. repeat split; auto; [cbn; lia|].
      intros [H|H]; [discriminate | now destruct H].
    + now left.
    + left. eauto.
    + intros Hf. rewrite Hf in Hin. contradiction.
  - cbv zeta in Hm. destruct Hm as (Ht & _ & Hm).
    destruct (main_loop_runs W e SPORTS_RULEBOOKS [] w2)
      as (_ & (n & Hn & Hdn & Hres) & Hclean). cbv zeta in Hn, Hdn, Hres, Hclean.
    set (rl := run e (main_loop SPORTS_RULEBOOKS []) w2) in *.
    rewrite Ht.
    destruct (ending rl) as [all|x] eqn:El.
    + destruct Hres as (-> & new & -> & Hsub & Hok). cbn [app] in *.
      destruct Hm as (written & Hd & Hw). rewrite Hd.
      split; [exists (length SPORTS_RULEBOOKS); repeat split; auto|].
      split.
      { right. exists (OutputData new (py "2024-2025 season")), written.
        repeat split; auto. intros msg ->. tauto. }
      destruct written as [[]|msg].
      * destruct Hw as [(He & Hf)|(line & msg & Hin & He)]; rewrite He.
        -- split; [eauto|]. intros _ _. do 2 eexists. split; reflexivity.
        -- split; [left; eauto|]. intros Hf. rewrite Hf in Hin.
           contradiction.
      * destruct Hw as (He & Hf). rewrite He. split; [right; eauto|].
        intros _ _. do 2 eexists. split; reflexivity.
    + destruct Hm as (Hd & He & Hf). rewrite Hd, He, Hf.
      split; [|split; [now left|]].
      * exists n. repeat split; auto.
        intros [H|H]; [discriminate | now destruct H].
      * destruct x as [x|msg]; split; auto.
        -- intros _ Hcore. now destruct (Hcore x).
        -- intros Hp Hcore. destruct (Hclean Hp) as (all & Hall);
             [|discriminate]. intros x'. discriminate.
Qed.

(** ** The ids of the output *)

Lemma map_nth_seq A B (g : A -> B) (h : nat -> B) :
  forall l i,
    (forall k d, nth_error l k = Some d -> g d = h (i + k)) ->
    map g l = map h (seq i (length l)).
Proof.
  induction l as [|x l IH]; intros i H; cbn; auto. f_equal.
  - rewrite (H 0 x eq_refl). f_equal. lia.
  - apply IH. intros k d Hk. rewrite (H (S k) d Hk). f_equal. lia.
Qed.

Lemma record_ids r :
  record_ok r ->
  map (dict_lookup "id") (sections r)
  = map (section_id (filename_of (sport r))) (seq 0 (length (sections r))).
Proof.
  intros (pages & _ & Hp). apply map_nth_seq. intros k d Hk. cbn [plus].
  unfold pipeline in Hp. cbv zeta in Hp.
  destruct (split_into_sections (join_pages pages)) as [secs|]; [|discriminate].
  cbn [bind] in Hp. exact (finish_sections_id _ _ _ _ _ Hp Hk).
Qed.

Lemma section_id_inj f1 f2 k1 k2 :
  section_id f1 k1 = section_id f2 k2 -> f1 = f2 /\ k1 = k2.
Proof.
  unfold section_id. intros [= H]. apply id_inj in H as [-> H].
  split; auto. lia.
Qed.

Lemma section_ids_NoDup f n : NoDup (map (section_id f) (seq 0 n)).
Proof.
  apply NoDup_map_NoDup_ForallPairs; [|apply seq_NoDup].
  intros a b _ _ H. now apply section_id_inj in H.
Qed.

Lemma all_ids_NoDup records :
  Forall record_ok records ->
  NoDup (map (fun r => filename_of (sport r)) records) ->
  NoDup (flat_map (fun r => map (dict_lookup "id") (sections r)) records).
Proof.
  induction records as [|r records IH]; intros Hok Hnd; cbn; [constructor|].
  inversion Hok as [|? ? Hr Hok']; subst.
  inversion Hnd as [|? ? Hf Hnd']; subst.
  apply NoDup_app; auto.
  - rewrite (record_ids r Hr). apply section_ids_NoDup.
  - intros id Hin Hin'. rewrite (record_ids r Hr) in Hin.
    apply in_map_iff in Hin as (k & <- & _).
    apply in_flat_map in Hin' as (r' & Hr' & Hin').
    rewrite Forall_forall in Hok'. rewrite (record_ids r' (Hok' r' Hr')) in Hin'.
    apply in_map_iff in Hin' as (k' & E & _).
    apply section_id_inj in E as (E & _). apply Hf. rewrite <- E.
    apply in_map_iff. now exists r'.
Qed.

Lemma distinct_NoDup l : distinct l = true -> NoDup l.
Proof.
  induction l as [|x l IH]; cbn; [constructor|].
  intros H. apply andb_prop in H as [Hx Hl]. constructor; auto.
  intros Hin. apply negb_true_iff in Hx.
  assert (He : existsb (fun y => if list_eq_dec N.eq_dec x y
                                 then true else false) l = true).
  { apply existsb_exists. exists x. split; auto.
    now destruct (list_eq_dec N.eq_dec x x). }
  congruence.
Qed.

(** The sports of the table get file names that differ. *)
Lemma table_filenames_NoDup :
  NoDup (map (fun item => filename_of (fst item)) SPORTS_RULEBOOKS).
Proof. apply distinct_NoDup. vm_compute. reflexivity. Qed.

Lemma output_ids_NoDup records :
  subseq (map record_key records) SPORTS_RULEBOOKS ->
  Forall record_ok records ->
  NoDup (flat_map (fun r => map (dict_lookup "id") (sections r)) records).
Proof.
  intros Hsub Hok. apply all_ids_NoDup; auto.
  apply (subseq_map _ _ (fun item => filename_of (fst item))) in Hsub.
  rewrite map_map in Hsub. cbn [record_key fst] in Hsub.
  eapply subseq_NoDup; eauto. apply table_filenames_NoDup.
Qed.

Lemma record_ok_nonempty r : record_ok r -> sections r <> [].
Proof. intros (pages & _ & Hp). now apply pipeline_shape in Hp. Qed.

(** ** What the orchestration shows *)


(** X17: [extract_pages_text] opens at most the PDF it was given, once, and
    returns all the pages or none, never a part of them: what it returns
    is the empty list, or one string for each page, in order, with the
    empty string for a page without text, and this only when the PDF
    opened and the text of every page was extracted.  It raises only the
    exception of a print: the announcement before the [try] block (then
    the PDF is not opened), or the message of the handler.  When every
    print comes back it returns: all the pages when the PDF opened and
    every page was extracted, and the empty list in every other case,
    whatever was extracted before the failure. *)
Theorem extract_pages_text_all_or_nothing W (e : env W) pdf_path w :
  let r := run e (extract_pages_text pdf_path) w in
  transfers (trace r) = [] /\ dumps (trace r) = [] /\
  (opened (trace r) = [] \/ exists pdf, opened (trace r) = [(pdf_path, pdf)]) /\
  match ending r with
  | Returns pages =>
      exists pdf,
        opened (trace r) = [(pdf_path, pdf)] /\
        (pages = [] \/
         exists texts,
           pdf = Returned (map Returned texts) /\
           pages = map text_or_empty texts)
  | Raises x =>
      exists line msg,
        x = ExternalError msg /\ In (line, msg) (failed_prints (trace r))
  end /\
  (failed_prints (trace r) = [] ->
   exists pdf pages,
     opened (trace r) = [(pdf_path, pdf)] /\
     ending r = Returns pages /\
     (forall texts,
        pdf = Returned (map Returned texts) ->
        pages = map text_or_empty texts) /\
     ((forall texts, pdf <> Returned (map Returned texts)) -> pages = [])).
Proof.
  cbv zeta.
  assert (Hex : forall pdf,
            (extracted pdf = [] \/
             exists texts,
               pdf = Returned (map Returned texts) /\
               extracted pdf = map text_or_empty texts) /\
            (forall texts,
               pdf = Returned (map Returned texts) ->
               extracted pdf = map text_or_empty texts) /\
            ((forall texts, pdf <> Returned (map Returned texts)) ->
             extracted pdf = [])).
  { intros pdf.
    destruct (extracted_cases pdf) as [(texts & -> & Hx)|(Hno & Hx)].
    - split; [right; eauto|]. split.
      + intros texts' [= E]. rewrite Hx.
        assert (texts' = texts) as ->; auto.
        clear -E. revert texts' E.
        induction texts as [|t texts IH]; intros [|t' texts'] E;
          try discriminate; auto.
        cbn in E. injection E as -> E. f_equal. auto.
      + intros H. now destruct (H texts).
    - split; [now left|]. split; auto.
      intros texts E. now destruct (Hno texts). }
  destruct (extract_pages_text_cases W e pdf_path w)
    as [(l & m & H)|(pdf & H)].
  { destruct H as (F & T & O & D & E). rewrite F, T, O, D, E.
    repeat split; auto; try discriminate.
    do 2 eexists. split; eauto. now left. }
  cbv zeta in H. destruct (Hex pdf) as (H1 & H2 & H3).
  destruct H as [H|[(l & m & H)|[(l1 & m1 & l2 & m2 & H)|(l2 & m2 & H)]]];
    destruct H as (F & T & O & D & E); rewrite F, T, O, D, E;
    repeat split; eauto; try discriminate.
  - intros _. exists pdf, (extracted pdf). auto.
  - do 2 eexists. split; eauto. right. now left.
  - do 2 eexists. split; eauto. now left.
Qed.

(** X18: [process_sport] writes no JSON, makes at most one transfer, of the
    URL of the sport to the path [output/<file name>.pdf], and opens at
    most that PDF, and only after the transfer came back.  It returns a
    record only with the finished sections that the pipeline makes of all
    the pages of the PDF, of which there is at least one; it raises an
    exception of the core only when the pipeline raises it on those pages;
    every other exception is that of a print.  When every print comes
    back: a transfer that raised gives [None] and no PDF is opened; else
    the PDF is opened and the result is [None] when no page comes out of
    it and else the record of the sport, or the exception of the core. *)
Theorem process_sport_gates W (e : env W) sport_name pdf_url w :
  let r := run e (process_sport sport_name pdf_url) w in
  let dest := pdf_path_of sport_name in
  dumps (trace r) = [] /\
  (transfers (trace r) = [] \/
   exists done, transfers (trace r) = [(pdf_url, dest, done)]) /\
  (opened (trace r) = [] \/
   exists pdf,
     opened (trace r) = [(dest, pdf)] /\
     transfers (trace r) = [(pdf_url, dest, Returned tt)]) /\
  match ending r with
  | Returns None =>
      exists done, transfers (trace r) = [(pdf_url, dest, done)]
  | Returns (Some rec) =>
      exists pdf,
        opened (trace r) = [(dest, pdf)] /\
        extracted pdf <> [] /\
        pipeline (filename_of sport_name) (extracted pdf)
        = Ok (sections rec) /\
        rec = SportRecord sport_name pdf_url (sections rec)
  | Raises (CoreError x) =>
      exists pdf,
        opened (trace r) = [(dest, pdf)] /\
        extracted pdf <> [] /\
        pipeline (filename_of sport_name) (extracted pdf) = Raise x
  | Raises (ExternalError msg) =>
      exists line, In (line, msg) (failed_prints (trace r))
  end /\
  (failed_prints (trace r) = [] ->
   exists done,
     transfers (trace r) = [(pdf_url, dest, done)] /\
     match done with
     | Raised _ => opened (trace r) = [] /\ ending r = Returns None
     | Returned _ =>
         exists pdf,
           opened (trace r) = [(dest, pdf)] /\
           ending r = sport_ending sport_name pdf_url (extracted pdf)
     end).
Proof. exact (process_sport_runs W e sport_name pdf_url w). Qed.

(** X19: [main] makes its transfers for the sports of the table in the
    order of the table, each to its own file: the transfers made are
    always those of a first part of the table.  A transfer or an
    extraction that fails does not stop it, an exception does: when the
    run returns, or has written the JSON file, or when every print came
    back and the core raised nothing, there was a transfer for every
    sport of the table.  On a terminal that cannot show the check mark and
    the ballot cross the run stops at the first sport, after its transfer,
    with the exception of the print, and writes nothing. *)
Theorem main_tries_every_sport :
  (forall W (e : env W) w,
     let r := run e main w in
     let made := map transfer_call (transfers (trace r)) in
     (exists n, made = map download_target (firstn n SPORTS_RULEBOOKS)) /\
     (ending r = Returns tt \/ dumps (trace r) <> [] ->
      made = map download_target SPORTS_RULEBOOKS) /\
     (failed_prints (trace r) = [] ->
      (forall x, ending r <> Raises (CoreError x)) ->
      made = map download_target SPORTS_RULEBOOKS)) /\
  NoDup (map (fun item => snd (download_target item)) SPORTS_RULEBOOKS) /\
  (let r := run plain_terminal_env main tt in
   map transfer_call (transfers (trace r))
   = map download_target (firstn 1 SPORTS_RULEBOOKS) /\
   ending r = Raises (ExternalError (py "UnicodeEncodeError")) /\
   dumps (trace r) = []).
Proof.
  split; [|split].
  - intros W e w. cbv zeta.
    destruct (main_spec W e w) as ((n & Hn & Hd & He) & _ & _ & Hclean).
    cbv zeta in *. split; [eauto|]. split.
    + intros H. rewrite Hd, (He H). now rewrite firstn_all.
    + intros Hp Hcore. destruct (Hclean Hp Hcore) as (data & wr & Hdu & _).
      rewrite Hd, He; [now rewrite firstn_all|].
      right. rewrite Hdu. discriminate.
  - unfold download_target, pdf_path_of. cbn [snd].
    pose proof table_filenames_NoDup as H.
    apply (NoDup_map_NoDup_ForallPairs
             (fun f => PathDiv OUT_DIR (f ++ py ".pdf"))) in H.
    + now rewrite map_map in H.
    + intros a b _ _ [= E]. now apply app_inv_tail in E.
  - cbv zeta. repeat split; vm_compute; reflexivity.
Qed.

(** X20: [main] writes the JSON file at most once, at [output/rules.json],
    after the loop: the label "2024-2025 season" and, in the order of the
    table, the records of the sports that came through, each made by the
    pipeline from at least one page and with at least one section.  When
    the run returns, the file was written; when the writing raises, the
    run ends with that exception; when an exception of the core ends the
    run, nothing is written; every other exception is that of a print,
    before or after the writing.  When every print comes back and the core
    raises nothing, the file is written.  A page marker of more than 4300
    digits in one PDF is enough for the core to raise. *)
Theorem main_writes_output :
  (forall W (e : env W) w,
     let r := run e main w in
     (dumps (trace r) = [] \/
      exists data written,
        dumps (trace r) = [(JSON_PATH, data, written)] /\
        output_ok data /\
        forall msg,
          written = Raised msg -> ending r = Raises (ExternalError msg)) /\
     match ending r with
     | Returns _ =>
         exists data, dumps (trace r) = [(JSON_PATH, data, Returned tt)]
     | Raises (CoreError _) => dumps (trace r) = []
     | Raises (ExternalError msg) =>
         (exists line, In (line, msg) (failed_prints (trace r))) \/
         exists data, dumps (trace r) = [(JSON_PATH, data, Raised msg)]
     end /\
     (failed_prints (trace r) = [] ->
      (forall x, ending r <> Raises (CoreError x)) ->
      exists data written,
        dumps (trace r) = [(JSON_PATH, data, written)] /\
        ending r = match written with
                   | Returned _ => Returns tt
                   | Raised msg => Raises (ExternalError msg)
                   end)) /\
  (let r := run long_marker_env main tt in
   ending r = Raises (CoreError ValueError) /\ dumps (trace r) = []).
Proof.
  split.
  - intros W e w. cbv zeta.
    destruct (main_spec W e w) as (_ & Hd & He & Hclean).
    cbv zeta in *. split; [|split; auto].
    destruct Hd as [Hd|(data & wr & Hd & H1 & H2 & H3 & H4)]; [now left|].
    right. exists data, wr. repeat split; auto.
    eapply Forall_impl; [|exact H3]. intros r Hr. split; auto.
    now apply record_ok_nonempty.
  - cbv zeta. split; vm_compute; reflexivity.
Qed.

(** X21: no two sections of the document that [main] writes have the same id,
    within a sport or across sports. *)
Theorem output_ids_unique W (e : env W) w :
  Forall (fun d => NoDup (all_ids (snd (fst d))))
    (dumps (trace (run e main w))).
Proof.
  destruct (main_spec W e w) as (_ & H & _). cbv zeta in H.
  destruct H as [->|(data & wr & -> & _ & H2 & H3 & _)]; [constructor|].
  repeat constructor. cbn. now apply output_ids_NoDup.
Qed.

(** ** Two runs *)

Lemma main_loop_two_runs W1 W2 (e1 : env W1) (e2 : env W2) :
  forall items acc w1 w2,
    let r1 := run e1 (main_loop items acc) w1 in
    let r2 := run e2 (main_loop items acc) w2 in
    failed_prints (trace r1) = [] -> failed_prints (trace r2) = [] ->
    map came_back (transfers (trace r1))
    = map came_back (transfers (trace r2)) ->
    map pages_read (opened (trace r1)) = map pages_read (opened (trace r2)) ->
    ending r1 = ending r2.
Proof.
  induction items as [|[sport_name pdf_url] items IH]; intros acc w1 w2;
    cbv zeta; [reflexivity|].
  cbn [main_loop]. rewrite !run_bind.
  destruct (process_sport_runs W1 e1 sport_name pdf_url w1)
    as (_ & _ & _ & _ & Hc1).
  destruct (process_sport_runs W2 e2 sport_name pdf_url w2)
    as (_ & _ & _ & _ & Hc2).
  set (p1 := run e1 (process_sport sport_name pdf_url) w1) in *.
  set (p2 := run e2 (process_sport sport_name pdf_url) w2) in *.
  assert (Hparts : forall W (e : env W) (p : ran W (option sport_record))
                     (f : option sport_record -> io (list sport_record)),
            failed_prints (trace (then_run e p f)) = [] ->
            failed_prints (trace p) = []).
  { intros W e p f. unfold then_run. destruct (ending p); cbn [trace]; auto.
    rewrite failed_prints_app. intros H. now apply app_eq_nil in H. }
  intros F1 F2 Ht Ho.
  specialize (Hc1 (Hparts _ _ _ _ F1)). specialize (Hc2 (Hparts _ _ _ _ F2)).
  destruct Hc1 as (d1 & T1 & H1). destruct Hc2 as (d2 & T2 & H2).
  assert (Hsame : ending p1 = ending p2 /\
                  came_back (pdf_url, pdf_path_of sport_name, d1)
                  = came_back (pdf_url, pdf_path_of sport_name, d2)).
  { assert (Hhd : came_back (pdf_url, pdf_path_of sport_name, d1)
                  = came_back (pdf_url, pdf_path_of sport_name, d2)).
    { revert Ht. unfold then_run.
      destruct (ending p1), (ending p2); cbn [trace];
        rewrite ?transfers_app, ?T1, ?T2; cbn; congruence. }
    split; auto.
    destruct d1 as [[]|m1], d2 as [[]|m2]; try discriminate Hhd.
    - destruct H1 as (pdf1 & O1 & E1). destruct H2 as (pdf2 & O2 & E2).
      rewrite E1, E2. f_equal.
      revert Ho. unfold then_run.
      destruct (ending p1), (ending p2); cbn [trace];
        rewrite ?opened_app, ?O1, ?O2; cbn; unfold pages_read; cbn;
        congruence.
    - destruct H1 as (_ & ->). destruct H2 as (_ & ->). reflexivity. }
  destruct Hsame as (Hend & Hflag).
  revert F1 F2 Ht Ho. unfold then_run. rewrite <- Hend.
  destruct (ending p1) as [result|x]; cbn [trace ending]; auto.
  rewrite !failed_prints_app, !transfers_app, !opened_app, !map_app.
  intros F1 F2 Ht Ho.
  apply app_eq_nil in F1 as [_ F1]. apply app_eq_nil in F2 as [_ F2].
  apply IH; auto.
  - rewrite T1, T2 in Ht. cbn [map app] in Ht. now injection Ht.
  - destruct d1 as [[]|m1], d2 as [[]|m2]; try discriminate Hflag.
    + destruct H1 as (pdf1 & O1 & _). destruct H2 as (pdf2 & O2 & _).
      rewrite O1, O2 in Ho. cbn [map app] in Ho. now injection Ho.
    + destruct H1 as (O1 & _). destruct H2 as (O2 & _).
      now rewrite O1, O2 in Ho.
Qed.

(** ** The records, match by match *)

(** What the pipeline returns, from the heading matches in the order of
    the scan: the record of index [i] is made from the match of index [i]
    and the start of the next one. *)
Lemma pipeline_by_matches filename pages finished :
  pipeline filename pages = Ok finished ->
  let text := flat_map dash_image (joined_blocks pages) in
  let heading_iter := finditer true heading_re text in
  (heading_iter = [] ->
   finished
   = [ finished_section (py "Full Document") (firstn 5000 text) (VInt 1)
         (filename ++ py "-rule-1")
         (make_snippet_n (firstn 5000 text) 200) ]) /\
  (heading_iter <> [] ->
   length finished = length heading_iter /\
   forall i m,
     nth_error heading_iter i = Some m ->
     exists page,
       recover_page text (m_start m) = Ok page /\
       let content :=
         strip (slice text (m_end m) (next_start text heading_iter i)) in
       nth_error finished i
       = Some (finished_section (heading_title text m) content page
                 (filename ++ py "-rule-" ++ str_of_nat (i + 1))
                 (make_snippet_n content 200))).
Proof.
  rewrite <- join_pages_blocks, <- normalize_dashes_chars.
  unfold pipeline. cbv zeta.
  destruct (split_into_sections (join_pages pages)) as [secs|] eqn:Es;
    [|discriminate].
  cbn [bind]. intros Hf. split.
  - intros Hnil. unfold split_into_sections in Es. rewrite Hnil in Es.
    injection Es as <-. unfold finish_sections in Hf.
    cbn [for_enumerate] in Hf. rewrite finish_section_shape in Hf.
    cbn [bind] in Hf. now injection Hf as <-.
  - intros Hne.
    destruct (split_sections_nth (join_pages pages) secs Es Hne)
      as (Hlen & Hnth).
    apply for_enumerate_inv in Hf as (Hlen' & Hfin). split; [congruence|].
    intros i m Hm.
    destruct (nth_error secs i) as [d|] eqn:Ed.
    2:{ apply nth_error_None in Ed.
        assert (i < length (finditer true heading_re
                              (normalize_dashes (join_pages pages))))
          by (apply nth_error_Some; congruence). lia. }
    destruct (Hnth i m d Hm Ed) as (page & Hp & ->).
    exists page. split; auto. cbv zeta.
    destruct (nth_error finished i) as [d'|] eqn:Ef.
    2:{ apply nth_error_None in Ef.
        assert (i < length secs) by (apply nth_error_Some; congruence). lia. }
    specialize (Hfin i _ _ Ed Ef). cbn [plus] in Hfin.
    rewrite finish_section_shape in Hfin. now injection Hfin as <-.
Qed.

Lemma process_sport_two_runs W1 W2 (e1 : env W1) (e2 : env W2) w1 w2
    sport_name url1 url2 :
  let r1 := run e1 (process_sport sport_name url1) w1 in
  let r2 := run e2 (process_sport sport_name url2) w2 in
  map pages_read (opened (trace r1)) = map pages_read (opened (trace r2)) ->
  (forall rec1 rec2,
     ending r1 = Returns (Some rec1) -> ending r2 = Returns (Some rec2) ->
     sections rec1 = sections rec2) /\
  (forall x1 x2,
     ending r1 = Raises (CoreError x1) -> ending r2 = Raises (CoreError x2) ->
     x1 = x2) /\
  (failed_prints (trace r1) = [] -> failed_prints (trace r2) = [] ->
   opened (trace r1) <> [] -> opened (trace r2) <> [] ->
   match ending r1, ending r2 with
   | Returns None, Returns None => True
   | Returns (Some rec1), Returns (Some rec2) =>
       sport rec1 = sport rec2 /\ sections rec1 = sections rec2
   | Raises x1, Raises x2 => x1 = x2
   | _, _ => False
   end).
Proof.
  cbv zeta. intros Ho.
  destruct (process_sport_runs W1 e1 sport_name url1 w1)
    as (_ & _ & _ & He1 & Hc1).
  destruct (process_sport_runs W2 e2 sport_name url2 w2)
    as (_ & _ & _ & He2 & Hc2).
  set (r1 := run e1 (process_sport sport_name url1) w1) in *.
  set (r2 := run e2 (process_sport sport_name url2) w2) in *.
  assert (Hpages : forall pdf1 pdf2,
            opened (trace r1) = [(pdf_path_of sport_name, pdf1)] ->
            opened (trace r2) = [(pdf_path_of sport_name, pdf2)] ->
            extracted pdf1 = extracted pdf2).
  { intros pdf1 pdf2 O1 O2. rewrite O1, O2 in Ho. now injection Ho. }
  split; [|split].
  - intros rec1 rec2 E1 E2. rewrite E1 in He1. rewrite E2 in He2.
    destruct He1 as (pdf1 & O1 & _ & P1 & _).
    destruct He2 as (pdf2 & O2 & _ & P2 & _).
    rewrite (Hpages _ _ O1 O2) in P1. congruence.
  - intros x1 x2 E1 E2. rewrite E1 in He1. rewrite E2 in He2.
    destruct He1 as (pdf1 & O1 & _ & P1).
    destruct He2 as (pdf2 & O2 & _ & P2).
    rewrite (Hpages _ _ O1 O2) in P1. congruence.
  - intros F1 F2 N1 N2.
    destruct (Hc1 F1) as (d1 & _ & H1). destruct (Hc2 F2) as (d2 & _ & H2).
    destruct d1 as [[]|m1]; [|now destruct H1].
    destruct d2 as [[]|m2]; [|now destruct H2].
    destruct H1 as (pdf1 & O1 & ->). destruct H2 as (pdf2 & O2 & ->).
    rewrite (Hpages _ _ O1 O2). unfold sport_ending.
    destruct (extracted pdf2) as [|p ps]; auto.
    destruct (pipeline (filename_of sport_name) (p :: ps)); cbn; auto.
Qed.

Lemma main_two_runs W1 W2 (e1 : env W1) (e2 : env W2) w1 w2 :
  let r1 := run e1 main w1 in
  let r2 := run e2 main w2 in
  failed_prints (trace r1) = [] -> failed_prints (trace r2) = [] ->
  map came_back (transfers (trace r1))
  = map came_back (transfers (trace r2)) ->
  map pages_read (opened (trace r1)) = map pages_read (opened (trace r2)) ->
  map fst (dumps (trace r1)) = map fst (dumps (trace r2)).
Proof.
  cbv zeta. intros F1 F2 Ht Ho.
  assert (Hloop : forall w', dumps (trace (run e1 (main_loop SPORTS_RULEBOOKS [])
                                             w')) = []).
  { intros w'. now destruct (main_loop_runs W1 e1 SPORTS_RULEBOOKS [] w'). }
  assert (Hloop2 : forall w', dumps (trace (run e2 (main_loop SPORTS_RULEBOOKS [])
                                              w')) = []).
  { intros w'. now destruct (main_loop_runs W2 e2 SPORTS_RULEBOOKS [] w'). }
  destruct (main_runs_from W1 e1 (main_loop SPORTS_RULEBOOKS []) main w1
              eq_refl Hloop)
    as [(_ & _ & l & m & Hin & _)|(v1 & H1)];
    [rewrite F1 in Hin; contradiction|].
  destruct (main_runs_from W2 e2 (main_loop SPORTS_RULEBOOKS []) main w2
              eq_refl Hloop2)
    as [(_ & _ & l & m & Hin & _)|(v2 & H2)];
    [rewrite F2 in Hin; contradiction|].
  cbv zeta in H1, H2.
  destruct H1 as (T1 & O1 & M1). destruct H2 as (T2 & O2 & M2).
  set (l1 := run e1 (main_loop SPORTS_RULEBOOKS []) v1) in *.
  set (l2 := run e2 (main_loop SPORTS_RULEBOOKS []) v2) in *.
  assert (Hclean : forall W (r : ran W unit)
                     (rl : ran W (list sport_record)),
            failed_prints (trace r) = [] ->
            match ending rl with
            | Returns all =>
                exists written,
                  dumps (trace r)
                  = [(JSON_PATH, OutputData all (py "2024-2025 season"),
                      written)] /\
                  match written with
                  | Returned _ =>
                      ending r = Returns tt /\
                      failed_prints (trace r) = failed_prints (trace rl) \/
                      (exists line msg,
                         In (line, msg) (failed_prints (trace r)) /\
                         ending r = Raises (ExternalError msg))
                  | Raised msg =>
                      ending r = Raises (ExternalError msg) /\
                      failed_prints (trace r) = failed_prints (trace rl)
                  end
            | Raises x =>
                dumps (trace r) = [] /\ ending r = Raises x /\
                failed_prints (trace r) = failed_prints (trace rl)
            end ->
            failed_prints (trace rl) = []).
  { intros W r rl F M. destruct (ending rl).
    - destruct M as ([[]|msg] & _ & Hw).
      + destruct Hw as [(_ & <-)|(l & m & Hin & _)]; auto.
        rewrite F in Hin. contradiction.
      + now destruct Hw as (_ & <-).
    - now destruct M as (_ & _ & <-). }
  pose proof (Hclean _ _ _ F1 M1) as G1.
  pose proof (Hclean _ _ _ F2 M2) as G2.
  rewrite T1, T2 in Ht. rewrite O1, O2 in Ho.
  pose proof (main_loop_two_runs W1 W2 e1 e2 SPORTS_RULEBOOKS [] v1 v2
                G1 G2 Ht Ho) as E.
  fold l1 l2 in E. rewrite <- E in M2.
  destruct (ending l1) as [all|x].
  - destruct M1 as (wr1 & -> & _). destruct M2 as (wr2 & -> & _). reflexivity.
  - destruct M1 as (-> & _). destruct M2 as (-> & _). reflexivity.
Qed.

(** C9: two runs on the same page texts give the same output.  The core
    is embedded as functions of its input, so that the same input to the
    core gives the same output by construction; what is proved is that
    nothing else reaches the output.  Two runs of [process_sport] for a
    sport, in any two environments, that read the same page texts out of
    the PDF (a page without text counts as the empty string) return the
    same sections, ids, snippets and start_page values included, or raise
    the same exception of the core, whatever the URL, the state of the
    world and the outcome of the other calls.  And the list of sections
    follows the heading matches: in the scanned text
    (the pages under their markers, with the dashes replaced) the record
    of index [i] is made from the match of index [i] of the scan (its
    title, its content up to the start of the next match, the page
    recovered at its start, the id of number [i+1] and the snippet of the
    content), and without a match the list is the fallback record
    alone. *)
Theorem pipeline_deterministic :
  (forall W1 W2 (e1 : env W1) (e2 : env W2) w1 w2 sport_name url1 url2,
     let r1 := run e1 (process_sport sport_name url1) w1 in
     let r2 := run e2 (process_sport sport_name url2) w2 in
     map pages_read (opened (trace r1)) = map pages_read (opened (trace r2)) ->
     (forall rec1 rec2,
        ending r1 = Returns (Some rec1) -> ending r2 = Returns (Some rec2) ->
        sections rec1 = sections rec2) /\
     (forall x1 x2,
        ending r1 = Raises (CoreError x1) ->
        ending r2 = Raises (CoreError x2) ->
        x1 = x2) /\
     (failed_prints (trace r1) = [] -> failed_prints (trace r2) = [] ->
      opened (trace r1) <> [] -> opened (trace r2) <> [] ->
      match ending r1, ending r2 with
      | Returns None, Returns None => True
      | Returns (Some rec1), Returns (Some rec2) =>
          sport rec1 = sport rec2 /\ sections rec1 = sections rec2
      | Raises x1, Raises x2 => x1 = x2
      | _, _ => False
      end)) /\
  (forall filename pages finished,
     pipeline filename pages = Ok finished ->
     let text := flat_map dash_image (joined_blocks pages) in
     let heading_iter := finditer true heading_re text in
     (heading_iter = [] ->
      finished
      = [ [ ("title"%string, VStr (py "Full Document"));
            ("content"%string, VStr (firstn 5000 text));
            ("start_page"%string, VInt 1);
            ("id"%string, VStr (filename ++ py "-rule-1"));
            ("snippet"%string,
             VStr (make_snippet_n (firstn 5000 text) 200)) ] ]) /\
     (heading_iter <> [] ->
      length finished = length heading_iter /\
      forall i m,
        nth_error heading_iter i = Some m ->
        exists page,
          recover_page text (m_start m) = Ok page /\
          let content :=
            strip (slice text (m_end m) (next_start text heading_iter i)) in
          nth_error finished i
          = Some [ ("title"%string, VStr (heading_title text m));
                   ("content"%string, VStr content);
                   ("start_page"%string, page);
                   ("id"%string,
                    VStr (filename ++ py "-rule-" ++ str_of_nat (i + 1)));
                   ("snippet"%string,
                    VStr (make_snippet_n content 200)) ])).
Proof.
  split.
  - intros W1 W2 e1 e2 w1 w2 sport_name url1 url2.
    exact (process_sport_two_runs W1 W2 e1 e2 w1 w2 sport_name url1 url2).
  - intros filename pages finished Hp.
    exact (pipeline_by_matches filename pages finished Hp).
Qed.

Lemma pipeline_deterministic_witness :
  let e1 := env_of_pages [Returned None;
                          Returned (Some (py "RULE 1 Play\nbody  one"))] in
  let e2 := env_of_pages [Returned (Some []);
                          Returned (Some (py "RULE 1 Play\nbody  one"))] in
  let r1 := run e1 (process_sport (py "Volleyball") (py "https://a/x.pdf")) tt in
  let r2 := run e2 (process_sport (py "Volleyball") (py "https://b/y.pdf")) tt in
  exists rec1 rec2,
    ending r1 = Returns (Some rec1) /\ ending r2 = Returns (Some rec2) /\
    sections rec1 = sections rec2.
Proof.
  cbv zeta. do 2 eexists.
  split; [vm_compute; reflexivity|]. split; [vm_compute; reflexivity|].
  refine (proj1 (proj1 pipeline_deterministic unit unit
                   (env_of_pages [Returned None;
                                  Returned (Some (py "RULE 1 Play\nbody  one"))])
                   (env_of_pages [Returned (Some []);
                                  Returned (Some (py "RULE 1 Play\nbody  one"))])
                   tt tt (py "Volleyball") (py "https://a/x.pdf")
                   (py "https://b/y.pdf") _) _ _ _ _).
  - vm_compute. reflexivity.
  - vm_compute. reflexivity.
  - vm_compute. reflexivity.
Defined.


